(* ===== verification/_CoqProject ===== *)
-Q . S2P
Prelude.v
GoStrings.v
GoRegexp.v
Naming.v
Messages.v
GoProg.v
Locks.v
Exports.v
Local.v
Json.v
Config.v
K8s.v
NfsServer.v
NodeHost.v
NodeMonitor.v
NodeDump.v
Startup.v
Controller.v
Sharing.v
NodeService.v
NodeRecovery.v
Reassign.v
Failover.v
Atomic.v
Concurrency.v
Guarded.v
ExportsInvariants.v
Selections.v
Serial.v
Federation.v
Outage.v
Unimplemented.v
