(* ===== verification/Prelude.v ===== *)
(** * Verification of csm-sharednfs

    csm-sharednfs (Go, [src/nfs]) turns the block volumes of a CSI driver into
    volumes that many nodes share: one node attaches the block device and
    exports it through NFS, the others mount the export.  The same program is
    linked into the controller and into every node; the driver that hosts it is
    reached through the interface [Service] ([vcsi]).

    ** Parts of the program and files of the development

    - names ([csinfs.go]): volume ids and the name of a volume's Kubernetes
      objects -- [Naming.v], on [GoStrings.v] (strings, UTF-8, numbers of Go's
      library) and [GoRegexp.v] (regular expressions);
    - messages ([proto/nfs.proto], requests of CSI, objects of Kubernetes):
      records with the fields that the program uses -- [Messages.v];
    - the exports file of a node ([exports.go]): [Exports.v];
    - the gRPC server of a node ([nfs_service.go]), which mounts, exports,
      unexports and unmounts volumes: [NfsServer.v];
    - the Kubernetes client ([k8s/k8s.go]): [K8s.v], with [Json.v] for the
      annotation that holds the CSI ids of a node;
    - the controller ([controller.go]), which publishes and unpublishes:
      [Controller.v];
    - the client side on a node ([node.go]), which stages and binds mounts:
      [NodeService.v];
    - the monitor of the nodes ([nodemonitor.go]): [NodeMonitor.v];
    - the recovery of a failed node ([noderecovery.go]): [NodeRecovery.v];
    - configuration and start-up ([csinfs.go], [env.go]): [Config.v] and
      [Startup.v];
    - the wrappers of the operating system ([OSImpl] in [csinfs.go],
      [executor.go], [unmount.go]): [Local.v];
    - the handlers and methods that only return a constant or an error
      ([controller.go], [node.go], [identity.go], [csinfs.go]):
      [Unimplemented.v].

    The other files put the parts together: [Locks.v] and [Concurrency.v] (all
    handlers and the monitor, interleaved), [Atomic.v], [Guarded.v],
    [ExportsInvariants.v] and [Selections.v] (the exports file, and the choice
    of new nodes, while they run), [NodeHost.v] and [NodeDump.v] (the server of
    a node that works), [Sharing.v] and [Reassign.v] (the controller
    on a cluster that works), [Serial.v] (calls for a volume that overlap),
    [Failover.v] (the recovery of a whole node), [Federation.v] (the controller,
    whose calls run the handlers of the nodes) and [Outage.v] (the monitor, the
    recovery and the nodes through an outage).

    A definition has the name of the Go function it models; functions that are
    too long for one definition are cut where the code has a block, a loop or a
    goroutine ([publish_locked] is [ControllerPublishVolume] under its lock).

    ** How a Go function is modelled

    [GoProg.v]: a function is a program, a tree of operations on the state of
    the process ([locE]: package variables, mutexes, the two [sync.Map]s of
    volume locks, the exports file, structures that goroutines share) and of
    calls to the outside ([extE]: operating system, host driver, Kubernetes,
    peers, time, the order in which a map is ranged over).  The outside is any
    instance of the class [Env], a function from calls and its own state to
    answers: a theorem that is stated for every [Env] holds for every sequence
    of answers, failures included.  [run] executes one program alone and gives
    a value, a panic, exhausted fuel, or a mutex that is never given back;
    [trace] is the list of the calls of the same run, each with its answer, by
    which a theorem can say what the run asked of the outside;
    [cstep] and [run_schedule] interleave goroutines at every operation.
    [deferred] is [defer], on panics too; [go] starts a goroutine, which [run]
    only records; [select_call] is the idiom of a call that competes with the
    context; [parallel] runs goroutines that their parent waits for, interleaved
    by a schedule of the environment.

    Data: bytes are [ascii], strings [string], Go's [int] is [Z] with its
    wrap-around written out ([int64], [int32]), maps are [gmap]s, a pointer
    that may be nil is an [option], an error a value of [go_error], a pointer
    to a structure that is shared a number (a cell of the world).

    Loops without a bound in the code take fuel, and a program whose fuel is
    used up is [NoFuel l], where [l] names the loop that it is still in: the
    volume locks ([Waits], [LockPV] and [nfsLockPV]: one turn is enough when
    the volume is free, which the theorems assume and mutual exclusion
    provides), the wait for nfs-mountd ([Polls]), the pinger ([Rounds];
    endless in the code: the theorem is about every number of rounds) and the
    retries of [makeNfsService] ([Retries]; as many turns as the deadline of
    the context allows, [ControllerPublishVolume_ends]).  Bounded loops are
    structural.

    ** What the theorems show

    - [Exports.v]: the four operations on the file implement a table of
      entries ([exports_file_refines_table]); each has its exact behaviour in
      every environment, torn writes included; after any history a successful
      resync of the present generation leaves the kernel exporting the file.
    - [Concurrency.v]: in every interleaving of the handlers and the monitor a
      volume lock is held by one goroutine at a time, and there is no deadlock:
      when nothing can move any more, every goroutine has ended or is in a
      loop without a bound with its fuel used up, every mutex is free, and so
      is every volume, but for those that publications keep while they retry
      under a context without end.  So a goroutine that still waits for a
      volume (with fuel, it would try again) waits for nobody who waits
      himself, and a monitor, which never ends, keeps nothing.  The
      discipline that each handler follows, and which locks it may keep in
      which loop, is proved once, by walking through its text ([Locks.v], a
      rely/guarantee argument over [cstep]).
    - [Atomic.v]: calls that are one critical section take effect at once,
      whatever interrupts them ([whole_sections]); so concurrent callers of the
      exports file see it as the abstract table, in some order of their calls.
    - [Guarded.v]: how to show that something that a mutex guards holds
      whenever the mutex is free, with every handler and goroutine running and
      in every environment ([guarded_invariant]).  [ExportsInvariants.v] uses it
      twice, for [exportsLock]: the exports file consists of whole lines and
      keeps the entries that nobody deletes; and the record of the
      synchronisation is truthful as long as nobody exports.  There the
      theorems of [Exports.v] about single runs are carried over to
      interleavings by an environment that plays back what the section was
      answered ([replay]).  [Selections.v] uses it for [exportCountsLock]:
      recoveries that overlap spread the volumes evenly.
    - [Naming.v]: [VolumeIDToServiceName] equals a reference definition, its
      result is a legal name of at most 63 bytes, it is idempotent; the prefix
      [nfs-] is a faithful tag.
    - [NfsServer.v]: each handler ends in every environment, gives its locks
      back, and what success means; the multiple forms report every volume
      once; a race, a panic and a failed resync that the code permits.
    - [NodeHost.v]: on a node whose operating system and host driver do their
      part ([Host]) exporting and unexporting succeed; what the kernel
      exports and what the driver has mounted are followed apart.  Exporting
      changes them for that volume only; unexporting removes the volume from
      both, no other mount, and no other export but those of volumes whose
      names extend its own.
    - [NodeDump.v]: on such a node one [Ping] with [DumpAllExports] unmounts
      exactly the volumes that have a Service and drops exactly their exports
      (and those whose names extend one of theirs); what that means for a
      volume that is exported between the first and the second answer of the
      node.
    - [Controller.v]: publishing and unpublishing in every environment, and
      termination under a deadline.
    - [Sharing.v]: the contract of the controller, an abstract machine that
      counts references ([Shared]), and the theorem that the handlers implement
      it on a cluster that does what it is asked ([Cluster], on [KubeStore])
      with servers that do so ([NfsServers]).  The attachments of the cluster
      are pairs of a volume and a node; the host driver attaches a volume that
      no other node has, and detaches it from the node that the call names
      and from no other, so that the handlers have to name the right one.  A
      server holds a volume as one that it serves or as a leftover ([hold]);
      the specification keeps the set of the servers that may export a volume
      although they should not ([stale]).  Then what single failures of the
      API do to it.
    - [Serial.v]: any number of publish and unpublish calls for one volume,
      interleaved at every operation, succeed and take effect in some order of
      the calls on the state of [Shared]: the theorem of [Sharing.v] about one
      call is turned into one about a call under interference ([wp_run]), and
      the lock of the volume does the rest.
    - [NodeService.v]: staging, binding and unmounting in every environment.
    - [NodeMonitor.v]: the pinger implements a state machine over what its own
      pings showed ([Monitored], read off the [trace] of the run): every turn
      asks the node what the history asks for, and recovery starts exactly
      once per outage; with that, how fast a failure is noticed.
    - [NodeRecovery.v]: the choice of the new node is minimal and keeps the
      loads balanced; reading the CSI id from text agrees with JSON.
    - [Reassign.v]: moving a volume refines [Shared.move]; the goroutine that
      unexports from the failed node, when it runs late, unexports from the
      new one, in every environment; then the other ways in which a move goes
      wrong, among them races, as schedules of [cstep].
    - [Failover.v]: [nodeRecovery] moves every volume of the failed node,
      whatever the order in which its goroutines run one after the other, and
      leaves the volumes of the other nodes alone.
    - [Federation.v]: the same contracts down to the nodes: a call to a node
      runs the node's own handler in the process of the node ([net_step]), so
      that publishing, unpublishing, moving and recovery are shown to end with
      exactly the right kernels exporting the volume.  Then the volume that is
      cut off by the unpublication of another one, and the reservation of a
      node that two recoveries lose when they overlap.
    - [Outage.v]: a node is cut off, the pinger starts recovery, recovery moves
      the volumes of the node, the node comes back and is pinged: every volume
      has one exporter again ([outage_end_to_end]).
    - [Startup.v]: a start that succeeds is complete, one that fails started
      nothing.

    Every theorem with a hypothesis is applied to a concrete input by the lemma
    of the same name with the ending [_witness].

    ** Interfaces and assumptions

    [Env] (no law), [ReliableFiles] (file operations do not fail),
    [KubeStore] (services and slices are found as they were written),
    [Cluster] and [Relocatable] (the host driver, which attaches and detaches
    one volume at one node, the nodes and the volumes of
    the API), [NfsServers] and [Countings] (the servers of the nodes: an export
    or unexport changes what the server called holds of the volume, and
    nothing about the volumes that are [separate] from it), [Host] (the
    operating system and the driver on a node), [Wire] (gRPC between the
    controller and the nodes), [Discipline] (what a goroutine may do with a
    lock, by who holds it), [Deadline] (the clock of a context), [Recovery]
    (what the monitor starts; [NodeRecovery.recovery] implements it), [Globals]
    and [Printing] (variables that the driver sets, texts that [fmt] prints),
    [UnicodeTables] (lower case outside ASCII), [Network] and [Gocsi]
    (listening, serving, the mode of the plug-in).  Each law is about one call.

    [Federation.v] implements [NfsServers] and [Countings] by the handlers on
    hosts that work; there two volumes are separate when the name of the one
    does not extend the name of the other, because [DeleteExport] drops by
    prefix.  The generation counter of a node is a machine integer and the
    resync compares it, so that the theorems on working nodes carry a budget
    ([room]): the number of changes before it would wrap around.  [Sharing.v]
    and [NodeHost.v] give the simulated cluster and the simulated node that
    satisfy the classes.

    ** Not modelled

    The cancellation of contexts by [defer cancel], logging and timing of logs
    ([finish], [logDuration]), the generated gRPC code and mocks.  Kubernetes'
    conflict errors are failures of a call, without a law of their own.  A map
    access is one operation, so that the data races of Go on maps are
    interleavings here and not undefined behaviour.  Calls for one volume may
    overlap in [Serial.v], while nothing else changes the objects of volumes;
    the other theorems on sharing, recovery and working nodes are about calls
    that do not overlap, and in [Federation.v] a handler on a node runs to its
    end within the step of its caller.  What holds of all overlapping calls is
    in [Concurrency.v] and [ExportsInvariants.v], what goes wrong in schedules
    of [cstep]. *)

From stdpp Require Export base tactics option list strings gmap fin_maps.
From Stdlib Require Export ZArith Lia Ascii String.

#[global] Open Scope string_scope.
#[global] Open Scope list_scope.
#[global] Open Scope Z_scope.

(** ** Automation shared by all files *)

Create HintDb gostr discriminated.
Create HintDb goprog discriminated.
Create HintDb gopost discriminated.
Create HintDb golock discriminated.
Create Rewrite HintDb gostr.
Create Rewrite HintDb goprog.
Create Rewrite HintDb goenv.

(** Case analysis on the first [match]/[if] scrutinee of the goal (or of a
    hypothesis), remembering the equation. *)
Ltac case_goal :=
  match goal with
  | |- context [match ?x with _ => _ end] => destruct x eqn:?
  end.

Ltac case_hyp H :=
  match type of H with
  | context [match ?x with _ => _ end] => destruct x eqn:?
  end.

(** Turn boolean tests into propositions. *)
Ltac breflect :=
  repeat match goal with
  | H : _ && _ = true |- _ => apply andb_true_iff in H as [? ?]
  | H : _ || _ = false |- _ => apply orb_false_iff in H as [? ?]
  | H : negb _ = true |- _ => apply negb_true_iff in H
  | H : negb _ = false |- _ => apply negb_false_iff in H
  | H : Ascii.eqb _ _ = true |- _ => apply Ascii.eqb_eq in H
  | H : Ascii.eqb _ _ = false |- _ => apply Ascii.eqb_neq in H
  | H : String.eqb _ _ = true |- _ => apply String.eqb_eq in H
  | H : String.eqb _ _ = false |- _ => apply String.eqb_neq in H
  | H : (_ =? _)%Z = true |- _ => apply Z.eqb_eq in H
  | H : (_ =? _)%Z = false |- _ => apply Z.eqb_neq in H
  | H : (_ <? _)%Z = true |- _ => apply Z.ltb_lt in H
  | H : (_ <? _)%Z = false |- _ => apply Z.ltb_ge in H
  | H : (_ <=? _)%Z = true |- _ => apply Z.leb_le in H
  | H : (_ <=? _)%Z = false |- _ => apply Z.leb_gt in H
  | H : (_ <=? _)%nat = true |- _ => apply Nat.leb_le in H
  | H : (_ <=? _)%nat = false |- _ => apply Nat.leb_gt in H
  | H : (_ <? _)%nat = true |- _ => apply Nat.ltb_lt in H
  | H : (_ <? _)%nat = false |- _ => apply Nat.ltb_ge in H
  end.

(** Equations between booleans that hold by arithmetic. *)
Ltac lia_bool :=
  try lia;
  repeat match goal with
  | |- context [(?x <? ?y)%Z] => destruct (Z.ltb_spec x y)
  | |- context [(?x <=? ?y)%Z] => destruct (Z.leb_spec x y)
  | |- context [(?x =? ?y)%Z] => destruct (Z.eqb_spec x y)
  end; cbn; first [reflexivity | lia | by rewrite ?orb_true_r, ?orb_false_r | exfalso; lia].

Definition is_some {A} (o : option A) : bool := match o with Some _ => true | None => false end.

(** ** Machine integers: Go's [int] and [int64] are 64 bits wide *)

Definition wrap (bits : Z) (x : Z) : Z :=
  (x + 2 ^ (bits - 1)) mod 2 ^ bits - 2 ^ (bits - 1).

Definition max_int64 : Z := 2 ^ 63 - 1.
Definition min_int64 : Z := - 2 ^ 63.
Definition int64 (x : Z) : Z := wrap 64 x.
Definition int32 (x : Z) : Z := wrap 32 x.

#[global] Arguments wrap : simpl never.
#[global] Arguments int64 : simpl never.
#[global] Arguments int32 : simpl never.

Lemma wrap_range bits x :
  0 < bits -> - 2 ^ (bits - 1) <= wrap bits x < 2 ^ (bits - 1).
Proof.
  intros Hb. unfold wrap.
  assert (Hp : 2 ^ bits = 2 * 2 ^ (bits - 1)).
  { rewrite <- Z.pow_succ_r by lia. f_equal. lia. }
  assert (0 < 2 ^ (bits - 1)) by (apply Z.pow_pos_nonneg; lia).
  pose proof (Z.mod_pos_bound (x + 2 ^ (bits - 1)) (2 ^ bits)). lia.
Qed.

Lemma wrap_id bits x :
  0 < bits -> - 2 ^ (bits - 1) <= x < 2 ^ (bits - 1) -> wrap bits x = x.
Proof.
  intros Hb Hx. unfold wrap.
  assert (Hp : 2 ^ bits = 2 * 2 ^ (bits - 1)).
  { rewrite <- Z.pow_succ_r by lia. f_equal. lia. }
  rewrite Z.mod_small by lia. lia.
Qed.

Lemma int64_id x : min_int64 <= x <= max_int64 -> int64 x = x.
Proof. intros. apply wrap_id; unfold min_int64, max_int64 in *; lia. Qed.

Lemma int32_id x : - 2 ^ 31 <= x < 2 ^ 31 -> int32 x = x.
Proof. intros. apply wrap_id; lia. Qed.

Lemma int32_range x : - 2 ^ 31 <= int32 x < 2 ^ 31.
Proof. apply (wrap_range 32). lia. Qed.

(** ** Strings: the lemmas the components share *)

#[global] Arguments String.append !_ _ / : simpl nomatch.

Lemma string_app_nil_r (s : string) : s +:+ "" = s.
Proof. induction s as [|c s IH]; [done|]. cbn. by rewrite IH. Qed.

Lemma string_app_assoc (s t u : string) : (s +:+ t) +:+ u = s +:+ (t +:+ u).
Proof. induction s as [|c s IH]; [done|]. cbn. by rewrite IH. Qed.

Lemma string_app_length (s t : string) :
  String.length (s +:+ t) = (String.length s + String.length t)%nat.
Proof. induction s as [|c s IH]; [done|]. cbn. by rewrite IH. Qed.

Lemma string_app_inj_l (s t u : string) : s +:+ t = s +:+ u -> t = u.
Proof. induction s as [|c s IH]; cbn; [done|]. intros [=]. auto. Qed.

#[export] Hint Rewrite string_app_nil_r string_app_assoc string_app_length : gostr.

(** [string_all P s]: every byte of [s] satisfies [P]. *)
Fixpoint string_all (P : ascii -> bool) (s : string) : bool :=
  match s with
  | "" => true
  | String c s' => P c && string_all P s'
  end.

Lemma string_all_app P s t :
  string_all P (s +:+ t) = string_all P s && string_all P t.
Proof. induction s as [|c s IH]; cbn; [done|]. by rewrite IH, andb_assoc. Qed.

Lemma string_all_impl (P Q : ascii -> bool) s :
  (forall c, P c = true -> Q c = true) -> string_all P s = true -> string_all Q s = true.
Proof.
  intros HPQ. induction s as [|c s IH]; cbn; [done|].
  intros H. breflect. rewrite HPQ, IH; done.
Qed.

#[export] Hint Rewrite string_all_app : gostr.

Lemma Forall_choose {A B} (R : A -> B -> Prop) (l : list A) :
  Forall (fun a => exists b, R a b) l -> exists k, Forall2 R l k.
Proof. induction 1 as [|a l [b Hb] _ [k Hk] ]; [by exists []|]. exists (b :: k). by constructor. Qed.

(** ** Go maps: [None] is the nil map, on which reads succeed and writes panic *)

Abbreviation gomap := (option (gmap string string)).

Definition mget (m : gomap) (k : string) : string := default "" (m ≫= lookup k).
Definition mdelete (m : gomap) (k : string) : gomap := delete k <$> m.

Lemma mget_insert m k v : mget (Some (<[k:=v]> m)) k = v.
Proof. unfold mget. cbn. by rewrite lookup_insert_eq. Qed.

Lemma mget_insert_ne m k k' v : k <> k' -> mget (Some (<[k:=v]> m)) k' = mget (Some m) k'.
Proof. intros. unfold mget. cbn. by rewrite lookup_insert_ne. Qed.

#[export] Hint Rewrite mget_insert : gostr.
