(* ===== verification/GoStrings.v ===== *)
(** * The parts of Go's [strings], [strconv], [unicode/utf8], [path/filepath]
    and [bufio] that the program uses

    A Go string is a sequence of bytes: [string] is used as such.  Runes are
    code points ([Z]).  The Unicode case table is the only part of the
    standard library that stays abstract ([UnicodeTables]). *)

From S2P Require Import Prelude.

Abbreviation byte_of c := (Z.of_nat (nat_of_ascii c)).
Definition byte (z : Z) : ascii := ascii_of_nat (Z.to_nat z).

(** ** [strings] *)

Fixpoint HasPrefix (s p : string) : bool :=
  match p, s with
  | "", _ => true
  | String a p', String b s' => Ascii.eqb a b && HasPrefix s' p'
  | String _ _, "" => false
  end.

Fixpoint Contains (s sub : string) : bool :=
  HasPrefix s sub ||
  match s with
  | "" => false
  | String _ s' => Contains s' sub
  end.

(** [drop n s] is the Go slice [s[n:]], [take n s] the slice [s[:n]]. *)
Fixpoint sdrop (n : nat) (s : string) : string :=
  match n, s with
  | S n', String _ s' => sdrop n' s'
  | _, _ => s
  end.

Fixpoint stake (n : nat) (s : string) : string :=
  match n, s with
  | S n', String c s' => String c (stake n' s')
  | _, _ => ""
  end.

(** [s[i:j]] *)
Definition slice (s : string) (i j : nat) : string := stake (j - i) (sdrop i s).

Definition TrimPrefix (s p : string) : string :=
  if HasPrefix s p then sdrop (String.length p) s else s.

(** [strings.Replace(s, old, new, 1)] *)
Fixpoint Replace1 (s old new : string) : string :=
  if HasPrefix s old then new +:+ sdrop (String.length old) s
  else match s with
       | "" => ""
       | String c s' => String c (Replace1 s' old new)
       end.

(** [strings.Replace(s, old, new, -1)] and [strings.ReplaceAll], for a
    non-empty [old] (all the uses): [skip] counts the bytes of the match that
    are still to be passed over. *)
Fixpoint replace_all (skip : nat) (s old new : string) : string :=
  match s with
  | "" => ""
  | String c s' =>
      match skip with
      | S k => replace_all k s' old new
      | O => if HasPrefix s old
             then new +:+ replace_all (Nat.pred (String.length old)) s' old new
             else String c (replace_all 0 s' old new)
      end
  end.
Definition ReplaceAll (s old new : string) : string := replace_all 0 s old new.

(** [strings.Split(s, sep)] for a one-byte separator (all the uses). *)
Fixpoint Split (s : string) (sep : ascii) : list string :=
  match s with
  | "" => [""]
  | String c s' =>
      if Ascii.eqb c sep then "" :: Split s' sep
      else match Split s' sep with
           | [] => [String c ""]
           | x :: xs => String c x :: xs
           end
  end.

Fixpoint Join (elems : list string) (sep : string) : string :=
  match elems with
  | [] => ""
  | [x] => x
  | x :: xs => x +:+ sep +:+ Join xs sep
  end.

(** The UTF-8 encodings of [unicode.IsSpace]: ASCII blanks, NEL, NBSP and the
    Unicode [White_Space] code points. *)
Definition bytes (l : list Z) : string :=
  String.string_of_list_ascii (byte <$> l).

Definition ascii_spaces : list string :=
  [bytes [9]; bytes [10]; bytes [11]; bytes [12]; bytes [13]; bytes [32]].
Definition unicode_spaces : list string :=
  [bytes [194;133]; bytes [194;160]; bytes [225;154;128]]
  ++ ((fun k => bytes [226;128;k]) <$> [128;129;130;131;132;133;134;135;136;137;138;168;169;175])
  ++ [bytes [226;129;159]; bytes [227;128;128]].
Definition spaces : list string := ascii_spaces ++ unicode_spaces.

Definition find_prefix (s : string) (l : list string) : option string :=
  List.find (HasPrefix s) l.

Definition HasSuffix (s p : string) : bool :=
  (String.length p <=? String.length s)%nat &&
  String.eqb (sdrop (String.length s - String.length p) s) p.

Fixpoint trim_left (fuel : nat) (s : string) : string :=
  match fuel with
  | O => s
  | S f => match find_prefix s spaces with
           | Some p => trim_left f (sdrop (String.length p) s)
           | None => s
           end
  end.

Fixpoint trim_right (fuel : nat) (s : string) : string :=
  match fuel with
  | O => s
  | S f => match List.find (HasSuffix s) spaces with
           | Some p => trim_right f (stake (String.length s - String.length p) s)
           | None => s
           end
  end.

(** [strings.TrimSpace]: a string of [n] bytes holds at most [n] blanks. *)
Definition TrimSpace (s : string) : string :=
  trim_right (String.length s) (trim_left (String.length s) s).

(** ** [unicode/utf8] and case mapping *)

Definition RuneError : Z := 65533.

Definition in_range (lo hi x : Z) : bool := (lo <=? x) && (x <=? hi).

(** The continuation bytes expected after a first byte: the accepted range of
    the second byte and the number of bytes of the rune
    ([utf8.first] and [utf8.acceptRanges]). *)
Definition rune_shape (b : Z) : option (nat * Z * Z) :=
  if in_range 194 223 b then Some (2%nat, 128, 191)
  else if b =? 224 then Some (3%nat, 160, 191)
  else if b =? 237 then Some (3%nat, 128, 159)
  else if in_range 225 239 b then Some (3%nat, 128, 191)
  else if b =? 240 then Some (4%nat, 144, 191)
  else if in_range 241 243 b then Some (4%nat, 128, 191)
  else if b =? 244 then Some (4%nat, 128, 143)
  else None.

Definition cont (c : ascii) : bool := in_range 128 191 (byte_of c).

(** [utf8.DecodeRuneInString], on a non-empty string: the rune and its width.
    An ill-formed sequence decodes to [RuneError] of width 1. *)
Definition DecodeRune (s : string) : Z * nat :=
  match s with
  | "" => (RuneError, 0%nat)
  | String c0 t =>
      let b0 := byte_of c0 in
      if b0 <? 128 then (b0, 1%nat)
      else match rune_shape b0, t with
           | Some (2%nat, lo, hi), String c1 _ =>
               if in_range lo hi (byte_of c1)
               then ((b0 - 192) * 64 + (byte_of c1 - 128), 2%nat)
               else (RuneError, 1%nat)
           | Some (3%nat, lo, hi), String c1 (String c2 _) =>
               if in_range lo hi (byte_of c1) && cont c2
               then (((b0 - 224) * 64 + (byte_of c1 - 128)) * 64 + (byte_of c2 - 128), 3%nat)
               else (RuneError, 1%nat)
           | Some (4%nat, lo, hi), String c1 (String c2 (String c3 _)) =>
               if in_range lo hi (byte_of c1) && cont c2 && cont c3
               then ((((b0 - 240) * 64 + (byte_of c1 - 128)) * 64 + (byte_of c2 - 128)) * 64
                       + (byte_of c3 - 128), 4%nat)
               else (RuneError, 1%nat)
           | _, _ => (RuneError, 1%nat)
           end
  end.

(** [utf8.AppendRune]: surrogates and out-of-range values encode [RuneError]. *)
Definition EncodeRune (r : Z) : string :=
  if in_range 0 127 r then bytes [r]
  else if in_range 128 2047 r then bytes [192 + r / 64; 128 + r mod 64]
  else if in_range 2048 55295 r || in_range 57344 65535 r then
    bytes [224 + r / 4096; 128 + (r / 64) mod 64; 128 + r mod 64]
  else if in_range 65536 1114111 r then
    bytes [240 + r / 262144; 128 + (r / 4096) mod 64; 128 + (r / 64) mod 64; 128 + r mod 64]
  else bytes [239; 191; 189].

(** [for _, r := range s]: the runes of a string, [skip] being the bytes of
    the current rune that are still to be passed over. *)
Fixpoint runes_from (skip : nat) (s : string) : list Z :=
  match s with
  | "" => []
  | String _ s' =>
      match skip with
      | S k => runes_from k s'
      | O => let '(r, w) := DecodeRune s in r :: runes_from (Nat.pred w) s'
      end
  end.
Definition runes (s : string) : list Z := runes_from 0 s.

Definition string_of_runes (rs : list Z) : string :=
  List.fold_right (fun r s => EncodeRune r +:+ s) "" rs.

(** The simple lower-case mapping of the non-ASCII code points. *)
Class UnicodeTables := { unicode_lower : Z -> Z }.

(** Tables that know no letters outside ASCII, for evaluation. *)
Definition ascii_tables : UnicodeTables := {| unicode_lower := fun r => r |}.

Definition isASCII (s : string) : bool := string_all (fun c => byte_of c <? 128) s.

Definition lower_byte (c : ascii) : ascii :=
  if in_range 65 90 (byte_of c) then byte (byte_of c + 32) else c.

Fixpoint map_bytes (f : ascii -> ascii) (s : string) : string :=
  match s with
  | "" => ""
  | String c s' => String (f c) (map_bytes f s')
  end.

(** [unicode.ToLower] *)
Definition rune_lower `{UnicodeTables} (r : Z) : Z :=
  if in_range 65 90 r then r + 32
  else if in_range 0 127 r then r
  else unicode_lower r.

(** [strings.ToLower] *)
Definition ToLower `{UnicodeTables} (s : string) : string :=
  if isASCII s then map_bytes lower_byte s
  else string_of_runes (rune_lower <$> runes s).

(** ** [strconv.Atoi]: [None] is a syntax or range error *)

Definition digit (c : ascii) : option Z :=
  if in_range 48 57 (byte_of c) then Some (byte_of c - 48) else None.

Fixpoint digits_value (acc : Z) (s : string) : option Z :=
  match s with
  | "" => Some acc
  | String c s' =>
      match digit c with
      | Some d => digits_value (10 * acc + d) s'
      | None => None
      end
  end.

Definition Atoi (s : string) : option Z :=
  let '(neg, body) :=
    match s with
    | String "-" t => (true, t)
    | String "+" t => (false, t)
    | _ => (false, s)
    end in
  match body with
  | "" => None
  | _ =>
      match digits_value 0 body with
      | None => None
      | Some n => let v := if neg : bool then - n else n in
                  if in_range min_int64 max_int64 v then Some v else None
      end
  end.

(** ** [path/filepath.Clean] (Unix) *)

Fixpoint clean_components (rooted : bool) (stack comps : list string) : list string :=
  match comps with
  | [] => stack
  | c :: rest =>
      if String.eqb c "" || String.eqb c "." then clean_components rooted stack rest
      else if String.eqb c ".." then
        match stack with
        | d :: stack' =>
            if String.eqb d ".." then clean_components rooted (c :: stack) rest
            else clean_components rooted stack' rest
        | [] => clean_components rooted (if rooted then [] else [c]) rest
        end
      else clean_components rooted (c :: stack) rest
  end.

Definition Clean (path : string) : string :=
  let rooted := HasPrefix path "/" in
  let body := Join (List.rev (clean_components rooted [] (Split path "/"))) "/" in
  if rooted then "/" +:+ body else if String.eqb body "" then "." else body.

(** ** [bufio.Scanner] with [bufio.ScanLines] *)

Definition nl : ascii := "010".
Definition newline : string := String nl "".

(** The pieces between newlines; a final piece without newline counts when it
    is not empty. *)
Fixpoint raw_lines (s : string) : list string :=
  match s with
  | "" => []
  | String c s' =>
      if Ascii.eqb c nl then "" :: raw_lines s'
      else match raw_lines s' with
           | [] => [String c ""]
           | l :: ls => String c l :: ls
           end
  end.

Definition MaxScanTokenSize : Z := 64 * 1024.

Fixpoint dropCR (s : string) : string :=
  match s with
  | "" => ""
  | String c "" => if Ascii.eqb c "013" then "" else s
  | String c s' => String c (dropCR s')
  end.

(** The tokens delivered, and whether scanning stopped with [ErrTooLong]: a
    line that fills the 64 KiB buffer cannot be delivered. *)
Fixpoint scan_tokens (ls : list string) : list string * bool :=
  match ls with
  | [] => ([], false)
  | l :: ls' =>
      if MaxScanTokenSize <=? Z.of_nat (String.length l) then ([], true)
      else let '(ts, e) := scan_tokens ls' in (dropCR l :: ts, e)
  end.

Definition ScanLines (content : string) : list string * bool :=
  scan_tokens (raw_lines content).

#[global] Arguments ScanLines : simpl never.
#[global] Arguments TrimSpace : simpl never.
#[global] Arguments Clean : simpl never.
#[global] Arguments ToLower : simpl never.
#[global] Arguments Atoi : simpl never.
#[global] Arguments ReplaceAll : simpl never.
#[global] Arguments Split : simpl never.

(** ** Lemmas *)

Lemma HasPrefix_app p r : HasPrefix (p +:+ r) p = true.
Proof. induction p as [|c p IH]; cbn; [by destruct r|]. by rewrite Ascii.eqb_refl. Qed.

Lemma HasPrefix_true s p : HasPrefix s p = true -> exists r, s = p +:+ r.
Proof.
  revert s. induction p as [|c p IH]; intros s; [by exists s|].
  destruct s as [|d s]; cbn; [done|]. intros H. breflect. subst.
  destruct (IH s) as [r ->]; [done|]. by exists r.
Qed.

Lemma HasPrefix_iff s p : HasPrefix s p = true <-> exists r, s = p +:+ r.
Proof. split; [apply HasPrefix_true|]. intros [r ->]. apply HasPrefix_app. Qed.

Lemma HasPrefix_refl s : HasPrefix s s = true.
Proof. rewrite <- (string_app_nil_r s) at 1. apply HasPrefix_app. Qed.

Lemma HasPrefix_trans s p q : HasPrefix s p = true -> HasPrefix p q = true -> HasPrefix s q = true.
Proof.
  intros [r ->]%HasPrefix_true [r' ->]%HasPrefix_true.
  rewrite string_app_assoc. apply HasPrefix_app.
Qed.

Lemma HasPrefix_empty s : HasPrefix s "" = true.
Proof. by destruct s. Qed.

Lemma HasPrefix_length s p :
  HasPrefix s p = true -> (String.length p <= String.length s)%nat.
Proof. intros [r ->]%HasPrefix_true. autorewrite with gostr. lia. Qed.

Lemma sdrop_app p r : sdrop (String.length p) (p +:+ r) = r.
Proof. induction p; cbn; [by destruct r|]. done. Qed.

Lemma stake_app p r : stake (String.length p) (p +:+ r) = p.
Proof. induction p; cbn; [by destruct r|]. by f_equal. Qed.

Lemma stake_app_min n a b : stake (Nat.min n (String.length a)) (a +:+ b) = stake n a.
Proof. revert n. induction a as [|c a IH]; intros [|n]; cbn; try done. by rewrite IH. Qed.

Lemma stake_app_plus n a b : stake (String.length a + n) (a +:+ b) = a +:+ stake n b.
Proof. induction a as [|c a IH]; cbn; [done|]. by rewrite IH. Qed.

Lemma sdrop_0 s : sdrop 0 s = s.
Proof. by destruct s. Qed.

Lemma stake_sdrop n s : stake n s +:+ sdrop n s = s.
Proof. revert s. induction n; intros [|c s]; cbn; try done. by rewrite IHn. Qed.

Lemma length_stake n s : String.length (stake n s) = Nat.min n (String.length s).
Proof. revert s. induction n; intros [|c s]; cbn; try done. by rewrite IHn. Qed.

Lemma length_sdrop n s : String.length (sdrop n s) = (String.length s - n)%nat.
Proof. revert s. induction n; intros [|c s]; cbn; try done. Qed.

Lemma stake_ge n s : (String.length s <= n)%nat -> stake n s = s.
Proof. revert s. induction n; intros [|c s]; cbn; try done; [lia|]. intros. f_equal. apply IHn. lia. Qed.

Lemma string_all_stake P n s : string_all P s = true -> string_all P (stake n s) = true.
Proof.
  revert s. induction n; intros [|c s]; cbn; try done.
  intros H. breflect. rewrite H. cbn. auto.
Qed.

#[export] Hint Rewrite HasPrefix_app HasPrefix_refl HasPrefix_empty sdrop_app stake_app
  length_stake length_sdrop : gostr.
#[export] Hint Resolve HasPrefix_app HasPrefix_refl HasPrefix_empty : gostr.

Lemma TrimPrefix_app p r : TrimPrefix (p +:+ r) p = r.
Proof. unfold TrimPrefix. by rewrite HasPrefix_app, sdrop_app. Qed.

Lemma TrimPrefix_id s p : HasPrefix s p = false -> TrimPrefix s p = s.
Proof. unfold TrimPrefix. by intros ->. Qed.

Lemma Contains_prefix s sub : HasPrefix s sub = true -> Contains s sub = true.
Proof. destruct s; cbn; intros ->; done. Qed.

Lemma Contains_app a s sub : Contains s sub = true -> Contains (a +:+ s) sub = true.
Proof. intros H. induction a; cbn; [done|]. by rewrite IHa, orb_true_r. Qed.

Lemma Contains_cons c s sub :
  Contains (String c s) sub = HasPrefix (String c s) sub || Contains s sub.
Proof. done. Qed.

Lemma Contains_iff s sub : Contains s sub = true <-> exists a b, s = a +:+ sub +:+ b.
Proof.
  split.
  - induction s as [|c s IH].
    + destruct sub; [|done]. intros _. by exists "", "".
    + rewrite Contains_cons. intros [[r Hr]%HasPrefix_true|(a & b & ->)%IH]%orb_true_iff.
      * by exists "", r.
      * by exists (String c a), b.
  - intros (a & b & ->). apply Contains_app, Contains_prefix, HasPrefix_app.
Qed.

Lemma ReplaceAll_id s old new : Contains s old = false -> ReplaceAll s old new = s.
Proof.
  unfold ReplaceAll. induction s as [|c s IH]; [done|].
  rewrite Contains_cons. intros [Hp Hc]%orb_false_iff. cbn [replace_all]. by rewrite Hp, IH.
Qed.

Lemma HasPrefix_app_l d s p : HasPrefix (d +:+ s) (d +:+ p) = HasPrefix s p.
Proof. induction d as [|c d IH]; [done|]. cbn. by rewrite Ascii.eqb_refl. Qed.

Lemma Split_cons c s sep :
  Split (String c s) sep =
  if Ascii.eqb c sep then "" :: Split s sep
  else match Split s sep with [] => [String c ""] | x :: xs => String c x :: xs end.
Proof. done. Qed.

Lemma Split_app s sep t :
  string_all (fun c => negb (Ascii.eqb c sep)) s = true ->
  Split (s +:+ String sep t) sep = s :: Split t sep.
Proof.
  induction s as [|c s IH]; intros Hs; [change ("" +:+ ?u) with u; by rewrite Split_cons, Ascii.eqb_refl|].
  cbn [string_all] in Hs. apply andb_true_iff in Hs as [Hc Hs]. apply negb_true_iff in Hc.
  change (String c s +:+ ?u) with (String c (s +:+ u)). by rewrite Split_cons, Hc, IH.
Qed.

Lemma Split_none s sep :
  string_all (fun c => negb (Ascii.eqb c sep)) s = true -> Split s sep = [s].
Proof.
  induction s as [|c s IH]; [done|]. intros Hs. cbn [string_all] in Hs.
  apply andb_true_iff in Hs as [Hc Hs]. apply negb_true_iff in Hc. by rewrite Split_cons, Hc, IH.
Qed.

(** *** Lines *)

Lemma raw_lines_nil s : raw_lines s = [] -> s = "".
Proof. destruct s as [|c s]; cbn; [done|]. repeat case_match; done. Qed.

(** A text is a sequence of complete lines when it is empty or ends with a
    newline. *)
Definition no_nl (s : string) : bool := string_all (fun c => negb (Ascii.eqb c nl)) s.

Fixpoint unlines (ls : list string) : string :=
  match ls with
  | [] => ""
  | l :: ls' => l +:+ newline +:+ unlines ls'
  end.

Lemma unlines_app l1 l2 : unlines (l1 ++ l2) = unlines l1 +:+ unlines l2.
Proof. induction l1; cbn; [done|]. by rewrite IHl1, !string_app_assoc. Qed.

Lemma raw_lines_line l rest :
  no_nl l = true -> raw_lines (l +:+ newline +:+ rest) = l :: raw_lines rest.
Proof.
  induction l as [|c l IH]; intros H; [done|]. cbn [String.append raw_lines].
  unfold no_nl in H; cbn in H. breflect.
  destruct (Ascii.eqb_spec c nl) as [->|]; [done|]. by rewrite IH.
Qed.

Lemma raw_lines_unlines ls :
  Forall (fun l => no_nl l = true) ls -> raw_lines (unlines ls) = ls.
Proof. induction 1; cbn [unlines]; [done|]. rewrite raw_lines_line; congruence. Qed.

Lemma raw_lines_unlines_app ls rest :
  Forall (fun l => no_nl l = true) ls ->
  raw_lines (unlines ls +:+ rest) = ls ++ raw_lines rest.
Proof.
  induction 1; cbn [unlines app]; [done|].
  rewrite !string_app_assoc, raw_lines_line; congruence.
Qed.

Lemma raw_lines_no_nl s : Forall (fun l => no_nl l = true) (raw_lines s).
Proof.
  induction s as [|c s IH]; cbn; [constructor|].
  destruct (Ascii.eqb_spec c nl) as [->|Hc].
  - by constructor.
  - destruct (raw_lines s); constructor; inversion IH; subst;
      try constructor; try done; unfold no_nl; cbn;
      destruct (Ascii.eqb_spec c nl); cbn; done.
Qed.

(** *** Trimming *)

Lemma spaces_nonempty p : In p spaces -> (0 < String.length p)%nat.
Proof.
  intros Hp.
  assert (Hall : forallb (fun p => (0 <? String.length p)%nat) spaces = true) by reflexivity.
  rewrite forallb_forall in Hall. apply Nat.ltb_lt. auto.
Qed.

Lemma HasSuffix_true s p : HasSuffix s p = true -> exists r, s = r +:+ p.
Proof.
  unfold HasSuffix. intros H. breflect.
  set (n := (String.length s - String.length p)%nat) in *.
  exists (stake n s). transitivity (stake n s +:+ sdrop n s); [by rewrite stake_sdrop|by rewrite H0].
Qed.

Lemma HasSuffix_app r p : HasSuffix (r +:+ p) p = true.
Proof.
  unfold HasSuffix. rewrite string_app_length, Nat.add_sub, sdrop_app, String.eqb_refl.
  rewrite andb_true_r. apply Nat.leb_le. lia.
Qed.

Definition untrimmable (s : string) : bool :=
  negb (existsb (HasPrefix s) spaces) && negb (existsb (HasSuffix s) spaces).

Lemma find_none_existsb {A} (f : A -> bool) l : List.find f l = None <-> existsb f l = false.
Proof.
  induction l as [|x l IH]; cbn; [done|]. by destruct (f x).
Qed.

Lemma trim_left_spec fuel s :
  (String.length s <= fuel)%nat ->
  existsb (HasPrefix (trim_left fuel s)) spaces = false /\
  exists r, s = r +:+ trim_left fuel s.
Proof.
  revert s. induction fuel as [|n IH]; intros s Hlen; cbn [trim_left].
  - destruct s; [|cbn in Hlen; lia]. split; [reflexivity|by exists ""].
  - unfold find_prefix. destruct (List.find (HasPrefix s) spaces) as [p|] eqn:Hf.
    + apply find_some in Hf as [Hin [r ->]%HasPrefix_true].
      apply spaces_nonempty in Hin. autorewrite with gostr in *.
      destruct (IH r) as [? [r' Hr]]; [lia|]. split; [done|].
      exists (p +:+ r'). by rewrite string_app_assoc, <- Hr.
    + split; [by apply find_none_existsb|by exists ""].
Qed.

Lemma trim_right_spec fuel s :
  (String.length s <= fuel)%nat ->
  existsb (HasSuffix (trim_right fuel s)) spaces = false /\
  exists r, s = trim_right fuel s +:+ r.
Proof.
  revert s. induction fuel as [|n IH]; intros s Hlen; cbn [trim_right].
  - destruct s; [|cbn in Hlen; lia]. split; [reflexivity|by exists ""].
  - destruct (List.find (HasSuffix s) spaces) as [p|] eqn:Hf.
    + apply find_some in Hf as [Hin [r ->]%HasSuffix_true].
      apply spaces_nonempty in Hin. autorewrite with gostr in *.
      rewrite Nat.add_sub, stake_app.
      destruct (IH r) as [? [r' Hr]]; [lia|]. split; [done|].
      exists (r' +:+ p). by rewrite <- string_app_assoc, <- Hr.
    + split; [by apply find_none_existsb|]. exists "". by rewrite string_app_nil_r.
Qed.

Lemma trim_left_length fuel s : (String.length (trim_left fuel s) <= String.length s)%nat.
Proof.
  revert s. induction fuel as [|n IH]; intros s; cbn [trim_left]; [lia|].
  destruct (find_prefix s spaces) as [p|]; [|lia].
  etrans; [apply IH|]. rewrite length_sdrop. lia.
Qed.

Lemma TrimSpace_substring s : exists a b, s = a +:+ TrimSpace s +:+ b.
Proof.
  unfold TrimSpace. destruct (trim_left_spec (String.length s) s) as [_ [a Ha]]; [lia|].
  destruct (trim_right_spec (String.length s) (trim_left (String.length s) s)) as [_ [b Hb]].
  { apply trim_left_length. }
  exists a, b. by rewrite <- Hb.
Qed.

Lemma existsb_false_impl {A} (f g : A -> bool) l :
  (forall x, g x = true -> f x = true) -> existsb f l = false -> existsb g l = false.
Proof.
  intros Hfg Hf. apply not_true_is_false. intros (x & Hx & Hg)%existsb_exists.
  apply Hfg in Hg. assert (existsb f l = true) by (apply existsb_exists; eauto). congruence.
Qed.

Lemma TrimSpace_untrimmable s : untrimmable (TrimSpace s) = true.
Proof.
  unfold TrimSpace. destruct (trim_left_spec (String.length s) s) as [Hl [a Ha]]; [lia|].
  set (t := trim_left (String.length s) s) in *.
  destruct (trim_right_spec (String.length s) t) as [Hr [b Hb]].
  { apply trim_left_length. }
  unfold untrimmable. rewrite Hr, andb_true_r. apply negb_true_iff.
  eapply existsb_false_impl; [|exact Hl]. intros p Hp. rewrite Hb.
  eapply HasPrefix_trans; [apply HasPrefix_app|done].
Qed.

Lemma TrimSpace_id s : untrimmable s = true -> TrimSpace s = s.
Proof.
  unfold untrimmable. intros H. breflect. apply find_none_existsb in H, H0.
  unfold TrimSpace. assert (Hl : forall n, trim_left n s = s).
  { intros [|n]; cbn [trim_left]; [done|]. unfold find_prefix. by rewrite H. }
  rewrite Hl. destruct (String.length s); cbn [trim_right]; [done|]. by rewrite H0.
Qed.

Lemma TrimSpace_idemp s : TrimSpace (TrimSpace s) = TrimSpace s.
Proof. apply TrimSpace_id, TrimSpace_untrimmable. Qed.

Lemma dropCR_id s : HasSuffix s (bytes [13]) = false -> dropCR s = s.
Proof.
  intros H. destruct (decide (dropCR s = s)) as [|Hne]; [done|].
  exfalso. apply not_true_iff_false in H. apply H. clear H.
  assert (exists r, s = r +:+ bytes [13]) as [r ->]; [|apply HasSuffix_app].
  induction s as [|c s IH]; [done|]. destruct s as [|d s].
  - cbn in Hne. destruct (Ascii.eqb_spec c "013") as [E|]; [|done]. exists "". by rewrite E.
  - destruct IH as [r Hr]; [intros E; apply Hne; cbn [dropCR] in *; congruence|].
    exists (String c r). by rewrite Hr.
Qed.

Lemma dropCR_untrimmable s : untrimmable s = true -> dropCR s = s.
Proof.
  unfold untrimmable. intros H. breflect. apply dropCR_id.
  apply not_true_is_false. intros HS.
  assert (existsb (HasSuffix s) spaces = true); [|congruence].
  apply existsb_exists. exists (bytes [13]). split; [cbn; tauto|done].
Qed.

#[export] Hint Rewrite TrimSpace_idemp : gostr.
#[export] Hint Resolve TrimSpace_untrimmable : gostr.

(** *** Scanning well-formed texts *)

Definition short_line (l : string) : bool := Z.of_nat (String.length l) <? MaxScanTokenSize.
Definition text_line (l : string) : Prop := no_nl l = true /\ short_line l = true.

Lemma no_nl_app s t : no_nl (s +:+ t) = no_nl s && no_nl t.
Proof. apply string_all_app. Qed.

Lemma text_line_TrimSpace l : text_line l -> text_line (TrimSpace l).
Proof.
  unfold text_line, short_line. intros [Hn Hs].
  destruct (TrimSpace_substring l) as (a & b & Hl).
  rewrite Hl, !no_nl_app in Hn. breflect. split; [done|].
  rewrite Hl in Hs. autorewrite with gostr in Hs. apply Z.ltb_lt. lia.
Qed.

Lemma scan_tokens_text ls :
  Forall text_line ls -> scan_tokens ls = (dropCR <$> ls, false).
Proof.
  induction 1 as [|l ls [Hn Hs] _ IH]; cbn [scan_tokens]; [done|].
  unfold short_line in Hs. rewrite Z.leb_antisym, Hs, IH. done.
Qed.

Lemma ScanLines_unlines ls :
  Forall text_line ls -> ScanLines (unlines ls) = (dropCR <$> ls, false).
Proof.
  intros Hls. unfold ScanLines. rewrite raw_lines_unlines; [by apply scan_tokens_text|].
  eapply Forall_impl; [exact Hls|]. by intros l [].
Qed.

#[global] Arguments Contains : simpl never.
