(* ===== verification/GoRegexp.v ===== *)
(** * Regular expressions over bytes and their matcher

    The model of [regexp.MatchString] for an anchored pattern [^...$]: the
    language of an expression ([matches]) and an executable matcher
    ([match_all]) that follows the set of Antimirov's partial derivatives, as
    an automaton-based engine does; the two are proved equivalent. *)

From S2P Require Import Prelude GoStrings.

(** A class is a list of byte ranges: [[a-z0-9]] is [[(97,122); (48,57)]]. *)
Definition in_class (ranges : list (Z * Z)) (c : ascii) : bool :=
  existsb (fun '(lo, hi) => in_range lo hi (byte_of c)) ranges.

Inductive regexp :=
  | Eps
  | Class (ranges : list (Z * Z))
  | Cat (r1 r2 : regexp)
  | Alt (r1 r2 : regexp)
  | Star (r : regexp).

#[export] Instance regexp_eq_dec : EqDecision regexp.
Proof. solve_decision. Defined.

(** [r+] and [r?] *)
Definition Plus (r : regexp) : regexp := Cat r (Star r).
Definition Opt (r : regexp) : regexp := Alt r Eps.

Inductive matches : regexp -> string -> Prop :=
  | MEps : matches Eps ""
  | MClass rs c : in_class rs c = true -> matches (Class rs) (String c "")
  | MCat r1 r2 s1 s2 : matches r1 s1 -> matches r2 s2 -> matches (Cat r1 r2) (s1 +:+ s2)
  | MAltL r1 r2 s : matches r1 s -> matches (Alt r1 r2) s
  | MAltR r1 r2 s : matches r2 s -> matches (Alt r1 r2) s
  | MStar0 r : matches (Star r) ""
  | MStarS r s1 s2 : matches r s1 -> matches (Star r) s2 -> matches (Star r) (s1 +:+ s2).

#[export] Hint Constructors matches : gostr.

Fixpoint nullable (r : regexp) : bool :=
  match r with
  | Class _ => false
  | Eps | Star _ => true
  | Cat r1 r2 => nullable r1 && nullable r2
  | Alt r1 r2 => nullable r1 || nullable r2
  end.

Definition cat (r1 r2 : regexp) : regexp :=
  match r1 with Eps => r2 | _ => Cat r1 r2 end.

(** The partial derivatives of [r] by [c]. *)
Fixpoint derivs (c : ascii) (r : regexp) : list regexp :=
  match r with
  | Eps => []
  | Class rs => if in_class rs c then [Eps] else []
  | Cat r1 r2 =>
      ((fun r => cat r r2) <$> derivs c r1) ++ (if nullable r1 then derivs c r2 else [])
  | Alt r1 r2 => derivs c r1 ++ derivs c r2
  | Star r1 => (fun r => cat r (Star r1)) <$> derivs c r1
  end.

Fixpoint match_set (rs : list regexp) (s : string) : bool :=
  match s with
  | "" => existsb nullable rs
  | String c s' => match_set (remove_dups (rs ≫= derivs c)) s'
  end.

Definition match_all (r : regexp) (s : string) : bool := match_set [r] s.

(** ** Inversion lemmas of the language *)

Lemma string_app_eq_nil (s t : string) : s +:+ t = "" -> s = "" /\ t = "".
Proof. by destruct s, t. Qed.

Lemma nullable_spec r : nullable r = true <-> matches r "".
Proof.
  split.
  - induction r; cbn; intros H; try done; auto with gostr.
    + breflect. change "" with ("" +:+ ""). auto with gostr.
    + apply orb_true_iff in H as [?|?]; auto with gostr.
  - induction r; cbn; intros H; inversion H; subst; try done.
    + match goal with E : _ +:+ _ = "" |- _ => apply string_app_eq_nil in E as [-> ->] end.
      rewrite IHr1, IHr2; done.
    + rewrite IHr1; done.
    + rewrite IHr2, orb_true_r; done.
Qed.

Lemma matches_star_cons r c s :
  matches (Star r) (String c s) ->
  exists s1 s2, s = s1 +:+ s2 /\ matches r (String c s1) /\ matches (Star r) s2.
Proof.
  intros H. remember (Star r) as q eqn:Hq. remember (String c s) as t eqn:Ht.
  revert c s Ht. induction H; intros c' s' Ht; try done; simplify_eq.
  destruct s1 as [|d s1]; cbn in Ht; [by apply IHmatches2|].
  simplify_eq. by exists s1, s2.
Qed.

Lemma matches_cat_cons r1 r2 c s :
  matches (Cat r1 r2) (String c s) <->
  (exists s1 s2, s = s1 +:+ s2 /\ matches r1 (String c s1) /\ matches r2 s2) \/
  (matches r1 "" /\ matches r2 (String c s)).
Proof.
  split.
  - intros H. inversion H as [| |? ? s1 s2 H1 H2 Ha Hb| | | |]; subst.
    destruct s1 as [|d s1]; cbn in Hb; simplify_eq; eauto 10.
  - intros [(s1 & s2 & -> & H1 & H2)|[H1 H2]].
    + change (String c (s1 +:+ s2)) with (String c s1 +:+ s2). auto with gostr.
    + change (String c s) with ("" +:+ String c s). auto with gostr.
Qed.

Lemma matches_cat r1 r2 s :
  matches (Cat r1 r2) s <-> exists s1 s2, s = s1 +:+ s2 /\ matches r1 s1 /\ matches r2 s2.
Proof.
  split; [intros H; inversion H; subst; eauto 10|].
  intros (? & ? & -> & ? & ?). auto with gostr.
Qed.

Lemma matches_alt r1 r2 s : matches (Alt r1 r2) s <-> matches r1 s \/ matches r2 s.
Proof. split; [intros H; inversion H; auto|]. intros [?|?]; auto with gostr. Qed.

Lemma matches_class rs s :
  matches (Class rs) s <-> exists c, s = String c "" /\ in_class rs c = true.
Proof. split; [intros H; inversion H; eauto|]. intros (c & -> & ?). auto with gostr. Qed.

Lemma matches_eps s : matches Eps s <-> s = "".
Proof. split; [by inversion 1|]. intros ->. constructor. Qed.

(** ** Correctness of the matcher *)

Lemma matches_smart_cat r1 r2 s : matches (cat r1 r2) s <-> matches (Cat r1 r2) s.
Proof.
  destruct r1; try done. cbn. rewrite matches_cat. split.
  - intros H. exists "", s. auto with gostr.
  - by intros (s1 & s2 & -> & ->%matches_eps & H).
Qed.

Lemma derivs_cat c r1 r2 s :
  (exists q, In q ((fun r => cat r r2) <$> derivs c r1) /\ matches q s) <->
  exists s1 s2, s = s1 +:+ s2 /\ (exists q, In q (derivs c r1) /\ matches q s1) /\ matches r2 s2.
Proof.
  setoid_rewrite <- list_elem_of_In. setoid_rewrite list_elem_of_fmap. split.
  - intros (q & (p & -> & Hp) & (s1 & s2 & -> & H1 & H2)%matches_smart_cat%matches_cat).
    eauto 10.
  - intros (s1 & s2 & -> & (p & Hp & H1) & H2). exists (cat p r2). split; [eauto|].
    apply matches_smart_cat, matches_cat. eauto 10.
Qed.

Lemma exists_or (P Q : regexp -> Prop) s :
  (exists q, (P q \/ Q q) /\ matches q s) <->
  (exists q, P q /\ matches q s) \/ (exists q, Q q /\ matches q s).
Proof.
  split; [intros (q & [?|?] & ?); eauto|]. intros [(q & ? & ?)|(q & ? & ?)]; eauto.
Qed.

Lemma derivs_spec c r s :
  (exists q, In q (derivs c r) /\ matches q s) <-> matches r (String c s).
Proof.
  revert s. induction r as [|rs|r1 IH1 r2 IH2|r1 IH1 r2 IH2|r IH]; intros s; cbn [derivs].
  - split; [by intros (? & [] & _)|by inversion 1].
  - rewrite matches_class. destruct (in_class rs c) eqn:Hp; cbn [In].
    + split; [|intros (d & ? & _); simplify_eq; exists Eps; auto with gostr].
      intros (q & [<-|[]] & ->%matches_eps). eauto.
    + split; [by intros (? & [] & _)|]. intros (d & ? & ?); simplify_eq. congruence.
  - rewrite matches_cat_cons. setoid_rewrite in_app_iff.
    rewrite exists_or, derivs_cat, <- nullable_spec. setoid_rewrite IH1.
    destruct (nullable r1); [rewrite IH2; tauto|].
    split; [intros [?|(? & [] & _)]; auto|intros [?|[[=] _]]; auto].
  - rewrite matches_alt, <- IH1, <- IH2. setoid_rewrite in_app_iff. apply exists_or.
  - rewrite derivs_cat. setoid_rewrite IH. split.
    + intros (s1 & s2 & -> & H1 & H2).
      change (String c (s1 +:+ s2)) with (String c s1 +:+ s2). auto with gostr.
    + apply matches_star_cons.
Qed.

Lemma match_set_spec rs s :
  match_set rs s = true <-> exists r, In r rs /\ matches r s.
Proof.
  revert rs. induction s as [|c s IH]; intros rs; cbn [match_set].
  - rewrite existsb_exists. by setoid_rewrite nullable_spec.
  - rewrite IH. setoid_rewrite <- derivs_spec. setoid_rewrite <- list_elem_of_In.
    setoid_rewrite elem_of_remove_dups. setoid_rewrite list_elem_of_bind.
    split; [intros (q & (r & ? & ?) & ?)|intros (r & ? & q & ? & ?)]; eauto 10.
Qed.

Lemma match_all_spec r s : match_all r s = true <-> matches r s.
Proof.
  unfold match_all. rewrite match_set_spec. cbn [In].
  split; [by intros (q & [<-|[]] & H)|eauto].
Qed.
