(* ===== verification/Naming.v ===== *)
(** * Volume identifiers and service names ([src/nfs/csinfs.go])

    The [nfs-] prefix of the volumes this module owns, and the Kubernetes
    name ([VolumeIDToServiceName]) under which the Service, the EndpointSlice
    and the export directory of a volume are kept. *)

From S2P Require Import Prelude GoStrings GoRegexp.

Definition CsiNfsParameter : string := "shared-nfs".
Definition CsiNfsPrefix : string := "nfs".
Definition CsiNfsPrefixDash : string := "nfs-".
Definition ServiceName : string := "ServiceName".
Definition DriverVolumeID : string := "driverVolumeID".

Definition IsNFSStorageClass (parameters : gomap) : bool :=
  String.eqb (mget parameters "shared-nfs") "RWX".

Definition hasNFSPrefix (id : string) : bool := HasPrefix id CsiNfsPrefixDash.
Definition IsNFSVolumeID : string -> bool := hasNFSPrefix.
Definition IsNFSSnapshotID : string -> bool := hasNFSPrefix.
Definition ToArrayVolumeID (id : string) : string := TrimPrefix id CsiNfsPrefixDash.
Definition ArrayToNFSVolumeID (arrayid : string) : string := CsiNfsPrefixDash +:+ arrayid.

(** ** [VolumeIDToServiceName] *)

(** [[a-z0-9]], [[-.]] and [[a-z0-9-.]] *)
Definition alnum_class : list (Z * Z) := [(97, 122); (48, 57)].
Definition sep_class : list (Z * Z) := [(45, 45); (46, 46)].
Definition alnum (c : ascii) : bool := in_class alnum_class c.
Definition sep (c : ascii) : bool := in_class sep_class c.
Definition legal (c : ascii) : bool := alnum c || sep c.
#[global] Arguments alnum : simpl never.
#[global] Arguments sep : simpl never.
#[global] Arguments legal : simpl never.

(** [FindAllIndex] of a one-byte class. *)
Fixpoint FindAllIndex (p : ascii -> bool) (i : nat) (s : string) : list (nat * nat) :=
  match s with
  | "" => []
  | String c s' =>
      if p c then (i, S i) :: FindAllIndex p (S i) s' else FindAllIndex p (S i) s'
  end.

(** [^[a-z0-9]+([-.]?[a-z0-9]+)*$] *)
Definition validIDRegex : regexp :=
  Cat (Plus (Class alnum_class)) (Star (Cat (Opt (Class sep_class)) (Plus (Class alnum_class)))).

(** [ReplaceAllStringFunc] of the class [[^a-z0-9-.]] by ["-"]: a rune that is
    not one of the legal bytes is replaced as a whole. *)
Fixpoint replace_illegal (skip : nat) (s : string) : string :=
  match s with
  | "" => ""
  | String c s' =>
      match skip with
      | S k => replace_illegal k s'
      | O => if legal c then String c (replace_illegal 0 s')
             else String "-" (replace_illegal (Nat.pred (snd (DecodeRune s))) s')
      end
  end.

Definition VolumeIDToServiceName `{UnicodeTables} (id : string) : string :=
  let id := ToLower id in
  let validIndexes := FindAllIndex alnum 0 id in
  let id :=
    match head validIndexes, last validIndexes with
    | Some (first, _), Some (_, last) => slice id first last
    | _, _ => id
    end in
  let id := if (63 <? String.length id)%nat then slice id 0 63 else id in
  if match_all validIDRegex id then id
  else replace_illegal 0 id.

(** ** Shapes of strings *)

Definition first_is (p : ascii -> bool) (s : string) : bool :=
  match s with String c _ => p c | "" => false end.

Fixpoint last_is (p : ascii -> bool) (s : string) : bool :=
  match s with
  | "" => false
  | String c "" => p c
  | String _ s' => last_is p s'
  end.

Fixpoint no_double_sep (s : string) : bool :=
  match s with
  | String c ((String d _) as s') => negb (sep c && sep d) && no_double_sep s'
  | _ => true
  end.

(** What the comment of [validIDRegex] describes. *)
Definition valid_name (s : string) : bool :=
  first_is alnum s && last_is alnum s && string_all legal s && no_double_sep s.

(** *** Byte classes *)

Lemma alnum_byte c :
  alnum c = true -> 97 <= byte_of c <= 122 \/ 48 <= byte_of c <= 57.
Proof.
  unfold alnum, alnum_class, in_class, in_range. cbn.
  rewrite orb_false_r. intros [H|H]%orb_true_iff; breflect; lia.
Qed.

Lemma sep_byte c : sep c = true -> 45 <= byte_of c <= 46.
Proof.
  unfold sep, sep_class, in_class, in_range. cbn.
  rewrite orb_false_r. intros [H|H]%orb_true_iff; breflect; lia.
Qed.

Lemma alnum_not_sep c : alnum c = true -> sep c = false.
Proof.
  intros Ha%alnum_byte. apply not_true_is_false. intros Hs%sep_byte. lia.
Qed.

Lemma alnum_legal c : alnum c = true -> legal c = true.
Proof. unfold legal. by intros ->. Qed.

Lemma sep_legal c : sep c = true -> legal c = true.
Proof. unfold legal. intros ->. apply orb_true_r. Qed.

Lemma legal_byte c :
  legal c = true -> 97 <= byte_of c <= 122 \/ 45 <= byte_of c <= 57.
Proof. intros [H%alnum_byte|H%sep_byte]%orb_true_iff; lia. Qed.

Lemma legal_ascii c : legal c = true -> (byte_of c <? 128) = true.
Proof. intros H%legal_byte. apply Z.ltb_lt. lia. Qed.

Lemma legal_lower c : legal c = true -> lower_byte c = c.
Proof.
  intros H%legal_byte. unfold lower_byte, in_range.
  destruct (_ && _) eqn:E; [|done]. breflect. lia.
Qed.

#[export] Hint Resolve alnum_legal sep_legal legal_ascii : gostr.

(** *** The automaton of [validIDRegex] *)

Fixpoint valid_run (after_alnum : bool) (s : string) : bool :=
  match s with
  | "" => after_alnum
  | String c s' =>
      if alnum c then valid_run true s'
      else sep c && after_alnum && valid_run false s'
  end.

Lemma matches_plus_class p s :
  matches (Plus (Class p)) s <-> s <> "" /\ string_all (in_class p) s = true.
Proof.
  assert (Hstar : forall t, matches (Star (Class p)) t <-> string_all (in_class p) t = true).
  { induction t as [|c t IH]; cbn; [split; auto with gostr|]. split.
    - intros (s1 & s2 & -> & (d & Hd & Hp)%matches_class & H)%matches_star_cons.
      simplify_eq. cbn in *. rewrite Hp. cbn. by apply IH.
    - intros H. breflect. change (String c t) with (String c "" +:+ t).
      constructor; [by constructor|by apply IH]. }
  unfold Plus. rewrite matches_cat. split.
  - intros (s1 & s2 & -> & (c & -> & Hc)%matches_class & H%Hstar). cbn. by rewrite Hc.
  - intros [Hne H]. destruct s as [|c t]; [done|]. cbn in H. breflect.
    exists (String c ""), t. split; [done|]. split; [by constructor|by apply Hstar].
Qed.

Lemma valid_run_alnum a b s :
  a <> "" -> string_all alnum a = true -> valid_run b (a +:+ s) = valid_run true s.
Proof.
  revert b. induction a as [|c a IH]; intros b Hne H; [done|]. cbn in H. breflect.
  cbn. rewrite H. destruct a as [|d a]; [done|]. by apply IH.
Qed.

Lemma star_valid_run s :
  matches (Star (Cat (Opt (Class sep_class)) (Plus (Class alnum_class)))) s -> valid_run true s = true.
Proof.
  intros H. remember (Star _) as r eqn:Hr. induction H; simplify_eq; [done|].
  apply matches_cat in H as (o & a & -> & Ho & [Ha Hall]%matches_plus_class).
  rewrite string_app_assoc. apply matches_alt in Ho as [(c & -> & Hc)%matches_class|Heps%matches_eps].
  - change (sep c = true) in Hc. cbn. destruct (alnum c) eqn:E; [by apply alnum_not_sep in E; congruence|].
    rewrite Hc. cbn. rewrite valid_run_alnum by done. auto.
  - subst o. cbn. rewrite valid_run_alnum by done. auto.
Qed.

Lemma valid_run_matches s :
  (valid_run true s = true ->
   matches (Star (Cat (Opt (Class sep_class)) (Plus (Class alnum_class)))) s) /\
  (valid_run false s = true -> matches validIDRegex s).
Proof.
  assert (Hone : forall c, alnum c = true -> matches (Plus (Class alnum_class)) (String c "")).
  { intros c Hc. apply matches_plus_class.
    split; [done|]. change (alnum c && true = true). by rewrite Hc. }
  induction s as [|c s [IH1 IH2]]; cbn; (split; [|try done]); [constructor| |].
  - destruct (alnum c) eqn:Hc; intros H.
    + change (String c s) with (("" +:+ String c "") +:+ s).
      constructor; [|auto]. apply MCat; [apply MAltR; constructor|auto].
    + breflect. apply IH2, matches_cat in H0 as (a & t & -> & Ha & Ht).
      change (String c (a +:+ t)) with ((String c "" +:+ a) +:+ t).
      constructor; [|done]. apply MCat; [apply MAltL; by constructor|done].
  - destruct (alnum c) eqn:Hc; intros H.
    + change (String c s) with (String c "" +:+ s). apply MCat; auto.
    + by rewrite andb_false_r in H.
Qed.

Lemma validIDRegex_run s : match_all validIDRegex s = valid_run false s.
Proof.
  apply eq_true_iff_eq. rewrite match_all_spec. split.
  - intros (a & t & -> & [Ha Hall]%matches_plus_class & Ht)%matches_cat.
    rewrite valid_run_alnum by done. by apply star_valid_run.
  - apply valid_run_matches.
Qed.

Lemma valid_run_true_shape c s :
  alnum c = true ->
  valid_run true s = last_is alnum (String c s) && string_all legal s && no_double_sep (String c s) /\
  valid_run false s = first_is alnum s && last_is alnum s && string_all legal s && no_double_sep s.
Proof.
  revert c. induction s as [|d s IH]; intros c Hc; [cbn; by rewrite Hc|].
  destruct (alnum d) eqn:Hd.
  - destruct (IH d Hd) as [IH1 _]. cbn [valid_run]. rewrite Hd, IH1.
    cbn [first_is last_is string_all no_double_sep]. rewrite Hd, (alnum_legal d Hd), (alnum_not_sep c Hc).
    cbn [andb negb]. by destruct s.
  - destruct (IH c Hc) as [_ IH2]. cbn [valid_run first_is]. rewrite Hd, IH2, andb_false_r. cbn [andb].
    rewrite andb_true_r. split; [|done].
    cbn [last_is string_all no_double_sep]. rewrite (alnum_not_sep c Hc). cbn [andb negb].
    destruct (sep d) eqn:Hs.
    + rewrite (sep_legal d Hs). cbn [andb]. destruct s as [|e s]; cbn; [by rewrite Hd|].
      destruct (alnum e) eqn:He; cbn.
      * by rewrite (alnum_not_sep e He).
      * destruct (sep e) eqn:Hse; cbn; [by rewrite !andb_false_r|].
        unfold legal. rewrite He, Hse. cbn. by rewrite !andb_false_r.
    + unfold legal. rewrite Hd, Hs. cbn. by rewrite !andb_false_r.
Qed.

Lemma validIDRegex_valid_name s : match_all validIDRegex s = valid_name s.
Proof. rewrite validIDRegex_run. by destruct (valid_run_true_shape "a" s eq_refl). Qed.

Lemma valid_name_legal s : valid_name s = true -> string_all legal s = true.
Proof. unfold valid_name. intros. breflect. done. Qed.

(** *** Trimming: what the index arithmetic computes *)

Definition no_alnum (s : string) : bool := string_all (fun c => negb (alnum c)) s.

Fixpoint strip_left (s : string) : string :=
  match s with
  | "" => ""
  | String c s' => if alnum c then s else strip_left s'
  end.

Fixpoint strip_right (s : string) : string :=
  match s with
  | "" => ""
  | String c s' =>
      match strip_right s' with
      | "" => if alnum c then String c "" else ""
      | t => String c t
      end
  end.

(** Everything before the first and after the last alphanumeric byte goes; a
    string without any is kept whole. *)
Definition strip (s : string) : string :=
  if no_alnum s then s else strip_right (strip_left s).

Lemma strip_right_nil s : strip_right s = "" <-> no_alnum s = true.
Proof.
  induction s as [|c s IH]; cbn; [done|]. fold (no_alnum s).
  destruct (strip_right s) as [|d t].
  - rewrite (proj1 IH eq_refl), andb_true_r. by destruct (alnum c).
  - destruct (no_alnum s); [by destruct IH as [_ IH]; specialize (IH eq_refl)|].
    by rewrite andb_false_r.
Qed.

Lemma strip_left_nil s : strip_left s = "" <-> no_alnum s = true.
Proof. induction s as [|c s IH]; cbn; [done|]. destruct (alnum c); cbn; [done|apply IH]. Qed.

Lemma strip_left_sdrop s : strip_left s = sdrop (String.length s - String.length (strip_left s)) s.
Proof.
  induction s as [|c s IH]; [done|]. cbn [strip_left]. destruct (alnum c).
  - by rewrite Nat.sub_diag.
  - assert (Hle : (String.length (strip_left s) <= String.length s)%nat).
    { clear IH. induction s as [|d s IH]; cbn; [done|]. destruct (alnum d); cbn; lia. }
    cbn [String.length]. rewrite Nat.sub_succ_l by done. done.
Qed.

Lemma strip_right_stake s : strip_right s = stake (String.length (strip_right s)) s.
Proof.
  induction s as [|c s IH]; [done|]. cbn.
  destruct (strip_right s) as [|d t]; [by destruct (alnum c)|].
  cbn. by f_equal.
Qed.

Lemma strip_right_left_length s :
  String.length (strip_right (strip_left s)) =
  (String.length (strip_right s) - (String.length s - String.length (strip_left s)))%nat.
Proof.
  induction s as [|c s IH]; [done|]. cbn [strip_left]. destruct (alnum c) eqn:Hc.
  - rewrite Nat.sub_diag, Nat.sub_0_r. done.
  - rewrite IH. cbn [strip_right String.length]. rewrite Hc.
    assert (Hle : (String.length (strip_left s) <= String.length s)%nat).
    { rewrite strip_left_sdrop, length_sdrop. lia. }
    destruct (strip_right s) as [|d t]; cbn [String.length]; lia.
Qed.

Lemma FindAllIndex_nil i s : FindAllIndex alnum i s = [] <-> no_alnum s = true.
Proof.
  revert i. induction s as [|c s IH]; intros i; cbn; [done|].
  destruct (alnum c); cbn; [done|apply IH].
Qed.

Lemma FindAllIndex_first i s :
  no_alnum s = false ->
  exists e rest, FindAllIndex alnum i s =
    ((i + (String.length s - String.length (strip_left s)))%nat, e) :: rest.
Proof.
  revert i. induction s as [|c s IH]; intros i H; [done|]. cbn [FindAllIndex strip_left].
  unfold no_alnum in H. cbn in H. destruct (alnum c) eqn:Hc.
  - rewrite Nat.sub_diag, Nat.add_0_r. eauto.
  - destruct (IH (S i) H) as (e & rest & ->). exists e, rest. do 2 f_equal.
    assert (Hle : (String.length (strip_left s) <= String.length s)%nat).
    { rewrite strip_left_sdrop, length_sdrop. lia. }
    cbn [String.length]. lia.
Qed.

Lemma FindAllIndex_last i s :
  no_alnum s = false ->
  exists e, last (FindAllIndex alnum i s) =
    Some (e, (i + String.length (strip_right s))%nat).
Proof.
  revert i. induction s as [|c s IH]; intros i H; [done|]. cbn [FindAllIndex strip_right].
  unfold no_alnum in H. cbn in H. fold (no_alnum s) in H.
  destruct (no_alnum s) eqn:Hs.
  - rewrite (proj2 (strip_right_nil s) Hs), (proj2 (FindAllIndex_nil (S i) s) Hs).
    rewrite andb_true_r in H. breflect. rewrite H. exists i. cbn. by rewrite Nat.add_1_r.
  - destruct (IH (S i) eq_refl) as (e & Hr).
    destruct (strip_right s) as [|d t] eqn:Ht.
    { apply strip_right_nil in Ht. congruence. }
    assert (Hlen : forall l, (S i + String.length (String d t))%nat = l ->
                             (i + String.length (String c (String d t)))%nat = l) by (cbn; lia).
    rewrite (Hlen _ eq_refl).
    destruct (alnum c); rewrite ?last_cons, Hr; eauto.
Qed.

(** The slice the code takes between the first and the last valid index. *)
Definition trim_indexes (s : string) : string :=
  match head (FindAllIndex alnum 0 s), last (FindAllIndex alnum 0 s) with
  | Some (first, _), Some (_, last) => slice s first last
  | _, _ => s
  end.

Lemma trim_indexes_strip s : trim_indexes s = strip s.
Proof.
  unfold trim_indexes, strip. destruct (no_alnum s) eqn:Hs.
  - by rewrite (proj2 (FindAllIndex_nil 0 s) Hs).
  - destruct (FindAllIndex_first 0 s Hs) as (e & rest & Hf).
    destruct (FindAllIndex_last 0 s Hs) as (e' & Hl). rewrite Hl, Hf. cbn [head].
    unfold slice. cbn [Nat.add]. rewrite <- strip_left_sdrop, <- strip_right_left_length.
    by rewrite <- strip_right_stake.
Qed.

(** *** Replacing illegal runes *)

Lemma replace_illegal_legal k s : string_all legal (replace_illegal k s) = true.
Proof.
  revert k. induction s as [|c s IH]; intros [|k]; cbn; try done.
  destruct (legal c) eqn:Hc; cbn; rewrite ?Hc, IH; done.
Qed.

Lemma replace_illegal_length k s :
  (String.length (replace_illegal k s) <= String.length s)%nat.
Proof.
  revert k. induction s as [|c s IH]; intros [|k]; cbn; try lia.
  - destruct (legal c); cbn; apply le_n_S, IH.
  - specialize (IH k). lia.
Qed.

Lemma replace_illegal_id s : string_all legal s = true -> replace_illegal 0 s = s.
Proof. induction s as [|c s IH]; cbn; intros H; breflect; [done|]. rewrite H. by f_equal; auto. Qed.

(** The continuation bytes of a multi-byte rune are not ASCII, so no legal
    byte is swallowed with an illegal rune. *)
Definition high (c : ascii) : bool := 128 <=? byte_of c.

Lemma DecodeRune_high c s :
  string_all high (stake (Nat.pred (snd (DecodeRune (String c s)))) s) = true.
Proof.
  cbn [DecodeRune]. assert (Hc : forall d, cont d = true -> high d = true).
  { unfold cont, high, in_range. intros d H. breflect. apply Z.leb_le. lia. }
  assert (Hlo : forall b n lo hi, rune_shape b = Some (n, lo, hi) -> 128 <= lo).
  { unfold rune_shape. intros b n lo hi. repeat case_match; intros; simplify_eq; lia. }
  assert (Hr : forall lo hi d, 128 <= lo -> in_range lo hi (byte_of d) = true -> high d = true).
  { unfold in_range, high. intros lo hi d ? H. breflect. apply Z.leb_le. lia. }
  destruct (byte_of c <? 128); [done|].
  destruct (rune_shape (byte_of c)) as [[[n lo] hi]|] eqn:Hs; [|by destruct s].
  apply Hlo in Hs.
  destruct n as [|[|[|[|[|n]]]]]; destruct s as [|c1 [|c2 [|c3 s]]]; try done;
    match goal with |- context [if ?b then _ else _] => destruct b eqn:E end; try done;
    breflect; cbn; rewrite ?(Hr lo hi c1), ?(Hc c2), ?(Hc c3); done.
Qed.

Lemma replace_illegal_cons c s :
  replace_illegal 0 (String c s) =
  if legal c then String c (replace_illegal 0 s)
  else String "-" (replace_illegal (Nat.pred (snd (DecodeRune (String c s)))) s).
Proof. done. Qed.

Lemma last_is_cons p c s : last_is p s = true -> last_is p (String c s) = true.
Proof. by destruct s. Qed.

Lemma replace_illegal_last k s :
  string_all high (stake k s) = true -> last_is alnum s = true ->
  last_is alnum (replace_illegal k s) = true.
Proof.
  revert k. induction s as [|c s IH]; intros k Hk H; [done|].
  destruct s as [|d s'].
  - cbn in H. destruct k as [|k]; cbn in *.
    + rewrite (alnum_legal c H). cbn. done.
    + breflect. unfold high in *. breflect.
      apply alnum_legal, legal_ascii in H. breflect. lia.
  - assert (Hl : last_is alnum (String d s') = true) by done.
    destruct k as [|k].
    + rewrite replace_illegal_cons. destruct (legal c); apply last_is_cons, IH; auto using DecodeRune_high.
    + apply IH; [|done]. cbn in Hk. breflect. done.
Qed.

Lemma replace_illegal_first s :
  first_is alnum s = true -> first_is alnum (replace_illegal 0 s) = true.
Proof. destruct s as [|c s]; cbn; [done|]. intros H. by rewrite (alnum_legal c H). Qed.

(** *** The service name as one formula *)

Section ServiceNames.
Context `{UnicodeTables}.

(** Lower-case, strip, cut at 63 bytes, replace: without the regular
    expression and its early return. *)
Definition service_name_spec (id : string) : string :=
  replace_illegal 0 (stake 63 (strip (ToLower id))).

Lemma truncate_63 s : (if (63 <? String.length s)%nat then slice s 0 63 else s) = stake 63 s.
Proof.
  destruct (Nat.ltb_spec 63 (String.length s)).
  - unfold slice. by rewrite sdrop_0.
  - by rewrite stake_ge.
Qed.

(** The formula is what the theorems below compute with. *)
Lemma service_name_formula id : VolumeIDToServiceName id = service_name_spec id.
Proof.
  transitivity (let s := stake 63 (strip (ToLower id)) in
                if match_all validIDRegex s then s else replace_illegal 0 s).
  - rewrite <- truncate_63, <- trim_indexes_strip. done.
  - cbv zeta. rewrite validIDRegex_valid_name. destruct (valid_name _) eqn:Hv; [|done].
    by rewrite <- (replace_illegal_id _ (valid_name_legal _ Hv)).
Qed.

(** C25: the regular-expression test of [VolumeIDToServiceName] is only a
    shortcut: on every input the function lower-cases the id, strips what
    stands before the first and after the last alphanumeric byte, keeps 63
    bytes and replaces every illegal rune by a dash. *)
Theorem VolumeIDToServiceName_reference (id : string) :
  VolumeIDToServiceName id = replace_illegal 0 (stake 63 (strip (ToLower id))).
Proof. apply service_name_formula. Qed.

Lemma strip_first s : no_alnum s = false -> first_is alnum (strip s) = true.
Proof.
  unfold strip. intros Hs. rewrite Hs. induction s as [|c s IH]; [done|].
  cbn [strip_left]. destruct (alnum c) eqn:Hc.
  - cbn. destruct (strip_right s); rewrite ?Hc; cbn; by rewrite ?Hc.
  - apply IH. unfold no_alnum in Hs. cbn in Hs. by rewrite Hc in Hs.
Qed.

Lemma strip_right_last s : strip_right s <> "" -> last_is alnum (strip_right s) = true.
Proof.
  induction s as [|c s IH]; cbn; [done|]. intros Hne.
  destruct (strip_right s) as [|d t]; [|apply last_is_cons, IH; done].
  destruct (alnum c) eqn:Hc; [cbn; by rewrite Hc|done].
Qed.

Lemma strip_last s : no_alnum s = false -> last_is alnum (strip s) = true.
Proof.
  intros Hs. pose proof (strip_first s Hs) as Hf. unfold strip in *. rewrite Hs in *.
  apply strip_right_last. intros E. by rewrite E in Hf.
Qed.

Lemma first_is_stake p n s : first_is p s = true -> first_is p (stake (S n) s) = true.
Proof. by destruct s. Qed.

Lemma no_alnum_false_last s : last_is alnum s = true -> no_alnum s = false.
Proof.
  induction s as [|c s IH]; [done|]. unfold no_alnum. cbn [string_all last_is].
  destruct s as [|d s]; [intros Hc; by rewrite Hc|]. intros Hl. fold (no_alnum (String d s)).
  rewrite IH by done. apply andb_false_r.
Qed.

Lemma strip_id s : first_is alnum s = true -> last_is alnum s = true -> strip s = s.
Proof.
  intros Hf Hl. unfold strip. rewrite (no_alnum_false_last s Hl).
  assert (strip_left s = s) as -> by (destruct s as [|c s]; cbn in *; [done|by rewrite Hf]).
  clear Hf. induction s as [|c s IH]; [done|]. cbn.
  destruct s as [|d s]; [cbn in *; by rewrite Hl|]. rewrite IH by done. done.
Qed.

Lemma ToLower_legal s : string_all legal s = true -> ToLower s = s.
Proof.
  intros Hs. unfold ToLower, isASCII.
  rewrite (string_all_impl legal _ s legal_ascii Hs).
  induction s as [|c s IH]; [done|]. cbn in *. breflect.
  rewrite legal_lower by done. by f_equal; auto.
Qed.

Lemma service_name_no_alnum s : no_alnum s = true -> no_alnum (replace_illegal 0 s) = true.
Proof.
  assert (Hk : forall k, no_alnum s = true -> no_alnum (replace_illegal k s) = true).
  { unfold no_alnum. induction s as [|c s IH]; intros [|k] Hs; cbn in *; try done; breflect.
    - destruct (legal c); cbn; rewrite ?IH; try done. by rewrite H0.
    - auto. }
  apply Hk.
Qed.

Lemma service_name_first id :
  first_is alnum (service_name_spec id) = negb (no_alnum (ToLower id)).
Proof.
  unfold service_name_spec. destruct (no_alnum (ToLower id)) eqn:Hn; cbn [negb].
  - unfold strip. rewrite Hn.
    assert (Ht : no_alnum (stake 63 (ToLower id)) = true) by (by apply string_all_stake).
    apply service_name_no_alnum in Ht.
    destruct (replace_illegal _ _) as [|c t]; [done|].
    unfold no_alnum in Ht. cbn [string_all] in Ht. breflect. done.
  - by apply replace_illegal_first, first_is_stake, strip_first.
Qed.

Lemma service_name_last id :
  (String.length (strip (ToLower id)) <= 63)%nat ->
  last_is alnum (service_name_spec id) = negb (no_alnum (ToLower id)).
Proof.
  intros Hlen. unfold service_name_spec. rewrite stake_ge by done.
  destruct (no_alnum (ToLower id)) eqn:Hn; cbn [negb].
  - unfold strip. rewrite Hn. apply service_name_no_alnum in Hn.
    apply not_true_is_false. intros Hl%no_alnum_false_last. congruence.
  - apply replace_illegal_last; [done|]. by apply strip_last.
Qed.

Lemma service_name_legal id : string_all legal (service_name_spec id) = true.
Proof. apply replace_illegal_legal. Qed.

Lemma service_name_length id : (String.length (service_name_spec id) <= 63)%nat.
Proof.
  unfold service_name_spec. etrans; [apply replace_illegal_length|]. rewrite length_stake. lia.
Qed.

Lemma service_name_fixed s :
  string_all legal s = true -> (String.length s <= 63)%nat -> strip s = s ->
  service_name_spec s = s.
Proof.
  intros Hl Hlen Hs. unfold service_name_spec. rewrite ToLower_legal by done.
  rewrite Hs, stake_ge by done. by apply replace_illegal_id.
Qed.

Lemma ToLower_nfs r : exists t, ToLower ("nfs-" +:+ r) = String "n" t.
Proof. unfold ToLower. destruct (isASCII _); [by eexists|]. cbn. eexists. reflexivity. Qed.

Lemma nfs_id id : IsNFSVolumeID id = true -> ArrayToNFSVolumeID (ToArrayVolumeID id) = id.
Proof.
  unfold IsNFSVolumeID, hasNFSPrefix, ArrayToNFSVolumeID, ToArrayVolumeID.
  intros [r ->]%HasPrefix_true. by rewrite TrimPrefix_app.
Qed.

(** A volume with the prefix has a name. *)
Lemma service_name_nonempty id : IsNFSVolumeID id = true -> VolumeIDToServiceName id <> "".
Proof.
  intros [r ->]%HasPrefix_true. change (CsiNfsPrefixDash +:+ r) with ("nfs-" +:+ r).
  rewrite service_name_formula. intros E. pose proof (service_name_first ("nfs-" +:+ r)) as Hf. rewrite E in Hf.
  destruct (ToLower_nfs r) as [t Ht]. rewrite Ht in Hf. discriminate Hf.
Qed.

(** C26: whatever the volume id, the service name consists of lower-case
    letters, digits, dashes and dots, has at most 63 bytes, and begins with a
    letter or digit exactly when the lower-cased id holds one. *)
Theorem VolumeIDToServiceName_legal (id : string) :
  string_all legal (VolumeIDToServiceName id) = true /\
  (String.length (VolumeIDToServiceName id) <= 63)%nat /\
  first_is alnum (VolumeIDToServiceName id) = negb (no_alnum (ToLower id)).
Proof.
  rewrite service_name_formula.
  auto using service_name_legal, service_name_length, service_name_first.
Qed.

(** when at most 63 bytes remain after stripping, the service name also
    ends with a letter or digit (if the id holds one), and naming is
    idempotent: the service name of a service name is itself. *)
Theorem VolumeIDToServiceName_idempotent (id : string)
    (Hlen : (String.length (strip (ToLower id)) <= 63)%nat) :
  last_is alnum (VolumeIDToServiceName id) = negb (no_alnum (ToLower id)) /\
  VolumeIDToServiceName (VolumeIDToServiceName id) = VolumeIDToServiceName id.
Proof.
  rewrite !service_name_formula. split; [by apply service_name_last|].
  apply service_name_fixed; [apply service_name_legal|apply service_name_length|].
  destruct (no_alnum (ToLower id)) eqn:Hn.
  - unfold strip, service_name_spec. unfold strip in *. rewrite Hn in *.
    rewrite stake_ge, service_name_no_alnum by done. done.
  - apply strip_id; rewrite ?service_name_first, ?service_name_last, ?Hn; done.
Qed.

(** an id that already is a valid name (what [validIDRegex] accepts) of at
    most 63 bytes is kept unchanged, so naming is injective on such ids. *)
Theorem VolumeIDToServiceName_valid (id : string)
    (Hvalid : match_all validIDRegex id = true)
    (Hlen : (String.length id <= 63)%nat) :
  VolumeIDToServiceName id = id.
Proof.
  rewrite validIDRegex_valid_name in Hvalid.
  rewrite service_name_formula. apply service_name_fixed; [by apply valid_name_legal|done|].
  unfold valid_name in Hvalid. breflect. by apply strip_id.
Qed.

(** the pattern [^[a-z0-9]+([-.]?[a-z0-9]+)*$] accepts exactly the
    non-empty strings of legal bytes that begin and end with a letter or digit
    and in which no two separators are adjacent. *)
Theorem validIDRegex_language (s : string) :
  matches validIDRegex s <->
  first_is alnum s = true /\ last_is alnum s = true /\
  string_all legal s = true /\ no_double_sep s = true.
Proof.
  rewrite <- match_all_spec, validIDRegex_valid_name. unfold valid_name.
  rewrite !andb_true_iff. tauto.
Qed.

(** service names are neither injective nor always valid: two volume ids
    of five bytes share a name, and cutting at 63 bytes can leave a trailing
    separator, after which naming is not idempotent. *)
Theorem VolumeIDToServiceName_limits :
  VolumeIDToServiceName "vol_1" = VolumeIDToServiceName "vol-1" /\
  exists id, last_is sep (VolumeIDToServiceName id) = true /\
             VolumeIDToServiceName (VolumeIDToServiceName id) <> VolumeIDToServiceName id.
Proof.
  split; [vm_compute; reflexivity|].
  exists "aaaaaaaaaaaaaaaaaaaaaaaaaaaaaaaaaaaaaaaaaaaaaaaaaaaaaaaaaaaaaa-b".
  split; [vm_compute; reflexivity|].
  intros E%(f_equal String.length). vm_compute in E. discriminate E.
Qed.

(** The inputs of the repository's own unit test. *)
Example service_name_tests :
  VolumeIDToServiceName <$>
    ["csm-sharednfs-valid-id-123"; "csm_sharednfs_id_123"; "-_-csm_sharednfs_id_123_-_";
     "CSM_SHAREDNFS_ID_123";
     "this-string-is-33-characters-longthis-string-is-33-characters-long"] =
    ["csm-sharednfs-valid-id-123"; "csm-sharednfs-id-123"; "csm-sharednfs-id-123";
     "csm-sharednfs-id-123";
     "this-string-is-33-characters-longthis-string-is-33-characters-l"].
Proof. vm_compute. reflexivity. Qed.

End ServiceNames.

Lemma VolumeIDToServiceName_idempotent_witness :
  VolumeIDToServiceName (H := ascii_tables) (VolumeIDToServiceName (H := ascii_tables) "_Vol 7_") = "vol-7".
Proof.
  destruct (VolumeIDToServiceName_idempotent (H := ascii_tables) "_Vol 7_") as [_ E].
  - apply Nat.leb_le. vm_compute. reflexivity.
  - exact E.
Defined.

Lemma VolumeIDToServiceName_valid_witness : VolumeIDToServiceName (H := ascii_tables) "nfs-vol.1" = "nfs-vol.1".
Proof.
  apply (VolumeIDToServiceName_valid (H := ascii_tables)); [|apply Nat.leb_le]; vm_compute; reflexivity.
Defined.

(** C35: the [nfs-] prefix is a faithful tag: adding it gives an NFS volume id
    and removing it restores the array id; removing and adding it is the
    identity on NFS volume ids, and array ids without it are left alone. *)
Theorem volume_id_roundtrip (id : string) :
  ToArrayVolumeID (ArrayToNFSVolumeID id) = id /\
  IsNFSVolumeID (ArrayToNFSVolumeID id) = true /\
  (if IsNFSVolumeID id then ArrayToNFSVolumeID (ToArrayVolumeID id) = id
   else ToArrayVolumeID id = id).
Proof.
  unfold ToArrayVolumeID, ArrayToNFSVolumeID, IsNFSVolumeID, hasNFSPrefix.
  split; [apply TrimPrefix_app|]. split; [apply HasPrefix_app|].
  destruct (HasPrefix id CsiNfsPrefixDash) eqn:E; [|by apply TrimPrefix_id].
  apply HasPrefix_true in E as [r ->]. by rewrite TrimPrefix_app.
Qed.
