(* ===== verification/Messages.v ===== *)
(** * Data exchanged by the components

    Go errors, the messages of [src/nfs/proto/nfs.proto], and the fields the
    program reads or writes of the CSI requests and of the Kubernetes objects.
    A pointer that may be nil is an [option], a Go map a [gomap]. *)

From S2P Require Import Prelude GoStrings.

(** ** Errors *)

(** [err_text] is the message ([err.Error()] for errors made by [fmt.Errorf]
    and for those that reach the program from outside); [err_code] the gRPC code given
    to [status.Errorf], whose description is then [err_text]; [err_notfound]
    what [k8serrors.IsNotFound] answers. *)
Record go_error := GoError {
  err_text : string;
  err_code : option Z;
  err_notfound : bool;
}.

Definition Errorf (msg : string) : go_error := GoError msg None false.
Definition status_Errorf (code : Z) (msg : string) : go_error := GoError msg (Some code) false.

(** The [google.golang.org/grpc/codes] in use. *)
Definition codes_DeadlineExceeded : Z := 4.
Definition codes_ResourceExhausted : Z := 8.
Definition codes_Internal : Z := 13.

(** [%s]/[%v] of an error value. *)
Definition show_err (e : option go_error) : string :=
  match e with Some e => err_text e | None => "<nil>" end.

(** A Go pair [(value, err)] of which exactly one is meaningful. *)
Abbreviation result A := (A + go_error)%type.
(** A Go pair of which both components are returned. *)
Abbreviation pair_err A := (A * option go_error)%type.

(** ** [src/nfs/proto]: messages between the controller and the nodes *)

Record ExportNfsVolumeRequest := {
  exreq_VolumeId : string;
  exreq_ExportNfsContext : gomap;
}.
Record ExportNfsVolumeResponse := {
  exresp_VolumeId : string;
  exresp_ExportNfsContext : gomap;
}.
Record UnexportNfsVolumeRequest := {
  unreq_VolumeId : string;
  unreq_UnexportNfsContext : gomap;
}.
Record UnexportNfsVolumeResponse := {
  unresp_VolumeId : string;
  unresp_UnexportNfsContext : gomap;
}.
Record PingRequest := {
  ping_NodeIpAddress : string;
  ping_DumpAllExports : bool;
}.
Record PingResponse := {
  pong_Ready : bool;
  pong_Status : string;
}.
Record GetExportsResponse := { exports_Exports : list string }.
Record ExportMultipleNfsVolumesRequest := {
  exm_VolumeIds : list string;
  exm_ExportNfsContext : gomap;
}.
Record ExportMultipleNfsVolumesResponse := {
  exmr_SuccessfulIds : list string;
  exmr_UnsuccessfulIds : list string;
  exmr_ExportNfsContext : gomap;
}.
Record UnexportMultipleNfsVolumesRequest := {
  unm_VolumeIds : list string;
  unm_ExportNfsContext : gomap;
}.
Record UnexportMultipleNfsVolumesResponse := {
  unmr_SuccessfulIds : list string;
  unmr_UnsuccessfulIds : list string;
  unmr_ExportNfsContext : gomap;
}.

(** ** CSI messages (the fields the program uses) *)

Inductive AccessType := AccessMount | AccessBlock.
Inductive AccessMode :=
  | UNKNOWN
  | SINGLE_NODE_WRITER
  | SINGLE_NODE_READER_ONLY
  | MULTI_NODE_READER_ONLY
  | MULTI_NODE_SINGLE_WRITER
  | MULTI_NODE_MULTI_WRITER.
Record VolumeCapability := {
  cap_AccessType : AccessType;
  cap_AccessMode : AccessMode;
}.

Record CreateVolumeRequest := {
  cv_Name : string;
  cv_Parameters : gomap;
  cv_VolumeCapabilities : list VolumeCapability;
}.
Record Volume := {
  vol_VolumeId : string;
  vol_VolumeContext : gomap;
}.
Record CreateVolumeResponse := { cvr_Volume : option Volume }.

Record ControllerPublishVolumeRequest := {
  pub_VolumeId : string;
  pub_NodeId : string;
  pub_VolumeCapability : option VolumeCapability;
  pub_VolumeContext : gomap;
}.
Record ControllerPublishVolumeResponse := { pubr_PublishContext : gomap }.

Record ControllerUnpublishVolumeRequest := {
  unpub_VolumeId : string;
  unpub_NodeId : string;
}.

(** A message without fields. *)
Inductive ControllerUnpublishVolumeResponse := Unpublished.

Record NodeStageVolumeRequest := {
  stage_VolumeId : string;
  stage_StagingTargetPath : string;
}.
Record NodeUnstageVolumeRequest := {
  unstage_VolumeId : string;
  unstage_StagingTargetPath : string;
}.
Record NodePublishVolumeRequest := {
  npub_VolumeId : string;
  npub_StagingTargetPath : string;
  npub_TargetPath : string;
}.
Record NodeUnpublishVolumeRequest := {
  nunpub_VolumeId : string;
  nunpub_TargetPath : string;
}.

(** ** Kubernetes objects (the fields the program uses) *)

Record Service := {
  svc_Name : string;
  svc_Namespace : string;
  svc_Labels : gomap;
  svc_Annotations : gomap;
  svc_ClusterIP : string;
  svc_Ports : list (string * Z);
}.

Record Endpoint := {
  ep_Addresses : list string;
  ep_Ready : option bool;
}.

Record EndpointSlice := {
  es_Name : string;
  es_Namespace : string;
  es_Labels : gomap;
  es_Annotations : gomap;
  es_Endpoints : list Endpoint;
  es_Ports : list (string * Z);
}.

Record Node := {
  node_Name : string;
  node_Labels : gomap;
  node_Annotations : gomap;
  node_Addresses : list string;
}.

(** [pv.Spec.CSI] is a pointer: [pv_VolumeHandle] is [None] when it is nil. *)
Record PersistentVolume := {
  pv_Name : string;
  pv_VolumeHandle : option string;
}.

(** ** [NodeStatus] ([src/nfs/nodemonitor.go]) *)

Record NodeStatus := {
  ns_nodeName : string;
  ns_nodeIP : string;
  ns_badPings : Z;
  ns_goodPings : Z;
  ns_inRecovery : bool;
  ns_online : bool;
  ns_status : string;
  ns_dumpingExports : bool;
}.

Definition empty_slice : EndpointSlice := {|
  es_Name := ""; es_Namespace := ""; es_Labels := None; es_Annotations := None;
  es_Endpoints := []; es_Ports := [];
|}.
Definition empty_status : NodeStatus := {|
  ns_nodeName := ""; ns_nodeIP := ""; ns_badPings := 0; ns_goodPings := 0;
  ns_inRecovery := false; ns_online := false; ns_status := ""; ns_dumpingExports := false;
|}.

(** ** Contexts: the incoming gRPC metadata, as [getRequestIDFromContext]
    reads it; deadlines are decided by the environment. *)
Record context := Context_ { ctx_metadata : option (gmap string (list string)) }.
Definition Background : context := Context_ None.
