(* ===== verification/GoProg.v ===== *)
(** * Programs: the operations of the code and their execution

    A Go function is a [prog A]: a tree of operations on the state of the
    process ([locE]: package variables, mutexes, [sync.Map]s, the exports
    file) and of calls to the outside ([extE]: operating system, host driver,
    Kubernetes API, gRPC peers, time).  [run] executes one program on its own,
    [trace] lists the calls of that run with their answers, [cstep] interleaves
    goroutines at every operation. *)

From S2P Require Import Prelude GoStrings Messages.

(** ** Operations on the state of the process *)

Inductive lockmap := PVLock | nfsPVLock.
Inductive mutex := exportsLock | mountMutex | exportCountsLock | monitorMux.

#[export] Instance lockmap_eq_dec : EqDecision lockmap.
Proof. solve_decision. Defined.
#[export] Instance mutex_eq_dec : EqDecision mutex.
Proof. solve_decision. Defined.

(** Package variables; local variables that are shared with a goroutine
    ([V_err]); [NodeStatus] structures, which [nodeIPAddress] points to, and
    the EndpointSlices that recovery shares between goroutines ([V_status],
    [V_slice]; a pointer is a number). *)
Inductive var : Type -> Type :=
  | V_generation : var Z
  | V_syncedGeneration : var Z
  | V_savedUpdates : var Z
  | V_exportCounts : var (gmap string Z)
  | V_pingRate : var Z
  | V_nodeIPAddress : var (gmap string nat)
  | V_status (p : nat) : var NodeStatus
  | V_slice (l : nat) : var EndpointSlice
  | V_err (l : nat) : var (option go_error).

Inductive locE : Type -> Type :=
  | LoadOrStore (m : lockmap) (key value : string) : locE (string * bool)
  | Delete (m : lockmap) (key : string) : locE unit
  | Lock (m : mutex) : locE unit
  | Unlock (m : mutex) : locE unit
  | Get {A} (v : var A) : locE A
  | Set_ {A} (v : var A) (x : A) : locE unit
  | PutCount (node : string) (count : Z) : locE unit (* [exportCounts[node] = count] *)
  | PutNode (ip : string) (p : nat) : locE unit (* [nodeIPAddress[ip] = p] *)
  | NewErr : locE nat
  | NewStatus (s : NodeStatus) : locE nat
  | NewSlice (s : EndpointSlice) : locE nat
  | ReadFile : locE string
  | AppendFile (s : string) : locE unit
  | TruncFile : locE unit.

(** ** Calls to the outside *)

Inductive exec_kind := ExecuteCommand | ExecuteCommandContext | GetCombinedOutput.

Inductive extE : Type -> Type :=
  (* operating system; an answer [Some e] is a failure *)
  | OsStat (path : string) : extE (option go_error)
  | OsGetenv (name : string) : extE string
  | OsMkdirAll (path : string) (perm : Z) : extE (option go_error)
  | OsChown (path : string) (uid gid : Z) : extE (option go_error)
  | OsChmod (path : string) (mode : Z) : extE (option go_error)
  | OsOpen (path : string) : extE (option go_error)
  | OsOpenFile (path : string) (truncate : bool) : extE (option go_error)
  | OsRead : extE (option (nat * go_error))
  | OsWrite : extE (option (nat * go_error))
  | OsClose : extE (option go_error)
  | SysUnmount (target : string) (flag : Z) : extE (option go_error)
  | Exec (kind : exec_kind) (name : string) (args : list string) : extE (pair_err string)
  (* the host driver *)
  | VcsiCreateVolume (req : CreateVolumeRequest) : extE (pair_err (option CreateVolumeResponse))
  | VcsiControllerPublish (req : ControllerPublishVolumeRequest)
      : extE (pair_err (option ControllerPublishVolumeResponse))
  | VcsiControllerUnpublish (req : ControllerUnpublishVolumeRequest)
      : extE (pair_err (option ControllerUnpublishVolumeResponse))
  | VcsiMountVolume (volumeId nodeName path : string) (ctx : gomap) : extE (pair_err string)
  | VcsiUnmountVolume (volumeId path : string) (ctx : gomap) : extE (option go_error)
  (* the Kubernetes API *)
  | InClusterConfig : extE (option go_error)
  | NewForConfig : extE (option go_error)
  | KubeGetService (ns name : string) : extE (result Service)
  | KubeCreateService (ns : string) (s : Service) : extE (result Service)
  | KubeUpdateService (ns : string) (s : Service) : extE (result Service)
  | KubeDeleteService (ns name : string) : extE (option go_error)
  | KubeGetSlice (ns name : string) : extE (result EndpointSlice)
  | KubeCreateSlice (ns : string) (s : EndpointSlice) : extE (result EndpointSlice)
  | KubeUpdateSlice (ns : string) (s : EndpointSlice) : extE (result EndpointSlice)
  | KubeDeleteSlice (ns name : string) : extE (option go_error)
  | KubeListSlices (ns selector : string) : extE (result (list EndpointSlice))
  | KubeGetPV (name : string) : extE (result PersistentVolume)
  | KubeGetNode (name : string) : extE (result Node)
  | KubeListNodes : extE (result (list Node))
  (* the nodes' gRPC service *)
  | NewClient (address : string) : extE (option go_error)
  | RpcExport (address : string) (req : ExportNfsVolumeRequest)
      : extE (result ExportNfsVolumeResponse)
  | RpcUnexport (address : string) (req : UnexportNfsVolumeRequest)
      : extE (result UnexportNfsVolumeResponse)
  | RpcPing (address : string) (req : PingRequest) : extE (result PingResponse)
  | RpcGetExports (address : string) : extE (result GetExportsResponse)
  (* time and scheduling *)
  | Sleep (ns : Z) : extE unit
  | SelectDone (ctx : context) : extE (option go_error)
  | SelectTick : extE bool
  | RangeChoices : extE (list nat). (* of a range over a map, of the scheduler *)

(** ** Programs *)

(** The loops of the code without a bound of their own: a goroutine that
    waits for the entry of a volume, a publication that retries until its
    context ends, the rounds of a monitor, and the ticks of a poll.  They are
    modelled with fuel; [NoFuel l] is a goroutine that is still in [l]. *)
Inductive loop := Waits (m : lockmap) (key : string) | Retries | Rounds | Polls.

Inductive prog (A : Type) : Type :=
  | Ret (a : A)
  | Panic (msg : string)
  | NoFuel (l : loop)
  | Loc {B : Type} (e : locE B) (k : B -> prog A)
  | Ext {B : Type} (e : extE B) (k : B -> prog A)
  | Go (p : prog unit) (k : prog A).
Arguments Ret {A} a.
Arguments Panic {A} msg.
Arguments NoFuel {A} l.
Arguments Loc {A B} e k.
Arguments Ext {A B} e k.
Arguments Go {A} p k.

#[export] Instance prog_ret : MRet prog := fun A a => Ret a.

#[export] Instance prog_bind : MBind prog :=
  fun A B f =>
    fix go (p : prog A) : prog B :=
      match p with
      | Ret a => f a
      | Panic msg => Panic msg
      | NoFuel l => NoFuel l
      | Loc e k => Loc e (fun b => go (k b))
      | Ext e k => Ext e (fun b => go (k b))
      | Go q k => Go q (go k)
      end.

Definition loc {B} (e : locE B) : prog B := Loc e Ret.
Definition ext {B} (e : extE B) : prog B := Ext e Ret.
Definition go (p : prog unit) : prog unit := Go p (Ret tt).

(** [defer d] for the rest of the function [p]: [d] runs when [p] returns and
    when it panics. *)
Fixpoint deferred {A : Type} (p : prog A) (d : prog unit) : prog A :=
  match p with
  | Ret a => d ≫= fun _ => Ret a
  | Panic msg => d ≫= fun _ => Panic msg
  | NoFuel l => NoFuel l
  | Loc e k => Loc e (fun b => deferred (k b) d)
  | Ext e k => Ext e (fun b => deferred (k b) d)
  | Go q k => Go q (deferred k d)
  end.

(** [m.Lock(); defer m.Unlock()] *)
Definition with_lock {A} (m : mutex) (p : prog A) : prog A :=
  _ ← loc (Lock m); deferred p (loc (Unlock m)).

(** The idiom [go func() { ch <- call }(); select { <-ctx.Done(): ..; <-ch: .. }]:
    when the context wins the goroutine is left running. *)
Definition select_call {A B} (ctx : context) (call : prog A)
    (on_done : go_error -> prog B) (on_result : A -> prog B) : prog B :=
  d ← ext (SelectDone ctx);
  match d with
  | Some e => Go (_ ← call; Ret tt) (on_done e)
  | None => r ← call; on_result r
  end.

(** [for _, x := range l { .. }] over a state. *)
Fixpoint foldM {A S} (f : S -> A -> prog S) (s : S) (l : list A) : prog S :=
  match l with
  | [] => Ret s
  | x :: l' => s' ← f s x; foldM f s' l'
  end.

(** The programs one after the other. *)
Fixpoint collect {A} (ps : list (prog A)) : prog (list A) :=
  match ps with
  | [] => Ret []
  | p :: ps => a ← p; l ← collect ps; Ret (a :: l)
  end.

(** Goroutines that their parent starts and waits for, as one program: the
    schedule says which of them makes the next operation; what is left when it
    ends is done one after the other.  For goroutines that never block. *)
Fixpoint interleave {A} (schedule : list nat) (ps : list (prog A)) : prog (list A) :=
  match schedule with
  | [] => collect ps
  | i :: schedule =>
      match ps !! i with
      | None | Some (Ret _) => interleave schedule ps
      | Some (Panic msg) => Panic msg
      | Some (NoFuel l) => NoFuel l
      | Some (Loc e k) => Loc e (fun b => interleave schedule (<[i := k b]> ps))
      | Some (Ext e k) => Ext e (fun b => interleave schedule (<[i := k b]> ps))
      | Some (Go q k) => Go q (interleave schedule (<[i := k]> ps))
      end
  end.

(** The schedule is the environment's. *)
Definition parallel {A} (ps : list (prog A)) : prog (list A) :=
  schedule ← ext RangeChoices; interleave schedule ps.

(** Go ranges over a map in an unspecified order: the environment's choices
    pick the elements one by one. *)
Fixpoint permute {A} (choices : list nat) (l : list A) : list A :=
  match choices with
  | [] => l
  | c :: cs =>
      let i := Nat.modulo c (List.length l) in
      match l !! i with
      | Some x => x :: permute cs (List.firstn i l ++ List.skipn (S i) l)
      | None => l
      end
  end.

Lemma permute_Permutation {A} (choices : list nat) (l : list A) : permute choices l ≡ₚ l.
Proof.
  revert l. induction choices as [|c cs IH]; intros l; cbn; [done|].
  destruct (l !! (c mod List.length l)%nat) as [x|] eqn:E; [|done].
  rewrite IH. rewrite <- (take_drop_middle l _ x E) at 5. by rewrite Permutation_middle.
Qed.

(** ** The state of a process *)

(** Which mutexes are held. *)
Record mutexes := Mutexes {
  mu_exports : bool;
  mu_mount : bool;
  mu_counts : bool;
  mu_monitor : bool;
}.

Definition no_mutex_held : mutexes := Mutexes false false false false.

Definition get_mutex (m : mutex) (h : mutexes) : bool :=
  match m with
  | exportsLock => mu_exports h
  | mountMutex => mu_mount h
  | exportCountsLock => mu_counts h
  | monitorMux => mu_monitor h
  end.

Definition set_mutex (m : mutex) (b : bool) (h : mutexes) : mutexes :=
  let '(Mutexes h1 h2 h3 h4) := h in
  match m with
  | exportsLock => Mutexes b h2 h3 h4
  | mountMutex => Mutexes h1 b h3 h4
  | exportCountsLock => Mutexes h1 h2 b h4
  | monitorMux => Mutexes h1 h2 h3 b
  end.

(** [w_resynced] is a history variable: the contents the exports file had when
    [exportfs -r] last succeeded, that is what the kernel exports. *)
Record world (X : Type) := World {
  w_PVLock : gmap string string;
  w_nfsPVLock : gmap string string;
  w_held : mutexes;
  w_generation : Z;
  w_syncedGeneration : Z;
  w_savedUpdates : Z;
  w_exportCounts : gmap string Z;
  w_pingRate : Z;
  w_nodeIPAddress : gmap string nat;
  w_statuses : list NodeStatus;
  w_slices : list EndpointSlice;
  w_errs : list (option go_error);
  w_exports : string;
  w_resynced : string;
  w_spawned : list (prog unit);
  w_env : X;
}.
Arguments World {X}.
Arguments w_PVLock {X}.
Arguments w_nfsPVLock {X}.
Arguments w_held {X}.
Arguments w_generation {X}.
Arguments w_syncedGeneration {X}.
Arguments w_savedUpdates {X}.
Arguments w_exportCounts {X}.
Arguments w_pingRate {X}.
Arguments w_nodeIPAddress {X}.
Arguments w_statuses {X}.
Arguments w_slices {X}.
Arguments w_errs {X}.
Arguments w_exports {X}.
Arguments w_resynced {X}.
Arguments w_spawned {X}.
Arguments w_env {X}.

(** A process at start-up. *)
Definition initial_world {X} (exports : string) (x : X) : world X :=
  World ∅ ∅ no_mutex_held 0 0 0 ∅ (15 * 10 ^ 9) ∅ [] [] [] exports exports [] x.

Section World.
Context {X : Type}.
Implicit Types w : world X.

Definition set_lockmap (m : lockmap) (l : gmap string string) w : world X :=
  let '(World a b c d e f g r h t q i j k s x) := w in
  match m with
  | PVLock => World l b c d e f g r h t q i j k s x
  | nfsPVLock => World a l c d e f g r h t q i j k s x
  end.
Definition get_lockmap (m : lockmap) w : gmap string string :=
  match m with PVLock => w_PVLock w | nfsPVLock => w_nfsPVLock w end.

Definition set_held (m : mutex) (held : bool) w : world X :=
  let '(World a b c d e f g r h t q i j k s x) := w in
  World a b (set_mutex m held c) d e f g r h t q i j k s x.

Definition set_exports (s : string) w : world X :=
  let '(World a b c d e f g r h t q i j k sp x) := w in World a b c d e f g r h t q i s k sp x.
Definition set_resynced (s : string) w : world X :=
  let '(World a b c d e f g r h t q i j k sp x) := w in World a b c d e f g r h t q i j s sp x.
Definition set_spawned (l : list (prog unit)) w : world X :=
  let '(World a b c d e f g r h t q i j k sp x) := w in World a b c d e f g r h t q i j k l x.
Definition set_env (y : X) w : world X :=
  let '(World a b c d e f g r h t q i j k sp x) := w in World a b c d e f g r h t q i j k sp y.
Definition set_statuses (l : list NodeStatus) w : world X :=
  let '(World a b c d e f g r h t q i j k sp x) := w in World a b c d e f g r h l q i j k sp x.
Definition set_slices (l : list EndpointSlice) w : world X :=
  let '(World a b c d e f g r h t q i j k sp x) := w in World a b c d e f g r h t l i j k sp x.
Definition set_errs (l : list (option go_error)) w : world X :=
  let '(World a b c d e f g r h t q i j k sp x) := w in World a b c d e f g r h t q l j k sp x.

Definition get_var {A} (v : var A) w : A :=
  match v with
  | V_generation => w_generation w
  | V_syncedGeneration => w_syncedGeneration w
  | V_savedUpdates => w_savedUpdates w
  | V_exportCounts => w_exportCounts w
  | V_pingRate => w_pingRate w
  | V_nodeIPAddress => w_nodeIPAddress w
  | V_status p => List.nth p (w_statuses w) empty_status
  | V_slice l => List.nth l (w_slices w) empty_slice
  | V_err l => List.nth l (w_errs w) None
  end.

Definition set_var {A} (v : var A) (y : A) w : world X :=
  let '(World a b c d e f g r h t q i j k s x) := w in
  match v in var B return B -> world X with
  | V_generation => fun y => World a b c y e f g r h t q i j k s x
  | V_syncedGeneration => fun y => World a b c d y f g r h t q i j k s x
  | V_savedUpdates => fun y => World a b c d e y g r h t q i j k s x
  | V_exportCounts => fun y => World a b c d e f y r h t q i j k s x
  | V_pingRate => fun y => World a b c d e f g y h t q i j k s x
  | V_nodeIPAddress => fun y => World a b c d e f g r y t q i j k s x
  | V_status p => fun y => World a b c d e f g r h (<[p:=y]> t) q i j k s x
  | V_slice l => fun y => World a b c d e f g r h t (<[l:=y]> q) i j k s x
  | V_err l => fun y => World a b c d e f g r h t q (<[l:=y]> i) j k s x
  end y.

(** One operation on the state; [None]: the goroutine blocks (a mutex that is
    held; Go aborts on an unlock of a free mutex, which never gets past). *)
Definition loc_step {B} (e : locE B) w : option (B * world X) :=
  match e in locE B return option (B * world X) with
  | LoadOrStore m key v =>
      match get_lockmap m w !! key with
      | Some holder => Some ((holder, true), w)
      | None => Some ((v, false), set_lockmap m (<[key:=v]> (get_lockmap m w)) w)
      end
  | Delete m key => Some (tt, set_lockmap m (delete key (get_lockmap m w)) w)
  | Lock m => if get_mutex m (w_held w) then None else Some (tt, set_held m true w)
  | Unlock m => if get_mutex m (w_held w) then Some (tt, set_held m false w) else None
  | Get v => Some (get_var v w, w)
  | Set_ v y => Some (tt, set_var v y w)
  | PutCount node n => Some (tt, set_var V_exportCounts (<[node:=n]> (w_exportCounts w)) w)
  | PutNode ip p => Some (tt, set_var V_nodeIPAddress (<[ip:=p]> (w_nodeIPAddress w)) w)
  | NewStatus s => Some (List.length (w_statuses w), set_statuses (w_statuses w ++ [s]) w)
  | NewSlice s => Some (List.length (w_slices w), set_slices (w_slices w ++ [s]) w)
  | NewErr => Some (List.length (w_errs w), set_errs (w_errs w ++ [None]) w)
  | ReadFile => Some (w_exports w, w)
  | AppendFile s => Some (tt, set_exports (w_exports w +:+ s) w)
  | TruncFile => Some (tt, set_exports "" w)
  end.

End World.

(** The outside world: an answer to every call. *)
Class Env (X : Type) := env_step : forall B, extE B -> X -> B * X.
Arguments env_step {X _ B}.

Definition is_exportfs_r (name : string) (args : list string) : bool :=
  String.eqb name "chroot" &&
  bool_decide (args = ["/noderoot"; "/usr/sbin/exportfs"; "-r"]).

(** [exportfs -r] makes the kernel export what the exports file says. *)
Definition note_exec {X B} (e : extE B) : B -> world X -> world X :=
  match e in extE B return B -> world X -> world X with
  | Exec _ name args => fun r w =>
      if is_exportfs_r name args && bool_decide (r.2 = None)
      then set_resynced (w_exports w) w else w
  | _ => fun _ w => w
  end.

Definition ext_step {X} `{Env X} {B} (e : extE B) (w : world X) : B * world X :=
  let '(b, x) := env_step e (w_env w) in (b, note_exec e b (set_env x w)).

(** ** Running one program *)

Inductive outcome (A : Type) :=
  | Done (a : A)
  | Panicked (msg : string)
  | Exhausted
  | Blocked.
Arguments Done {A} a.
Arguments Panicked {A} msg.
Arguments Exhausted {A}.
Arguments Blocked {A}.

Definition spawn {X} (p : prog unit) (w : world X) : world X :=
  set_spawned (w_spawned w ++ [p]) w.

Section Run.
Context {X : Type} `{Env X}.

Fixpoint run {A : Type} (p : prog A) (w : world X) : outcome A * world X :=
  match p with
  | Ret a => (Done a, w)
  | Panic msg => (Panicked msg, w)
  | NoFuel _ => (Exhausted, w)
  | Loc e k =>
      match loc_step e w with
      | Some (b, w') => run (k b) w'
      | None => (Blocked, w)
      end
  | Ext e k => let '(b, w') := ext_step e w in run (k b) w'
  | Go q k => run k (spawn q w)
  end.

Lemma run_bind {A B} (f : A -> prog B) (p : prog A) w :
  run (p ≫= f) w =
  match run p w with
  | (Done a, w') => run (f a) w'
  | (Panicked msg, w') => (Panicked msg, w')
  | (Exhausted, w') => (Exhausted, w')
  | (Blocked, w') => (Blocked, w')
  end.
Proof.
  revert w. induction p; intros w; cbn; try done.
  - destruct (loc_step e w) as [ [b w'] |]; [apply H0|done].
  - destruct (ext_step e w) as [b w']. apply H0.
Qed.

Lemma run_deferred {A} (p : prog A) d w :
  run (deferred p d) w =
  match run p w with
  | (Done a, w') => run (d ≫= fun _ => Ret a) w'
  | (Panicked msg, w') => run (d ≫= fun _ => Panic msg) w'
  | (Exhausted, w') => (Exhausted, w')
  | (Blocked, w') => (Blocked, w')
  end.
Proof.
  revert w. induction p; intros w; cbn; try done.
  - destruct (loc_step e w) as [ [b w'] |]; [apply H0|done].
  - destruct (ext_step e w) as [b w']. apply H0.
Qed.

Lemma run_ret {A} (a : A) w : run (mret a) w = (Done a, w).
Proof. done. Qed.

(** *** The calls of a run

    What the outside sees of [run p w]: the calls that [p] makes, in order,
    each with the answer it got. *)
Inductive event := | Event {B : Type} (e : extE B) (answer : B).

Fixpoint trace {A : Type} (p : prog A) (w : world X) : list event :=
  match p with
  | Ret _ | Panic _ | NoFuel _ => []
  | Loc e k => match loc_step e w with Some (b, w') => trace (k b) w' | None => [] end
  | Ext e k => let '(b, w') := ext_step e w in Event e b :: trace (k b) w'
  | Go q k => trace k (spawn q w)
  end.

Lemma trace_bind {A B} (f : A -> prog B) (p : prog A) w :
  trace (p ≫= f) w =
  trace p w ++ match run p w with (Done a, w') => trace (f a) w' | _ => [] end.
Proof.
  revert w. induction p as [A a|A msg|A|A C e k IH|A C e k IH|A q IHq k IH]; intros w; cbn; try done.
  - destruct (loc_step e w) as [ [b w'] |]; [apply IH|done].
  - destruct (ext_step e w) as [b w']. cbn. f_equal. apply IH.
Qed.

Lemma trace_deferred {A} (p : prog A) d w :
  trace (deferred p d) w =
  trace p w ++ match run p w with
               | (Done _, w') | (Panicked _, w') => trace d w'
               | _ => []
               end.
Proof.
  revert w. induction p as [A a|A msg|A|A C e k IH|A C e k IH|A q IHq k IH]; intros w; cbn; try done.
  - change (trace (d ≫= fun _ => Ret a) w = trace d w). rewrite trace_bind.
    destruct (run d w) as [ [] ?]; apply app_nil_r.
  - change (trace (d ≫= fun _ => @Panic A msg) w = trace d w). rewrite trace_bind.
    destruct (run d w) as [ [] ?]; apply app_nil_r.
  - destruct (loc_step e w) as [ [b w'] |]; [apply IH|done].
  - destruct (ext_step e w) as [b w']. cbn. f_equal. apply IH.
Qed.
End Run.

(** ** Mutexes *)

Definition touches_mutex (m : mutex) {B} (e : locE B) : bool :=
  match e with
  | Lock m' | Unlock m' => bool_decide (m' = m)
  | _ => false
  end.

Lemma get_set_mutex m b h : get_mutex m (set_mutex m b h) = b.
Proof. by destruct m, h. Qed.

Lemma get_set_mutex_ne m m' b h : m <> m' -> get_mutex m (set_mutex m' b h) = get_mutex m h.
Proof. by destruct m, m', h. Qed.

Lemma set_set_mutex m b b' h : set_mutex m b (set_mutex m b' h) = set_mutex m b h.
Proof. by destruct m, h. Qed.

Lemma set_mutex_id m h : set_mutex m (get_mutex m h) h = h.
Proof. by destruct m, h. Qed.

Lemma w_held_set_held {X} m b (w : world X) : w_held (set_held m b w) = set_mutex m b (w_held w).
Proof. by destruct w. Qed.

Lemma set_held_set_held {X} m b b' (w : world X) :
  set_held m b (set_held m b' w) = set_held m b w.
Proof. destruct w. cbn. by rewrite set_set_mutex. Qed.

Lemma set_held_id {X} m (w : world X) : set_held m (get_mutex m (w_held w)) w = w.
Proof. destruct w. cbn. by rewrite set_mutex_id. Qed.

#[export] Hint Rewrite @get_set_mutex @set_set_mutex @w_held_set_held @set_held_set_held : goprog.

Lemma run_with_lock {X} `{Env X} {A} m (p : prog A) w :
  get_mutex m (w_held w) = false ->
  run (with_lock m p) w =
  match run p (set_held m true w) with
  | (Done a, w') => run (_ ← loc (Unlock m); Ret a) w'
  | (Panicked msg, w') => run (_ ← loc (Unlock m); Panic msg) w'
  | (Exhausted, w') => (Exhausted, w')
  | (Blocked, w') => (Blocked, w')
  end.
Proof.
  intros Hm.
  change (run (with_lock m p) w) with
    (match loc_step (Lock m) w with
     | Some (_, w') => run (deferred p (loc (Unlock m))) w'
     | None => (Blocked, w)
     end).
  cbn [loc_step]. rewrite Hm. apply run_deferred.
Qed.

#[export] Hint Rewrite @run_bind @run_deferred @run_ret : goprog.

(** ** Reasoning about every operation a program can make *)

(** [all_ops P p]: every operation on the process state that [p], or a
    goroutine it starts, makes in any environment satisfies [P]. *)
Fixpoint all_ops (P : forall B : Type, locE B -> Prop) {A : Type} (p : prog A) {struct p} : Prop :=
  match p with
  | Ret _ | Panic _ | NoFuel _ => True
  | Loc e k => P _ e /\ forall b, all_ops P (k b)
  | Ext e k => forall b, all_ops P (k b)
  | Go q k => all_ops P q /\ all_ops P k
  end.

Section AllOps.
Context (P : forall B, locE B -> Prop).

Lemma all_ops_bind {A B} (f : A -> prog B) (p : prog A) :
  all_ops P p -> (forall a, all_ops P (f a)) -> all_ops P (p ≫= f).
Proof. intros Hp Hf. induction p; cbn in *; destruct_and?; eauto 6. Qed.

Lemma all_ops_deferred {A} (p : prog A) d :
  all_ops P p -> all_ops P d -> all_ops P (deferred p d).
Proof.
  intros Hp Hd. induction p; cbn in *; destruct_and?; eauto 6; by apply all_ops_bind.
Qed.

Lemma all_ops_foldM {A S} (f : S -> A -> prog S) l :
  (forall s x, all_ops P (f s x)) -> forall s, all_ops P (foldM f s l).
Proof. intros Hf. induction l; intros s; cbn; [done|]. by apply all_ops_bind. Qed.

Lemma all_ops_parallel {A} (ps : list (prog A)) : Forall (all_ops P) ps -> all_ops P (parallel ps).
Proof.
  intros Hps. intros schedule. revert ps Hps. induction schedule as [|i l IH]; intros ps Hps.
  - cbn. induction Hps as [|p ps Hp _ IH]; [done|]. apply all_ops_bind; [done|]. intros a. by apply all_ops_bind.
  - cbn [interleave mbind prog_bind]. destruct (ps !! i) as [p|] eqn:Hi; [|by apply IH].
    assert (Hp : all_ops P p) by (rewrite Forall_lookup in Hps; by eapply Hps).
    destruct p as [a|msg| |B e k|B e k|q k]; cbn in Hp |- *; destruct_and?; try done; try split_and!; try intros b;
      try done; apply IH; try done; by apply Forall_insert.
Qed.

Lemma all_ops_select {A B} ctx (call : prog A) (d : go_error -> prog B) (r : A -> prog B) :
  all_ops P call -> (forall e, all_ops P (d e)) -> (forall a, all_ops P (r a)) ->
  all_ops P (select_call ctx call d r).
Proof.
  intros Hc Hd Hr. unfold select_call. cbn. intros [e|]; cbn.
  - split; [|done]. apply all_ops_bind; cbn; auto.
  - by apply all_ops_bind.
Qed.

Lemma all_ops_loc {B} (e : locE B) : P B e -> all_ops P (loc e).
Proof. by cbn. Qed.

Lemma all_ops_ext {B} (e : extE B) : all_ops P (ext e).
Proof. by cbn. Qed.

Lemma all_ops_go q : all_ops P q -> all_ops P (go q).
Proof. by cbn. Qed.

Lemma all_ops_ret {A} (a : A) : all_ops P (mret a).
Proof. done. Qed.

Lemma all_ops_with_lock {A} m (p : prog A) :
  P _ (Lock m) -> P _ (Unlock m) -> all_ops P p -> all_ops P (with_lock m p).
Proof. intros. split; [done|]. intros b. by apply all_ops_deferred. Qed.
End AllOps.

#[global] Arguments deferred : simpl never.
#[global] Arguments with_lock : simpl never.


Lemma all_ops_mono (P Q : forall B, locE B -> Prop) {A} (p : prog A) :
  (forall B e, P B e -> Q B e) -> all_ops P p -> all_ops Q p.
Proof. intros HPQ. induction p; cbn; intros; destruct_and?; eauto 6. Qed.

#[export] Hint Resolve all_ops_bind all_ops_deferred all_ops_foldM all_ops_select
  all_ops_loc all_ops_ext all_ops_go all_ops_ret all_ops_with_lock : goprog.

(** Prove [all_ops P p] by walking through the text of [p]; the operations
    themselves are left to [tac]. *)
Tactic Notation "walk_ops" tactic3(tac) :=
  repeat (intros; cbn zeta beta; lazymatch goal with
  | |- all_ops _ (_ ≫= _) => apply all_ops_bind
  | |- all_ops _ (mret _) => exact I
  | |- all_ops _ (Ret _) => exact I
  | |- all_ops _ (Panic _) => exact I
  | |- all_ops _ (NoFuel _) => exact I
  | |- all_ops _ (ext _) => apply all_ops_ext
  | |- all_ops _ (loc _) => apply all_ops_loc; cbn beta; tac
  | |- all_ops _ (go _) => apply all_ops_go
  | |- all_ops _ (Go _ _) => split
  | |- all_ops _ (deferred _ _) => apply all_ops_deferred
  | |- all_ops _ (with_lock _ _) => apply all_ops_with_lock; [cbn beta; tac|cbn beta; tac|]
  | |- all_ops _ (select_call _ _ _ _) => apply all_ops_select
  | |- all_ops _ (foldM _ _ _) => apply all_ops_foldM
  | |- all_ops _ (match ?x with _ => _ end) => destruct x
  | |- all_ops _ _ => solve [eauto with goprog]
  end).

Section Invariant.
Context {X : Type} `{Env X} (P : forall B, locE B -> Prop) (I : world X -> Prop).
Context (I_loc : forall B (e : locE B) w b w',
           P B e -> I w -> loc_step e w = Some (b, w') -> I w').
Context (I_ext : forall B (e : extE B) w, I w -> I (ext_step e w).2).
Context (I_spawn : forall q w, I w -> I (spawn q w)).

(** A program whose operations preserve [I] preserves [I]. *)
Lemma run_invariant {A} (p : prog A) w :
  all_ops P p -> I w -> I (run p w).2.
Proof using I_loc I_ext I_spawn.
  revert w. induction p; intros w Hp HI; cbn in *; try done.
  - destruct Hp as [Hp Hk]. destruct (loc_step e w) as [[b w']|] eqn:E; [|done]. eauto.
  - pose proof (I_ext _ e w HI) as HI'. destruct (ext_step e w) as [b w']. cbn in HI'. eauto.
  - destruct Hp. eauto.
Qed.
End Invariant.

(** *** Programs that keep an invariant at every operation

    Such a program ends with a result, and so do several of them interleaved:
    the invariant is all that they know of each other. *)
Section Keeps.
Context {X : Type} `{Env X} (I : world X -> Prop).
Implicit Types w : world X.

Fixpoint keeps {A : Type} (P : A -> Prop) (p : prog A) {struct p} : Prop :=
  match p with
  | Ret a => P a
  | Panic _ | NoFuel _ => False
  | Loc e k => forall w, I w ->
      match loc_step e w with Some (b, w') => I w' /\ keeps P (k b) | None => False end
  | Ext e k => forall w, I w -> I (ext_step e w).2 /\ keeps P (k (ext_step e w).1)
  | Go _ _ => False
  end.

Lemma keeps_bind {A B} (p : prog A) (f : A -> prog B) (P : A -> Prop) (Q : B -> Prop) :
  keeps P p -> (forall a, P a -> keeps Q (f a)) -> keeps Q (p ≫= f).
Proof.
  intros Hp Hf. induction p as [A a|A msg|A|A C e k IH|A C e k IH|A q IHq k IH];
    cbn [keeps mbind prog_bind] in *; try done; [by apply Hf| |].
  - intros w Hw. specialize (Hp w Hw). destruct (loc_step e w) as [ [b w'] |]; [|done].
    destruct Hp. split; [done|]. eapply IH; eauto.
  - intros w Hw. specialize (Hp w Hw). destruct Hp. split; [done|]. eapply IH; eauto.
Qed.

Lemma run_keeps {A} (p : prog A) (P : A -> Prop) w :
  keeps P p -> I w -> exists a w', run p w = (Done a, w') /\ P a /\ I w'.
Proof.
  revert w. induction p as [A a|A msg|A|A C e k IH|A C e k IH|A q IHq k IH];
    intros w Hp Hw; cbn [keeps run] in *; try done; [by exists a, w| |].
  - specialize (Hp w Hw). destruct (loc_step e w) as [ [b w'] |]; [|done]. destruct Hp. eauto.
  - specialize (Hp w Hw). destruct (ext_step e w) as [b w']. destruct Hp. eauto.
Qed.

Lemma keeps_collect {A} (Ps : list (A -> Prop)) (ps : list (prog A)) :
  Forall2 keeps Ps ps -> keeps (Forall2 (fun P a => P a) Ps) (collect ps).
Proof.
  induction 1 as [|P p Ps ps Hp _ IH]; [constructor|]. eapply keeps_bind; [exact Hp|]. intros a Ha.
  eapply keeps_bind; [exact IH|]. intros l Hl. by constructor.
Qed.

Lemma keeps_interleave {A} schedule (Ps : list (A -> Prop)) (ps : list (prog A)) :
  Forall2 keeps Ps ps -> keeps (Forall2 (fun P a => P a) Ps) (interleave schedule ps).
Proof.
  revert ps. induction schedule as [|i l IH]; intros ps Hps; [by apply keeps_collect|].
  cbn [interleave]. destruct (ps !! i) as [p|] eqn:Hi; [|by apply IH].
  destruct (Forall2_lookup_r _ _ _ _ _ Hps Hi) as (P & HP & Hp).
  assert (Hins : forall q, keeps P q -> Forall2 keeps Ps (<[i := q]> ps)).
  { intros q Hq. rewrite <- (list_insert_id Ps i P HP). by apply Forall2_insert. }
  destruct p as [a|msg| |B e k|B e k|q k]; cbn [keeps] in *; try done; [by apply IH| |].
  - intros w Hw. specialize (Hp w Hw). destruct (loc_step e w) as [ [b w'] |]; [|done].
    destruct Hp. split; [done|]. by apply IH, Hins.
  - intros w Hw. specialize (Hp w Hw). destruct Hp. split; [done|]. by apply IH, Hins.
Qed.

Lemma run_parallel {A} (Ps : list (A -> Prop)) (ps : list (prog A)) w :
  (forall w, I w -> I (ext_step RangeChoices w).2) -> Forall2 keeps Ps ps -> I w ->
  exists l w', run (parallel ps) w = (Done l, w') /\ Forall2 (fun P a => P a) Ps l /\ I w'.
Proof.
  intros HI Hps Hw. apply run_keeps; [|done]. intros w1 Hw1. split; [by apply HI|]. by apply keeps_interleave.
Qed.
End Keeps.

(** *** The calls a program makes

    [all_calls P p]: every call to the outside that [p] itself makes satisfies
    [P]; the goroutines it starts are not run. *)

Fixpoint all_calls (P : forall B : Type, extE B -> Prop) {A : Type} (p : prog A) {struct p} : Prop :=
  match p with
  | Ret _ | Panic _ | NoFuel _ => True
  | Loc e k => forall b, all_calls P (k b)
  | Ext e k => P _ e /\ forall b, all_calls P (k b)
  | Go q k => all_calls P k
  end.

Section AllCalls.
Context (P : forall B, extE B -> Prop).

Lemma all_calls_bind {A B} (f : A -> prog B) (p : prog A) :
  all_calls P p -> (forall a, all_calls P (f a)) -> all_calls P (p ≫= f).
Proof. intros Hp Hf. induction p; cbn in *; destruct_and?; eauto. Qed.

Lemma all_calls_deferred {A} (p : prog A) d :
  all_calls P p -> all_calls P d -> all_calls P (deferred p d).
Proof.
  intros Hp Hd. induction p as [A a|A msg|A|A B e k IH|A B e k IH|A q IHq k IH]; cbn in Hp.
  - change (all_calls P (d ≫= fun _ => Ret a)). by apply all_calls_bind.
  - change (all_calls P (d ≫= fun _ => @Panic A msg)). by apply all_calls_bind.
  - done.
  - intros b. by apply IH.
  - destruct Hp as [He Hk]. split; [done|]. intros b. by apply IH.
  - by apply IH.
Qed.

Lemma all_calls_with_lock {A} m (p : prog A) : all_calls P p -> all_calls P (with_lock m p).
Proof.
  intros Hp. unfold with_lock. change (forall b : unit, all_calls P (deferred p (loc (Unlock m)))).
  intros _. apply all_calls_deferred; [done|]. by intros b.
Qed.

(** Calls that leave a view of the environment as it is. *)
Lemma run_calls_view {X V} `{Env X} (view : X -> V) {A} (p : prog A) (w : world X) :
  (forall B (e : extE B) x, P B e -> view (env_step e x).2 = view x) ->
  all_calls P p -> view (w_env (run p w).2) = view (w_env w).
Proof.
  intros Hv. revert w. induction p as [A a|A msg|A|A B e k IH|A B e k IH|A q IHq k IH]; intros w Hp;
    cbn in *; try done.
  - destruct (loc_step e w) as [ [b w'] |] eqn:E; [|done]. rewrite IH by done.
    destruct w, e; cbn in E; repeat case_match; simplify_eq; cbn; try done; by repeat case_match.
  - destruct Hp as [He Hk]. unfold ext_step. pose proof (Hv B e (w_env w) He) as Hx.
    destruct (env_step e (w_env w)) as [b x]. cbn in Hx. rewrite IH by done. rewrite <- Hx.
    destruct w, e; cbn; by repeat case_match.
  - rewrite IH by done. by destruct w.
Qed.
End AllCalls.

Lemma trace_silent {X} `{Env X} {A} (p : prog A) (w : world X) :
  all_calls (fun _ _ => False) p -> trace p w = [].
Proof.
  revert w. induction p as [A a|A msg|A|A B e k IH|A B e k IH|A q IHq k IH]; intros w Hp; cbn in *; try done.
  - destruct (loc_step e w) as [ [b w'] |]; [by apply IH|done].
  - by destruct Hp.
  - by apply IH.
Qed.

(** Prove [all_calls P p] by walking through the text of [p]. *)
Ltac walk_calls :=
  repeat (intros; cbn zeta beta; lazymatch goal with
  | |- all_calls _ (_ ≫= _) => apply all_calls_bind
  | |- all_calls _ (mret _) => exact I
  | |- all_calls _ (Ret _) => exact I
  | |- all_calls _ (Panic _) => exact I
  | |- all_calls _ (ext _) => split; [reflexivity|intros; exact I]
  | |- all_calls _ (loc _) => cbn; intros; exact I
  | |- all_calls _ (go _) => exact I
  | |- all_calls _ (deferred _ _) => apply all_calls_deferred
  | |- all_calls _ (with_lock _ _) => apply all_calls_with_lock
  | |- all_calls _ (match ?x with _ => _ end) => destruct x
  | |- all_calls _ _ => solve [eauto with goprog]
  end).

(** *** The loops a program can be in

    [all_loops P p]: a loop that [p] itself can still be in, in any
    environment, satisfies [P]. *)

Fixpoint all_loops (P : loop -> Prop) {A : Type} (p : prog A) {struct p} : Prop :=
  match p with
  | Ret _ | Panic _ => True
  | NoFuel l => P l
  | Loc e k => forall b, all_loops P (k b)
  | Ext e k => forall b, all_loops P (k b)
  | Go q k => all_loops P k
  end.

Section AllLoops.
Context (P : loop -> Prop).

Lemma all_loops_bind {A B} (f : A -> prog B) (p : prog A) :
  all_loops P p -> (forall a, all_loops P (f a)) -> all_loops P (p ≫= f).
Proof. intros Hp Hf. induction p; cbn in *; eauto. Qed.

Lemma all_loops_deferred {A} (p : prog A) d :
  all_loops P p -> all_loops P d -> all_loops P (deferred p d).
Proof.
  intros Hp Hd. induction p as [A a|A msg|A l|A B e k IH|A B e k IH|A q IHq k IH]; cbn in Hp.
  - change (all_loops P (d ≫= fun _ => Ret a)). by apply all_loops_bind.
  - change (all_loops P (d ≫= fun _ => @Panic A msg)). by apply all_loops_bind.
  - done.
  - intros b. by apply IH.
  - intros b. by apply IH.
  - by apply IH.
Qed.

Lemma all_loops_with_lock {A} m (p : prog A) : all_loops P p -> all_loops P (with_lock m p).
Proof. intros Hp []. by apply all_loops_deferred. Qed.

Lemma all_loops_foldM {A S} (f : S -> A -> prog S) l :
  (forall s x, all_loops P (f s x)) -> forall s, all_loops P (foldM f s l).
Proof. intros Hf. induction l; intros s; cbn; [done|]. by apply all_loops_bind. Qed.

Lemma all_loops_select {A B} ctx (call : prog A) (d : go_error -> prog B) (r : A -> prog B) :
  all_loops P call -> (forall e, all_loops P (d e)) -> (forall a, all_loops P (r a)) ->
  all_loops P (select_call ctx call d r).
Proof. intros Hc Hd Hr. unfold select_call. cbn. intros [e|]; cbn; [done|]. by apply all_loops_bind. Qed.
End AllLoops.

Lemma all_loops_mono (P Q : loop -> Prop) {A} (p : prog A) :
  (forall l, P l -> Q l) -> all_loops P p -> all_loops Q p.
Proof. intros HPQ. induction p; cbn; eauto. Qed.

(** Prove [all_loops P p] by walking through the text of [p]. *)
Ltac walk_loops :=
  repeat (intros; cbn zeta beta; lazymatch goal with
  | |- all_loops _ (_ ≫= _) => apply all_loops_bind
  | |- all_loops _ (mret _) => exact I
  | |- all_loops _ (Ret _) => exact I
  | |- all_loops _ (Panic _) => exact I
  | |- all_loops _ (ext _) => intros ?; exact I
  | |- all_loops _ (loc _) => intros ?; exact I
  | |- all_loops _ (go _) => exact I
  | |- all_loops _ (deferred _ _) => apply all_loops_deferred
  | |- all_loops _ (with_lock _ _) => apply all_loops_with_lock
  | |- all_loops _ (select_call _ _ _ _) => apply all_loops_select
  | |- all_loops _ (foldM _ _ _) => apply all_loops_foldM
  | |- all_loops _ (match ?x with _ => _ end) => destruct x
  | |- all_loops _ _ => solve [eauto with goprog]
  end).

(** *** Mutex discipline *)

Section MutexInvariant.
Context {X : Type} `{Env X}.

Lemma loc_step_mutex m {B} (e : locE B) (w w' : world X) b :
  touches_mutex m e = false -> loc_step e w = Some (b, w') ->
  get_mutex m (w_held w') = get_mutex m (w_held w).
Proof.
  intros Ht Hs. destruct w, e; cbn in *; repeat case_match; simplify_eq; cbn; try done.
  all: try (apply get_set_mutex_ne; by apply bool_decide_eq_false in Ht).
  all: by destruct m0.
Qed.

Lemma w_held_ext_step {B} (e : extE B) (w : world X) : w_held (ext_step e w).2 = w_held w.
Proof.
  unfold ext_step. destruct w, e, (env_step _ _); cbn; repeat case_match; done.
Qed.

Lemma run_mutex m b {A} (p : prog A) (w : world X) :
  all_ops (fun B e => touches_mutex m e = false) p ->
  get_mutex m (w_held w) = b -> get_mutex m (w_held (run p w).2) = b.
Proof.
  intros Hp Hw.
  refine (run_invariant _ (fun w => get_mutex m (w_held w) = b) _ _ _ p w Hp Hw).
  - intros B e w1 b1 w2 He Hw1 Hs. by rewrite (loc_step_mutex m e w1 w2 b1).
  - intros B e w1 Hw1. by rewrite w_held_ext_step.
  - by intros q [].
Qed.

(** A section under a mutex that its body does not touch gives it back. *)
Lemma run_with_lock_released {A} m (p : prog A) (w : world X) :
  all_ops (fun B e => touches_mutex m e = false) p ->
  get_mutex m (w_held w) = false ->
  (run p (set_held m true w)).1 <> Exhausted -> (run p (set_held m true w)).1 <> Blocked ->
  get_mutex m (w_held (run (with_lock m p) w).2) = false /\
  (run (with_lock m p) w).1 = (run p (set_held m true w)).1.
Proof.
  intros Hp Hm HE HB. rewrite run_with_lock by done.
  pose proof (run_mutex m true p (set_held m true w) Hp) as Hheld.
  rewrite w_held_set_held, get_set_mutex in Hheld. specialize (Hheld eq_refl).
  destruct (run p (set_held m true w)) as [o w']. cbn in *.
  destruct o; cbn; rewrite ?Hheld; cbn; autorewrite with goprog; done.
Qed.
End MutexInvariant.

(** *** Spin locks: [sync.Map]s used with [LoadOrStore] and [Delete] *)

Definition touches_map (m : lockmap) {B} (e : locE B) : bool :=
  match e with
  | LoadOrStore m' _ _ | Delete m' _ => bool_decide (m' = m)
  | _ => false
  end.

Section SpinLocks.
Context {X : Type} `{Env X}.
Implicit Types w : world X.

Lemma loc_step_map m {B} (e : locE B) w w' b :
  touches_map m e = false -> loc_step e w = Some (b, w') -> get_lockmap m w' = get_lockmap m w.
Proof.
  intros Ht Hs. destruct w, e; cbn in *; repeat case_match; simplify_eq; cbn; try done.
  all: try (apply bool_decide_eq_false in Ht; by destruct m, m0).
  all: by destruct m.
Qed.

Lemma get_lockmap_ext_step m {B} (e : extE B) w : get_lockmap m (ext_step e w).2 = get_lockmap m w.
Proof. unfold ext_step. destruct w, e, (env_step _ _), m; cbn; repeat case_match; done. Qed.

Lemma run_lockmap m {A} (p : prog A) w :
  all_ops (fun B e => touches_map m e = false) p ->
  get_lockmap m (run p w).2 = get_lockmap m w.
Proof.
  intros Hp.
  refine (run_invariant _ (fun w' => get_lockmap m w' = get_lockmap m w) _ _ _ p w Hp eq_refl).
  - intros B e w1 b1 w2 He Hw1 Hs. by rewrite (loc_step_map m e w1 w2 b1).
  - intros B e w1 Hw1. by rewrite get_lockmap_ext_step.
  - intros q [] Hq. by destruct m.
Qed.

Lemma get_set_lockmap m l w : get_lockmap m (set_lockmap m l w) = l.
Proof. by destruct w, m. Qed.

Lemma set_set_lockmap m l l' w : set_lockmap m l (set_lockmap m l' w) = set_lockmap m l w.
Proof. by destruct w, m. Qed.

Lemma set_lockmap_id m w : set_lockmap m (get_lockmap m w) w = w.
Proof. by destruct w, m. Qed.

(** A critical section: the key is stored, the body does not touch the lock
    map, and the deferred [Delete] restores the map. *)
Lemma run_deferred_unlock m key v {A} (p : prog A) w :
  all_ops (fun B e => touches_map m e = false) p ->
  get_lockmap m w !! key = None ->
  let w1 := set_lockmap m (<[key:=v]> (get_lockmap m w)) w in
  run (deferred p (loc (Delete m key))) w1 =
  ((run p w1).1,
   match (run p w1).1 with
   | Done _ | Panicked _ => set_lockmap m (get_lockmap m w) (run p w1).2
   | _ => (run p w1).2
   end).
Proof.
  intros Hp Hk. cbv zeta. rewrite run_deferred.
  pose proof (run_lockmap m p (set_lockmap m (<[key:=v]> (get_lockmap m w)) w) Hp) as Hm.
  rewrite get_set_lockmap in Hm.
  destruct (run p _) as [o w']; cbn in Hm. cbn.
  destruct o; cbn; rewrite ?Hm, ?delete_insert_id by done; done.
Qed.
End SpinLocks.

(** ** What a program can end in, whatever is answered

    [outcomes P R S p]: [p] uses no mutex, and whatever its operations and
    calls answer, a result of [p] satisfies [P], it only panics if [R], and it
    only runs out of fuel if [S]. *)

Definition uses_mutex {B} (e : locE B) : bool :=
  match e with Lock _ | Unlock _ => true | _ => false end.

Section Outcomes.
Context (R S : Prop).

Fixpoint outcomes {A : Type} (P : A -> Prop) (p : prog A) {struct p} : Prop :=
  match p with
  | Ret a => P a
  | Panic _ => R
  | NoFuel _ => S
  | Loc e k => uses_mutex e = false /\ forall b, outcomes P (k b)
  | Ext e k => forall b, outcomes P (k b)
  | Go q k => outcomes P k
  end.

Lemma outcomes_bind {A B} (Q : A -> Prop) (P : B -> Prop) (f : A -> prog B) (p : prog A) :
  outcomes Q p -> (forall a, Q a -> outcomes P (f a)) -> outcomes P (p ≫= f).
Proof. intros Hp Hf. induction p; cbn in *; destruct_and?; eauto 6. Qed.

Lemma outcomes_mono {A} (P Q : A -> Prop) (p : prog A) :
  (forall a, P a -> Q a) -> outcomes P p -> outcomes Q p.
Proof. intros HPQ. induction p; cbn; intros; destruct_and?; eauto 6. Qed.

Lemma outcomes_deferred {A} (P : A -> Prop) (p : prog A) d :
  outcomes P p -> outcomes (fun _ => True) d -> outcomes P (deferred p d).
Proof.
  intros Hp Hd. induction p as [A a|A msg|A|A B e k IH|A B e k IH|A q IHq k IH]; cbn in Hp.
  - change (outcomes P (d ≫= fun _ => Ret a)). by eapply outcomes_bind.
  - change (outcomes P (d ≫= fun _ => @Panic A msg)). by eapply outcomes_bind.
  - done.
  - destruct Hp as [He Hk]. split; [done|]. intros b. by apply IH.
  - intros b. by apply IH.
  - by apply IH.
Qed.

Lemma outcomes_select {A B} (Q : A -> Prop) (P : B -> Prop) ctx (call : prog A)
    (d : go_error -> prog B) (r : A -> prog B) :
  outcomes Q call -> (forall e, outcomes P (d e)) -> (forall a, Q a -> outcomes P (r a)) ->
  outcomes P (select_call ctx call d r).
Proof.
  intros Hc Hd Hr. unfold select_call. cbn. intros [e|]; cbn; [done|]. by eapply outcomes_bind.
Qed.

Lemma run_outcomes {X} `{Env X} {A} (P : A -> Prop) (p : prog A) (w : world X) :
  outcomes P p ->
  match (run p w).1 with
  | Done a => P a
  | Panicked _ => R
  | Exhausted => S
  | Blocked => False
  end.
Proof.
  revert w. induction p as [A a|A msg|A|A B e k IH|A B e k IH|A q IHq k IH]; intros w Hp; cbn in *; try done.
  - destruct Hp as [He Hk]. destruct (loc_step e w) as [[b w']|] eqn:Hs; [by apply IH|].
    destruct e; cbn in *; try done; by case_match.
  - destruct (ext_step e w) as [b w']. by apply IH.
  - by apply IH.
Qed.
End Outcomes.

(** Prove [outcomes R S P p] by walking through the text of [p]; the lemmas of
    [gopost] say what the parts return. *)
Ltac walk_outcomes :=
  repeat (cbn beta iota zeta; intros;
    match goal with
    | |- outcomes _ _ _ (mret _) => cbn
    | |- outcomes _ _ _ (Ret _) => cbn
    | |- outcomes _ _ _ (Panic _) => cbn
    | |- outcomes _ _ _ (NoFuel _) => cbn
    | |- outcomes _ _ _ (loc _) => cbn; split; [reflexivity|intros]
    | |- outcomes _ _ _ (ext _) => cbn; intros
    | |- outcomes _ _ _ (go _) => cbn
    | |- outcomes _ _ _ (match ?x with _ => _ end) => destruct x eqn:?
    | |- outcomes _ _ _ _ => solve [eauto with goprog]
    | |- outcomes _ _ _ (mbind _ _) =>
        first [eapply outcomes_bind; [solve [eauto with gopost nocore]|intros]
              |eapply (outcomes_bind _ _ (fun _ => True)); [|intros]]
    | |- outcomes _ _ _ (deferred _ _) => eapply outcomes_deferred
    | |- outcomes _ _ _ (select_call _ _ _ _) =>
        eapply (outcomes_select _ _ (fun _ => True)); [|intros|intros]
    end).

(** ** Goroutines *)

Section Threads.
Context {X : Type} `{Env X}.

Record system := System { threads : list (prog unit); shared : world X }.

Definition thread_step (p : prog unit) (w : world X) : option (prog unit * world X) :=
  match p with
  | Ret _ | Panic _ | NoFuel _ => None
  | Loc e k => '(b, w') ← loc_step e w; Some (k b, w')
  | Ext e k => let '(b, w') := ext_step e w in Some (k b, w')
  | Go q k => Some (k, spawn q w)
  end.

(** Thread [i] makes one operation; the goroutines it starts join the pool. *)
Definition sys_step (i : nat) (s : system) : option system :=
  p ← threads s !! i;
  '(p', w') ← thread_step p (set_spawned [] (shared s));
  Some (System (<[i:=p']> (threads s) ++ w_spawned w') (set_spawned [] w')).

Inductive cstep : system -> system -> Prop :=
  | CStep i s s' : sys_step i s = Some s' -> cstep s s'.

(** A schedule names the thread that moves at each step. *)
Fixpoint run_schedule (schedule : list nat) (s : system) : option system :=
  match schedule with
  | [] => Some s
  | i :: schedule' => s' ← sys_step i s; run_schedule schedule' s'
  end.

(** A schedule that passes over threads that cannot move, and ends where
    [inside] fails. *)
Fixpoint run_fair (inside : world X -> bool) (schedule : list nat) (s : system) : system :=
  match schedule with
  | [] => s
  | i :: schedule' =>
      match sys_step i s with
      | Some s' => if inside (shared s') then run_fair inside schedule' s' else s
      | None => run_fair inside schedule' s
      end
  end.

Lemma run_schedule_reachable schedule s s' :
  run_schedule schedule s = Some s' -> rtc cstep s s'.
Proof.
  revert s. induction schedule as [|i l IH]; cbn; intros s Hs; [simplify_eq; constructor|].
  destruct (sys_step i s) as [s1|] eqn:E; [|done]. cbn in Hs.
  eapply rtc_l; [by econstructor|auto].
Qed.

(** A pool without goroutines that wait to be started. *)
Lemma sys_step_plain i (s s' : system) :
  w_spawned (shared s) = [] -> sys_step i s = Some s' ->
  exists p p' w', threads s !! i = Some p /\ thread_step p (shared s) = Some (p', w') /\
    (w_spawned w' = [] -> s' = System (<[i := p']> (threads s)) w').
Proof.
  intros Hs. unfold sys_step. replace (set_spawned [] (shared s)) with (shared s) by (destruct s as [ts []]; cbn in *; by subst).
  destruct (threads s !! i) as [p|]; [|done]. cbn [mbind option_bind].
  destruct (thread_step p (shared s)) as [ [p' w'] |] eqn:E; [|done]. cbn [mbind option_bind]. intros [= <-].
  exists p, p', w'. do 2 (split; [done|]). intros Hw. rewrite Hw, app_nil_r. f_equal. by destruct w'; cbn in *; subst.
Qed.
End Threads.
Arguments system X : clear implicits.
Arguments System {X}.
Arguments threads {X}.
Arguments shared {X}.

(** ** Environments whose file operations do not fail *)

Class ReliableFiles (X : Type) `{Env X} : Prop := {
  rf_open path x : (env_step (OsOpen path) x).1 = None;
  rf_openfile path trunc x : (env_step (OsOpenFile path trunc) x).1 = None;
  rf_read x : (env_step OsRead x).1 = None;
  rf_write x : (env_step OsWrite x).1 = None;
  rf_close x : (env_step OsClose x).1 = None;
}.

(** Ask the environment: split on the answer of the call at hand, using the
    reliability of the file operations when it is assumed. *)
Ltac ask :=
  cbn; unfold ext_step; cbn;
  match goal with
  | |- context [env_step ?e ?x] =>
      let r := fresh "r" in let y := fresh "x" in let E := fresh "Eenv" in
      let Hask := fresh "Hask" in
      first [match e with
           | OsOpen ?p => pose proof (rf_open p x) as E
           | OsOpenFile ?p ?t => pose proof (rf_openfile p t x) as E
           | OsRead => pose proof (rf_read x) as E
           | OsWrite => pose proof (rf_write x) as E
           | OsClose => pose proof (rf_close x) as E
           end | pose proof I as E];
      destruct (env_step e x) as [r y] eqn:Hask; cbn in E |- *; first [subst r | clear E]; cbn
  end.

(** *** Single calls *)

Section Calls.
Context {X : Type} `{Env X}.
Implicit Types w : world X.

Definition is_exec {B} (e : extE B) : bool := match e with Exec _ _ _ => true | _ => false end.

Lemma run_ext {B} (e : extE B) w b x :
  is_exec e = false -> env_step e (w_env w) = (b, x) -> run (ext e) w = (Done b, set_env x w).
Proof. intros He Hs. destruct w. cbn in *. unfold ext_step. cbn. rewrite Hs. by destruct e. Qed.

Lemma run_call {B} (e : extE B) w :
  is_exec e = false ->
  run (ext e) w = (Done (env_step e (w_env w)).1, set_env (env_step e (w_env w)).2 w).
Proof. intros He. apply run_ext; [done|]. apply surjective_pairing. Qed.

Lemma w_env_set_env x w : w_env (set_env x w) = x.
Proof. by destruct w. Qed.

Lemma set_env_set_env x y w : set_env x (set_env y w) = set_env x w.
Proof. by destruct w. Qed.

Lemma set_env_id w : set_env (w_env w) w = w.
Proof. by destruct w. Qed.
End Calls.
#[export] Hint Rewrite @w_env_set_env @set_env_set_env @set_env_id : goenv.

(** The next call to the outside: [r] is its answer and [x] what it leaves. *)
Ltac call_as r x :=
  rewrite run_call by done; autorewrite with goenv;
  match goal with |- context [env_step ?e ?y] =>
    let E := fresh "Ecall" in destruct (env_step e y) as [r x] eqn:E end;
  cbn [fst snd].

(** ** A concrete environment, for evaluating programs

    Every call of the operating system, of the driver and of the nodes
    succeeds; the Kubernetes API holds nothing. *)

Definition not_found : go_error := GoError "not found" None true.

Definition calm_answer {B} (e : extE B) : B :=
  match e in extE B return B with
  | OsStat _ | OsMkdirAll _ _ | OsChown _ _ _ | OsChmod _ _ | OsOpen _ | OsOpenFile _ _
  | OsClose | SysUnmount _ _ => None
  | OsGetenv _ => ""
  | OsRead | OsWrite => None
  | Exec _ _ _ => ("", None)
  | VcsiCreateVolume _ => (Some {| cvr_Volume := None |}, None)
  | VcsiControllerPublish _ => (Some {| pubr_PublishContext := None |}, None)
  | VcsiControllerUnpublish _ => (Some Unpublished, None)
  | VcsiMountVolume _ _ path _ => (path, None)
  | VcsiUnmountVolume _ _ _ => None
  | InClusterConfig | NewForConfig => None
  | KubeGetService _ _ => inr not_found
  | KubeCreateService _ s | KubeUpdateService _ s => inl s
  | KubeDeleteService _ _ | KubeDeleteSlice _ _ => Some not_found
  | KubeGetSlice _ _ => inr not_found
  | KubeCreateSlice _ s | KubeUpdateSlice _ s => inl s
  | KubeListSlices _ _ => inl []
  | KubeGetPV _ => inr not_found
  | KubeGetNode _ => inr not_found
  | KubeListNodes => inl []
  | NewClient _ => None
  | RpcExport _ r =>
      inl {| exresp_VolumeId := exreq_VolumeId r; exresp_ExportNfsContext := None |}
  | RpcUnexport _ r =>
      inl {| unresp_VolumeId := unreq_VolumeId r; unresp_UnexportNfsContext := None |}
  | RpcPing _ _ => inl {| pong_Ready := true; pong_Status := "" |}
  | RpcGetExports _ => inl {| exports_Exports := [] |}
  | Sleep _ => tt
  | SelectDone _ => None
  | SelectTick => true
  | RangeChoices => []
  end.

Definition calm : Env unit := fun B e x => (calm_answer e, x).

#[export] Instance calm_reliable : @ReliableFiles unit calm.
Proof. by constructor. Qed.
