(* ===== verification/Locks.v ===== *)
(** * Locks and interleaving

    A discipline says how a program may use a family of locks: from which
    lock it holds ([option R], at most one) an operation leads to which.
    [follows] checks a program against it, for all answers; when every
    goroutine follows it, in every interleaving a lock is held by at most one
    goroutine ([assigned], an invariant of [cstep]).  A discipline also says
    which lock may be kept in a loop without a bound.  Two disciplines: the
    entry of a volume in a [sync.Map], and the mutexes, of which no goroutine
    takes a second one, so that they never deadlock. *)

From S2P Require Import Prelude GoStrings Messages GoProg.

(** ** Disciplines *)

(** What an operation does to the lock that its goroutine holds; [None] is a
    violation.  The answer tells whether [LoadOrStore] stored.  [may_spin]: in
    which of the loops without a bound a goroutine may hold a lock. *)
Class Discipline (R : Type) := {
  lock_dec :: EqDecision R;
  tr : forall B, locE B -> option R -> B -> option (option R);
  may_spin : R -> loop -> bool;
  taken : forall X, world X -> R -> bool;
}.
Arguments tr {R _ B}.
Arguments taken {R _ X}.

(** The effect of an operation agrees with what it does to the locks. *)
Inductive lock_effect {R} `{Discipline R} {X} : option R -> option R -> world X -> world X -> Prop :=
  | Keep i w w' : (forall r, taken w' r = taken w r) -> lock_effect i i w w'
  | Acquire r w w' :
      taken w r = false -> taken w' r = true ->
      (forall r', r' <> r -> taken w' r' = taken w r') -> lock_effect None (Some r) w w'
  | Release r w w' :
      taken w' r = false ->
      (forall r', r' <> r -> taken w' r' = taken w r') -> lock_effect (Some r) None w w'.

Class SoundDiscipline (R : Type) `{Discipline R} : Prop := {
  tr_sound X B (e : locE B) i i' b (w w' : world X) :
    loc_step e w = Some (b, w') -> tr e i b = Some i' -> lock_effect i i' w w';
  taken_ext X `{Env X} B (e : extE B) (w : world X) r : taken (ext_step e w).2 r = taken w r;
  taken_spawned X (w : world X) l r : taken (set_spawned l w) r = taken w r;
}.

Section Follows.
Context {R : Type} `{Discipline R}.

Definition spins (i : option R) (l : loop) : Prop :=
  match i with Some r => may_spin r l = true | None => True end.

(** A program that holds [i] and uses the locks as the discipline allows; it
    holds nothing when it ends, and goroutines start with nothing. *)
Fixpoint follows {A : Type} (i : option R) (p : prog A) {struct p} : Prop :=
  match p with
  | Ret _ | Panic _ => i = None
  | NoFuel l => spins i l
  | Loc e k => forall b, match tr e i b with Some i' => follows i' (k b) | None => False end
  | Ext e k => forall b, follows i (k b)
  | Go q k => follows None q /\ follows i k
  end.

Definition neutral {B} (e : locE B) : Prop := forall i b, tr e i b = Some i.

Lemma follows_bind {A B} i (p : prog A) (f : A -> prog B) :
  follows i p -> (forall a, follows None (f a)) -> follows i (p ≫= f).
Proof.
  intros Hp Hf. revert i Hp. induction p as [A a|A msg|A|A C e k IH|A C e k IH|A q IHq k IH];
    intros i Hp; cbn in *.
  - subst i. apply Hf.
  - done.
  - done.
  - intros b. specialize (Hp b). destruct (tr e i b); [by apply IH|done].
  - intros b. by apply IH.
  - destruct Hp. split; [done|by apply IH].
Qed.

Lemma follows_deferred {A} i (p : prog A) d :
  follows i p -> follows None d -> follows i (deferred p d).
Proof.
  intros Hp Hd. revert i Hp. induction p as [A a|A msg|A|A C e k IH|A C e k IH|A q IHq k IH]; intros i Hp.
  - cbn in Hp. subst i. change (follows None (d ≫= fun _ => Ret a)). by apply follows_bind.
  - cbn in Hp. subst i. change (follows None (d ≫= fun _ => @Panic A msg)). by apply follows_bind.
  - done.
  - intros b. specialize (Hp b). destruct (tr e i b); [by apply IH|done].
  - intros b. by apply IH.
  - destruct Hp. split; [done|by apply IH].
Qed.

(** A body that leaves the locks alone, between an acquisition and [d]. *)
Lemma follows_neutral {A} (p : prog A) :
  all_ops (fun B e => neutral e) p -> follows None p.
Proof.
  induction p as [A a|A msg|A|A C e k IH|A C e k IH|A q IHq k IH]; intros Hp; cbn in *; try done.
  - destruct Hp as [He Hk]. intros b. rewrite He. auto.
  - auto.
  - destruct Hp. auto.
Qed.

Lemma follows_section {A} i (p : prog A) d :
  all_ops (fun B e => neutral e) p -> all_loops (spins i) p -> follows i d -> follows i (deferred p d).
Proof.
  intros Hp Hl Hd. induction p as [A a|A msg|A|A C e k IH|A C e k IH|A q IHq k IH].
  - change (follows i (d ≫= fun _ => Ret a)). by apply follows_bind.
  - change (follows i (d ≫= fun _ => @Panic A msg)).
    clear Hp Hl. revert i Hd. induction d; intros i Hd; cbn in *; try done.
    + intros b0. specialize (Hd b0). case_match; [auto|done].
    + auto.
    + destruct Hd; auto.
  - done.
  - destruct Hp as [He Hk]. intros b. rewrite He. apply IH; [apply Hk|apply Hl].
  - intros b. apply IH; [apply Hp|apply Hl].
  - destruct Hp as [Hq Hk]. split; [by apply follows_neutral|by apply IH].
Qed.

Lemma follows_select {A B} ctx (call : prog A) (d : go_error -> prog B) (r : A -> prog B) :
  follows None call -> (forall e, follows None (d e)) -> (forall a, follows None (r a)) ->
  follows None (select_call ctx call d r).
Proof.
  intros Hc Hd Hr. unfold select_call. cbn. intros [e|]; cbn.
  - split; [|done]. by apply follows_bind.
  - by apply follows_bind.
Qed.

Lemma follows_foldM {A S} (f : S -> A -> prog S) l :
  (forall s x, follows None (f s x)) -> forall s, follows None (foldM f s l).
Proof. intros Hf. induction l; intros s; cbn; [done|]. by apply follows_bind. Qed.

Lemma follows_ret {A} (a : A) : follows None (mret a).
Proof. done. Qed.
Lemma follows_ext {B} (e : extE B) : follows None (ext e).
Proof. done. Qed.
Lemma follows_go q : follows None q -> follows None (go q).
Proof. by cbn. Qed.
Lemma follows_loc {B} (e : locE B) : neutral e -> follows None (loc e).
Proof. intros He b. by rewrite He. Qed.

(** ** Systems whose goroutines follow a discipline *)

Context {X : Type} `{Env X} `{!SoundDiscipline R}.
Implicit Types s : system X.

(** [own] tells which lock each goroutine holds. *)
Definition assigned (own : nat -> option R) s : Prop :=
  (forall j p, threads s !! j = Some p -> follows (own j) p) /\
  (forall j, threads s !! j = None -> own j = None) /\
  (forall i j r, own i = Some r -> own j = Some r -> i = j) /\
  (forall r, taken (shared s) r = true <-> exists j, own j = Some r).

Definition update (own : nat -> option R) (i : nat) (o : option R) : nat -> option R :=
  fun j => if decide (j = i) then o else own j.

Lemma update_unchanged own i o : own i = o -> forall j, update own i o j = own j.
Proof. intros Ho j. unfold update. by destruct (decide (j = i)) as [->|]. Qed.

(** The effect of one operation of goroutine [i] on the ownership. *)
Lemma effect_owned own i o (w w' : world X) :
  lock_effect (own i) o w w' ->
  (forall i j r, own i = Some r -> own j = Some r -> i = j) ->
  (forall r, taken w r = true <-> exists j, own j = Some r) ->
  (forall k j r, update own i o k = Some r -> update own i o j = Some r -> k = j) /\
  (forall r, taken w' r = true <-> exists j, update own i o j = Some r).
Proof.
  intros Heff Huniq Htaken. remember (own i) as oi eqn:Hoi.
  destruct Heff as [o w w' Hsame|r w w' Hfree Hnow Hrest|r w w' Hnow Hrest].
  - assert (Hu := update_unchanged own i o (eq_sym Hoi)). split.
    + intros k j r. rewrite !Hu. eauto.
    + intros r. rewrite Hsame, Htaken. by setoid_rewrite Hu.
  - assert (Hnone : forall j, own j <> Some r).
    { intros j Hj. assert (taken w r = true) by (apply Htaken; eauto). congruence. }
    unfold update. split.
    + intros k j r'. destruct (decide (k = i)), (decide (j = i)); intros Hk Hj; simplify_eq; eauto;
        by destruct (Hnone k) + destruct (Hnone j).
    + intros r'. destruct (decide (r' = r)) as [->|Hne].
      * rewrite Hnow. split; [|done]. intros _. exists i. by destruct (decide (i = i)).
      * rewrite Hrest, Htaken by done. split; intros [j Hj]; exists j; destruct (decide (j = i)); congruence.
  - unfold update. split.
    + intros k j r'. destruct (decide (k = i)), (decide (j = i)); intros Hk Hj; simplify_eq; eauto.
    + intros r'. destruct (decide (r' = r)) as [->|Hne].
      * rewrite Hnow. split; [done|]. intros [j Hj]. destruct (decide (j = i)) as [|Hji]; [done|].
        destruct Hji. eapply Huniq; eauto.
      * rewrite Hrest, Htaken by done. split; intros [j Hj]; exists j; destruct (decide (j = i)); congruence.
Qed.
Lemma taken_set_spawned (w : world X) l r : taken (set_spawned l w) r = taken w r.
Proof. apply taken_spawned. Qed.

Lemma effect_spawned i o (w w' : world X) l :
  lock_effect i o (set_spawned l w) w' -> lock_effect i o w (set_spawned l w').
Proof.
  intros He. inversion He as [i' w1 w2 Hs|r w1 w2 Hf Hn Hr|r w1 w2 Hn Hr]; subst.
  - constructor. intros r. by rewrite taken_set_spawned, Hs, taken_set_spawned.
  - rewrite taken_set_spawned in Hf. constructor; [done|by rewrite taken_set_spawned|].
    intros r' Hne. by rewrite taken_set_spawned, Hr, taken_set_spawned.
  - constructor; [by rewrite taken_set_spawned|].
    intros r' Hne. by rewrite taken_set_spawned, Hr, taken_set_spawned.
Qed.

Lemma loc_step_spawned {B} (e : locE B) (w w' : world X) b :
  loc_step e w = Some (b, w') -> w_spawned w' = w_spawned w.
Proof. destruct w, e; cbn; intros; repeat case_match; simplify_eq; done. Qed.

Lemma ext_step_spawned {B} (e : extE B) (w : world X) : w_spawned (ext_step e w).2 = w_spawned w.
Proof. unfold ext_step. destruct w, e, (env_step _ _); cbn; repeat case_match; done. Qed.

Lemma thread_step_follows o p p' (w w' : world X) :
  follows o p -> w_spawned w = [] -> thread_step p w = Some (p', w') ->
  exists o', follows o' p' /\ lock_effect o o' w w' /\ Forall (follows None) (w_spawned w').
Proof.
  intros Hp Hw Hstep. destruct p as [a|msg| |B e k|B e k|q k]; cbn in *; try done.
  - destruct (loc_step e w) as [[b w1]|] eqn:E; [|done]. cbn in Hstep. simplify_eq.
    specialize (Hp b). destruct (tr e o b) as [o'|] eqn:Et; [|done].
    exists o'. split; [done|]. split; [by eapply tr_sound|]. by rewrite (loc_step_spawned _ _ _ _ E), Hw.
  - pose proof (taken_ext X B e w) as Ht. pose proof (ext_step_spawned e w) as Hs.
    destruct (ext_step e w) as [b w1]. cbn in *. simplify_eq. exists o.
    split; [done|]. split; [by constructor|]. by rewrite Hs, Hw.
  - destruct Hp as [Hq Hk]. simplify_eq. exists o. split; [done|]. unfold spawn. split.
    + constructor. intros r. apply taken_spawned.
    + replace (w_spawned (set_spawned (w_spawned w ++ [q]) w)) with ([q] : list (prog unit));
        [by constructor|]. destruct w. cbn in *. by subst.
Qed.

Lemma cstep_assigned s s' own :
  cstep s s' -> assigned own s -> exists own', assigned own' s'.
Proof.
  intros [i s1 s2 Hstep] (Hfol & Hnone & Huniq & Htaken). unfold sys_step in Hstep.
  destruct (threads s1 !! i) as [p|] eqn:Ei; [|done]. cbn in Hstep.
  destruct (thread_step p (set_spawned [] (shared s1))) as [[p' w']|] eqn:Et; [|done].
  cbn in Hstep. simplify_eq. pose proof (lookup_lt_Some _ _ _ Ei) as Hlt.
  destruct (thread_step_follows (own i) p p' (set_spawned [] (shared s1)) w') as (o & Hp' & Heff & Hsp);
    [by apply Hfol|by destruct (shared s1)|done|].
  apply effect_spawned in Heff.
  destruct (effect_owned own i o _ _ Heff Huniq Htaken) as [Huniq' Htaken'].
  exists (update own i o). split; [|split; [|by split]]; cbn [threads]; intros j; unfold update.
  - intros q Hj. destruct (decide (j = i)) as [->|Hne].
    + rewrite lookup_app_l in Hj by (by rewrite length_insert).
      rewrite list_lookup_insert_eq in Hj by done. by simplify_eq.
    + apply lookup_app_Some in Hj as [Hj|[Hlen Hj]].
      * rewrite list_lookup_insert_ne in Hj by done. by apply Hfol.
      * rewrite length_insert in Hlen. rewrite Hnone by by apply lookup_ge_None.
        by eapply Forall_lookup_1 in Hsp.
  - intros Hj. apply lookup_ge_None in Hj. rewrite length_app, length_insert in Hj.
    destruct (decide (j = i)); [lia|]. apply Hnone, lookup_ge_None. lia.
Qed.

Lemma reachable_assigned s s' own :
  rtc cstep s s' -> assigned own s -> exists own', assigned own' s'.
Proof.
  intros Hr. revert own. induction Hr as [s|s s1 s2 Hs Hr IH]; [eauto|].
  intros own Ha. destruct (cstep_assigned _ _ _ Hs Ha) as [own' Ha']. by eapply IH.
Qed.

(** Goroutines that have not started hold nothing. *)
Lemma assigned_start ps (w : world X) :
  Forall (follows None) ps -> (forall r, taken w r = false) ->
  assigned (fun _ => None) (System ps w).
Proof.
  intros Hps Hfree. split; [|split; [done|split; [done|]]]; cbn.
  - intros j p Hj. by eapply Forall_lookup_1 in Hps.
  - intros r. rewrite Hfree. split; [done|by intros [? ?]].
Qed.

Lemma start_assigned ps (w : world X) s :
  Forall (follows None) ps -> (forall r, taken w r = false) -> rtc cstep (System ps w) s ->
  exists own, assigned own s.
Proof. intros Hps Hw Hr. eapply reachable_assigned; [exact Hr|]. by apply assigned_start. Qed.
End Follows.
#[export] Hint Resolve follows_bind follows_deferred follows_select follows_foldM follows_ret
  follows_ext follows_go : golock.

(** ** The entry of a volume in a [sync.Map] *)

Definition same_key (m m' : lockmap) (key key' : string) : bool :=
  bool_decide (m = m') && String.eqb key key'.

Lemma same_key_true m m' key key' : same_key m m' key key' = true <-> m = m' /\ key = key'.
Proof. unfold same_key. rewrite andb_true_iff, bool_decide_eq_true, String.eqb_eq. done. Qed.

(** The lock is unit: there is one, the entry [key] of the map [m]. *)
Definition key_tr (m : lockmap) (key : string) {B} (e : locE B) : option unit -> B -> option (option unit) :=
  match e in locE B return option unit -> B -> option (option unit) with
  | LoadOrStore m' key' _ => fun i b =>
      if same_key m m' key key' then
        match i with
        | Some _ => None
        | None => Some (if (b : string * bool).2 then None else Some tt)
        end
      else Some i
  | Delete m' key' => fun i _ =>
      if same_key m m' key key' then match i with Some _ => Some None | None => None end
      else Some i
  | _ => fun i _ => Some i
  end.

(** Only a publication keeps its volume while it retries. *)
Definition key_spin (m : lockmap) (l : loop) : bool :=
  match m, l with PVLock, Retries => true | _, _ => false end.

Definition key_taken (m : lockmap) (key : string) {X} (w : world X) : bool :=
  is_some (get_lockmap m w !! key).

Section KeyDiscipline.
Context (m : lockmap) (key : string).

#[export] Instance key_discipline : Discipline unit := {
  lock_dec := _;
  tr B e := key_tr m key e;
  may_spin _ l := key_spin m l;
  taken X w _ := key_taken m key w;
}.

Lemma get_lockmap_insert {X} (w : world X) m' key' v :
  same_key m m' key key' = false ->
  get_lockmap m (set_lockmap m' (<[key':=v]> (get_lockmap m' w)) w) !! key = get_lockmap m w !! key.
Proof.
  intros Hne. destruct (decide (m = m')) as [->|Hm].
  - rewrite get_set_lockmap, lookup_insert_ne; [done|]. intros ->.
    by rewrite (proj2 (same_key_true m' m' key key)) in Hne.
  - by destruct w, m, m'.
Qed.

Lemma get_lockmap_delete {X} (w : world X) m' key' :
  same_key m m' key key' = false ->
  get_lockmap m (set_lockmap m' (delete key' (get_lockmap m' w)) w) !! key = get_lockmap m w !! key.
Proof.
  intros Hne. destruct (decide (m = m')) as [->|Hm].
  - rewrite get_set_lockmap, lookup_delete_ne; [done|]. intros ->.
    by rewrite (proj2 (same_key_true m' m' key key)) in Hne.
  - by destruct w, m, m'.
Qed.

#[export] Instance key_sound : SoundDiscipline unit.
Proof.
  split.
  - intros X B e i i' b w w' Hs Ht.
    destruct (touches_map m e) eqn:Em.
    2: { assert (Hg := loc_step_map m e w w' b Em Hs).
         assert (i' = i) as ->.
         { destruct e; cbn in Ht, Em; try (by simplify_eq);
             apply bool_decide_eq_false in Em; unfold same_key in Ht;
             rewrite bool_decide_eq_false_2 in Ht by congruence; cbn in Ht; by simplify_eq. }
         constructor. intros []. cbn. unfold key_taken. by rewrite Hg. }
    destruct e; try discriminate Em; cbn in Hs, Ht.
    + destruct (same_key m m0 key key0) eqn:Ek.
      * apply same_key_true in Ek as [<- <-]. destruct i; [done|]. injection Ht as <-.
        destruct (get_lockmap m w !! key) as [h|] eqn:Eh; injection Hs as <- <-; cbn.
        -- by constructor.
        -- apply Acquire; [| |intros []; done]; cbn; unfold key_taken;
             [by rewrite Eh|by rewrite get_set_lockmap, lookup_insert_eq].
      * simplify_eq. constructor. intros []. cbn. unfold key_taken.
        case_match; simplify_eq; [done|]. by rewrite get_lockmap_insert.
    + destruct (same_key m m0 key key0) eqn:Ek.
      * apply same_key_true in Ek as [<- <-]. destruct i as [ [] |]; [|done]. simplify_eq.
        apply Release; [|intros []; done]. cbn. unfold key_taken.
        by rewrite get_set_lockmap, lookup_delete_eq.
      * simplify_eq. constructor. intros []. cbn. unfold key_taken. by rewrite get_lockmap_delete.
  - intros X HE B e w []. cbn. unfold key_taken. by rewrite get_lockmap_ext_step.
  - intros X w l []. cbn. unfold key_taken. by destruct w, m.
Qed.
End KeyDiscipline.

(** ** Mutexes *)

Definition mutex_tr {B} (e : locE B) : option mutex -> B -> option (option mutex) :=
  match e with
  | Lock m => fun i _ => match i with None => Some (Some m) | Some _ => None end
  | Unlock m => fun i _ => if decide (i = Some m) then Some None else None
  | _ => fun i _ => Some i
  end.

#[export] Instance mutex_discipline : Discipline mutex := {
  lock_dec := _;
  tr B e := mutex_tr e;
  may_spin _ _ := false;
  taken X w m := get_mutex m (w_held w);
}.

#[export] Instance mutex_sound : SoundDiscipline mutex.
Proof.
  split.
  - intros X B e i i' b w w' Hs Ht. destruct (uses_mutex e) eqn:Eu.
    2: { assert (i' = i) as -> by (destruct e; cbn in *; by simplify_eq).
         constructor. intros m. cbn. apply (loc_step_mutex m e w w' b); [|done]. by destruct e. }
    destruct e; try discriminate Eu; cbn in Hs, Ht.
    + destruct i; [done|]. simplify_eq. destruct (get_mutex m (w_held w)) eqn:E; [done|]. simplify_eq.
      constructor; cbn; [done|by rewrite w_held_set_held, get_set_mutex|].
      intros r Hr. by rewrite w_held_set_held, get_set_mutex_ne.
    + destruct (decide (i = Some m)) as [->|]; [|done]. simplify_eq.
      destruct (get_mutex m (w_held w)) eqn:E; [|done]. simplify_eq.
      constructor; cbn; [by rewrite w_held_set_held, get_set_mutex|].
      intros r Hr. by rewrite w_held_set_held, get_set_mutex_ne.
  - intros X HE B e w m. cbn. by rewrite w_held_ext_step.
  - intros X w l m. cbn. by destruct w.
Qed.
