(* ===== verification/Exports.v ===== *)
(** * The exports file and its synchronisation ([src/nfs/exports.go])

    [/noderoot/etc/exports] is a text file: one line per exported directory.
    Every operation holds [exportsLock].  [generation] counts the changes of
    the file, [syncedGeneration] is the generation the kernel was last brought
    up to with [exportfs -r]. *)

From S2P Require Import Prelude GoStrings Messages GoProg.

Definition exportsDir : string := "/noderoot/etc/".
Definition exportsFile : string := "exports".
Definition pathToExports : string := exportsDir +:+ exportsFile.
Definition nodeRoot : string := "/noderoot".
Definition chroot : string := "chroot".
Definition exportfs : string := "/usr/sbin/exportfs".
Definition retrySleep : Z := 10 * 10 ^ 9.
Definition waitTime_text : string := "30s".

Definition ErrTooLong : go_error := Errorf "bufio.Scanner: token too long".

(** The tokens a scanner over the opened file delivers, and [scanner.Err()]. *)
Definition scan_file : prog (list string * option go_error) :=
  content ← loc ReadFile;
  fault ← ext OsRead;
  let '(content, rerr) :=
    match fault with
    | None => (content, None)
    | Some (n, e) => (stake n content, Some e)
    end in
  let '(tokens, tooLong) := ScanLines content in
  mret (tokens, if tooLong : bool then Some ErrTooLong else rerr).

Definition file_Close : prog (option go_error) := ext OsClose.
Definition defer_Close : prog unit := _ ← file_Close; mret tt.

(** [file.WriteString(s)]: a failing write may have written a part of [s]. *)
Definition file_WriteString (s : string) : prog (option go_error) :=
  fault ← ext OsWrite;
  match fault with
  | None => _ ← loc (AppendFile s); mret None
  | Some (n, e) => _ ← loc (AppendFile (stake n s)); mret (Some e)
  end.

(** The first line, trimmed, that begins with [directory]. *)
Definition find_line (directory : string) (lines : list string) : option string :=
  List.find (fun line => HasPrefix line directory) (TrimSpace <$> lines).

#[global] Arguments find_line : simpl never.

Definition checkExport (directory : string) : prog (pair_err bool) :=
  err ← ext (OsOpen pathToExports);
  match err with
  | Some e =>
      mret (false, Some (Errorf ("failed to open " +:+ pathToExports +:+ ": " +:+ err_text e)))
  | None =>
      deferred
        ('(lines, serr) ← scan_file;
         match find_line directory lines with
         | Some _ => mret (true, None)
         | None =>
             match serr with
             | Some e =>
                 mret (false, Some (Errorf ("error reading " +:+ exportsDir +:+ ": " +:+ err_text e)))
             | None => mret (false, None)
             end
         end)
        defer_Close
  end.

Definition CheckExport (directory : string) : prog (pair_err bool) :=
  with_lock exportsLock (checkExport directory).

Definition GetExport (directory : string) : prog (pair_err string) :=
  with_lock exportsLock
    (err ← ext (OsOpen pathToExports);
     match err with
     | Some e =>
         mret ("", Some (Errorf ("failed to open " +:+ exportsDir +:+ ": " +:+ err_text e)))
     | None =>
         deferred
           ('(lines, serr) ← scan_file;
            match find_line directory lines with
            | Some line => mret (line, None)
            | None =>
                match serr with
                | Some e =>
                    mret ("", Some (Errorf ("error reading " +:+ exportsDir +:+ ": " +:+ err_text e)))
                | None => mret ("", Some (Errorf ("no export entry found for " +:+ directory)))
                end
            end)
           defer_Close
     end).

(** Unlike the other readers, [GetExports] does not trim the lines. *)
Definition GetExports (prefix : string) : prog (pair_err (list string)) :=
  with_lock exportsLock
    (err ← ext (OsOpen pathToExports);
     match err with
     | Some e => mret ([], Some e)
     | None =>
         deferred
           ('(lines, serr) ← scan_file;
            match serr with
            | Some e => mret ([], Some e)
            | None => mret (List.filter (fun line => HasPrefix line prefix) lines, None)
            end)
           defer_Close
     end).

(** [generation = generation + 1; return generation, nil] *)
Definition bump_generation : prog (pair_err Z) :=
  g ← loc (Get V_generation);
  _ ← loc (Set_ V_generation (int64 (g + 1)));
  g' ← loc (Get V_generation);
  mret (g', None).

(** [return generation, err] *)
Definition fail_generation (e : go_error) : prog (pair_err Z) :=
  g ← loc (Get V_generation); mret (g, Some e).

Definition AddExport (directory options : string) : prog (pair_err Z) :=
  with_lock exportsLock
    ('(exists_, err) ← checkExport directory;
     match err with
     | Some e => fail_generation e
     | None =>
         if exists_ : bool
         then fail_generation (Errorf ("export entry for " +:+ directory +:+ " already exists"))
         else
           err ← ext (OsOpenFile pathToExports false);
           match err with
           | Some e =>
               fail_generation (Errorf ("failed to open " +:+ exportsDir +:+ ": " +:+ err_text e))
           | None =>
               deferred
                 (err ← file_WriteString (directory +:+ " " +:+ options +:+ newline);
                  match err with
                  | Some e =>
                      fail_generation
                        (Errorf ("failed to write to " +:+ exportsDir +:+ ": " +:+ err_text e))
                  | None => bump_generation
                  end)
                 defer_Close
           end
     end).

(** The loop that rewrites the kept lines; the error that reports a failed
    write shows the outcome of closing the file, not of writing it. *)
Fixpoint write_lines (lines : list string) : prog (pair_err Z) :=
  match lines with
  | [] => bump_generation
  | line :: rest =>
      err ← file_WriteString (line +:+ newline);
      match err with
      | Some _ =>
          err ← file_Close;
          fail_generation (Errorf ("failed to write to " +:+ exportsDir +:+ ": " +:+ show_err err))
      | None => write_lines rest
      end
  end.

Definition keep_lines (directory : string) (lines : list string) : list string :=
  List.filter (fun line => negb (HasPrefix line directory)) (TrimSpace <$> lines).

#[global] Arguments keep_lines : simpl never.

Definition DeleteExport (directory : string) : prog (pair_err Z) :=
  with_lock exportsLock
    (err ← ext (OsOpen pathToExports);
     match err with
     | Some e =>
         fail_generation (Errorf ("failed to open " +:+ exportsDir +:+ ": " +:+ err_text e))
     | None =>
         deferred
           ('(lines, serr) ← scan_file;
            let lines := keep_lines directory lines in
            match serr with
            | Some e =>
                fail_generation (Errorf ("error reading " +:+ exportsDir +:+ ": " +:+ err_text e))
            | None =>
                err ← file_Close;
                match err with
                | Some e =>
                    fail_generation
                      (Errorf ("failed to close " +:+ exportsDir +:+ ": " +:+ err_text e))
                | None =>
                    err ← ext (OsOpenFile pathToExports true);
                    match err with
                    | Some e =>
                        fail_generation
                          (Errorf ("failed to open " +:+ exportsDir +:+ ": " +:+ err_text e))
                    | None =>
                        _ ← loc TruncFile;
                        deferred (write_lines lines) defer_Close
                    end
                end
            end)
           defer_Close
     end).

Definition isNfsMountdActive : prog bool :=
  '(_, err) ← ext (Exec ExecuteCommand "chroot"
                  ["/noderoot"; "ssh"; "localhost"; "systemctl"; "is-active"; "--quiet"; "nfs-mountd"]);
  mret (bool_decide (err = None)).

(** The loop over [time.After(waitTime)] and the ticker; [fuel] bounds the
    number of ticks. *)
Fixpoint wait_mountd (fuel : nat) : prog (option go_error) :=
  match fuel with
  | O => NoFuel Polls
  | S fuel =>
      tick ← ext SelectTick;
      if tick : bool then
        active ← isNfsMountdActive;
        if active : bool then
          g ← loc (Get V_generation);
          _ ← loc (Set_ V_generation (int64 (g + 1)));
          mret None
        else wait_mountd fuel
      else
        mret (Some (Errorf ("timeout reached: nfs-mountd did not restart within " +:+ waitTime_text)))
  end.

Definition restartNFSMountd (fuel : nat) : prog (option go_error) :=
  with_lock exportsLock
    ('(output, err) ← ext (Exec ExecuteCommand "chroot"
         ["/noderoot"; "ssh"; "localhost"; "systemctl"; "restart"; "nfs-mountd"]);
     match err with
     | Some e =>
         mret (Some (Errorf ("failed to restart nfs-mountd: " +:+ err_text e
                               +:+ ", output: " +:+ output)))
     | None => wait_mountd fuel
     end).

(** [for retries := 0; retries < 2; retries++] *)
Fixpoint resync_attempts (attempts : nat) (generation : Z) (err : option go_error)
    : prog (option go_error) :=
  match attempts with
  | O => mret err
  | S attempts =>
      '(_, err) ← ext (Exec ExecuteCommand chroot [nodeRoot; exportfs; "-r"]);
      match err with
      | None => _ ← loc (Set_ V_syncedGeneration generation); mret None
      | Some e => _ ← ext (Sleep retrySleep); resync_attempts attempts generation (Some e)
      end
  end.

Definition ResyncNFSMountd (generation : Z) : prog (option go_error) :=
  with_lock exportsLock
    (synced ← loc (Get V_syncedGeneration);
     if generation <=? synced then
       s ← loc (Get V_savedUpdates);
       _ ← loc (Set_ V_savedUpdates (int64 (s + 1)));
       mret None
     else resync_attempts 2 generation None).

(** ** Footprint: the operations the functions of this file may make *)

Definition free (m : mutex) {X} (w : world X) : Prop := get_mutex m (w_held w) = false.

Definition exports_op {B} (e : locE B) : bool :=
  match e with
  | Lock exportsLock | Unlock exportsLock => true
  | Get V_generation | Get V_syncedGeneration | Get V_savedUpdates => true
  | Set_ V_generation _ | Set_ V_syncedGeneration _ | Set_ V_savedUpdates _ => true
  | ReadFile | AppendFile _ | TruncFile => true
  | _ => false
  end.

Section Footprint.
Local Abbreviation within := (fun B (e : locE B) => exports_op e = true).
Local Ltac unfold_all :=
  unfold defer_Close, file_Close, bump_generation, file_WriteString, fail_generation,
    isNfsMountdActive, scan_file.

Lemma checkExport_ops d : all_ops within (checkExport d).
Proof. unfold checkExport; unfold_all; walk_ops reflexivity. Qed.
#[local] Hint Resolve checkExport_ops : goprog.

Lemma CheckExport_ops d : all_ops within (CheckExport d).
Proof. unfold CheckExport; walk_ops reflexivity. Qed.

Lemma GetExport_ops d : all_ops within (GetExport d).
Proof. unfold GetExport; unfold_all; walk_ops reflexivity. Qed.

Lemma GetExports_ops d : all_ops within (GetExports d).
Proof. unfold GetExports; unfold_all; walk_ops reflexivity. Qed.

Lemma AddExport_ops d o : all_ops within (AddExport d o).
Proof. unfold AddExport; unfold_all; walk_ops reflexivity. Qed.

Lemma write_lines_ops ls : all_ops within (write_lines ls).
Proof. induction ls; cbn [write_lines]; unfold_all; walk_ops reflexivity. Qed.
#[local] Hint Resolve write_lines_ops : goprog.

Lemma DeleteExport_ops d : all_ops within (DeleteExport d).
Proof. unfold DeleteExport; unfold_all; walk_ops reflexivity. Qed.

Lemma resync_attempts_ops n g e : all_ops within (resync_attempts n g e).
Proof. revert e. induction n; intros; cbn [resync_attempts]; walk_ops reflexivity. Qed.
#[local] Hint Resolve resync_attempts_ops : goprog.

Lemma ResyncNFSMountd_ops g : all_ops within (ResyncNFSMountd g).
Proof. unfold ResyncNFSMountd; walk_ops reflexivity. Qed.

Lemma restartNFSMountd_ops fuel : all_ops within (restartNFSMountd fuel).
Proof.
  assert (Hw : all_ops within (wait_mountd fuel)).
  { induction fuel; cbn [wait_mountd]; unfold_all; walk_ops reflexivity. }
  unfold restartNFSMountd; walk_ops reflexivity.
Qed.
End Footprint.
#[export] Hint Resolve CheckExport_ops GetExport_ops GetExports_ops AddExport_ops DeleteExport_ops
  ResyncNFSMountd_ops : goprog.

(** ** Behaviour in every environment *)


(** Close a branch on which nothing was written. *)
Ltac abort_case :=
  cbn; do 3 eexists; split; [reflexivity|]; cbn;
  do 4 (split; [done|]); (split; [done|]); by left.

Section AnyEnvironment.
Context {X : Type} `{Env X}.
Implicit Types w : world X.

(** What an operation of this file may do to the process: everything else is
    as before. *)
Definition same_process w w' : Prop :=
  w_PVLock w' = w_PVLock w /\ w_nfsPVLock w' = w_nfsPVLock w /\ w_held w' = w_held w /\
  w_exportCounts w' = w_exportCounts w /\ w_nodeIPAddress w' = w_nodeIPAddress w /\
  w_pingRate w' = w_pingRate w /\ w_statuses w' = w_statuses w /\
  w_slices w' = w_slices w /\ w_errs w' = w_errs w /\ w_spawned w' = w_spawned w.

#[global] Instance same_process_preorder : PreOrder same_process.
Proof. split; [done|]. intros x y z Hxy Hyz. unfold same_process in *. destruct_and?. repeat split; congruence. Qed.

(** Some write to the file can fail. *)
Definition write_fault : Prop := exists x : X, (env_step OsWrite x).1 <> None.

(** Writing the kept lines: complete, or cut short at some byte. *)
Lemma run_write_lines ls w :
  exists g err w', run (write_lines ls) w = (Done (g, err), w') /\ same_process w w' /\
    w_syncedGeneration w' = w_syncedGeneration w /\ w_resynced w' = w_resynced w /\
    w_savedUpdates w' = w_savedUpdates w /\ g = w_generation w' /\
    match err with
    | None => g = int64 (w_generation w + 1) /\ w_exports w' = w_exports w +:+ unlines ls
    | Some _ => g = w_generation w /\ write_fault /\
                exists n, w_exports w' = w_exports w +:+ stake n (unlines ls)
    end.
Proof.
  revert w. induction ls as [|l ls IH]; intros [].
  - cbn. do 3 eexists. split; [done|]. cbn. by rewrite string_app_nil_r.
  - cbn [write_lines unlines]. rewrite <- string_app_assoc. set (t := l +:+ newline).
    unfold file_WriteString, file_Close, fail_generation. ask.
    destruct r as [[n e]|]; cbn.
    + ask. do 3 eexists. split; [done|]. cbn. do 5 (split; [done|]). split; [done|].
      split; [by exists w_env; rewrite Hask|].
      exists (Nat.min n (String.length t)). by rewrite stake_app_min.
    + match goal with |- context [run (write_lines ls) ?w1] => destruct (IH w1) as (g & err & w' & -> & Hw') end.
      do 3 eexists. split; [done|]. cbn in Hw'. destruct Hw' as (Hp & Hs & Hr & Hu & Hg & Herr).
      split; [exact Hp|]. do 4 (split; [done|]). rewrite string_app_assoc in Herr.
      destruct err as [e|]; [|done]. destruct Herr as [-> [Hfault [k Hk]]]. do 2 (split; [done|]).
      exists (String.length t + k)%nat. by rewrite stake_app_plus, Hk, string_app_assoc.
Qed.

#[global] Arguments write_lines : simpl never.

Lemma run_scan_file w :
  exists lines serr x, run scan_file w = (Done (lines, serr), set_env x w) /\
    (serr = None -> ScanLines (w_exports w) = (lines, false)).
Proof.
  destruct w. unfold scan_file. ask.
  destruct r as [[n e]|]; destruct (ScanLines _) as [toks []] eqn:Hs; cbn;
    do 3 eexists; (split; [done|]); by intros; simplify_eq.
Qed.

#[global] Arguments scan_file : simpl never.

Lemma run_checkExport d w :
  exists b err x, run (checkExport d) w = (Done (b, err), set_env x w) /\
    (b = false -> err = None ->
     exists lines, ScanLines (w_exports w) = (lines, false) /\ find_line d lines = None).
Proof.
  unfold checkExport. destruct w. ask. destruct r as [e|]; [by do 3 eexists|].
  rewrite run_deferred, run_bind. unfold defer_Close, file_Close.
  edestruct run_scan_file as (lines & serr & y & -> & Hl). cbn in Hl |- *.
  destruct (find_line d lines) eqn:Hf; [|destruct serr]; ask; do 3 eexists; (split; [done|]); try done.
  eauto.
Qed.

#[global] Arguments checkExport : simpl never.

Lemma run_CheckExport d w :
  free exportsLock w ->
  exists b err x, run (CheckExport d) w = (Done (b, err), set_env x w).
Proof.
  intros Hlock. unfold CheckExport. rewrite run_with_lock by done.
  edestruct (run_checkExport d) as (b & err & x & -> & _).
  destruct w as [? ? [] ]. unfold free in Hlock. cbn in Hlock. subst. cbn. eauto.
Qed.

Lemma run_GetExports p w :
  free exportsLock w ->
  exists l err x, run (GetExports p) w = (Done (l, err), set_env x w) /\
    (err = None -> l = List.filter (fun line => HasPrefix line p) (ScanLines (w_exports w)).1).
Proof.
  intros Hlock. unfold GetExports, defer_Close, file_Close. rewrite run_with_lock by done.
  destruct w as [? ? [] ]. unfold free in Hlock. cbn in Hlock. subst.
  ask. destruct r as [e|]; cbn; [by do 3 eexists|].
  rewrite run_deferred, run_bind.
  edestruct run_scan_file as (lines & serr & y & -> & Hl). cbn in Hl |- *.
  destruct serr as [e|]; ask; do 3 eexists; (split; [done|]); [done|].
  intros _. by rewrite Hl.
Qed.

(** Under the lock the process looks as before but for [exportsLock]. *)
Lemma same_process_locked w w' :
  free exportsLock w -> same_process (set_held exportsLock true w) w' ->
  get_mutex exportsLock (w_held w') = true /\ same_process w (set_held exportsLock false w').
Proof.
  unfold free, same_process. destruct w, w'. cbn. intros Hf. intros. destruct_and?. simplify_eq.
  destruct w_held. cbn in *. subst. done.
Qed.

Definition entry_text (directory options : string) : string :=
  directory +:+ " " +:+ options +:+ newline.

Lemma run_AddExport (directory options : string) w :
  free exportsLock w ->
  exists g err w', run (AddExport directory options) w = (Done (g, err), w') /\
    same_process w w' /\ w_syncedGeneration w' = w_syncedGeneration w /\
    w_resynced w' = w_resynced w /\ g = w_generation w' /\
    match err with
    | None => g = int64 (w_generation w + 1) /\
              w_exports w' = w_exports w +:+ entry_text directory options
    | Some _ => g = w_generation w /\
                (w_exports w' = w_exports w \/ write_fault /\
                 exists n, w_exports w' = w_exports w +:+ stake n (entry_text directory options))
    end.
Proof.
  intros Hlock. unfold AddExport. rewrite run_with_lock, run_bind by done.
  edestruct (run_checkExport directory) as (b & err & x & -> & _).
  destruct w as [? ? [] ]. unfold free in Hlock. cbn in Hlock. subst.
  unfold fail_generation, bump_generation, file_WriteString.
  destruct err as [e|]; [|destruct b]; cbn; [abort_case..|].
  ask. destruct r as [e|]; cbn; [abort_case|].
  rewrite run_deferred. unfold defer_Close, file_Close. ask.
  destruct r as [[n e]|] eqn:Hr; ask; do 3 eexists; (split; [done|]); cbn; (do 4 (split; [done|]));
    (split; [done|]); try done.
  right. split; [eexists; by rewrite Hask0|eauto].
Qed.

Lemma run_DeleteExport (directory : string) w :
  free exportsLock w ->
  exists g err w', run (DeleteExport directory) w = (Done (g, err), w') /\
    same_process w w' /\ w_syncedGeneration w' = w_syncedGeneration w /\
    w_resynced w' = w_resynced w /\ g = w_generation w' /\
    let kept := unlines (keep_lines directory (ScanLines (w_exports w)).1) in
    match err with
    | None => g = int64 (w_generation w + 1) /\ w_exports w' = kept
    | Some _ => g = w_generation w /\
                (w_exports w' = w_exports w \/
                 write_fault /\ exists n, w_exports w' = stake n kept)
    end.
Proof.
  intros Hlock. destruct w as [? ? [] ]. unfold free in Hlock. cbn in Hlock. subst.
  unfold DeleteExport. rewrite run_with_lock by done. unfold fail_generation, defer_Close, file_Close.
  ask. destruct r as [e|]; cbn; [abort_case|].
  rewrite run_deferred, run_bind.
  edestruct run_scan_file as (lines & serr & y & -> & Hl). cbn in Hl |- *.
  destruct serr as [e|]; cbn; [ask; abort_case|].
  rewrite Hl by done. cbn.
  ask. destruct r as [e|]; cbn; [ask; abort_case|].
  ask. destruct r as [e|]; cbn; [ask; abort_case|].
  rewrite run_deferred.
  match goal with |- context [run (write_lines ?ls) ?w1] =>
    destruct (run_write_lines ls w1) as (g & err & w' & -> & Hp & Hs & Hr & _ & Hg & Herr) end.
  destruct w'. cbn in *. unfold same_process in Hp. cbn in Hp. destruct_and?. simplify_eq.
  destruct err as [e|]; ask; ask; do 3 eexists; (split; [done|]); cbn; do 4 (split; [done|]).
  - destruct Herr as [-> [Hfault [n Hn]]]. split; [done|]. right. eauto.
  - by destruct Herr.
Qed.

Lemma run_ResyncNFSMountd (generation : Z) w :
  free exportsLock w ->
  exists err w', run (ResyncNFSMountd generation) w = (Done err, w') /\
    same_process w w' /\ w_exports w' = w_exports w /\ w_generation w' = w_generation w /\
    if generation <=? w_syncedGeneration w then
      err = None /\ w_savedUpdates w' = int64 (w_savedUpdates w + 1) /\
      w_syncedGeneration w' = w_syncedGeneration w /\ w_resynced w' = w_resynced w
    else
      w_savedUpdates w' = w_savedUpdates w /\
      match err with
      | None => w_syncedGeneration w' = generation /\ w_resynced w' = w_exports w
      | Some _ => w_syncedGeneration w' = w_syncedGeneration w /\ w_resynced w' = w_resynced w
      end.
Proof.
  intros Hlock. destruct w as [? ? [] ]. unfold free in Hlock. cbn in Hlock. subst.
  unfold ResyncNFSMountd. rewrite run_with_lock by done. cbn.
  destruct (generation <=? w_syncedGeneration); cbn.
  { do 2 eexists. split; [done|]. done. }
  ask. destruct r as [out [e|]]; cbn; [|by do 2 eexists].
  ask. ask. destruct r0 as [out' [e'|]]; cbn; [ask|]; do 2 eexists; (split; [done|]); done.
Qed.

(** C32: [AddExport] in any environment, whatever operations of the operating
    system fail: it terminates, gives [exportsLock] back and touches nothing
    else than the file and [generation]; it returns the current generation;
    success means the whole entry was appended and [generation] was
    incremented; on every error [generation] is unchanged, and so is the file
    unless a write failed part-way through the entry. *)
Theorem AddExport_any_environment (directory options : string) w
    (Hlock : free exportsLock w) :
  exists g err w', run (AddExport directory options) w = (Done (g, err), w') /\
    same_process w w' /\ w_syncedGeneration w' = w_syncedGeneration w /\
    w_resynced w' = w_resynced w /\ g = w_generation w' /\
    match err with
    | None => g = int64 (w_generation w + 1) /\
              w_exports w' = w_exports w +:+ entry_text directory options
    | Some _ => g = w_generation w /\
                (w_exports w' = w_exports w \/ write_fault /\
                 exists n, w_exports w' = w_exports w +:+ stake n (entry_text directory options))
    end.
Proof. by apply run_AddExport. Qed.

(** C37: [DeleteExport] in any environment: it terminates, gives [exportsLock]
    back and touches nothing else than the file and [generation]; success
    means the file holds exactly the trimmed lines that do not begin with the
    directory, in their order, and [generation] was incremented; on every
    error [generation] is unchanged, and so is the file unless a write failed,
    which leaves only a beginning of those lines. *)
Theorem DeleteExport_any_environment (directory : string) w
    (Hlock : free exportsLock w) :
  exists g err w', run (DeleteExport directory) w = (Done (g, err), w') /\
    same_process w w' /\ w_syncedGeneration w' = w_syncedGeneration w /\
    w_resynced w' = w_resynced w /\ g = w_generation w' /\
    let kept := unlines (keep_lines directory (ScanLines (w_exports w)).1) in
    match err with
    | None => g = int64 (w_generation w + 1) /\ w_exports w' = kept
    | Some _ => g = w_generation w /\
                (w_exports w' = w_exports w \/
                 write_fault /\ exists n, w_exports w' = stake n kept)
    end.
Proof. by apply run_DeleteExport. Qed.

(** C38: [ResyncNFSMountd] in any environment: it terminates, gives
    [exportsLock] back, never touches the file or [generation]; when the
    requested generation is not newer than the synchronised one it only counts
    a saved update; otherwise success means that [exportfs -r] ran on the
    present file and the requested generation is recorded, and an error leaves
    the record and the kernel table as they were. *)
Theorem ResyncNFSMountd_any_environment (generation : Z) w
    (Hlock : free exportsLock w) :
  exists err w', run (ResyncNFSMountd generation) w = (Done err, w') /\
    same_process w w' /\ w_exports w' = w_exports w /\ w_generation w' = w_generation w /\
    if generation <=? w_syncedGeneration w then
      err = None /\ w_savedUpdates w' = int64 (w_savedUpdates w + 1) /\
      w_syncedGeneration w' = w_syncedGeneration w /\ w_resynced w' = w_resynced w
    else
      w_savedUpdates w' = w_savedUpdates w /\
      match err with
      | None => w_syncedGeneration w' = generation /\ w_resynced w' = w_exports w
      | Some _ => w_syncedGeneration w' = w_syncedGeneration w /\ w_resynced w' = w_resynced w
      end.
Proof. by apply run_ResyncNFSMountd. Qed.
End AnyEnvironment.

(** ** Behaviour when the operating system does its part *)

Section Reliable.
Context {X : Type} `{ReliableFiles X}.
Implicit Types w : world X.

Lemma run_scan_file_ok w lines :
  ScanLines (w_exports w) = (lines, false) ->
  exists x, run scan_file w = (Done (lines, None), set_env x w).
Proof.
  intros Hl. destruct w. unfold scan_file. cbn in Hl. ask. rewrite Hl. cbn. eauto.
Qed.

Lemma run_checkExport_ok d w lines :
  ScanLines (w_exports w) = (lines, false) ->
  exists x, run (checkExport d) w = (Done (is_some (find_line d lines), None), set_env x w).
Proof.
  intros Hl. unfold checkExport, defer_Close, file_Close. destruct w. cbn in Hl. ask.
  rewrite run_deferred, run_bind. edestruct run_scan_file_ok as [y ->]; [exact Hl|]. cbn.
  destruct (find_line d lines); ask; eauto.
Qed.

Lemma run_CheckExport_ok d w lines :
  free exportsLock w -> ScanLines (w_exports w) = (lines, false) ->
  exists x, run (CheckExport d) w = (Done (is_some (find_line d lines), None), set_env x w).
Proof.
  intros Hlock Hl. unfold CheckExport. rewrite run_with_lock by done.
  edestruct (run_checkExport_ok d (set_held exportsLock true w)) as [x ->]; [by destruct w|].
  destruct w as [? ? [] ]. unfold free in Hlock. cbn in Hlock. subst. cbn. eauto.
Qed.

Lemma run_GetExport_ok d w lines :
  free exportsLock w -> ScanLines (w_exports w) = (lines, false) ->
  exists x, run (GetExport d) w =
    (Done (match find_line d lines with
           | Some line => (line, None)
           | None => ("", Some (Errorf ("no export entry found for " +:+ d)))
           end), set_env x w).
Proof.
  intros Hlock Hl. unfold GetExport, defer_Close, file_Close. rewrite run_with_lock by done.
  destruct w as [? ? [] ]. unfold free in Hlock. cbn in Hlock, Hl. subst. ask.
  rewrite run_deferred, run_bind. edestruct run_scan_file_ok as [y ->]; [exact Hl|]. cbn.
  destruct (find_line d lines); ask; eauto.
Qed.

Lemma run_AddExport_ok d o w lines :
  free exportsLock w -> ScanLines (w_exports w) = (lines, false) ->
  exists x, run (AddExport d o) w =
    match find_line d lines with
    | Some _ =>
        (Done (w_generation w, Some (Errorf ("export entry for " +:+ d +:+ " already exists"))),
         set_env x w)
    | None =>
        let g := int64 (w_generation w + 1) in
        (Done (g, None),
         set_env x (set_var V_generation g (set_exports (w_exports w +:+ entry_text d o) w)))
    end.
Proof.
  intros Hlock Hl. unfold AddExport. rewrite run_with_lock, run_bind by done.
  edestruct (run_checkExport_ok d (set_held exportsLock true w)) as [x ->]; [by destruct w|].
  destruct w as [? ? [] ]. unfold free in Hlock. cbn in Hlock, Hl. subst.
  unfold fail_generation, bump_generation, file_WriteString, defer_Close, file_Close. cbn.
  destruct (find_line d lines); cbn; [eauto|].
  ask. rewrite run_deferred. ask. ask. eauto.
Qed.

Lemma run_write_lines_ok ls w :
  exists x, run (write_lines ls) w =
    (let g := int64 (w_generation w + 1) in
     (Done (g, None),
      set_env x (set_var V_generation g (set_exports (w_exports w +:+ unlines ls) w)))).
Proof.
  revert w. induction ls as [|l ls IH]; intros [].
  - cbn. eexists. by rewrite string_app_nil_r.
  - change (write_lines (l :: ls)) with
      (err ← file_WriteString (l +:+ newline);
       match err with
       | Some _ => err ← file_Close; fail_generation (Errorf
           ("failed to write to " +:+ exportsDir +:+ ": " +:+ show_err err))
       | None => write_lines ls
       end).
    unfold file_WriteString. ask.
    match goal with |- context [run (write_lines ls) ?w1] => destruct (IH w1) as [y ->] end.
    cbn [unlines]. eexists. cbn. by rewrite !string_app_assoc.
Qed.

Lemma run_DeleteExport_ok d w lines :
  free exportsLock w -> ScanLines (w_exports w) = (lines, false) ->
  exists x, run (DeleteExport d) w =
    (let g := int64 (w_generation w + 1) in
     (Done (g, None),
      set_env x (set_var V_generation g (set_exports (unlines (keep_lines d lines)) w)))).
Proof.
  intros Hlock Hl. destruct w as [? ? [] ]. unfold free in Hlock. cbn in Hlock, Hl. subst.
  unfold DeleteExport, defer_Close, file_Close. rewrite run_with_lock by done. ask.
  rewrite run_deferred, run_bind. edestruct run_scan_file_ok as [y ->]; [exact Hl|]. ask. ask.
  rewrite run_deferred.
  match goal with |- context [run (write_lines ?ls) ?w1] =>
    destruct (run_write_lines_ok ls w1) as [z ->] end.
  ask. ask. eauto.
Qed.
End Reliable.

(** ** The abstract exports table and the refinement *)

Module ExportsSpec.
(** The table is the list of its entries; an entry belongs to a directory
    when it begins with it. *)
Definition table := list string.
Definition belongs (d : string) (e : string) : bool := HasPrefix e d.
Definition lookup (d : string) (t : table) : option string := List.find (belongs d) t.
Definition add (d o : string) (t : table) : bool * table :=
  match lookup d t with
  | Some _ => (false, t)
  | None => (true, t ++ [d +:+ " " +:+ o])
  end.
Definition delete (d : string) (t : table) : table :=
  List.filter (fun e => negb (belongs d e)) t.
End ExportsSpec.

(** The operations a client makes, and what it observes. *)
Inductive file_op :=
  | FAdd (directory options : string)
  | FDelete (directory : string)
  | FCheck (directory : string)
  | FGet (directory : string).

Inductive file_obs :=
  | ObsChange (ok : bool)
  | ObsCheck (found : bool)
  | ObsGet (entry : option string).

Definition exec_op (op : file_op) : prog file_obs :=
  match op with
  | FAdd d o => '(_, err) ← AddExport d o; mret (ObsChange (negb (is_some err)))
  | FDelete d => '(_, err) ← DeleteExport d; mret (ObsChange (negb (is_some err)))
  | FCheck d => '(found, err) ← CheckExport d;
                mret (ObsCheck (found && negb (is_some err)))
  | FGet d => '(line, err) ← GetExport d;
              mret (ObsGet (match err with None => Some line | Some _ => None end))
  end.

Fixpoint exec_ops (ops : list file_op) : prog (list file_obs) :=
  match ops with
  | [] => mret []
  | op :: ops => ob ← exec_op op; obs ← exec_ops ops; mret (ob :: obs)
  end.

Definition spec_op (op : file_op) (t : ExportsSpec.table) : file_obs * ExportsSpec.table :=
  match op with
  | FAdd d o => let '(ok, t') := ExportsSpec.add d o t in (ObsChange ok, t')
  | FDelete d => (ObsChange true, ExportsSpec.delete d t)
  | FCheck d => (ObsCheck (is_some (ExportsSpec.lookup d t)), t)
  | FGet d => (ObsGet (ExportsSpec.lookup d t), t)
  end.

Fixpoint spec_ops (ops : list file_op) (t : ExportsSpec.table)
    : list file_obs * ExportsSpec.table :=
  match ops with
  | [] => ([], t)
  | op :: ops => let '(ob, t) := spec_op op t in
                 let '(obs, t) := spec_ops ops t in (ob :: obs, t)
  end.

(** Entries that a line of the file can hold: no newline, less than 64 KiB, no
    blank at either end. *)
Definition entry_ok (d o : string) : bool :=
  let e := d +:+ " " +:+ o in no_nl e && short_line e && untrimmable e.

Definition op_ok (op : file_op) : bool :=
  match op with FAdd d o => entry_ok d o | _ => true end.

(** A process whose exports file is a sequence of complete lines that hold,
    up to surrounding blanks, the entries of the table. *)
Definition represents {X} (w : world X) (t : ExportsSpec.table) : Prop :=
  free exportsLock w /\
  exists ls, w_exports w = unlines ls /\ Forall text_line ls /\
             t = (fun l => TrimSpace (dropCR l)) <$> ls.

Lemma find_line_table d ls :
  find_line d (dropCR <$> ls) = ExportsSpec.lookup d ((fun l => TrimSpace (dropCR l)) <$> ls).
Proof.
  unfold find_line, ExportsSpec.lookup, ExportsSpec.belongs. by rewrite <- list_fmap_compose.
Qed.

Lemma keep_lines_table d ls :
  keep_lines d (dropCR <$> ls) = ExportsSpec.delete d ((fun l => TrimSpace (dropCR l)) <$> ls).
Proof.
  unfold keep_lines, ExportsSpec.delete, ExportsSpec.belongs. by rewrite <- list_fmap_compose.
Qed.

Lemma no_nl_dropCR l : no_nl l = true -> no_nl (dropCR l) = true.
Proof.
  unfold no_nl. induction l as [|c l IH]; [done|]. intros Hn.
  cbn [string_all] in Hn. apply andb_true_iff in Hn as [Hc Hn].
  destruct l as [|d l]; [by cbn; destruct (Ascii.eqb c "013"); cbn; rewrite ?Hc|].
  change (dropCR (String c (String d l))) with (String c (dropCR (String d l))).
  cbn [string_all]. rewrite Hc. by apply IH.
Qed.

Lemma no_nl_TrimSpace l : no_nl l = true -> no_nl (TrimSpace l) = true.
Proof. destruct (TrimSpace_substring l) as (a & b & Hl). rewrite Hl at 1. rewrite !no_nl_app. intros Hn. by breflect. Qed.

Lemma text_line_dropCR l : text_line l -> text_line (dropCR l).
Proof.
  unfold text_line, short_line. intros [Hn Hs]. split; [by apply no_nl_dropCR|].
  apply Z.ltb_lt. apply Z.ltb_lt in Hs. eapply Z.le_lt_trans; [|exact Hs]. apply Nat2Z.inj_le.
  clear. induction l as [|c l IH]; [done|].
  destruct l as [|d l]; [cbn; destruct (Ascii.eqb c "013"); cbn; lia|].
  change (dropCR (String c (String d l))) with (String c (dropCR (String d l))).
  cbn [String.length]. apply le_n_S, IH.
Qed.

(** Every entry of a represented table is a trimmed line. *)
Lemma table_lines ls t :
  Forall text_line ls -> t = (fun l => TrimSpace (dropCR l)) <$> ls ->
  Forall (fun e => text_line e /\ untrimmable e = true) t.
Proof.
  intros Hls ->. apply Forall_fmap. eapply Forall_impl; [exact Hls|]. intros l Hl. cbn.
  auto using text_line_TrimSpace, text_line_dropCR, TrimSpace_untrimmable.
Qed.

Lemma represents_lines {X} (w : world X) t :
  free exportsLock w -> w_exports w = unlines t ->
  Forall (fun e => text_line e /\ untrimmable e = true) t -> represents w t.
Proof.
  intros Hf Hw Ht. split; [done|]. exists t. split; [done|].
  split; [eapply Forall_impl; [exact Ht|]; by intros e []|].
  clear Hw. induction Ht as [|e t [_ He] _ IH]; [done|]. cbn.
  rewrite dropCR_untrimmable, TrimSpace_id by done. by f_equal.
Qed.

(** Only the file and the lock matter. *)
Lemma represents_frame {X Y} (w : world X) (w' : world Y) t :
  represents w t -> free exportsLock w' -> w_exports w' = w_exports w -> represents w' t.
Proof. intros (_ & ls & Hw & Hls & Ht) Hf E. split; [done|]. exists ls. by rewrite E. Qed.

(** What the scanner finds in the file that represents a table. *)
Lemma represents_scan {X} (w : world X) t :
  represents w t ->
  exists lines, ScanLines (w_exports w) = (lines, false) /\
    (forall d, find_line d lines = ExportsSpec.lookup d t) /\
    (forall d, keep_lines d lines = ExportsSpec.delete d t).
Proof.
  intros (_ & ls & Hw & Hls & ->). exists (dropCR <$> ls).
  split; [rewrite Hw; by apply ScanLines_unlines|].
  split; intros d; [apply find_line_table|apply keep_lines_table].
Qed.

Lemma represents_add {X} (w w' : world X) t d o :
  represents w t -> entry_ok d o = true -> free exportsLock w' ->
  w_exports w' = w_exports w +:+ entry_text d o -> represents w' (t ++ [d +:+ " " +:+ o]).
Proof.
  intros (_ & ls & Hw & Hls & Ht) Hok Hf E. unfold entry_ok in Hok. breflect.
  split; [done|]. exists (ls ++ [d +:+ " " +:+ o]). split; [|split].
  - rewrite E, Hw, unlines_app. cbn. unfold entry_text. by rewrite !string_app_assoc.
  - apply Forall_app. split; [done|]. repeat constructor; done.
  - rewrite fmap_app, <- Ht. cbn [fmap list_fmap].
    rewrite dropCR_untrimmable, TrimSpace_id by done. done.
Qed.

Lemma represents_delete {X} (w w' : world X) t d :
  represents w t -> free exportsLock w' -> w_exports w' = unlines (ExportsSpec.delete d t) ->
  represents w' (ExportsSpec.delete d t).
Proof.
  intros (_ & ls & Hw & Hls & Ht) Hf E. apply represents_lines; [done|done|].
  apply List.Forall_forall. intros e [He _]%filter_In.
  pose proof (table_lines ls t Hls Ht) as Hall. rewrite List.Forall_forall in Hall. auto.
Qed.

Section Refinement.
Context {X : Type} `{ReliableFiles X}.
Implicit Types w : world X.

Lemma exec_op_refines op w t :
  op_ok op = true -> represents w t ->
  exists w', run (exec_op op) w = (Done (spec_op op t).1, w') /\ represents w' (spec_op op t).2.
Proof.
  intros Hok Hrep. destruct (represents_scan w t Hrep) as (lines & Hscan & Hfind & Hkeep).
  assert (Hf := proj1 Hrep).
  assert (Hframe : forall x, represents (set_env x w) t).
  { intros x. by apply (represents_frame w); destruct w. }
  destruct op as [d o|d|d|d]; cbn [exec_op]; rewrite run_bind.
  - edestruct (run_AddExport_ok d o) as [x ->]; [done|done|].
    rewrite Hfind. cbn. unfold ExportsSpec.add.
    destruct (ExportsSpec.lookup d t) as [e|]; cbn; [eauto|].
    eexists. split; [done|]. by apply (represents_add w); destruct w.
  - edestruct (run_DeleteExport_ok d) as [x ->]; [done|done|].
    rewrite Hkeep. cbn. eexists. split; [done|]. by apply (represents_delete w); destruct w.
  - edestruct (run_CheckExport_ok d) as [x ->]; [done|done|].
    rewrite Hfind. cbn. rewrite andb_true_r. eauto.
  - edestruct (run_GetExport_ok d) as [x ->]; [done|done|].
    rewrite Hfind. cbn. destruct (ExportsSpec.lookup d t); cbn; eauto.
Qed.

(** C5: the exports file refines the abstract table: when the operating system
    does its part, every sequence of [AddExport], [DeleteExport],
    [CheckExport] and [GetExport] calls (whose entries a line can hold)
    returns exactly what the table of entries returns, and ends with a file
    that represents the resulting table. *)
Theorem exports_file_refines_table (ops : list file_op) w (t : ExportsSpec.table)
    (Hops : forallb op_ok ops = true) (Hrep : represents w t) :
  exists w', run (exec_ops ops) w = (Done (spec_ops ops t).1, w') /\
             represents w' (spec_ops ops t).2.
Proof.
  revert w t Hrep. induction ops as [|op ops IH]; intros w t Hrep; cbn in *; [eauto|].
  breflect. destruct (exec_op_refines op w t) as (w1 & Hr & Hrep1); [done|done|].
  rewrite run_bind, Hr. destruct (spec_op op t) as [ob t1]. cbn in *.
  destruct (IH H2 w1 t1 Hrep1) as (w2 & Hr2 & Hrep2).
  rewrite run_bind, Hr2. destruct (spec_ops ops t1) as [obs t2]. cbn in *. eauto.
Qed.
End Refinement.

(** ** Synchronisation over any history of calls *)

Section Histories.
Context {X : Type} `{Env X}.
Implicit Types w : world X.

(** The calls that change the file or the record, each made as a whole (they
    hold [exportsLock]); [ResyncNFSMountd] is asked for a generation that a
    previous call returned, and [int64] does not overflow. *)
Inductive sync_step : world X -> world X -> Prop :=
  | SyncAdd d o w : w_generation w < max_int64 -> sync_step w (run (AddExport d o) w).2
  | SyncDelete d w : w_generation w < max_int64 -> sync_step w (run (DeleteExport d) w).2
  | SyncResync g w : g <= w_generation w -> sync_step w (run (ResyncNFSMountd g) w).2.

(** The record is truthful: it is never ahead of the file, and when it says
    the file is synchronised the kernel exports the file. *)
Definition in_sync w : Prop :=
  free exportsLock w /\ min_int64 <= w_generation w /\
  w_syncedGeneration w <= w_generation w /\
  (w_syncedGeneration w = w_generation w -> w_resynced w = w_exports w).

Lemma same_process_free m w w' : same_process w w' -> free m w -> free m w'.
Proof. unfold same_process, free. intros (_ & _ & -> & _). done. Qed.

Lemma sync_step_in_sync w w' :
  ~ write_fault -> in_sync w -> sync_step w w' -> in_sync w'.
Proof.
  intros Hwf (Hf & Hmin & Hle & Heq) Hs. destruct Hs as [d o w Hmax|d w Hmax|g w Hg].
  - destruct (run_AddExport d o w Hf) as (g & err & w' & -> & Hp & Hsy & Hre & Hg & Herr). cbn.
    unfold in_sync. rewrite Hsy, Hre, <- Hg.
    split; [by eapply same_process_free|]. destruct err as [e|].
    + destruct Herr as [-> [->|[? _]]]; [|done]. done.
    + destruct Herr as [-> _]. rewrite int64_id by lia. split; [lia|]. split; [lia|]. lia.
  - destruct (run_DeleteExport d w Hf) as (g & err & w' & -> & Hp & Hsy & Hre & Hg & Herr). cbn.
    unfold in_sync. rewrite Hsy, Hre, <- Hg.
    split; [by eapply same_process_free|]. destruct err as [e|].
    + destruct Herr as [-> [->|[? _]]]; [|done]. done.
    + destruct Herr as [-> _]. rewrite int64_id by lia. split; [lia|]. split; [lia|]. lia.
  - destruct (run_ResyncNFSMountd g w Hf) as (err & w' & -> & Hp & Hex & Hge & Herr). cbn.
    unfold in_sync. rewrite Hex, Hge. split; [by eapply same_process_free|]. split; [done|].
    destruct (g <=? w_syncedGeneration w) eqn:E.
    + destruct Herr as (_ & _ & -> & ->). done.
    + destruct Herr as [_ Herr]. destruct err; destruct Herr as [-> ->]; done.
Qed.

Lemma sync_history_in_sync w w' :
  ~ write_fault -> in_sync w -> rtc sync_step w w' -> in_sync w'.
Proof. intros ? Hw Hs. induction Hs; eauto using sync_step_in_sync. Qed.

(** C18: whatever [AddExport], [DeleteExport] and [ResyncNFSMountd] calls were
    made before, in any order and with any failures except torn writes, a
    [ResyncNFSMountd] of the current generation that reports success leaves
    the kernel exporting exactly what the file says, even when the call
    decided that [exportfs -r] was superfluous. *)
Theorem resync_success_means_synced w w' (Hw : in_sync w)
    (Hwrite : ~ write_fault) (Hhist : rtc sync_step w w')
    (Hok : (run (ResyncNFSMountd (w_generation w')) w').1 = Done None) :
  let w'' := (run (ResyncNFSMountd (w_generation w')) w').2 in
  w_resynced w'' = w_exports w'' /\ w_exports w'' = w_exports w'.
Proof.
  cbv zeta. destruct (sync_history_in_sync w w') as (Hf & _ & Hle & Heq); [done..|].
  destruct (run_ResyncNFSMountd (w_generation w') w' Hf) as (err & w2 & E & _ & Hex & Hge & Herr).
  rewrite E in *. cbn in *. simplify_eq. rewrite Hex. split; [|done].
  destruct (w_generation w' <=? w_syncedGeneration w') eqn:Hc.
  - breflect. destruct Herr as (_ & _ & Hsy & ->). apply Heq. lia.
  - by destruct Herr as [_ [_ ->]].
Qed.
End Histories.

(** ** Witnesses and concrete behaviour *)

Definition demo_world (exports : string) : world unit := initial_world exports tt.

Lemma AddExport_any_environment_witness :
  exists g err w', run (H := calm) (AddExport "/nfs/exports/a/" "*(rw)") (demo_world "") = (Done (g, err), w')
    /\ g = w_generation w'.
Proof.
  destruct (AddExport_any_environment (H := calm) "/nfs/exports/a/" "*(rw)" (demo_world "") eq_refl)
    as (g & err & w' & Hr & _ & _ & _ & Hg & _). eauto.
Defined.

Lemma DeleteExport_any_environment_witness :
  exists g err w', run (H := calm) (DeleteExport "/nfs/exports/a") (demo_world "") = (Done (g, err), w')
    /\ g = w_generation w'.
Proof.
  destruct (DeleteExport_any_environment (H := calm) "/nfs/exports/a" (demo_world "") eq_refl)
    as (g & err & w' & Hr & _ & _ & _ & Hg & _). eauto.
Defined.

Lemma ResyncNFSMountd_any_environment_witness :
  exists err w', run (H := calm) (ResyncNFSMountd 3) (demo_world "a") = (Done err, w')
    /\ w_exports w' = "a".
Proof.
  destruct (ResyncNFSMountd_any_environment (H := calm) 3 (demo_world "a") eq_refl)
    as (err & w' & Hr & _ & Hex & _). eauto.
Defined.

Lemma demo_represents : represents (demo_world (unlines ["/x/vol-10/ *(rw)"])) ["/x/vol-10/ *(rw)"].
Proof.
  apply represents_lines; [reflexivity|reflexivity|].
  repeat constructor; vm_compute; reflexivity.
Qed.

Lemma exports_file_refines_table_witness :
  exists w', run (H := calm) (exec_ops [FAdd "/x/vol-1/" "*(ro)"; FGet "/x/vol-1/"; FCheck "/x/vol-2"])
               (demo_world (unlines ["/x/vol-10/ *(rw)"])) =
             (Done [ObsChange true; ObsGet (Some "/x/vol-1/ *(ro)"); ObsCheck false], w').
Proof.
  destruct (exports_file_refines_table (H := calm)
              [FAdd "/x/vol-1/" "*(ro)"; FGet "/x/vol-1/"; FCheck "/x/vol-2"]
              (demo_world (unlines ["/x/vol-10/ *(rw)"])) ["/x/vol-10/ *(rw)"])
    as (w' & Hr & _).
  - vm_compute. reflexivity.
  - exact demo_represents.
  - exists w'. exact Hr.
Defined.

Lemma resync_success_means_synced_witness :
  let w' := (run (H := calm) (AddExport "/x/a/" "*(rw)") (demo_world "")).2 in
  w_resynced (run (H := calm) (ResyncNFSMountd (w_generation w')) w').2 = "/x/a/ *(rw)" +:+ newline.
Proof.
  cbv zeta.
  destruct (resync_success_means_synced (H := calm) (demo_world "")
              (run (H := calm) (AddExport "/x/a/" "*(rw)") (demo_world "")).2) as [E1 E2].
  - split; [reflexivity|]. split; [vm_compute; discriminate|]. split; [vm_compute; discriminate|done].
  - intros [x Hx]. by apply Hx.
  - eapply rtc_l; [by apply SyncAdd|constructor].
  - vm_compute. reflexivity.
  - rewrite E1, E2. vm_compute. reflexivity.
Defined.

(** [DeleteExport] matches by prefix: called with the path of one export
    directory without a trailing slash, as [UnexportNfsVolume] does, it also
    removes the exports of every directory whose name extends it. *)
Theorem DeleteExport_removes_siblings :
  let file := unlines ["/nfs/exports/vol-1/ *(rw)"; "/nfs/exports/vol-10/ *(rw)"] in
  let w' := (run (H := calm) (DeleteExport "/nfs/exports/vol-1") (demo_world file)).2 in
  w_exports w' = "".
Proof. vm_compute. reflexivity. Qed.

(** [AddExport] does not look for a final newline: when the last line of
    the file has none the new entry is glued to it, [AddExport] reports
    success, and [CheckExport] does not find the directory afterwards. *)
Theorem AddExport_needs_final_newline :
  let '(r, w1) := run (H := calm) (AddExport "/x/a/" "*(rw)") (demo_world "/y *(ro)") in
  r = Done (1, None) /\
  w_exports w1 = "/y *(ro)/x/a/ *(rw)" +:+ newline /\
  (run (H := calm) (CheckExport "/x/a/") w1).1 = Done (false, None).
Proof. vm_compute. repeat split; reflexivity. Qed.
