(* ===== verification/Local.v ===== *)
(** * The operating system behind its interfaces

    [OSImpl] in [csinfs.go], [executor.go] and [unmount.go].  The program
    reaches the operating system through [opSys] and an [Executor].  Their
    implementations clean the names of files and otherwise pass the call on;
    the other files use the calls themselves.  The lemmas say that this is the
    same for every call the program makes. *)

From S2P Require Import Prelude GoStrings Messages GoProg Exports.

(** ** Flags of [os.OpenFile] *)

Definition O_WRONLY : Z := 1.
Definition O_TRUNC : Z := 512.
Definition O_APPEND : Z := 1024.

(** ** [OSImpl] *)

Definition Stat (filepath : string) : prog (option go_error) := ext (OsStat filepath).
Definition Getenv (envName : string) : prog string := ext (OsGetenv envName).
Definition MkdirAll (fileName : string) (perm : Z) : prog (option go_error) :=
  ext (OsMkdirAll fileName perm).
Definition Open (fileName : string) : prog (option go_error) := ext (OsOpen (Clean fileName)).
(** Only whether the file is truncated matters to the model of a file. *)
Definition OpenFile (fileName : string) (flag perm : Z) : prog (option go_error) :=
  ext (OsOpenFile (Clean fileName) (negb (Z.land flag O_TRUNC =? 0))).
Definition Chown (fileName : string) (uid gid : Z) : prog (option go_error) :=
  ext (OsChown fileName uid gid).
Definition Chmod (fileName : string) (mode : Z) : prog (option go_error) :=
  ext (OsChmod fileName mode).

(** ** [LocalExecutor] *)

Definition LocalExecutor_ExecuteCommand (name : string) (args : list string) : prog (pair_err string) :=
  ext (Exec ExecuteCommand name args).
Definition LocalExecutor_ExecuteCommandContext (name : string) (args : list string) : prog (pair_err string) :=
  ext (Exec ExecuteCommandContext name args).
Definition LocalExecutor_Run (name : string) (args : list string) : prog (option go_error) :=
  '(_, err) ← ext (Exec ExecuteCommand name args); mret err.
(** A command is its name and arguments. *)
Definition LocalExecutor_GetCombinedOutput (cmd : string * list string) : prog (pair_err string) :=
  ext (Exec GetCombinedOutput cmd.1 cmd.2).

(** ** [SyscallUnmount] ([unmount.go]), which nothing in the repository calls *)

Definition SyscallUnmount_Unmount (target : string) (flag : Z) : prog (option go_error) :=
  ext (SysUnmount target flag).

(** ** The calls of [exports.go] *)

Lemma Clean_pathToExports : Clean pathToExports = pathToExports.
Proof. vm_compute. reflexivity. Qed.

(** [opSys.Open(pathToExports)] *)
Lemma Open_exports : Open pathToExports = ext (OsOpen pathToExports).
Proof. unfold Open. by rewrite Clean_pathToExports. Qed.

(** [opSys.OpenFile(pathToExports, os.O_APPEND|os.O_WRONLY, 0o644)] *)
Lemma OpenFile_append :
  OpenFile pathToExports (Z.lor O_APPEND O_WRONLY) 420 = ext (OsOpenFile pathToExports false).
Proof. unfold OpenFile. by rewrite Clean_pathToExports. Qed.

(** [opSys.OpenFile(pathToExports, os.O_TRUNC|os.O_WRONLY, 0o644)] *)
Lemma OpenFile_truncate :
  OpenFile pathToExports (Z.lor O_TRUNC O_WRONLY) 420 = ext (OsOpenFile pathToExports true).
Proof. unfold OpenFile. by rewrite Clean_pathToExports. Qed.
