(* ===== verification/Json.v ===== *)
(** * [encoding/json] into a [map[string]string]

    What [json.Unmarshal] does with the annotation that holds a node's CSI
    ids: the target type admits an object whose values are strings or nulls;
    every other value is an error (a syntax error or a type error), which is
    all the program distinguishes. *)

From S2P Require Import Prelude GoStrings.

Definition quote : ascii := "034".
Definition backslash : ascii := "\".

Definition json_space (c : ascii) : bool :=
  (byte_of c =? 32) || (byte_of c =? 9) || (byte_of c =? 10) || (byte_of c =? 13).

Fixpoint skip_space (s : string) : string :=
  match s with
  | String c t => if json_space c then skip_space t else s
  | "" => ""
  end.

Definition hex (c : ascii) : option Z :=
  let b := byte_of c in
  if in_range 48 57 b then Some (b - 48)
  else if in_range 97 102 b then Some (b - 87)
  else if in_range 65 70 b then Some (b - 55)
  else None.

(** Four hexadecimal digits. *)
Definition hex4 (s : string) : option (Z * string) :=
  match s with
  | String a (String b (String c (String d t))) =>
      a ← hex a; b ← hex b; c ← hex c; d ← hex d;
      Some (((a * 16 + b) * 16 + c) * 16 + d, t)
  | _ => None
  end.

Definition is_surrogate (r : Z) : bool := in_range 55296 57343 r.

(** [utf16.DecodeRune] on a surrogate and the escape that follows it. *)
Definition surrogate_pair (r1 : Z) (s : string) : option (Z * string) :=
  match s with
  | String c (String d t) =>
      if Ascii.eqb c backslash && Ascii.eqb d "u" then
        '(r2, rest) ← hex4 t;
        if in_range 55296 56319 r1 && in_range 56320 57343 r2
        then Some ((r1 - 55296) * 1024 + (r2 - 56320) + 65536, rest) else None
      else None
  | _ => None
  end.

Definition escape (c : ascii) : option ascii :=
  if Ascii.eqb c quote || Ascii.eqb c backslash || Ascii.eqb c "/" then Some c
  else if Ascii.eqb c "b" then Some (byte 8)
  else if Ascii.eqb c "f" then Some (byte 12)
  else if Ascii.eqb c "n" then Some (byte 10)
  else if Ascii.eqb c "r" then Some (byte 13)
  else if Ascii.eqb c "t" then Some (byte 9)
  else None.

Definition prepend (s : string) (r : option (string * string)) : option (string * string) :=
  '(t, rest) ← r; Some (s +:+ t, rest).

(** The rest of a string literal, after the opening quote: its value and what
    follows the closing quote.  Every round consumes a byte. *)
Fixpoint json_chars (fuel : nat) (s : string) : option (string * string) :=
  match fuel, s with
  | S fuel, String c t =>
      if Ascii.eqb c quote then Some ("", t)
      else if Ascii.eqb c backslash then
        match t with
        | String e t =>
            if Ascii.eqb e "u" then
              '(r, t) ← hex4 t;
              if is_surrogate r then
                match surrogate_pair r t with
                | Some (r, t) => prepend (EncodeRune r) (json_chars fuel t)
                | None => prepend (EncodeRune RuneError) (json_chars fuel t)
                end
              else prepend (EncodeRune r) (json_chars fuel t)
            else c ← escape e; prepend (String c "") (json_chars fuel t)
        | "" => None
        end
      else if byte_of c <? 32 then None
      else let '(r, w) := DecodeRune s in prepend (EncodeRune r) (json_chars fuel (sdrop w s))
  | _, _ => None
  end.

Definition json_string (s : string) : option (string * string) :=
  match s with
  | String c t => if Ascii.eqb c quote then json_chars (String.length t) t else None
  | "" => None
  end.

(** A value that a [string] element accepts; null leaves the zero value. *)
Definition json_value (s : string) : option (string * string) :=
  if HasPrefix s "null" then Some ("", sdrop 4 s) else json_string s.

Definition expect (c : ascii) (s : string) : option string :=
  match skip_space s with
  | String d t => if Ascii.eqb c d then Some t else None
  | "" => None
  end.

Definition json_member (s : string) : option (string * string * string) :=
  '(k, s) ← json_string (skip_space s);
  s ← expect ":" s;
  '(v, s) ← json_value (skip_space s);
  Some (k, v, s).

(** The members of an object up to its closing brace; a later member with the
    same key replaces an earlier one. *)
Fixpoint json_members (fuel : nat) (m : gmap string string) (s : string)
    : option (gmap string string * string) :=
  match fuel with
  | O => None
  | S fuel =>
      '(k, v, s) ← json_member s;
      match expect "," s with
      | Some s => json_members fuel (<[k:=v]> m) s
      | None => s ← expect "}" s; Some (<[k:=v]> m, s)
      end
  end.

Definition json_object (s : string) : option (gmap string string * string) :=
  match expect "}" s with
  | Some s => Some (∅, s)
  | None => json_members (String.length s) ∅ s
  end.

(** [json.Unmarshal(data, &m)] for a nil [m]: [None] is an error; null leaves
    the map nil, which reads like the empty map. *)
Definition Unmarshal (data : string) : option (gmap string string) :=
  '(m, rest) ←
    (if HasPrefix (skip_space data) "null" then Some (∅, sdrop 4 (skip_space data))
     else s ← expect "{" data; json_object s);
  if String.eqb (skip_space rest) "" then Some m else None.

(** ** What [json.Marshal] writes for such a map is read back *)

(** Printable ASCII that needs no escape. *)
Definition plain_char (c : ascii) : bool :=
  in_range 32 126 (byte_of c) && negb (Ascii.eqb c quote) && negb (Ascii.eqb c backslash).
Definition plain (s : string) : bool := string_all plain_char s.

Definition quoted (s : string) : string := String quote (s +:+ String quote "").
Definition render_member (kv : string * string) : string :=
  quoted kv.1 +:+ ":" +:+ quoted kv.2.
Definition render (members : list (string * string)) : string :=
  "{" +:+ Join (render_member <$> members) "," +:+ "}".

Definition members_map (members : list (string * string)) : gmap string string :=
  List.fold_left (fun m kv => <[kv.1:=kv.2]> m) members ∅.

Lemma EncodeRune_byte c : in_range 32 126 (byte_of c) = true -> EncodeRune (byte_of c) = String c "".
Proof.
  intros Hc. unfold EncodeRune.
  replace (in_range 0 127 (byte_of c)) with true.
  2: { unfold in_range in *. symmetry. breflect. apply andb_true_iff. split; apply Z.leb_le; lia. }
  cbn. unfold byte. by rewrite Nat2Z.id, ascii_nat_embedding.
Qed.

Lemma json_chars_plain s rest fuel :
  plain s = true -> (String.length s < fuel)%nat ->
  json_chars fuel (s +:+ String quote rest) = Some (s, rest).
Proof.
  revert fuel. induction s as [|c s IH]; intros [|fuel] Hs Hf; cbn in Hf; try lia; [done|].
  unfold plain in *. cbn [string_all] in Hs. apply andb_true_iff in Hs as [Hc Hs].
  unfold plain_char in Hc. apply andb_true_iff in Hc as [Hc Hb].
  apply andb_true_iff in Hc as [Hc Hq]. apply negb_true_iff in Hb, Hq.
  change (String c s +:+ String quote rest) with (String c (s +:+ String quote rest)).
  cbn [json_chars]. rewrite Hq, Hb.
  assert (H32 : (byte_of c <? 32) = false).
  { unfold in_range in Hc. breflect. apply Z.ltb_ge. lia. }
  assert (H128 : (byte_of c <? 128) = true).
  { unfold in_range in Hc. breflect. apply Z.ltb_lt. lia. }
  rewrite H32. cbn [DecodeRune]. rewrite H128, EncodeRune_byte by done.
  cbn [sdrop]. rewrite IH by (done || lia). done.
Qed.

Lemma json_string_quoted s rest :
  plain s = true -> json_string (String quote (s +:+ String quote rest)) = Some (s, rest).
Proof.
  intros Hs. unfold json_string. cbn.
  apply json_chars_plain; [done|]. rewrite string_app_length. cbn. lia.
Qed.

Definition plain_member (kv : string * string) : bool := plain kv.1 && plain kv.2.

Lemma render_member_app k v rest :
  render_member (k, v) +:+ rest =
  String quote (k +:+ String quote (String ":" (String quote (v +:+ String quote rest)))).
Proof. unfold render_member, quoted. cbn. rewrite !string_app_assoc. cbn. by rewrite string_app_assoc. Qed.

Lemma json_member_rendered kv rest :
  plain_member kv = true -> json_member (render_member kv +:+ rest) = Some (kv.1, kv.2, rest).
Proof.
  unfold plain_member. destruct kv as [k v]. intros Hp. cbn in Hp. breflect.
  rewrite render_member_app. unfold json_member.
  change (skip_space (String quote ?r)) with (String quote r).
  rewrite json_string_quoted by done. cbn [mbind option_bind expect].
  change (expect ":" (String ":" ?r)) with (Some r). cbn [mbind option_bind].
  change (skip_space (String quote ?r)) with (String quote r).
  unfold json_value. change (HasPrefix (String quote ?r) "null") with false. cbv iota.
  rewrite json_string_quoted by done. done.
Qed.

Lemma render_member_length kv : (4 <= String.length (render_member kv))%nat.
Proof. unfold render_member, quoted. cbn. rewrite !string_app_length. cbn. lia. Qed.

Lemma Join_cons2 x y l sep : Join (x :: y :: l) sep = x +:+ sep +:+ Join (y :: l) sep.
Proof. done. Qed.

Lemma expect_comma t : expect "," (","%string +:+ t) = Some t.
Proof. done. Qed.

Lemma json_members_rendered kv ms rest m fuel :
  forallb plain_member (kv :: ms) = true -> (List.length ms < fuel)%nat ->
  json_members fuel m (Join (render_member <$> kv :: ms) "," +:+ "}" +:+ rest) =
  Some (List.fold_left (fun m kv => <[kv.1:=kv.2]> m) (kv :: ms) m, rest).
Proof.
  revert kv m fuel. induction ms as [|kv' ms IH]; intros kv m [|fuel] Hp Hf; cbn in Hf; try lia.
  all: cbn [forallb] in Hp; apply andb_true_iff in Hp as [Hkv Hp]; cbn [json_members].
  - change (Join (render_member <$> [kv]) ",") with (render_member kv).
    rewrite json_member_rendered by done. done.
  - rewrite !fmap_cons, Join_cons2, <- fmap_cons, !string_app_assoc.
    rewrite json_member_rendered by done.
    cbn [mbind option_bind]. rewrite expect_comma, IH by (cbn; done || lia). done.
Qed.

Lemma Unmarshal_rendered members :
  forallb plain_member members = true -> Unmarshal (render members) = Some (members_map members).
Proof.
  intros Hp. unfold Unmarshal, render. destruct members as [|kv ms]; [done|].
  set (body := Join (render_member <$> kv :: ms) "," +:+ "}").
  change (skip_space ("{" +:+ body)) with ("{" +:+ body).
  change (HasPrefix ("{" +:+ body) "null") with false. cbv iota.
  change (expect "{" ("{" +:+ body)) with (Some body). cbn [mbind option_bind].
  assert (Hb : expect "}" body = None).
  { unfold body. rewrite fmap_cons. by destruct (render_member <$> ms). }
  unfold json_object. rewrite Hb. unfold body.
  rewrite <- (string_app_nil_r "}").
  rewrite json_members_rendered; [done|done|].
  assert (Hlen : forall k l, (List.length l < String.length (Join (render_member <$> k :: l) ","))%nat).
  { intros k l. revert k. induction l as [|k' l IH]; intros k.
    - change (Join (render_member <$> [k]) ",") with (render_member k).
      pose proof (render_member_length k). cbn. lia.
    - rewrite !fmap_cons, Join_cons2, <- fmap_cons, !string_app_length.
      pose proof (IH k'). change (String.length ",") with 1%nat. cbn [List.length]. lia. }
  rewrite string_app_length. apply Nat.lt_lt_add_r, Hlen.
Qed.

(** JSON text written with single quotes, for readability. *)
Definition json_text (s : string) : string :=
  map_bytes (fun c => if Ascii.eqb c "'" then quote else c) s.

Example Unmarshal_tests :
  (fun data => map_to_list <$> Unmarshal (json_text data)) <$>
    ["{}"; " null "; "{ 'a' : 'x\u00e9\n' , 'b':null }"; "{'a':1}"; "{'a':'x'} y"; "{'a':'x',}"]
  = [Some []; Some []; Some [("a", "x" +:+ bytes [195; 169; 10]); ("b", "")]; None; None; None].
Proof. vm_compute. reflexivity. Qed.
