(* ===== verification/Config.v ===== *)
(** * Configuration shared by the components ([src/nfs/csinfs.go], [env.go])

    The package variables that the driver sets before the service starts, and
    the fields of [CsiNfsService].  The references to the host driver ([vcsi])
    and to the Kubernetes client are the calls of [extE]. *)

From S2P Require Import Prelude GoStrings Messages.

(** Set by the driver at start-up and constant afterwards. *)
Class Globals := {
  NodeRoot : string;
  NfsExportDirectory : string;
  DriverNamespace : string;
  DriverName : string;
}.

Record CsiNfsService := {
  cs_provisionerName : string;
  cs_mode : string;
  cs_nodeID : string;
  cs_nodeIPAddress : string;
  cs_podCIDR : string;
  cs_nodeName : string;
  cs_failureRetries : nat;
  cs_waitCreateNfsServiceInterval : Z;
  cs_nfsServerPort : string;
  cs_nfsClientServicePort : string;
}.

(** [src/nfs/env.go] *)
Definition EnvPodCIDR : string := "PodCIDR".
Definition EnvNodeName : string := "NODE_NAME".
Definition EnvCSINodeName : string := "X_CSI_NODE_NAME".
Definition EnvNFSServerPort : string := "X_CSI_NFS_SERVER_PORT".
Definition EnvNFSClientServicePort : string := "X_CSI_NFS_CLIENT_PORT".

Definition second : Z := 10 ^ 9.

(** [getRequestIDFromContext] *)
Definition getRequestIDFromContext (ctx : context) : string :=
  match ctx_metadata ctx with
  | Some headers =>
      match headers !! "csi.requestid" with
      | Some (id :: _) => id
      | _ => ""
      end
  | None => ""
  end.

(** What [fmt] prints for Kubernetes objects, in error messages. *)
Class Printing := {
  show_slice : EndpointSlice -> string;
  show_failed_service : string; (* the service that accompanies an error *)
}.

(** A configuration for evaluation. *)
Definition demo_printing : Printing :=
  {| show_slice := es_Name; show_failed_service := "nil" |}.

Definition demo_globals : Globals := {|
  NodeRoot := "/noderoot";
  NfsExportDirectory := "/var/lib/dell/nfs";
  DriverNamespace := "powerstore";
  DriverName := "csi-powerstore.dellemc.com";
|}.

Definition demo_service : CsiNfsService := {|
  cs_provisionerName := "csi-powerstore.dellemc.com";
  cs_mode := "";
  cs_nodeID := "csi-node-1";
  cs_nodeIPAddress := "10.0.0.1";
  cs_podCIDR := "10.244.0.0/16";
  cs_nodeName := "node-1";
  cs_failureRetries := 10;
  cs_waitCreateNfsServiceInterval := 10 * second;
  cs_nfsServerPort := "2050";
  cs_nfsClientServicePort := "2050";
|}.
