(* ===== verification/K8s.v ===== *)
(** * The Kubernetes client ([src/nfs/k8s/k8s.go])

    The methods are thin layers over the API calls of [extE], except
    [GetEndpointSlices], which replaces the error, and [GetNodeByCSINodeID],
    which looks for the node whose annotation maps the driver to a CSI node
    id.  The second half states what the program relies on in the API: a store
    of named objects ([KubeStore]). *)

From S2P Require Import Prelude GoStrings Messages GoProg Json Config.

(** The variables that hold the two functions of the client library. *)
Definition RestInClusterConfigFunc : prog (option go_error) := ext InClusterConfig.
Definition NewForConfigFunc : prog (option go_error) := ext NewForConfig.

Definition Connect : prog (option go_error) :=
  err ← RestInClusterConfigFunc;
  match err with
  | Some e => mret (Some e)
  | None =>
      err ← NewForConfigFunc;
      match err with
      | Some e => mret (Some e)
      | None => mret None
      end
  end.

Definition CreateService (namespace : string) (service : Service) : prog (result Service) :=
  ext (KubeCreateService namespace service).
Definition GetService (namespace name : string) : prog (result Service) :=
  ext (KubeGetService namespace name).
Definition UpdateService (namespace : string) (service : Service) : prog (result Service) :=
  ext (KubeUpdateService namespace service).
Definition DeleteService (namespace name : string) : prog (option go_error) :=
  ext (KubeDeleteService namespace name).
Definition GetEndpointSlice (namespace name : string) : prog (result EndpointSlice) :=
  ext (KubeGetSlice namespace name).
Definition CreateEndpointSlice (namespace : string) (endpointSlice : EndpointSlice)
    : prog (result EndpointSlice) :=
  ext (KubeCreateSlice namespace endpointSlice).
Definition UpdateEndpointSlice (namespace : string) (endpointSlice : EndpointSlice)
    : prog (result EndpointSlice) :=
  ext (KubeUpdateSlice namespace endpointSlice).
Definition DeleteEndpointSlice (namespace name : string) : prog (option go_error) :=
  ext (KubeDeleteSlice namespace name).
Definition GetPersistentVolume (name : string) : prog (result PersistentVolume) :=
  ext (KubeGetPV name).
Definition GetNode (nodeName : string) : prog (result Node) := ext (KubeGetNode nodeName).

Definition GetEndpointSlices (namespace labelSelector : string)
    : prog (result (list EndpointSlice)) :=
  r ← ext (KubeListSlices namespace labelSelector);
  mret (match r with
        | inl slices => inl slices
        | inr e => inr (Errorf ("shared-nfs: error retrieving endpointslices: " +:+ labelSelector
                                  +:+ ": " +:+ err_text e))
        end).

Definition GetAllNodes : prog (result (list Node)) := ext KubeListNodes.

Definition nodeid_annotation : string := "csi.volume.kubernetes.io/nodeid".

(** The body of the loop of [GetNodeByCSINodeID]. *)
Definition node_has_id (driverKey csiNodeID : string) (node : Node) : bool :=
  match node_Annotations node ≫= lookup nodeid_annotation with
  | None => false
  | Some annotation =>
      match Unmarshal annotation with
      | None => false
      | Some nodeIDMap => bool_decide (nodeIDMap !! driverKey = Some csiNodeID)
      end
  end.

Definition GetNodeByCSINodeID (driverKey csiNodeID : string) : prog (result Node) :=
  r ← ext KubeListNodes;
  mret (match r with
        | inr e => inr {| err_text := "failed to list nodes: " +:+ err_text e;
                          err_code := err_code e; err_notfound := err_notfound e |}
        | inl nodes =>
            match List.find (node_has_id driverKey csiNodeID) nodes with
            | Some node => inl node
            | None => inr (Errorf ("failed to find a Node matching csiNodeId " +:+ csiNodeID))
            end
        end).

(** A node whose annotation the kubelet wrote from the map [members]. *)
Definition annotated (node : Node) (members : list (string * string)) : Prop :=
  node_Annotations node ≫= lookup nodeid_annotation = Some (render members) /\
  forallb plain_member members = true.

Lemma node_has_id_annotated driverKey id node members :
  annotated node members ->
  node_has_id driverKey id node = bool_decide (members_map members !! driverKey = Some id).
Proof. intros [Ha Hp]. unfold node_has_id. by rewrite Ha, Unmarshal_rendered. Qed.

Section Lookup.
Context {X : Type} `{Env X}.

(** C29: [GetNodeByCSINodeID] on a cluster whose annotations are JSON objects of
    plain strings: it returns a listed node to which the driver gave exactly
    this CSI id, the first one in the order of the list, and it fails only if
    there is none. *)
Theorem GetNodeByCSINodeID_correct (driverKey csiNodeID : string) (w : world X)
    (nodes : list Node) (members : Node -> list (string * string))
    (Hlist : (env_step KubeListNodes (w_env w)).1 = inl nodes)
    (Hann : forall node, In node nodes -> annotated node (members node)) :
  let has node := members_map (members node) !! driverKey = Some csiNodeID in
  match (run (GetNodeByCSINodeID driverKey csiNodeID) w).1 with
  | Done (inl node) =>
      exists before after, nodes = before ++ node :: after /\ has node /\
                           forall n, In n before -> ~ has n
  | Done (inr _) => forall n, In n nodes -> ~ has n
  | _ => False
  end.
Proof.
  cbv zeta. unfold GetNodeByCSINodeID. destruct w. cbn in *. unfold ext_step. cbn.
  destruct (env_step KubeListNodes w_env) as [r x]. cbn in *. subst r.
  set (has := fun node => bool_decide (members_map (members node) !! driverKey = Some csiNodeID)).
  assert (Hhas : forall node, In node nodes -> node_has_id driverKey csiNodeID node = has node).
  { intros node Hin. by apply node_has_id_annotated, Hann. }
  clear Hann. induction nodes as [|node nodes IH]; cbn; [by intros n []|].
  rewrite Hhas by (by left). unfold has at 1. case_bool_decide as Hn.
  - exists [], nodes. split; [done|]. by split.
  - destruct (List.find _ nodes) as [n|] eqn:E; cbn in *.
    + destruct IH as (before & after & -> & Hm & Hb); [intros; apply Hhas; by right|].
      exists (node :: before), after. split; [done|]. split; [done|].
      intros m [<-|Hin]; [done|by apply Hb].
    + intros m [<-|Hin]; [done|]. apply IH; [intros; apply Hhas; by right|done].
Qed.
End Lookup.

Definition demo_members : list (string * string) := [("csi-powerstore.dellemc.com", "csi-2")].
Definition demo_node (name : string) (members : list (string * string)) : Node :=
  {| node_Name := name; node_Labels := None;
     node_Annotations := Some {[nodeid_annotation := render members]}; node_Addresses := [] |}.
Definition two_nodes : list Node := [demo_node "a" []; demo_node "b" demo_members].
Definition two_nodes_step : Env unit := fun B e x =>
  (match e in extE B return B with KubeListNodes => inl two_nodes | e => calm_answer e end, x).

Lemma GetNodeByCSINodeID_correct_witness :
  exists node, (run (H := two_nodes_step) (GetNodeByCSINodeID "csi-powerstore.dellemc.com" "csi-2")
                  (initial_world "" tt)).1 = Done (inl node) /\ In node two_nodes.
Proof.
  pose proof (GetNodeByCSINodeID_correct (H := two_nodes_step) "csi-powerstore.dellemc.com" "csi-2"
    (initial_world "" tt) two_nodes
    (fun node => if String.eqb (node_Name node) "b" then demo_members else []) eq_refl) as Hc.
  cbv zeta in Hc.
  destruct (run (H := two_nodes_step) _ _) as [o w'] eqn:E. cbn [fst] in *.
  destruct o as [[node|e]| | |].
  - exists node. split; [reflexivity|].
    destruct Hc as (before & after & Hl & _); [intros n [<-|[<-|[]]]; split; vm_compute; reflexivity|].
    rewrite Hl. apply in_or_app. right. by left.
  - exfalso. assert (Hn : forall n, In n two_nodes -> n <> demo_node "b" demo_members).
    { intros n Hin ->. refine (Hc _ _ Hin _); [intros m [<-|[<-|[]]]; split; vm_compute; reflexivity|].
      vm_compute. reflexivity. }
    apply (Hn _ (or_intror (or_introl eq_refl)) eq_refl).
  - destruct Hc. intros m [<-|[<-|[]]]; split; vm_compute; reflexivity.
  - destruct Hc. intros m [<-|[<-|[]]]; split; vm_compute; reflexivity.
  - destruct Hc. intros m [<-|[<-|[]]]; split; vm_compute; reflexivity.
Defined.

(** ** The API as a store

    The promise of the Kubernetes API to its clients, for the objects of the
    driver's namespace: services and endpoint slices are found by name as they
    were last written, creation fails on an existing name, and calls of other
    kinds do not change them.  ([resourceVersion] conflicts are failures of an
    update, which the store does not make.) *)

Definition not_found_error (kind name : string) : go_error :=
  GoError (kind +:+ " " +:+ name +:+ " not found") None true.
Definition already_exists_error (kind name : string) : go_error :=
  GoError (kind +:+ " " +:+ name +:+ " already exists") None false.

Definition found {A} (kind name : string) (o : option A) : result A :=
  match o with Some a => inl a | None => inr (not_found_error kind name) end.

(** The calls that read or write services and slices. *)
Definition store_call {B} (e : extE B) : bool :=
  match e with
  | KubeGetService _ _ | KubeCreateService _ _ | KubeUpdateService _ _ | KubeDeleteService _ _
  | KubeGetSlice _ _ | KubeCreateSlice _ _ | KubeUpdateSlice _ _ | KubeDeleteSlice _ _
  | KubeListSlices _ _ => true
  | _ => false
  end.

(** The slices that have a value for a label, as a selector chooses them. *)
Definition labelled (label value : string) (m : gmap string EndpointSlice) : list EndpointSlice :=
  List.filter (fun v => bool_decide ((es_Labels v ≫= lookup label) = Some value)) (snd <$> map_to_list m).

Class KubeStore (X : Type) `{Env X} `{Globals} := {
  services : X -> gmap string Service;
  slices : X -> gmap string EndpointSlice;
  get_service name x :
    exists x', env_step (KubeGetService DriverNamespace name) x =
               (found "services" name (services x !! name), x') /\
               services x' = services x /\ slices x' = slices x;
  get_slice name x :
    exists x', env_step (KubeGetSlice DriverNamespace name) x =
               (found "endpointslices" name (slices x !! name), x') /\
               services x' = services x /\ slices x' = slices x;
  create_service s x :
    services x !! svc_Name s = None ->
    exists x', env_step (KubeCreateService DriverNamespace s) x = (inl s, x') /\
               services x' = <[svc_Name s:=s]> (services x) /\ slices x' = slices x;
  create_slice s x :
    slices x !! es_Name s = None ->
    exists x', env_step (KubeCreateSlice DriverNamespace s) x = (inl s, x') /\
               services x' = services x /\ slices x' = <[es_Name s:=s]> (slices x);
  update_service s x :
    is_Some (services x !! svc_Name s) ->
    exists x', env_step (KubeUpdateService DriverNamespace s) x = (inl s, x') /\
               services x' = <[svc_Name s:=s]> (services x) /\ slices x' = slices x;
  update_slice s x :
    is_Some (slices x !! es_Name s) ->
    exists x', env_step (KubeUpdateSlice DriverNamespace s) x = (inl s, x') /\
               services x' = services x /\ slices x' = <[es_Name s:=s]> (slices x);
  delete_service name x :
    is_Some (services x !! name) ->
    exists x', env_step (KubeDeleteService DriverNamespace name) x = (None, x') /\
               services x' = delete name (services x) /\ slices x' = slices x;
  delete_slice name x :
    is_Some (slices x !! name) ->
    exists x', env_step (KubeDeleteSlice DriverNamespace name) x = (None, x') /\
               services x' = services x /\ slices x' = delete name (slices x);
  store_frame B (e : extE B) x :
    store_call e = false ->
    services (env_step e x).2 = services x /\ slices (env_step e x).2 = slices x;
}.
