(* ===== verification/NfsServer.v ===== *)
(** * The node's NFS server ([src/nfs/nfs_service.go])

    The gRPC service that runs on every node: it mounts a volume through the
    host driver and exports it ([ExportNfsVolume]), undoes both
    ([UnexportNfsVolume]), lists the exports and answers [Ping], which can drop
    every export of the node.  A handler returns the pair of its response and
    error; where it changes a map that its caller passed, the map is returned
    as well. *)

From S2P Require Import Prelude GoStrings Messages GoProg Naming Exports Config.

Definition RootUID : Z := 0.
Definition nfsGroupID : Z := 100.
Definition NfsFileMode : Z := 1535. (* 0o2777 *)
Definition timeout : Z := 5 * second.
Definition maxUnmountAttempts : nat := 10.
Definition maxGetSvcAttempts : nat := 3.

(** [getNfsClient]: the client is known by its address. *)
Definition getNfsClient (ipaddress port : string) : prog (result string) :=
  let address := ipaddress +:+ ":" +:+ port in
  err ← ext (NewClient address);
  mret (match err with Some e => inr e | None => inl address end).

(** The spin lock of a volume; [fuel] bounds the number of attempts. *)
Fixpoint nfsLockPV (fuel : nat) (requestID : string) : prog unit :=
  match fuel with
  | O => NoFuel (Waits nfsPVLock requestID)
  | S fuel =>
      '(_, loaded) ← loc (LoadOrStore nfsPVLock requestID requestID);
      if loaded : bool then _ ← ext (Sleep (1 * second)); nfsLockPV fuel requestID
      else mret tt
  end.

Definition nfsUnlockPV (requestID : string) : prog unit := loc (Delete nfsPVLock requestID).

Section Server.
Context `{UnicodeTables} `{Globals}.
(** The package variable [nfsService]. *)
Context (nfsService : CsiNfsService).

Definition export_options : string :=
  let options := "(rw,no_subtree_check,no_root_squash)" in
  let optionsString := cs_podCIDR nfsService +:+ options in
  let optionsString := optionsString +:+ " 169.254.0.0/17" +:+ options in
  optionsString +:+ " 127.0.0.1/32" +:+ options.

(** What follows a successful mount: ownership, mode, export entry, resync.
    [generation] is the package variable: it is assigned after [AddExport] has
    released [exportsLock] and read again for [ResyncNFSMountd]. *)
Definition export_mounted (resp : ExportNfsVolumeResponse) (path : string)
    : prog (pair_err (option ExportNfsVolumeResponse)) :=
  err ← ext (OsChown path RootUID nfsGroupID);
  match err with
  | Some e => mret (Some resp, Some e)
  | None =>
      err ← ext (OsChmod path NfsFileMode);
      match err with
      | Some e => mret (Some resp, Some e)
      | None =>
          '(_, err) ← ext (Exec ExecuteCommand "chroot" ["/noderoot"; "ls"; "-ld"; path]);
          match err with
          | Some e => mret (Some resp, Some e)
          | None =>
              '(g, err) ← AddExport (path +:+ "/") export_options;
              _ ← loc (Set_ V_generation g);
              match err with
              | Some e => mret (Some resp, Some e)
              | None =>
                  g ← loc (Get V_generation);
                  err ← ResyncNFSMountd g;
                  mret (Some resp, err)
              end
          end
      end
  end.

Definition staging_path (volumeId : string) : string :=
  NfsExportDirectory +:+ "/" +:+ VolumeIDToServiceName volumeId.

(** The part of [ExportNfsVolume] under the volume's lock. *)
Definition export_locked (ctx : context) (req : ExportNfsVolumeRequest)
    : prog (gomap * pair_err (option ExportNfsVolumeResponse)) :=
  let id := exreq_VolumeId req in
  let context := exreq_ExportNfsContext req in
  let resp := {| exresp_VolumeId := id; exresp_ExportNfsContext := None |} in
  statErr ← ext (OsStat (staging_path id));
  '(exists_, _) ← CheckExport (staging_path id +:+ "/");
  if negb (is_some statErr) && exists_ then
    mret (context,
          (Some {| exresp_VolumeId := id;
                   exresp_ExportNfsContext := Some {["idenpotent" := "true"]} |}, None))
  else
    select_call ctx
      (ext (VcsiMountVolume id "" NfsExportDirectory context))
      (fun e => mret (context, (None, Some e)))
      (fun '(path, err) =>
         match err with
         | Some e => mret (context, (Some resp, Some e))
         | None =>
             match context with
             | None => Panic "assignment to entry in nil map"
             | Some m =>
                 r ← export_mounted resp path;
                 mret (Some (<["MountPath" := path]> m), r)
             end
         end).

Definition ExportNfsVolume (fuel : nat) (ctx : context) (req : ExportNfsVolumeRequest)
    : prog (gomap * pair_err (option ExportNfsVolumeResponse)) :=
  _ ← nfsLockPV fuel (exreq_VolumeId req);
  deferred (export_locked ctx req) (nfsUnlockPV (exreq_VolumeId req)).

(** [nfsServer.UnmountVolume]: every error of the driver is replaced. *)
Fixpoint unmount_attempts (attempts : nat) (driverVolumeID serviceName : string)
    : prog (option go_error) :=
  match attempts with
  | O => mret (Some (Errorf ("could not unmount volume " +:+ driverVolumeID)))
  | S attempts =>
      err ← ext (VcsiUnmountVolume driverVolumeID NfsExportDirectory
                   (Some {["ServiceName" := serviceName]}));
      match err with
      | None => mret None
      | Some _ => _ ← ext (Sleep timeout); unmount_attempts attempts driverVolumeID serviceName
      end
  end.

Definition UnmountVolume (driverVolumeID serviceName : string) : prog (option go_error) :=
  unmount_attempts maxUnmountAttempts driverVolumeID serviceName.

Definition export_path (req : UnexportNfsVolumeRequest) : string :=
  let serviceName := mget (unreq_UnexportNfsContext req) "ServiceName" in
  let exportPath :=
    if String.eqb serviceName "" then NfsExportDirectory +:+ "/" +:+ unreq_VolumeId req
    else NfsExportDirectory +:+ "/" +:+ serviceName in
  ReplaceAll exportPath "//" "/".

(** [for i := 1; i <= 3; i++]: [rounds] rounds are left. *)
Fixpoint unexport_rounds (rounds : nat) (i : Z) (resp : UnexportNfsVolumeResponse)
    (generation : Z) (id serviceName : string)
    : prog (pair_err (option UnexportNfsVolumeResponse)) :=
  match rounds with
  | O => mret (None, Some (Errorf "UnmountVolume timed out after several retries"))
  | S rounds =>
      _ ← ext (Sleep (i * second));
      err ← UnmountVolume id serviceName;
      match err with
      | None => mret (Some resp, None)
      | Some e =>
          if Contains (err_text e) "not mounted" || Contains (err_text e) "no such file or directory"
          then mret (Some resp, None)
          else
            err ← ResyncNFSMountd generation;
            match err with
            | Some e => mret (Some resp, Some e)
            | None => unexport_rounds rounds (i + 1) resp generation id serviceName
            end
      end
  end.

Definition unexport_locked (req : UnexportNfsVolumeRequest)
    : prog (pair_err (option UnexportNfsVolumeResponse)) :=
  let id := unreq_VolumeId req in
  let serviceName := mget (unreq_UnexportNfsContext req) "ServiceName" in
  let resp := {| unresp_VolumeId := id; unresp_UnexportNfsContext := Some ∅ |} in
  '(generation, err) ← DeleteExport (export_path req);
  match err with
  | Some e => mret (Some resp, Some e)
  | None =>
      err ← ResyncNFSMountd generation;
      match err with
      | Some e => mret (Some resp, Some e)
      | None => unexport_rounds 3 1 resp generation id serviceName
      end
  end.

Definition UnexportNfsVolume (fuel : nat) (req : UnexportNfsVolumeRequest)
    : prog (pair_err (option UnexportNfsVolumeResponse)) :=
  _ ← nfsLockPV fuel (unreq_VolumeId req);
  deferred (unexport_locked req) (nfsUnlockPV (unreq_VolumeId req)).

(** [GetServiceContent]: the [err] of the loop shadows the one that is
    returned at the end, which stays nil. *)
Fixpoint get_service_attempts (attempts : nat) (serviceName : string)
    : prog (pair_err (option Service)) :=
  match attempts with
  | O => mret (None, None)
  | S attempts =>
      r ← ext (KubeGetService DriverNamespace serviceName);
      match r with
      | inr e =>
          if err_notfound e then mret (None, Some e)
          else _ ← ext (Sleep timeout); get_service_attempts attempts serviceName
      | inl service => mret (Some service, None)
      end
  end.

Definition GetServiceContent (serviceName : string) : prog (pair_err (option Service)) :=
  get_service_attempts maxGetSvcAttempts serviceName.

(** [Ping]: the loop over the exports; [None] asks for the next one, [Some r]
    returns from the handler. *)
Definition ping_remount (parts : list string) : prog unit :=
  '(g, _) ← AddExport (List.hd "" parts) (Join (List.tl parts) " ");
  _ ← loc (Set_ V_generation g);
  g ← loc (Get V_generation);
  _ ← ResyncNFSMountd g;
  mret tt.

Definition export_service_name (exportDir : string) : string :=
  Replace1 (Replace1 exportDir NfsExportDirectory "") "/" "".

(** One export of the dump: the new value of [resp.Ready], or an early return. *)
Definition ping_export (ready : bool) (export : string)
    : prog (bool + pair_err (option PingResponse)) :=
  let parts := Split export " " in
  let exportDir := Clean (List.hd "" parts) in
  let serviceName := export_service_name exportDir in
  '(service, err) ← GetServiceContent serviceName;
  match err with
  | Some _ => mret (inl ready)
  | None =>
      match service with
      | None => Panic "invalid memory address or nil pointer dereference"
      | Some service =>
          match svc_Annotations service ≫= lookup "driverVolumeID" with
          | None => mret (inl ready)
          | Some driverVolumeID =>
              '(g, err) ← DeleteExport exportDir;
              _ ← loc (Set_ V_generation g);
              match err with
              | Some _ => mret (inl ready)
              | None =>
                  g ← loc (Get V_generation);
                  err ← ResyncNFSMountd g;
                  match err with
                  | Some e =>
                      mret (inr (Some {| pong_Ready := ready; pong_Status := "" |}, Some e))
                  | None =>
                      err ← UnmountVolume ("nfs-" +:+ driverVolumeID) serviceName;
                      match err with
                      | None => mret (inl ready)
                      | Some _ => _ ← ping_remount parts; mret (inl false)
                      end
                  end
              end
          end
      end
  end.

Fixpoint ping_exports (ready : bool) (exports : list string)
    : prog (pair_err (option PingResponse)) :=
  match exports with
  | [] =>
      let resp := {| pong_Ready := ready; pong_Status := "" |} in
      mret (Some resp, if ready then None else Some (Errorf "dumping all exports failed"))
  | export :: exports =>
      r ← ping_export ready export;
      match r with
      | inl ready => ping_exports ready exports
      | inr r => mret r
      end
  end.

Definition Ping (req : PingRequest) : prog (pair_err (option PingResponse)) :=
  let resp := {| pong_Ready := true; pong_Status := "" |} in
  if ping_DumpAllExports req then
    '(exports, err) ← GetExports NfsExportDirectory;
    match err with
    | Some e => mret (Some resp, Some e)
    | None => ping_exports true exports
    end
  else mret (Some resp, None).

(** The RPC [GetExports]. *)
Definition GetExports_rpc : prog (pair_err GetExportsResponse) :=
  '(exports, err) ← GetExports NfsExportDirectory;
  mret ({| exports_Exports := exports |}, err).

(** The state of the loops over several volumes: the shared context map, the
    ids that succeeded and failed, and the last error. *)
Record multi := Multi {
  multi_context : gomap;
  multi_ok : list string;
  multi_failed : list string;
  multi_error : option go_error;
}.

Definition export_one (fuel : nat) (ctx : context) (s : multi) (volumeID : string) : prog multi :=
  '(context, (_, err)) ←
    ExportNfsVolume fuel ctx
      {| exreq_VolumeId := volumeID; exreq_ExportNfsContext := multi_context s |};
  mret (match err with
        | Some e => Multi context (multi_ok s) (multi_failed s ++ [volumeID]) (Some e)
        | None => Multi context (multi_ok s ++ [volumeID]) (multi_failed s) (multi_error s)
        end).

Definition ExportMultipleNfsVolumes (fuel : nat) (ctx : context)
    (req : ExportMultipleNfsVolumesRequest)
    : prog (pair_err ExportMultipleNfsVolumesResponse) :=
  s ← foldM (export_one fuel ctx) (Multi (exm_ExportNfsContext req) [] [] None) (exm_VolumeIds req);
  mret ({| exmr_SuccessfulIds := multi_ok s;
           exmr_UnsuccessfulIds := multi_failed s;
           exmr_ExportNfsContext := multi_context s |}, multi_error s).

Definition unexport_one (fuel : nat) (s : multi) (volumeID : string) : prog multi :=
  '(_, err) ←
    UnexportNfsVolume fuel
      {| unreq_VolumeId := volumeID; unreq_UnexportNfsContext := multi_context s |};
  mret (match err with
        | Some e => Multi (multi_context s) (multi_ok s) (multi_failed s ++ [volumeID]) (Some e)
        | None => Multi (multi_context s) (multi_ok s ++ [volumeID]) (multi_failed s) (multi_error s)
        end).

Definition UnexportMultipleNfsVolumes (fuel : nat) (req : UnexportMultipleNfsVolumesRequest)
    : prog (pair_err UnexportMultipleNfsVolumesResponse) :=
  s ← foldM (unexport_one fuel) (Multi (unm_ExportNfsContext req) [] [] None) (unm_VolumeIds req);
  mret ({| unmr_SuccessfulIds := multi_ok s;
           unmr_UnsuccessfulIds := multi_failed s;
           unmr_ExportNfsContext := multi_context s |}, multi_error s).

End Server.

(** ** Footprints *)

Section ServerFootprint.
Context `{UnicodeTables} `{Globals} (nfsService : CsiNfsService).

Lemma exports_op_touches m {B} (e : locE B) : exports_op e = true -> touches_map m e = false.
Proof. by destruct e. Qed.

Local Abbreviation unlocked := (fun B (e : locE B) => touches_map nfsPVLock e = false).

Lemma exports_ops_unlocked {A} (p : prog A) :
  all_ops (fun B (e : locE B) => exports_op e = true) p -> all_ops unlocked p.
Proof. apply all_ops_mono. intros B e. apply exports_op_touches. Qed.
#[local] Hint Resolve exports_ops_unlocked : goprog.

Lemma unmount_attempts_ops n id s : all_ops unlocked (unmount_attempts n id s).
Proof. induction n; cbn [unmount_attempts]; walk_ops reflexivity. Qed.
#[local] Hint Resolve unmount_attempts_ops : goprog.

Lemma export_locked_ops ctx req : all_ops unlocked (export_locked nfsService ctx req).
Proof. unfold export_locked, export_mounted. walk_ops reflexivity. Qed.

Lemma unexport_rounds_ops n i resp g id s : all_ops unlocked (unexport_rounds n i resp g id s).
Proof. revert i. induction n; intros; cbn [unexport_rounds]; unfold UnmountVolume; walk_ops reflexivity. Qed.
#[local] Hint Resolve unexport_rounds_ops : goprog.

Lemma unexport_locked_ops req : all_ops unlocked (unexport_locked req).
Proof. unfold unexport_locked. walk_ops reflexivity. Qed.
End ServerFootprint.
#[export] Hint Resolve unmount_attempts_ops export_locked_ops unexport_locked_ops : goprog.

(** ** Behaviour in every environment *)

Section AnyEnvironment.
Context `{UnicodeTables} `{Globals} (nfsService : CsiNfsService).
Context {X : Type} `{Env X}.
Implicit Types w : world X.

(** The host driver was told to unmount this volume and answered without an
    error, in the run that made the calls [t]. *)
Definition unmounted (id serviceName : string) (t : list event) : Prop :=
  Event (VcsiUnmountVolume id NfsExportDirectory (Some {["ServiceName" := serviceName]})) None ∈ t.

Lemma run_unmount_attempts n id s w :
  exists err x, run (unmount_attempts n id s) w = (Done err, set_env x w) /\
    match err with
    | None => unmounted id s (trace (unmount_attempts n id s) w)
    | Some e => e = Errorf ("could not unmount volume " +:+ id)
    end.
Proof.
  revert w. induction n as [|n IH]; intros []; [by do 2 eexists|].
  cbn [unmount_attempts]. ask. destruct r as [e|].
  - ask. match goal with |- context [run (unmount_attempts n id s) ?w1] =>
      destruct (IH w1) as (err & x1 & -> & Herr) end.
    do 2 eexists. split; [done|]. destruct err; [done|]. by do 2 right.
  - do 2 eexists. split; [done|]. left.
Qed.

(** The API can fail to answer a [GetService] for another reason than that the
    service does not exist. *)
Definition api_flaky : Prop :=
  exists ns name (x : X) e, (env_step (KubeGetService ns name) x).1 = inr e /\ err_notfound e = false.

Lemma run_get_service_attempts n s w :
  exists service err x, run (get_service_attempts n s) w = (Done (service, err), set_env x w) /\
    (service = None -> err = None -> n = O \/ api_flaky).
Proof.
  revert w. induction n as [|n IH]; intros []; [do 3 eexists; split; [done|by left]|].
  cbn [get_service_attempts]. ask. destruct r as [svc|e]; cbn; [by do 3 eexists|].
  destruct (err_notfound e) eqn:He; cbn; [by do 3 eexists|].
  ask. match goal with |- context [run (get_service_attempts n s) ?w1] =>
      destruct (IH w1) as (svc & err & x1 & -> & _) end.
  do 3 eexists. split; [done|]. right. do 4 eexists. by rewrite Hask.
Qed.

#[global] Arguments unmount_attempts : simpl never.
#[global] Arguments get_service_attempts : simpl never.
#[global] Arguments ResyncNFSMountd : simpl never.
#[global] Arguments AddExport : simpl never.
#[global] Arguments DeleteExport : simpl never.
#[global] Arguments GetExports : simpl never.
#[global] Arguments CheckExport : simpl never.

(** What a successful unexport shows: the driver unmounted the volume, or the
    volume id itself contains one of the two phrases that are looked for. *)
Definition tolerated (id : string) : bool :=
  let msg := "could not unmount volume " +:+ id in
  Contains msg "not mounted" || Contains msg "no such file or directory".

Lemma run_unexport_rounds n i resp g id s w :
  free exportsLock w ->
  exists r w', run (unexport_rounds n i resp g id s) w = (Done r, w') /\
    same_process w w' /\ w_exports w' = w_exports w /\ w_generation w' = w_generation w /\
    (r.2 = None -> unmounted id s (trace (unexport_rounds n i resp g id s) w) \/ tolerated id = true).
Proof.
  revert i w. induction n as [|n IH]; intros i w Hf; [by do 2 eexists|].
  cbn [unexport_rounds]. destruct w as [? ? hh]. ask. rewrite run_bind, trace_bind. unfold UnmountVolume.
  match goal with |- context [run (unmount_attempts ?n ?id ?s) ?w1] =>
    destruct (run_unmount_attempts n id s w1) as (err & y & -> & Herr) end.
  destruct err as [e|]; cbn.
  2: { do 2 eexists. split; [done|]. repeat split; try done. intros _. left. right.
       apply elem_of_app. by left. }
  subst e. cbn [err_text Errorf].
  fold (tolerated id). destruct (tolerated id) eqn:Ht; cbn.
  { do 2 eexists. repeat split; eauto. }
  rewrite run_bind, trace_bind.
  match goal with |- context [run (ResyncNFSMountd g) ?w1] =>
    destruct (run_ResyncNFSMountd g w1 Hf) as (err & w' & -> & Hp & Hex & Hge & _) end.
  cbn in Hex, Hge. destruct err as [e|]; cbn.
  { do 2 eexists. split; [done|]. repeat split; try apply Hp; done. }
  destruct (IH (i + 1) w') as (r1 & w2 & -> & Hp2 & Hex2 & Hge2 & Hr2).
  { by eapply same_process_free. }
  do 2 eexists. split; [done|]. rewrite Hex2, Hge2.
  split; [etrans; [exact Hp|exact Hp2]|]. do 2 (split; [done|]). intros Hnone.
  destruct (Hr2 Hnone) as [Hu|Hu]; [left|done]. unfold unmounted in *. right. by rewrite !elem_of_app; auto.
Qed.

Lemma run_nfsLockPV fuel id w :
  w_nfsPVLock w !! id = None ->
  run (nfsLockPV (S fuel) id) w =
  (Done tt, set_lockmap nfsPVLock (<[id:=id]> (w_nfsPVLock w)) w).
Proof. intros Hid. cbn. by rewrite Hid. Qed.

(** Entering and leaving a volume's critical section. *)
Lemma same_process_section l w w' :
  same_process (set_lockmap nfsPVLock l w) w' ->
  same_process w (set_lockmap nfsPVLock (w_nfsPVLock w) w').
Proof. unfold same_process. destruct w, w'. cbn. intros. destruct_and?. subst. done. Qed.

Lemma run_nfs_section {A} fuel id (p : prog A) w :
  w_nfsPVLock w !! id = None ->
  all_ops (fun B (e : locE B) => touches_map nfsPVLock e = false) p ->
  let w1 := set_lockmap nfsPVLock (<[id:=id]> (w_nfsPVLock w)) w in
  run (_ ← nfsLockPV (S fuel) id; deferred p (nfsUnlockPV id)) w =
  ((run p w1).1,
   match (run p w1).1 with
   | Done _ | Panicked _ => set_lockmap nfsPVLock (w_nfsPVLock w) (run p w1).2
   | _ => (run p w1).2
   end).
Proof.
  intros Hid Hp. cbv zeta. rewrite run_bind, run_nfsLockPV by done.
  exact (run_deferred_unlock nfsPVLock id id p w Hp Hid).
Qed.

Lemma trace_nfs_section {A} fuel id (p : prog A) w :
  w_nfsPVLock w !! id = None ->
  trace (_ ← nfsLockPV (S fuel) id; deferred p (nfsUnlockPV id)) w =
  trace p (set_lockmap nfsPVLock (<[id:=id]> (w_nfsPVLock w)) w).
Proof.
  intros Hid. rewrite trace_bind, run_nfsLockPV, trace_deferred by done.
  assert (E : trace (nfsLockPV (S fuel) id) w = []) by (cbn; by rewrite Hid). rewrite E. cbn [app].
  destruct (run p _) as [ [] w1]; cbn; apply app_nil_r.
Qed.

(** What a successful [UnexportNfsVolume] did, in the run that made the calls [t]. *)
Definition unexport_success (req : UnexportNfsVolumeRequest) (t : list event) w w' : Prop :=
  w_exports w' = unlines (keep_lines (export_path req) (ScanLines (w_exports w)).1) /\
  (unmounted (unreq_VolumeId req) (mget (unreq_UnexportNfsContext req) "ServiceName") t \/
   tolerated (unreq_VolumeId req) = true).

Lemma run_unexport_locked req w :
  free exportsLock w ->
  exists r w', run (unexport_locked req) w = (Done r, w') /\ same_process w w' /\
    (r.2 = None -> unexport_success req (trace (unexport_locked req) w) w w').
Proof.
  intros Hf. unfold unexport_locked. rewrite run_bind, trace_bind.
  destruct (run_DeleteExport (export_path req) w Hf) as (g & err & w1 & -> & Hp & _ & _ & _ & Herr).
  destruct err as [e|]; [by do 2 eexists|]. destruct Herr as [_ Hex]. rewrite run_bind, trace_bind.
  destruct (run_ResyncNFSMountd g w1) as (err & w2 & -> & Hp2 & Hex2 & _).
  { by eapply same_process_free. }
  destruct err as [e|]; [do 2 eexists; split; [done|]; split; [by etrans|done]|].
  edestruct (run_unexport_rounds 3 1) as (r & w3 & -> & Hp3 & Hex3 & _ & Hr).
  { eapply same_process_free; [|exact Hf]. by etrans. }
  do 2 eexists. split; [done|]. split; [by etrans; [etrans|]|].
  intros Hnone. split; [by rewrite Hex3, Hex2|]. destruct (Hr Hnone) as [Hu|Hu]; [left|by right].
  unfold unmounted in *. rewrite !elem_of_app. auto.
Qed.

Lemma run_UnexportNfsVolume fuel req w :
  free exportsLock w -> w_nfsPVLock w !! unreq_VolumeId req = None ->
  exists r w', run (UnexportNfsVolume (S fuel) req) w = (Done r, w') /\ same_process w w' /\
    (r.2 = None -> unexport_success req (trace (UnexportNfsVolume (S fuel) req) w) w w').
Proof.
  intros Hlock Hid.
  unfold UnexportNfsVolume. rewrite trace_nfs_section by done.
  rewrite run_nfs_section; [|done|by auto with goprog].
  destruct (run_unexport_locked req
              (set_lockmap nfsPVLock (<[unreq_VolumeId req:=unreq_VolumeId req]> (w_nfsPVLock w)) w))
    as (r & w' & -> & Hp & Hr); [by destruct w|].
  cbn [fst snd]. do 2 eexists. split; [done|]. split; [by apply same_process_section in Hp|].
  intros Hnone. destruct (Hr Hnone) as [Hex Hu]. split; [|exact Hu].
  destruct w', w. exact Hex.
Qed.

(** C17: [UnexportNfsVolume] in any environment, for a volume that is not being
    worked on: it terminates without panicking, releases the volume's lock and
    [exportsLock], and when it reports success the exports file holds exactly
    the trimmed lines that do not begin with the volume's export path, and
    among the calls of this very run is one that told the host driver to
    unmount this volume, under its service's name, and that the driver
    answered without an error (the driver's errors are never taken for
    success, unless the volume id itself contains one of the tolerated
    phrases). *)
Theorem UnexportNfsVolume_any_environment (fuel : nat) (req : UnexportNfsVolumeRequest) w
    (Hlock : free exportsLock w) (Hid : w_nfsPVLock w !! unreq_VolumeId req = None) :
  exists r w', run (UnexportNfsVolume (S fuel) req) w = (Done r, w') /\ same_process w w' /\
    (r.2 = None ->
     w_exports w' = unlines (keep_lines (export_path req) (ScanLines (w_exports w)).1) /\
     (Event (VcsiUnmountVolume (unreq_VolumeId req) NfsExportDirectory
               (Some {["ServiceName" := mget (unreq_UnexportNfsContext req) "ServiceName"]})) None
        ∈ trace (UnexportNfsVolume (S fuel) req) w \/
      tolerated (unreq_VolumeId req) = true)).
Proof. exact (run_UnexportNfsVolume fuel req w Hlock Hid). Qed.

(** ** [ExportNfsVolume] *)

(** A resync of the present generation that succeeds brings the kernel up to
    the file. *)
Lemma resync_present g w :
  in_sync w -> g = w_generation w ->
  (run (ResyncNFSMountd g) w).1 = Done None ->
  w_resynced (run (ResyncNFSMountd g) w).2 = w_exports (run (ResyncNFSMountd g) w).2.
Proof.
  intros (Hf & _ & Hle & Heq) ->.
  destruct (run_ResyncNFSMountd (w_generation w) w Hf) as (err & w' & -> & _ & Hex & _ & Herr).
  cbn. intros [= ->]. rewrite Hex. case_match; breflect.
  - destruct Herr as (_ & _ & _ & ->). apply Heq. lia.
  - by destruct Herr as (_ & _ & ->).
Qed.

(** The driver's [MountVolume] can answer [path]. *)
Definition mounts (id : string) (context : gomap) (path : string) : Prop :=
  exists x : X, (env_step (VcsiMountVolume id "" NfsExportDirectory context) x).1 = (path, None).

(** What a successful [ExportNfsVolume] tells about the response, the caller's
    context map and the process. *)
Definition export_success (id : string) (m : gmap string string) (context : gomap)
    (resp : option ExportNfsVolumeResponse) w w' : Prop :=
  (context = Some m /\
   resp = Some {| exresp_VolumeId := id;
                  exresp_ExportNfsContext := Some {["idenpotent" := "true"]} |} /\
   w_exports w' = w_exports w /\ w_generation w' = w_generation w) \/
  (exists path, mounts id (Some m) path /\ context = Some (<["MountPath":=path]> m) /\
   resp = Some {| exresp_VolumeId := id; exresp_ExportNfsContext := None |} /\
   w_exports w' = w_exports w +:+ entry_text (path +:+ "/") (export_options nfsService) /\
   w_generation w' = int64 (w_generation w + 1) /\
   (~ write_fault -> in_sync w -> w_generation w < max_int64 -> w_resynced w' = w_exports w')).

Lemma set_generation_id w g : g = w_generation w -> set_var V_generation g w = w.
Proof. intros ->. by destruct w. Qed.

Lemma run_export_mounted resp path w :
  free exportsLock w ->
  exists r w', run (export_mounted nfsService resp path) w = (Done r, w') /\ same_process w w' /\
    r.1 = Some resp /\
    (r.2 = None ->
     w_exports w' = w_exports w +:+ entry_text (path +:+ "/") (export_options nfsService) /\
     w_generation w' = int64 (w_generation w + 1) /\
     (~ write_fault -> in_sync w -> w_generation w < max_int64 -> w_resynced w' = w_exports w')).
Proof.
  intros Hf. unfold export_mounted. destruct w as [? ? hh].
  ask. destruct r as [e|]; [by do 2 eexists|].
  ask. destruct r as [e|]; [by do 2 eexists|].
  ask. destruct r as [out [e|]]; [by do 2 eexists|]. rewrite run_bind.
  match goal with |- context [run (AddExport ?d ?o) ?w1] =>
    assert (Hsync : ~ write_fault -> in_sync w1 -> GoProg.w_generation w1 < max_int64 ->
                    in_sync (run (AddExport d o) w1).2)
      by (intros; eapply sync_step_in_sync; [done..|by constructor]);
    destruct (run_AddExport d o w1 Hf) as (g & err & wa & E & Hp & _ & _ & Hg & Herr);
    rewrite E in *; clear E end.
  cbn. rewrite set_generation_id by done. destruct err as [e|]; cbn.
  { do 2 eexists. split; [done|]. split; [exact Hp|done]. }
  destruct Herr as [Hgen Hex]. rewrite run_bind. cbn in Hsync.
  pose proof (resync_present (GoProg.w_generation wa) wa) as Hres.
  destruct (run_ResyncNFSMountd (GoProg.w_generation wa) wa) as (err & w2 & E & Hp2 & Hex2 & Hge2 & _).
  { eapply same_process_free; [exact Hp|]. exact Hf. }
  rewrite E in *. cbn in Hres |- *.
  do 2 eexists. split; [done|]. split; [etrans; [exact Hp|done]|]. split; [done|].
  cbn. intros ->. rewrite Hge2, <- Hg. split; [by rewrite Hex2, Hex|]. split; [done|].
  intros. apply Hres; auto.
Qed.
#[global] Arguments export_mounted : simpl never.
#[global] Arguments staging_path : simpl never.

Lemma run_export_locked ctx req m w :
  free exportsLock w -> exreq_ExportNfsContext req = Some m ->
  exists context r w', run (export_locked nfsService ctx req) w = (Done (context, r), w') /\
    w_held w' = w_held w /\ w_PVLock w' = w_PVLock w /\ context <> None /\
    (r.2 = None -> export_success (exreq_VolumeId req) m context r.1 w w').
Proof.
  intros Hf Hm. unfold export_locked. rewrite Hm. destruct w as [? ? hh]. ask. rewrite run_bind.
  match goal with |- context [run (CheckExport ?d) ?w1] =>
    destruct (run_CheckExport d w1 Hf) as (b & err & y & ->) end. cbn.
  destruct (negb (is_some r) && b); cbn.
  { do 3 eexists. split; [done|]. do 3 (split; [done|]). intros _. by left. }
  unfold select_call. ask. destruct r0 as [e|]; cbn.
  { do 3 eexists. split; [done|]. by do 3 (split; [done|]). }
  ask. destruct r0 as [path [e|]]; cbn.
  { do 3 eexists. split; [done|]. by do 3 (split; [done|]). }
  rewrite run_bind.
  match goal with |- context [run (export_mounted _ ?resp ?p) ?w1] =>
    destruct (run_export_mounted resp p w1 Hf) as ([resp' err'] & w' & -> & Hp & Hresp & Hok) end.
  cbn in *. do 3 eexists. split; [done|].
  split; [apply Hp|]. split; [apply Hp|]. split; [done|]. intros Hnone. destruct (Hok Hnone) as (Hex & Hge & Hs).
  right. exists path. split; [eexists; by rewrite Hask1|]. by subst.
Qed.

Lemma run_ExportNfsVolume fuel ctx req m w :
  free exportsLock w -> w_nfsPVLock w !! exreq_VolumeId req = None ->
  exreq_ExportNfsContext req = Some m ->
  exists context r w',
    run (ExportNfsVolume nfsService (S fuel) ctx req) w = (Done (context, r), w') /\
    w_held w' = w_held w /\ w_PVLock w' = w_PVLock w /\ w_nfsPVLock w' = w_nfsPVLock w /\
    context <> None /\
    (r.2 = None -> export_success (exreq_VolumeId req) m context r.1 w w').
Proof.
  intros Hlock Hid Hm.
  unfold ExportNfsVolume. rewrite run_nfs_section; [|done|by auto with goprog].
  destruct (run_export_locked ctx req m
              (set_lockmap nfsPVLock (<[exreq_VolumeId req:=exreq_VolumeId req]> (w_nfsPVLock w)) w))
    as (context & r & w' & -> & Hh & Hpv & Hc & Hr); [by destruct w|done|].
  cbn [fst snd]. do 3 eexists. split; [done|].
  destruct w, w'. do 4 (split; [done|]). exact Hr.
Qed.

(** C16: [ExportNfsVolume] in any environment, for a volume that is not being
    worked on and a request with a context map: it terminates without
    panicking and releases the volume's lock and [exportsLock]; when it
    reports success then either it answers the idempotent response and changed
    nothing, or the driver mounted the volume at some path, that path is
    recorded in the caller's map, the entry of that path was appended to the
    exports file, [generation] was incremented and (unless the record of
    synchronisation was already wrong, or a write can be torn) the kernel
    exports the new file. *)
Theorem ExportNfsVolume_any_environment (fuel : nat) (ctx : context)
    (req : ExportNfsVolumeRequest) (m : gmap string string) w
    (Hlock : free exportsLock w) (Hid : w_nfsPVLock w !! exreq_VolumeId req = None)
    (Hm : exreq_ExportNfsContext req = Some m) :
  exists context r w',
    run (ExportNfsVolume nfsService (S fuel) ctx req) w = (Done (context, r), w') /\
    w_held w' = w_held w /\ w_PVLock w' = w_PVLock w /\ w_nfsPVLock w' = w_nfsPVLock w /\
    (r.2 = None -> export_success (exreq_VolumeId req) m context r.1 w w').
Proof.
  destruct (run_ExportNfsVolume fuel ctx req m w) as (c & r & w' & E & Hh & Hp & Hl & _ & Hr); [done..|].
  eauto 9.
Qed.

(** ** [Ping] *)

Lemma run_ping_remount parts w :
  free exportsLock w ->
  exists w', run (ping_remount parts) w = (Done tt, w') /\ same_process w w'.
Proof.
  intros Hf. unfold ping_remount. rewrite run_bind.
  match goal with |- context [run (AddExport ?d ?o) w] =>
    destruct (run_AddExport d o w Hf) as (g & err & wa & -> & Hp & _ & _ & Hg & _) end.
  cbn. rewrite set_generation_id, run_bind by done.
  destruct (run_ResyncNFSMountd (w_generation wa) wa) as (err' & w2 & -> & Hp2 & _).
  { by eapply same_process_free. }
  eexists. split; [done|]. by etrans.
Qed.
#[global] Arguments ping_remount : simpl never.

(** The outcome of a part of [Ping]: a result with the locks given back, or the
    dereference of the service that [GetServiceContent] did not return. *)
Definition ping_outcome {A} (ok : A -> Prop) (o : outcome A) : Prop :=
  match o with
  | Done r => ok r
  | Panicked _ => api_flaky
  | _ => False
  end.

Lemma run_ping_export ready export w :
  free exportsLock w ->
  exists o w', run (ping_export ready export) w = (o, w') /\ same_process w w' /\
    ping_outcome (fun r => match r with inl _ => True | inr (_, err) => err <> None end) o.
Proof.
  intros Hf. unfold ping_export, GetServiceContent. rewrite run_bind.
  destruct (run_get_service_attempts maxGetSvcAttempts
              (export_service_name (Clean (List.hd "" (Split export " ")))) w)
    as (service & err & x & -> & Hfl).
  assert (Hp : same_process w (set_env x w)) by by destruct w.
  destruct err as [e|]; cbn; [by do 2 eexists|].
  destruct service as [service|]; cbn.
  2: { do 2 eexists. split; [done|]. split; [done|]. by destruct Hfl. }
  destruct (svc_Annotations service ≫= lookup "driverVolumeID") as [id|]; cbn; [|by do 2 eexists].
  rewrite run_bind.
  match goal with |- context [run (DeleteExport ?d) ?w1] =>
    destruct (run_DeleteExport d w1) as (g & err & w1' & -> & Hp1 & _ & _ & Hg & _);
    [by eapply same_process_free|] end.
  cbn. rewrite set_generation_id by done. destruct err as [e|]; cbn.
  { do 2 eexists. split; [done|]. split; [by etrans|done]. }
  assert (Hp2 : same_process w w1') by by etrans. rewrite run_bind.
  destruct (run_ResyncNFSMountd (w_generation w1') w1') as (err & w2 & -> & Hp3 & _).
  { by eapply same_process_free. }
  assert (Hp4 : same_process w w2) by by etrans.
  destruct err as [e|]; cbn; [by do 2 eexists|]. rewrite run_bind. unfold UnmountVolume.
  match goal with |- context [run (unmount_attempts ?n ?a ?b) ?w1] =>
    destruct (run_unmount_attempts n a b w1) as (err & y & -> & _) end.
  assert (Hp5 : same_process w (set_env y w2)) by (etrans; [exact Hp4|by destruct w2]).
  destruct err as [e|]; cbn; [|by do 2 eexists]. rewrite run_bind.
  destruct (run_ping_remount (Split export " ") (set_env y w2)) as (w3 & -> & Hp6).
  { by eapply same_process_free. }
  do 2 eexists. split; [done|]. split; [by etrans|done].
Qed.
#[global] Arguments ping_export : simpl never.

Definition pong_ok (r : pair_err (option PingResponse)) : Prop :=
  r.2 = None -> r.1 = Some {| pong_Ready := true; pong_Status := "" |}.

Lemma run_ping_exports exports ready w :
  free exportsLock w ->
  exists o w', run (ping_exports ready exports) w = (o, w') /\ same_process w w' /\
    ping_outcome pong_ok o.
Proof.
  revert ready w. induction exports as [|e exports IH]; intros ready w Hf; cbn [ping_exports].
  - do 2 eexists. split; [done|]. split; [done|]. by destruct ready.
  - rewrite run_bind. destruct (run_ping_export ready e w Hf) as (o & w1 & -> & Hp & Ho).
    destruct o as [[r|[r err]]|msg| |]; cbn in *; try done.
    + destruct (IH r w1) as (o & w2 & -> & Hp2 & Ho2); [by eapply same_process_free|].
      do 2 eexists. split; [done|]. split; [by etrans|done].
    + do 2 eexists. split; [done|]. split; [done|]. by intros ?.
    + by do 2 eexists.
Qed.
#[global] Arguments ping_exports : simpl never.

(** C33: [Ping] in any environment: it terminates with [exportsLock] given
    back; when it reports no error the response says that the node is ready
    (so no export that it tried to drop stayed mounted), and it can only
    panic when all exports are to be dropped and the Kubernetes API fails to
    answer a request about a service. *)
Theorem Ping_any_environment (req : PingRequest) w (Hlock : free exportsLock w) :
  exists o w', run (Ping req) w = (o, w') /\ same_process w w' /\
    match o with
    | Done r => r.2 = None -> r.1 = Some {| pong_Ready := true; pong_Status := "" |}
    | Panicked _ => ping_DumpAllExports req = true /\ api_flaky
    | _ => False
    end.
Proof.
  unfold Ping. destruct (ping_DumpAllExports req); [|by do 2 eexists].
  rewrite run_bind.
  destruct (run_GetExports NfsExportDirectory w Hlock) as (l & err & x & -> & _).
  assert (Hp : same_process w (set_env x w)) by by destruct w.
  destruct err as [e|]; cbn; [by do 2 eexists|].
  destruct (run_ping_exports l true (set_env x w)) as (o & w' & -> & Hp2 & Ho).
  { by eapply same_process_free. }
  do 2 eexists. split; [done|]. split; [by etrans|]. by destruct o.
Qed.

(** ** Several volumes *)

(** [s] is the state of the loop after the volumes [done]. *)
Definition multi_after (done : list string) (s : multi) : Prop :=
  multi_ok s ++ multi_failed s ≡ₚ done /\
  sublist (multi_ok s) done /\ sublist (multi_failed s) done /\
  (multi_error s = None <-> multi_failed s = []).

Lemma multi_after_ok done s id context :
  multi_after done s ->
  multi_after (done ++ [id]) (Multi context (multi_ok s ++ [id]) (multi_failed s) (multi_error s)).
Proof.
  intros (Hp & Ho & Hf & He). split; [|split; [|split]]; cbn; try done.
  - rewrite <- Hp, <- !app_assoc. by rewrite (Permutation_app_comm [id]).
  - by apply sublist_app.
  - by apply sublist_inserts_r.
Qed.

Lemma multi_after_failed done s id context e :
  multi_after done s ->
  multi_after (done ++ [id]) (Multi context (multi_ok s) (multi_failed s ++ [id]) (Some e)).
Proof.
  intros (Hp & Ho & Hf & He). split; [|split; [|split]]; cbn; try done.
  - by rewrite <- Hp, <- app_assoc.
  - by apply sublist_inserts_r.
  - by apply sublist_app.
  - split; [done|]. by destruct (multi_failed s).
Qed.

(** A loop whose step handles one volume and keeps [I]. *)
Lemma run_multi_loop (step : multi -> string -> prog multi) (I : multi -> world X -> Prop) ids :
  (forall done id s w, id ∈ ids -> I s w -> multi_after done s ->
     exists s' w', run (step s id) w = (Done s', w') /\ I s' w' /\ multi_after (done ++ [id]) s') ->
  forall done s w, I s w -> multi_after done s ->
  exists s' w', run (foldM step s ids) w = (Done s', w') /\ I s' w' /\ multi_after (done ++ ids) s'.
Proof.
  induction ids as [|id ids IH]; intros Hstep done s w HI Hs.
  { do 2 eexists. by rewrite app_nil_r. }
  change (foldM step s (id :: ids)) with (s' ← step s id; foldM step s' ids).
  rewrite run_bind. destruct (Hstep done id s w) as (s1 & w1 & -> & HI1 & Hs1); [left|done|done|].
  destruct (IH ltac:(intros; apply Hstep; [by right|done..]) _ s1 w1 HI1 Hs1)
    as (s2 & w2 & -> & HI2 & Hs2).
  do 2 eexists. by rewrite <- app_assoc in Hs2.
Qed.

Lemma multi_start context : multi_after [] (Multi context [] [] None).
Proof. by repeat split. Qed.

#[global] Arguments ExportNfsVolume : simpl never.
#[global] Arguments UnexportNfsVolume : simpl never.



(** [ExportMultipleNfsVolumes] in any environment, when none of the
    volumes is being worked on and the context map is there: it terminates
    with every lock given back; every requested volume is reported once,
    either successful or unsuccessful, in the order of the request, and an
    error is returned exactly when some volume is unsuccessful. *)
Theorem ExportMultipleNfsVolumes_partition (fuel : nat) (ctx : context)
    (req : ExportMultipleNfsVolumesRequest) (m : gmap string string) w
    (Hlock : free exportsLock w)
    (Hids : forall id, id ∈ exm_VolumeIds req -> w_nfsPVLock w !! id = None)
    (Hm : exm_ExportNfsContext req = Some m) :
  exists resp err w',
    run (ExportMultipleNfsVolumes nfsService (S fuel) ctx req) w = (Done (resp, err), w') /\
    w_held w' = w_held w /\ w_nfsPVLock w' = w_nfsPVLock w /\
    exmr_SuccessfulIds resp ++ exmr_UnsuccessfulIds resp ≡ₚ exm_VolumeIds req /\
    sublist (exmr_SuccessfulIds resp) (exm_VolumeIds req) /\
    sublist (exmr_UnsuccessfulIds resp) (exm_VolumeIds req) /\
    (err = None <-> exmr_UnsuccessfulIds resp = []).
Proof.
  unfold ExportMultipleNfsVolumes. rewrite run_bind, Hm.
  destruct (run_multi_loop (export_one nfsService (S fuel) ctx)
    (fun s w' => w_held w' = w_held w /\ w_nfsPVLock w' = w_nfsPVLock w /\ multi_context s <> None)
    (exm_VolumeIds req)) with (done := @nil string) (s := Multi (Some m) [] [] None) (w := w)
    as (s & w' & -> & (Hh & Hl & _) & Hs).
  - intros dn id s w1 Hin (Hh & Hl & Hc) Hs. unfold export_one. rewrite run_bind.
    destruct (multi_context s) as [m1|] eqn:Hm1; [|done].
    destruct (run_ExportNfsVolume fuel ctx
      {| exreq_VolumeId := id; exreq_ExportNfsContext := Some m1 |} m1 w1)
      as (c & [resp err] & w2 & -> & Hh2 & _ & Hl2 & Hc2 & _);
      [unfold free; by rewrite Hh|cbn; rewrite Hl; by apply Hids|done|].
    cbn. do 2 eexists. split; [done|]. rewrite Hh2, Hl2.
    destruct err; cbn; (split; [done|]); [by apply multi_after_failed|by apply multi_after_ok].
  - done.
  - apply multi_start.
  - cbn. do 3 eexists. split; [done|]. cbn. destruct Hs as (? & ? & ? & ?). done.
Qed.

(** [UnexportMultipleNfsVolumes] in any environment: the same for the
    removal of several volumes. *)
Theorem UnexportMultipleNfsVolumes_partition (fuel : nat)
    (req : UnexportMultipleNfsVolumesRequest) w
    (Hlock : free exportsLock w)
    (Hids : forall id, id ∈ unm_VolumeIds req -> w_nfsPVLock w !! id = None) :
  exists resp err w',
    run (UnexportMultipleNfsVolumes (S fuel) req) w = (Done (resp, err), w') /\ same_process w w' /\
    unmr_SuccessfulIds resp ++ unmr_UnsuccessfulIds resp ≡ₚ unm_VolumeIds req /\
    sublist (unmr_SuccessfulIds resp) (unm_VolumeIds req) /\
    sublist (unmr_UnsuccessfulIds resp) (unm_VolumeIds req) /\
    (err = None <-> unmr_UnsuccessfulIds resp = []).
Proof.
  unfold UnexportMultipleNfsVolumes. rewrite run_bind.
  destruct (run_multi_loop (unexport_one (S fuel)) (fun s w' => same_process w w')
    (unm_VolumeIds req)) with (done := @nil string) (w := w)
    (s := Multi (unm_ExportNfsContext req) [] [] None) as (s & w' & -> & Hp & Hs).
  - intros dn id s w1 Hin Hp Hs. unfold unexport_one. rewrite run_bind.
    destruct (run_UnexportNfsVolume fuel
      {| unreq_VolumeId := id; unreq_UnexportNfsContext := multi_context s |} w1)
      as ([resp err] & w2 & -> & Hp2 & _); [by eapply same_process_free| |].
    { cbn. destruct Hp as (_ & -> & _). by apply Hids. }
    cbn. do 2 eexists. split; [done|]. split; [by etrans|].
    destruct err; cbn; [by apply multi_after_failed|by apply multi_after_ok].
  - done.
  - apply multi_start.
  - cbn. do 3 eexists. split; [done|]. split; [done|]. destruct Hs as (? & ? & ? & ?). done.
Qed.
End AnyEnvironment.

(** ** Concrete behaviour *)

(** Environments that differ from [calm] in one kind of answer. *)
Section Scenarios.

#[local] Existing Instance ascii_tables.
#[local] Existing Instance demo_globals.

(** [exportfs -r] fails the first [n] times, [n] being the state. *)
Definition exportfs_fails : Env nat := fun B e =>
  match e in extE B return nat -> B * nat with
  | Exec k name args => fun x =>
      match x with
      | S x' => if is_exportfs_r name args then (("", Some (Errorf "exportfs: busy")), x')
                else (("", None), x)
      | O => (("", None), O)
      end
  | e => fun x => (calm_answer e, x)
  end.

Definition demo_request (id : string) : ExportNfsVolumeRequest :=
  {| exreq_VolumeId := id; exreq_ExportNfsContext := Some {["ServiceName" := "svc"]} |}.

(** The driver mounts at the staging path of the volume. *)
Definition mounting : Env nat := fun B e =>
  match e in extE B return nat -> B * nat with
  | VcsiMountVolume id _ path _ => fun x => ((path +:+ "/" +:+ VolumeIDToServiceName id, None), x)
  | e => fun x => exportfs_fails _ e x
  end.

(** The error a handler returned. *)
Definition reported {A B} (o : outcome (A * pair_err B)) : option (option go_error) :=
  match o with Done (_, (_, err)) => Some err | _ => None end.

(** a retry does not repair a failed resynchronisation: when [exportfs -r]
    fails twice, [ExportNfsVolume] returns its error after the entry was
    added; the retried call then finds the entry, answers the idempotent
    success, and the kernel still does not export the volume. *)
Theorem ExportNfsVolume_retry_not_resynced :
  let '(r1, w1) := run (H := mounting) (ExportNfsVolume demo_service 1 Background (demo_request "nfs-v1"))
                       (initial_world "" 2%nat) in
  let '(r2, w2) := run (H := mounting) (ExportNfsVolume demo_service 1 Background (demo_request "nfs-v1")) w1 in
  reported r1 = Some (Some (Errorf "exportfs: busy")) /\ reported r2 = Some None /\
  Contains (w_exports w2) "/var/lib/dell/nfs/nfs-v1/" = true /\ w_resynced w2 = "".
Proof. vm_compute. repeat split; reflexivity. Qed.

(** a request without context map makes [ExportNfsVolume] panic, after the
    driver has mounted the volume; the volume's lock is given back. *)
Theorem ExportNfsVolume_nil_context_panics :
  let '(r, w) := run (H := mounting)
    (ExportNfsVolume demo_service 1 Background
       {| exreq_VolumeId := "nfs-v1"; exreq_ExportNfsContext := None |}) (initial_world "" 0%nat) in
  r = Panicked "assignment to entry in nil map" /\ w_nfsPVLock w = ∅.
Proof. vm_compute. repeat split; reflexivity. Qed.

(** A goroutine that serves one request and insists on its success. *)
Definition export_goroutine (id : string) : prog unit :=
  '(_, (_, err)) ← ExportNfsVolume demo_service 1 Background (demo_request id);
  match err with None => Ret tt | Some e => Panic (err_text e) end.

Definition three_exports : system nat :=
  System [export_goroutine "nfs-v1"; export_goroutine "nfs-v2"; export_goroutine "nfs-v3"]
    (initial_world "" 0%nat).


(** C40: [generation] is assigned after [AddExport] has released
    [exportsLock], so a slow [ExportNfsVolume] can set it back: three
    concurrent calls for different volumes can all report success although the
    kernel does not export the last volume, because its resynchronisation was
    taken for superfluous. *)
Theorem ExportNfsVolume_generation_race :
  exists s, rtc (cstep (H := mounting)) three_exports s /\
    threads s = [Ret tt; Ret tt; Ret tt] /\
    Contains (w_exports (shared s)) "/nfs-v3/ " = true /\
    Contains (w_resynced (shared s)) "/nfs-v3/ " = false.
Proof.
  set (schedule := (replicate 26 0 ++ replicate 34 1 ++ replicate 8 0 ++ replicate 34 2)%nat).
  eexists. split; [apply (run_schedule_reachable schedule); vm_compute; reflexivity|].
  vm_compute. done.
Qed.

Lemma ExportNfsVolume_any_environment_witness :
  exists context r w',
    run (H := mounting) (ExportNfsVolume demo_service 1 Background (demo_request "nfs-v1"))
      (initial_world "" 0%nat) = (Done (context, r), w') /\ w_nfsPVLock w' = ∅.
Proof.
  destruct (ExportNfsVolume_any_environment (H1 := mounting) demo_service 0 Background
              (demo_request "nfs-v1") {["ServiceName" := "svc"]} (initial_world "" 0%nat))
    as (context & r & w' & Hr & _ & _ & Hl & _).
  - reflexivity.
  - reflexivity.
  - reflexivity.
  - exists context, r, w'. split; [exact Hr|exact Hl].
Defined.

Lemma UnexportNfsVolume_any_environment_witness :
  exists r w',
    run (H := calm) (UnexportNfsVolume 1 {| unreq_VolumeId := "nfs-v1"; unreq_UnexportNfsContext := None |})
      (initial_world (unlines ["/var/lib/dell/nfs/nfs-v1/ *(rw)"]) tt) = (Done r, w') /\
    w_held w' = no_mutex_held.
Proof.
  destruct (UnexportNfsVolume_any_environment (H1 := calm) 0
              {| unreq_VolumeId := "nfs-v1"; unreq_UnexportNfsContext := None |}
              (initial_world (unlines ["/var/lib/dell/nfs/nfs-v1/ *(rw)"]) tt))
    as (r & w' & Hr & Hp & _).
  - reflexivity.
  - reflexivity.
  - exists r, w'. split; [exact Hr|]. apply Hp.
Defined.

Lemma Ping_any_environment_witness :
  (run (H := calm) (Ping {| ping_NodeIpAddress := "10.0.0.1"; ping_DumpAllExports := true |})
     (initial_world (unlines ["/var/lib/dell/nfs/nfs-v1/ *(rw)"]) tt)).2.(w_held) = no_mutex_held.
Proof.
  destruct (Ping_any_environment (H1 := calm)
              {| ping_NodeIpAddress := "10.0.0.1"; ping_DumpAllExports := true |}
              (initial_world (unlines ["/var/lib/dell/nfs/nfs-v1/ *(rw)"]) tt))
    as (o & w' & Hr & Hp & _).
  - reflexivity.
  - rewrite Hr. apply Hp.
Defined.

Lemma ExportMultipleNfsVolumes_partition_witness :
  exists resp err w',
    run (H := mounting) (ExportMultipleNfsVolumes demo_service 1 Background
      {| exm_VolumeIds := ["nfs-v1"; "nfs-v2"]; exm_ExportNfsContext := Some ∅ |})
      (initial_world "" 0%nat) = (Done (resp, err), w') /\
    exmr_SuccessfulIds resp ++ exmr_UnsuccessfulIds resp ≡ₚ ["nfs-v1"; "nfs-v2"].
Proof.
  destruct (ExportMultipleNfsVolumes_partition (H1 := mounting) demo_service 0 Background
      {| exm_VolumeIds := ["nfs-v1"; "nfs-v2"]; exm_ExportNfsContext := Some ∅ |} ∅
      (initial_world "" 0%nat)) as (resp & err & w' & Hr & _ & _ & Hperm & _).
  - reflexivity.
  - intros id _. reflexivity.
  - reflexivity.
  - exists resp, err, w'. split; [exact Hr|exact Hperm].
Defined.

Lemma UnexportMultipleNfsVolumes_partition_witness :
  exists resp err w',
    run (H := calm) (UnexportMultipleNfsVolumes 1
      {| unm_VolumeIds := ["nfs-v1"; "nfs-v2"]; unm_ExportNfsContext := Some ∅ |})
      (initial_world "" tt) = (Done (resp, err), w') /\
    unmr_SuccessfulIds resp ++ unmr_UnsuccessfulIds resp ≡ₚ ["nfs-v1"; "nfs-v2"].
Proof.
  destruct (UnexportMultipleNfsVolumes_partition (H1 := calm) 0
      {| unm_VolumeIds := ["nfs-v1"; "nfs-v2"]; unm_ExportNfsContext := Some ∅ |}
      (initial_world "" tt)) as (resp & err & w' & Hr & _ & Hperm & _).
  - reflexivity.
  - intros id _. reflexivity.
  - exists resp, err, w'. split; [exact Hr|exact Hperm].
Defined.

End Scenarios.

(** ** The panic of [Ping] *)

Section PingPanics.
Context `{UnicodeTables} `{Globals} {X : Type} `{ReliableFiles X}.
Implicit Types w : world X.

Lemma run_GetExports_ok p w lines :
  free exportsLock w -> ScanLines (w_exports w) = (lines, false) ->
  exists x, run (GetExports p) w =
    (Done (List.filter (fun line => HasPrefix line p) lines, None), set_env x w).
Proof.
  intros Hf Hl. unfold GetExports, defer_Close, file_Close. rewrite run_with_lock by done.
  destruct w as [? ? [] ]. unfold free in Hf. cbn in Hf, Hl. subst. ask.
  rewrite run_deferred, run_bind. edestruct run_scan_file_ok as [y ->]; [exact Hl|]. ask. eauto.
Qed.
#[local] Arguments get_service_attempts : simpl nomatch.
#[local] Arguments ping_exports : simpl nomatch.

(** The API answers no request about a service. *)
Definition api_down : Prop :=
  forall ns name (x : X), exists e,
    (env_step (KubeGetService ns name) x).1 = inr e /\ err_notfound e = false.

Lemma run_get_service_down n s w :
  api_down -> exists x, run (get_service_attempts n s) w = (Done (None, None), set_env x w).
Proof.
  intros Hdown. revert w. induction n as [|n IH]; intros []; [by eexists|].
  cbn [get_service_attempts]. destruct (Hdown DriverNamespace s w_env) as (e & He & Hnf).
  ask. cbn in He. subst r. cbn. rewrite Hnf. ask.
  match goal with |- context [run (get_service_attempts n s) ?w1] =>
      destruct (IH w1) as [x1 ->] end. eauto.
Qed.

(** when the Kubernetes API is down (its errors are not "not found") and
    the node has an export, [Ping] with [DumpAllExports] panics:
    [GetServiceContent] returns neither a service nor an error, because the
    error of its loop shadows the one it returns. *)
Theorem Ping_panics_when_api_down (req : PingRequest) w (lines : list string)
    (Hdump : ping_DumpAllExports req = true) (Hlock : free exportsLock w)
    (Hfile : ScanLines (w_exports w) = (lines, false))
    (Hexport : existsb (fun line => HasPrefix line NfsExportDirectory) lines = true)
    (Hdown : api_down) :
  exists msg, (run (Ping req) w).1 = Panicked msg.
Proof.
  unfold Ping. rewrite Hdump, run_bind.
  destruct (run_GetExports_ok NfsExportDirectory w lines Hlock Hfile) as [x ->]. cbn.
  apply existsb_exists in Hexport as (line & Hin & Hp).
  destruct (List.filter _ lines) as [|e es] eqn:E.
  { assert (In line []) as []. rewrite <- E. by apply filter_In. }
  clear E. cbn [ping_exports]. rewrite run_bind. unfold ping_export, GetServiceContent.
  rewrite run_bind.
  match goal with |- context [run (get_service_attempts ?n ?s) ?w1] =>
    destruct (run_get_service_down n s w1 Hdown) as [y ->] end.
  cbn. eauto.
Qed.
End PingPanics.

Definition kube_down : Env unit := fun B e =>
  match e in extE B return unit -> B * unit with
  | KubeGetService _ _ => fun x => (inr (Errorf "connection refused"), x)
  | e => fun x => (calm_answer e, x)
  end.

Lemma kube_down_reliable : @ReliableFiles unit kube_down.
Proof. by constructor. Qed.

Lemma Ping_panics_when_api_down_witness :
  exists msg,
    (run (H := kube_down)
       (@Ping demo_globals {| ping_NodeIpAddress := "10.0.0.1"; ping_DumpAllExports := true |})
       (initial_world (unlines ["/var/lib/dell/nfs/nfs-v1/ *(rw)"]) tt)).1 = Panicked msg.
Proof.
  apply (Ping_panics_when_api_down (H0 := demo_globals) (H2 := kube_down_reliable) _ _
           ["/var/lib/dell/nfs/nfs-v1/ *(rw)"]).
  - reflexivity.
  - reflexivity.
  - vm_compute. reflexivity.
  - vm_compute. reflexivity.
  - intros ns name x. exists (Errorf "connection refused"). split; reflexivity.
Defined.
