(* ===== verification/NodeHost.v ===== *)
(** * The NFS server on a node that works

    [NfsServer.v] says what the handlers do in every environment.  Here the
    node does its part ([Host]): files can be written, commands succeed and
    the host driver mounts where it is asked to.  Then [ExportNfsVolume] and
    [UnexportNfsVolume] succeed, and what the kernel exports and the driver
    has mounted changes for that volume only, or for the volumes whose service
    names extend its own. *)

From S2P Require Import Prelude GoStrings Messages GoProg Naming Exports Config NfsServer.

(** The calls that mount and unmount. *)
Definition mount_call {B} (e : extE B) : bool :=
  match e with VcsiMountVolume _ _ _ _ | VcsiUnmountVolume _ _ _ => true | _ => false end.

(** The volume that the host driver is told, by the id of its array or by its
    NFS id, has the service name [name]. *)
Definition names_volume `{UnicodeTables} (id name : string) : Prop :=
  VolumeIDToServiceName (ArrayToNFSVolumeID (ToArrayVolumeID id)) = name.

Lemma names_same_volume `{UnicodeTables} id id' :
  IsNFSVolumeID id = true -> ToArrayVolumeID id' = ToArrayVolumeID id -> names_volume id' (VolumeIDToServiceName id).
Proof. intros Hid E. unfold names_volume. by rewrite E, nfs_id. Qed.

(** The operating system and the host driver of a node.  The driver mounts a
    volume below the export directory, under its service name, and unmounts it
    when it is told the volume and that name. *)
Class Host (Y : Type) `{Env Y} `{UnicodeTables} `{Globals} := {
  mounted : Y -> gset string; (* mount points *)
  h_stat path y : path ∈ mounted y -> (env_step (OsStat path) y).1 = None;
  h_chown path uid gid y : (env_step (OsChown path uid gid) y).1 = None;
  h_chmod path mode y : (env_step (OsChmod path mode) y).1 = None;
  h_exec kind name args y : (env_step (Exec kind name args) y).1.2 = None;
  h_done ctx y : (env_step (SelectDone ctx) y).1 = None;
  h_mount id ctx y :
    mget ctx "ServiceName" = VolumeIDToServiceName id ->
    exists y', env_step (VcsiMountVolume id "" NfsExportDirectory ctx) y = ((staging_path id, None), y') /\
      mounted y' = {[staging_path id]} ∪ mounted y;
  h_unmount id name y :
    names_volume id name -> NfsExportDirectory +:+ "/" +:+ name ∈ mounted y ->
    exists y', env_step (VcsiUnmountVolume id NfsExportDirectory (Some {["ServiceName" := name]})) y = (None, y') /\
      mounted y' = mounted y ∖ {[NfsExportDirectory +:+ "/" +:+ name]};
  h_frame B (e : extE B) y : mount_call e = false -> mounted (env_step e y).2 = mounted y;
}.

(** ** Paths *)

Definition no_slash (s : string) : bool := string_all (fun c => negb (Ascii.eqb c "/")) s.

Lemma legal_no_slash s : string_all legal s = true -> no_slash s = true.
Proof.
  apply string_all_impl. intros c Hc. destruct (Ascii.eqb_spec c "/") as [->|]; [|done].
  vm_compute in Hc. discriminate Hc.
Qed.

#[local] Arguments Ascii.eqb : simpl never.

(** The entry of one directory is a prefix of the entry of another one only if
    they are the same. *)
Lemma prefix_of_entry n n' r :
  no_slash n = true -> no_slash n' = true ->
  HasPrefix (n +:+ "/" +:+ r) (n' +:+ "/") = String.eqb n n'.
Proof.
  unfold no_slash. revert n'. induction n as [|c n IH]; intros [|c' n'] Hn Hn'; cbn in *; try done; breflect.
  - by rewrite HasPrefix_empty.
  - by rewrite (proj2 (Ascii.eqb_neq c' "/")).
  - by rewrite (proj2 (Ascii.eqb_neq "/" c)) by congruence.
  - rewrite Ascii.eqb_sym. destruct (Ascii.eqb c c'); [by apply IH|done].
Qed.

(** A line of one directory begins with the path of another one exactly when
    the name of the directory does. *)
Lemma entry_of_prefix n n' r :
  no_slash n = true -> HasPrefix (n' +:+ "/" +:+ r) n = true -> HasPrefix n' n = true.
Proof.
  unfold no_slash. revert n. induction n' as [|c n' IH]; intros [|c' n] Hn Hp; cbn in *; try done;
    breflect; [done|].
  subst. rewrite Ascii.eqb_refl. by apply IH.
Qed.

(** Strings by their last byte. *)
Lemma last_is_app p s t : t <> "" -> last_is p (s +:+ t) = last_is p t.
Proof.
  intros Ht. induction s as [|c s IH]; [done|]. cbn. rewrite <- IH. by destruct s, t.
Qed.

Lemma last_is_app_true p s t : last_is p t = true -> last_is p (s +:+ t) = true.
Proof. intros Ht. rewrite last_is_app; [done|]. by intros ->. Qed.

Definition not_double (s : string) : Prop := Contains s "//" = false.

Lemma not_double_app d n : not_double (d +:+ "/") -> no_slash n = true -> not_double (d +:+ "/" +:+ n).
Proof.
  unfold not_double, no_slash. intros Hd Hn.
  assert (Hs : forall m, string_all (fun c => negb (Ascii.eqb c "/")) m = true -> Contains m "//" = false).
  { induction m as [|c m IH]; [done|]. cbn [string_all]. intros [Hc Hm]%andb_true_iff. breflect.
    rewrite Contains_cons, IH by done. cbn. destruct (Ascii.eqb_spec "/" c); [by subst|done]. }
  induction d as [|c d IH].
  - cbn [String.append]. rewrite Contains_cons, (Hs n Hn), orb_false_r. cbn.
    destruct n as [|c n]; [done|]. cbn in *. breflect. destruct (Ascii.eqb_spec "/" c); [by subst|done].
  - cbn [String.append] in *. rewrite Contains_cons in *. apply orb_false_iff in Hd as [Hp Hd].
    rewrite IH by done. rewrite orb_false_r. cbn in *.
    destruct (Ascii.eqb "/" c); [|done]. destruct d as [|c2 d]; [done|]. cbn in *.
    by rewrite HasPrefix_empty in *.
Qed.

(** ** What a node exports *)

Section Server.
Context `{UnicodeTables} `{Globals} (nfsService : CsiNfsService).

(** The export directory and the network of the pods make well-formed lines of
    the exports file. *)
Definition directory_ok : bool :=
  HasPrefix NfsExportDirectory "/" && negb (Contains (NfsExportDirectory +:+ "/") "//") &&
  no_nl NfsExportDirectory && no_nl (cs_podCIDR nfsService) &&
  (Z.of_nat (String.length NfsExportDirectory + String.length (cs_podCIDR nfsService)) <? 65000).

Definition entry_directory (id : string) : string := staging_path id +:+ "/".

Lemma service_name_no_slash id : no_slash (VolumeIDToServiceName id) = true.
Proof. apply legal_no_slash. rewrite service_name_formula. apply service_name_legal. Qed.

Lemma staging_path_inj id id' :
  staging_path id = staging_path id' -> VolumeIDToServiceName id = VolumeIDToServiceName id'.
Proof. unfold staging_path. intros Hs%string_app_inj_l. by injection Hs. Qed.

Lemma entry_directory_ok id :
  directory_ok = true -> entry_ok (entry_directory id) (export_options nfsService) = true.
Proof.
  unfold directory_ok. rewrite !andb_true_iff. intros [ [ [ [Hroot _] Hdnl] Hcidr] Hsize]. breflect.
  pose proof (service_name_length id) as Hlen. rewrite <- service_name_formula in Hlen.
  assert (Hnl : no_nl (VolumeIDToServiceName id) = true).
  { unfold no_nl. rewrite service_name_formula.
    eapply string_all_impl; [|apply service_name_legal]. intros c Hc.
    destruct (Ascii.eqb_spec c nl) as [->|Hne]; [vm_compute in Hc; discriminate Hc|reflexivity]. }
  unfold entry_ok, entry_directory, staging_path, export_options. rewrite !andb_true_iff. split; [split|].
  - unfold no_nl in *. rewrite !string_all_app. rewrite Hnl, Hdnl, Hcidr. reflexivity.
  - unfold short_line. apply Z.ltb_lt. rewrite !string_app_length. cbn. unfold MaxScanTokenSize. lia.
  - unfold untrimmable. rewrite andb_true_iff, !negb_true_iff. split.
    + apply HasPrefix_true in Hroot as [r ->]. reflexivity.
    + apply not_true_is_false. intros (p & Hin & [r Hr]%HasSuffix_true)%existsb_exists.
      assert (Hp : forallb (fun p => negb (String.eqb p "") && negb (last_is (Ascii.eqb ")") p)) spaces = true)
        by (vm_compute; reflexivity).
      rewrite forallb_forall in Hp. specialize (Hp p Hin). apply andb_true_iff in Hp as [Hpne Hplast]. breflect.
      apply (f_equal (last_is (Ascii.eqb ")"))) in Hr. rewrite (last_is_app _ r p), Hplast in Hr by done.
      rewrite !string_app_assoc in Hr.
      match type of Hr with ?l = false => assert (l = true); [|congruence] end.
      repeat first [reflexivity|apply last_is_app_true].
Qed.

Lemma entry_ne_prefix id id' o :
  HasPrefix (entry_directory id +:+ " " +:+ o) (entry_directory id') =
  String.eqb (VolumeIDToServiceName id) (VolumeIDToServiceName id').
Proof.
  unfold entry_directory, staging_path. rewrite !string_app_assoc, !HasPrefix_app_l.
  apply prefix_of_entry; apply service_name_no_slash.
Qed.
End Server.

(** ** The handlers on a node that works *)

(** Nothing in the functions on the exports file mounts or unmounts. *)
Local Abbreviation no_mounts := (fun B (e : extE B) => mount_call e = false).

Section Calls.
Local Ltac unfold_all :=
  unfold defer_Close, file_Close, bump_generation, file_WriteString, fail_generation, scan_file.

Lemma checkExport_calls d : all_calls no_mounts (checkExport d).
Proof. unfold checkExport; unfold_all; walk_calls. Qed.
#[local] Hint Resolve checkExport_calls : goprog.
Lemma CheckExport_calls d : all_calls no_mounts (CheckExport d).
Proof. unfold CheckExport; walk_calls. Qed.
Lemma GetExports_calls d : all_calls no_mounts (GetExports d).
Proof. unfold GetExports; unfold_all; walk_calls. Qed.
Lemma AddExport_calls d o : all_calls no_mounts (AddExport d o).
Proof. unfold AddExport; unfold_all; walk_calls. Qed.
Lemma write_lines_calls ls : all_calls no_mounts (write_lines ls).
Proof.
  induction ls; unfold write_lines; fold write_lines; unfold_all; walk_calls.
Qed.
#[local] Hint Resolve write_lines_calls : goprog.
Lemma DeleteExport_calls d : all_calls no_mounts (DeleteExport d).
Proof. unfold DeleteExport; unfold_all; walk_calls. Qed.
Lemma resync_attempts_calls n g e : all_calls no_mounts (resync_attempts n g e).
Proof. revert e. induction n; intros; cbn [resync_attempts]; walk_calls. Qed.
#[local] Hint Resolve resync_attempts_calls : goprog.
Lemma ResyncNFSMountd_calls g : all_calls no_mounts (ResyncNFSMountd g).
Proof. unfold ResyncNFSMountd; walk_calls. Qed.
End Calls.
#[export] Hint Resolve CheckExport_calls AddExport_calls DeleteExport_calls ResyncNFSMountd_calls : goprog.

(** The table after an addition and a deletion. *)
Lemma lookup_added d e t :
  is_some (ExportsSpec.lookup d (t ++ [e])) = is_some (ExportsSpec.lookup d t) || HasPrefix e d.
Proof.
  unfold ExportsSpec.lookup. induction t as [|e' t IH]; cbn.
  - unfold ExportsSpec.belongs. by destruct (HasPrefix e d).
  - by destruct (ExportsSpec.belongs d e').
Qed.

Lemma lookup_deleted d d' t :
  (forall e, HasPrefix e d' = true -> HasPrefix e d = false) ->
  ExportsSpec.lookup d' (ExportsSpec.delete d t) = ExportsSpec.lookup d' t.
Proof.
  intros Hd. unfold ExportsSpec.lookup, ExportsSpec.delete, ExportsSpec.belongs.
  induction t as [|e t IH]; [done|]. cbn.
  destruct (HasPrefix e d) eqn:E; cbn; rewrite IH; [|done].
  destruct (HasPrefix e d') eqn:E'; [|done]. by rewrite Hd in E.
Qed.

Lemma lookup_deleted_some d d' t :
  is_some (ExportsSpec.lookup d' (ExportsSpec.delete d t)) = true -> is_some (ExportsSpec.lookup d' t) = true.
Proof.
  unfold ExportsSpec.lookup, ExportsSpec.delete. induction t as [|e t IH]; [done|]. cbn.
  destruct (ExportsSpec.belongs d e); cbn; destruct (ExportsSpec.belongs d' e); auto.
Qed.

Lemma lookup_deleted_prefix d d' t :
  HasPrefix d' d = true -> ExportsSpec.lookup d' (ExportsSpec.delete d t) = None.
Proof.
  intros Hd. unfold ExportsSpec.lookup, ExportsSpec.delete, ExportsSpec.belongs.
  induction t as [|e t IH]; [done|]. cbn. destruct (HasPrefix e d) eqn:E; cbn; [done|].
  destruct (HasPrefix e d') eqn:E'; [|done]. by rewrite (HasPrefix_trans _ _ _ E' Hd) in E.
Qed.

(** What the node has of the volume: it serves it, or something is left of it:
    a mount that is not exported, or an export of nothing. *)
Inductive hold := Serving | Leftover.
#[export] Instance hold_eq_dec : EqDecision hold.
Proof. solve_decision. Defined.

Section Healthy.
Context `{UnicodeTables} `{Globals} (nfsService : CsiNfsService).
Context {Y : Type} `{Env Y} `{!ReliableFiles Y} `{!Host Y}.
Implicit Types w : world Y.

(** The kernel exports the directory of the volume, and the volume is mounted
    there. *)
Definition kernel_exports (id : string) w : bool :=
  is_some (find_line (entry_directory id) (ScanLines (w_resynced w)).1).
Definition node_exports (id : string) w : bool :=
  kernel_exports id w && bool_decide (staging_path id ∈ mounted (w_env w)).

Definition node_hold (id : string) w : option hold :=
  if node_exports id w then Some Serving
  else if kernel_exports id w || bool_decide (staging_path id ∈ mounted (w_env w)) then Some Leftover
  else None.

Lemma node_hold_serving id w : node_hold id w = Some Serving <-> node_exports id w = true.
Proof. unfold node_hold. destruct (node_exports id w); [done|]. by case_match. Qed.

Lemma node_hold_none id w :
  node_hold id w = None <-> kernel_exports id w = false /\ staging_path id ∉ mounted (w_env w).
Proof.
  unfold node_hold, node_exports. destruct (kernel_exports id w); case_bool_decide; cbn; intuition congruence.
Qed.

Lemma node_hold_same id w w' :
  kernel_exports id w' = kernel_exports id w ->
  (staging_path id ∈ mounted (w_env w') <-> staging_path id ∈ mounted (w_env w)) ->
  node_hold id w' = node_hold id w.
Proof. intros Hk Hm. unfold node_hold, node_exports. by rewrite Hk, (bool_decide_ext _ _ Hm). Qed.

Lemma node_exports_hold id w w' : node_hold id w' = node_hold id w -> node_exports id w' = node_exports id w.
Proof.
  unfold node_hold. destruct (node_exports id w), (node_exports id w'); repeat case_match; congruence.
Qed.

(** The changes that an export and an unexport make. *)
Definition exported_on (id : string) w w' : Prop :=
  (forall i, kernel_exports i w' =
     kernel_exports i w || String.eqb (VolumeIDToServiceName id) (VolumeIDToServiceName i)) /\
  mounted (w_env w') = {[staging_path id]} ∪ mounted (w_env w).

(** Dropping a path from the file stops the export of the volumes whose service
    names extend the one of the path. *)
Definition drops (id id' : string) : bool :=
  HasPrefix (VolumeIDToServiceName id') (VolumeIDToServiceName id).

Lemma drops_same id i : VolumeIDToServiceName i = VolumeIDToServiceName id -> drops id i = true.
Proof. unfold drops. intros ->. apply HasPrefix_refl. Qed.

Definition unexported_on (id : string) w w' : Prop :=
  (forall i, kernel_exports i w' = kernel_exports i w && negb (drops id i)) /\
  mounted (w_env w') = mounted (w_env w) ∖ {[staging_path id]}.

Lemma exported_serving id w w' : exported_on id w w' -> node_exports id w' = true.
Proof.
  intros [Hk Hm]. unfold node_exports. rewrite Hk, Hm, String.eqb_refl, orb_true_r.
  by apply bool_decide_eq_true, elem_of_union_l, elem_of_singleton_2.
Qed.

Lemma exported_others id id' w w' :
  exported_on id w w' -> VolumeIDToServiceName id' <> VolumeIDToServiceName id -> node_hold id' w' = node_hold id' w.
Proof.
  intros [Hk Hm] Hne. apply node_hold_same.
  - by rewrite Hk, (proj2 (String.eqb_neq _ _)), orb_false_r by congruence.
  - rewrite Hm, elem_of_union, elem_of_singleton. split; [|by right].
    intros [Hs|Hs]; [|done]. by apply staging_path_inj in Hs.
Qed.

Lemma unexported_none id w w' : unexported_on id w w' -> node_hold id w' = None.
Proof.
  intros [Hk Hm]. apply node_hold_none. rewrite Hk, Hm, drops_same, andb_false_r by done.
  split; [done|]. by intros [_ []%not_elem_of_singleton]%elem_of_difference.
Qed.

Lemma unexported_others id id' w w' :
  unexported_on id w w' -> drops id id' = false -> node_hold id' w' = node_hold id' w.
Proof.
  intros [Hk Hm] Hno. apply node_hold_same; [by rewrite Hk, Hno, andb_true_r|].
  rewrite Hm, elem_of_difference, elem_of_singleton. split; [by intros [? _]|]. intros Hs. split; [done|].
  intros E%staging_path_inj. by rewrite drops_same in Hno.
Qed.

(** A process whose file is well-formed and synchronised, with room for [room]
    more generations, and with a mount below every exported volume. *)
Record node_sound (room : nat) w : Prop := {
  sound_table : exists t, represents w t;
  sound_synced : w_resynced w = w_exports w;
  sound_generation : min_int64 <= w_generation w /\ w_syncedGeneration w <= w_generation w /\
                  w_generation w + Z.of_nat room <= max_int64;
  sound_mounted id : kernel_exports id w = true -> staging_path id ∈ mounted (w_env w);
}.

(** No handler is at work. *)
Definition node_ok (room : nat) w : Prop := node_sound room w /\ w_nfsPVLock w = ∅.

Lemma kernel_table w t id :
  represents w t -> w_resynced w = w_exports w ->
  kernel_exports id w = is_some (ExportsSpec.lookup (entry_directory id) t).
Proof.
  intros (lines & Hs & Hf & _)%represents_scan Hr. unfold kernel_exports. by rewrite Hr, Hs, <- Hf.
Qed.

Lemma node_sound_less room w : node_sound (S room) w -> node_sound room w.
Proof. intros [? ? ? ?]. split; [done|done|lia|done]. Qed.

(** What it depends on. *)
Definition same_exports w w' : Prop :=
  w_exports w' = w_exports w /\ w_resynced w' = w_resynced w /\ w_generation w' = w_generation w /\
  w_syncedGeneration w' = w_syncedGeneration w /\ mounted (w_env w') = mounted (w_env w).

Lemma same_exports_kernel id w w' : same_exports w w' -> kernel_exports id w' = kernel_exports id w.
Proof. unfold kernel_exports. by intros (_ & -> & _). Qed.

Lemma same_exports_hold id w w' : same_exports w w' -> node_hold id w' = node_hold id w.
Proof.
  intros Hs. apply node_hold_same; [by apply same_exports_kernel|]. by destruct Hs as (_ & _ & _ & _ & ->).
Qed.

Lemma same_exports_node id w w' : same_exports w w' -> node_exports id w' = node_exports id w.
Proof. intros Hs. by apply node_exports_hold, same_exports_hold. Qed.

Lemma same_exports_exported id w w1 w' w2 :
  same_exports w w1 -> same_exports w' w2 -> exported_on id w1 w' -> exported_on id w w2.
Proof.
  intros Ha Hb [Hk Hm]. split.
  - intros i. by rewrite (same_exports_kernel _ _ _ Hb), Hk, (same_exports_kernel _ _ _ Ha).
  - destruct Ha as (_ & _ & _ & _ & Ha), Hb as (_ & _ & _ & _ & Hb). congruence.
Qed.

Lemma same_exports_unexported id w w1 w' w2 :
  same_exports w w1 -> same_exports w' w2 -> unexported_on id w1 w' -> unexported_on id w w2.
Proof.
  intros Ha Hb [Hk Hm]. split.
  - intros i. by rewrite (same_exports_kernel _ _ _ Hb), Hk, (same_exports_kernel _ _ _ Ha).
  - destruct Ha as (_ & _ & _ & _ & Ha), Hb as (_ & _ & _ & _ & Hb). congruence.
Qed.

Lemma node_sound_same room w w' :
  same_exports w w' -> free exportsLock w' -> node_sound room w -> node_sound room w'.
Proof.
  intros Hs Hf [ [t Ht] Hsy Hg Hm]. assert (Hs' := Hs). destruct Hs' as (He & Hr & Hge & Hsg & Hmo).
  split; [exists t; by eapply represents_frame|congruence|by rewrite Hge, Hsg|].
  intros id. rewrite (same_exports_kernel _ _ _ Hs), Hmo. apply Hm.
Qed.

Lemma same_exports_env y w : mounted y = mounted (w_env w) -> same_exports w (set_env y w).
Proof. intros Hm. unfold same_exports. by destruct w. Qed.
Lemma same_exports_lockmap m l w : same_exports w (set_lockmap m l w).
Proof. unfold same_exports. by destruct w, m. Qed.

Lemma node_sound_free room w : node_sound room w -> free exportsLock w.
Proof. by intros [ [t [Hf _] ] _ _ _]. Qed.

Lemma node_sound_env room y w :
  mounted y = mounted (w_env w) -> node_sound room w -> node_sound room (set_env y w).
Proof.
  intros Hm Hs. eapply node_sound_same; [by apply same_exports_env| |done].
  apply node_sound_free in Hs. by destruct w.
Qed.

Lemma node_sound_lockmap m l room w : node_sound room w -> node_sound room (set_lockmap m l w).
Proof.
  intros Hs. eapply node_sound_same; [apply same_exports_lockmap| |done].
  apply node_sound_free in Hs. by destruct w, m.
Qed.

(** More may be mounted than is exported. *)
Lemma node_sound_mounts room y w :
  mounted (w_env w) ⊆ mounted y -> node_sound room w -> node_sound room (set_env y w).
Proof.
  intros Hm [ [t Ht] Hsy Hg Hmt]. split.
  - exists t. apply (represents_frame w); [done|by destruct w, Ht|by destruct w].
  - by destruct w.
  - by destruct w.
  - intros id Hk. rewrite w_env_set_env. apply Hm, Hmt. by destruct w.
Qed.

(** A call that does not mount. *)
Lemma run_plain {B} (e : extE B) w b :
  is_exec e = false -> mount_call e = false -> (env_step e (w_env w)).1 = b ->
  exists y, run (ext e) w = (Done b, set_env y w) /\ mounted y = mounted (w_env w).
Proof.
  intros He Hm <-. exists (env_step e (w_env w)).2. split; [by apply run_call|by apply h_frame].
Qed.

Lemma mounted_run {A} (p : prog A) w :
  all_calls no_mounts p -> mounted (w_env (run p w).2) = mounted (w_env w).
Proof. apply (run_calls_view _ mounted). intros B e y. apply h_frame. Qed.

(** *** Resynchronisation succeeds *)
Lemma resync_succeeds g w :
  free exportsLock w -> w_syncedGeneration w < g -> (run (ResyncNFSMountd g) w).1 = Done None.
Proof.
  intros Hf Hg%Z.leb_gt. destruct w as [? ? [] ]. unfold free in Hf. cbn in Hf, Hg. subst.
  unfold ResyncNFSMountd. rewrite run_with_lock by done. cbn. rewrite Hg. ask.
  pose proof (h_exec ExecuteCommand chroot [nodeRoot; exportfs; "-r"] w_env) as Hx.
  rewrite Hask in Hx. destruct r as [out e]. cbn in Hx. by subst e.
Qed.

Lemma run_Resync_ok g w :
  free exportsLock w -> w_syncedGeneration w < g ->
  exists w', run (ResyncNFSMountd g) w = (Done None, w') /\ same_process w w' /\
    w_exports w' = w_exports w /\ w_resynced w' = w_exports w /\ w_generation w' = w_generation w /\
    w_syncedGeneration w' = g /\ mounted (w_env w') = mounted (w_env w).
Proof.
  intros Hf Hg. destruct (run_ResyncNFSMountd g w Hf) as (err & w' & E & Hp & Hex & Hge & Hr).
  assert (Hm := mounted_run (ResyncNFSMountd g) w (ResyncNFSMountd_calls g)). rewrite E in Hm.
  pose proof (resync_succeeds g w Hf Hg) as E1. rewrite E in E1. injection E1 as ->.
  apply Z.leb_gt in Hg. rewrite Hg in Hr. destruct Hr as (_ & Hsy & Hre). exists w'. done.
Qed.

(** After a change of the file and a resync the kernel exports the new table. *)
Lemma run_resynced room t g w :
  represents w t -> w_generation w = g -> min_int64 <= g -> w_syncedGeneration w < g ->
  g + Z.of_nat room <= max_int64 ->
  (forall id, is_some (ExportsSpec.lookup (entry_directory id) t) = true ->
     staging_path id ∈ mounted (w_env w)) ->
  exists w', run (ResyncNFSMountd g) w = (Done None, w') /\ node_sound room w' /\ same_process w w' /\
    mounted (w_env w') = mounted (w_env w) /\
    forall id, kernel_exports id w' = is_some (ExportsSpec.lookup (entry_directory id) t).
Proof.
  intros Ht Hge Hmin Hsg Hmax Hmo. assert (Hf := proj1 Ht).
  destruct (run_Resync_ok g w Hf Hsg) as (w' & -> & Hp & Hex & Hre & Hge' & Hsg' & Hm).
  assert (Ht' : represents w' t) by (eapply represents_frame; [done|by eapply same_process_free|done]).
  assert (Hk : forall id, kernel_exports id w' = is_some (ExportsSpec.lookup (entry_directory id) t)).
  { intros id. by rewrite (kernel_table w' t) by congruence. }
  exists w'. split; [done|]. split; [|done]. split; [eauto|congruence|lia|].
  intros id. rewrite Hk, Hm. apply Hmo.
Qed.

(** *** Exporting *)

(** Ownership, mode and the listing of the mounted directory. *)
Lemma run_prepare {A} path (k : prog (pair_err A)) (fail : go_error -> prog (pair_err A)) w :
  exists y, run (err ← ext (OsChown path RootUID nfsGroupID);
       match err with
       | Some e => fail e
       | None =>
           err ← ext (OsChmod path NfsFileMode);
           match err with
           | Some e => fail e
           | None =>
               '(_, err) ← ext (Exec ExecuteCommand "chroot" ["/noderoot"; "ls"; "-ld"; path]);
               match err with Some e => fail e | None => k end
           end
       end) w = run k (set_env y w) /\ mounted y = mounted (w_env w).
Proof.
  rewrite run_bind.
  destruct (run_plain (OsChown path RootUID nfsGroupID) w None) as (y1 & -> & Hy1);
    [done|done|apply h_chown|]. cbv beta iota. rewrite run_bind.
  destruct (run_plain (OsChmod path NfsFileMode) (set_env y1 w) None) as (y2 & -> & Hy2);
    [done|done|apply h_chmod|]. cbv beta iota. autorewrite with goenv in *. rewrite run_bind.
  rewrite <- Hy1, <- Hy2.
  pose proof (h_exec ExecuteCommand "chroot" ["/noderoot"; "ls"; "-ld"; path] y2) as Hx.
  pose proof (h_frame _ (Exec ExecuteCommand "chroot" ["/noderoot"; "ls"; "-ld"; path]) y2 eq_refl) as Hf.
  destruct w. cbn in *. unfold ext_step. cbn. destruct (env_step _ y2) as [ [out e] y3]. cbn in *. subst e.
  by exists y3.
Qed.

Lemma run_AddExport_table id room t w :
  directory_ok nfsService = true -> node_sound (S room) w -> represents w t ->
  kernel_exports id w = false ->
  let g := w_generation w + 1 in
  exists w', run (AddExport (entry_directory id) (export_options nfsService)) w = (Done (g, None), w') /\
    same_process w w' /\ w_generation w' = g /\ w_syncedGeneration w' = w_syncedGeneration w /\
    represents w' (t ++ [entry_directory id +:+ " " +:+ export_options nfsService]) /\
    mounted (w_env w') = mounted (w_env w).
Proof.
  intros Hdir [ _ Hsy Hg _] Ht Hno. cbv zeta. assert (Hf := proj1 Ht).
  destruct (represents_scan _ _ Ht) as (lines & Hscan & Hfind & _).
  rewrite (kernel_table _ t) in Hno by done.
  pose proof (mounted_run (AddExport (entry_directory id) (export_options nfsService)) w
                (AddExport_calls _ _)) as Hma.
  destruct (run_AddExport_ok (entry_directory id) (export_options nfsService) w lines Hf Hscan) as [y E].
  rewrite Hfind in E. destruct (ExportsSpec.lookup (entry_directory id) t) eqn:Hl; [done|]. cbv zeta in E.
  rewrite int64_id in E by lia. rewrite E in Hma |- *. cbn [snd] in Hma. eexists. split; [done|].
  do 3 (split; [by destruct w|]). split; [|done].
  apply (represents_add w); [done|by apply entry_directory_ok|by destruct w..].
Qed.

Lemma run_export_mounted_ok id resp room w :
  directory_ok nfsService = true ->
  node_sound (S room) w -> kernel_exports id w = false -> staging_path id ∈ mounted (w_env w) ->
  exists w', run (export_mounted nfsService resp (staging_path id)) w = (Done (Some resp, None), w') /\
    node_sound room w' /\ same_process w w' /\ mounted (w_env w') = mounted (w_env w) /\
    forall id', kernel_exports id' w' =
      kernel_exports id' w || String.eqb (VolumeIDToServiceName id) (VolumeIDToServiceName id').
Proof.
  intros Hdir Hw Hno Hmo. unfold export_mounted.
  match goal with |- context ['(g, err) ← AddExport ?d ?o; @?k g err] =>
    destruct (run_prepare (staging_path id) ('(g, err) ← AddExport d o; k g err)
                (fun e => mret (Some resp, Some e)) w) as (y & -> & Hy) end.
  assert (Hse : same_exports w (set_env y w)) by by apply same_exports_env.
  assert (Hw1 : node_sound (S room) (set_env y w)) by by apply node_sound_env.
  assert (Hp1 : same_process w (set_env y w)) by by destruct w.
  setoid_rewrite <- (fun i => same_exports_kernel i w _ Hse).
  rewrite <- (same_exports_kernel _ _ _ Hse) in Hno.
  assert (Hm1 : mounted (w_env (set_env y w)) = mounted (w_env w)) by by rewrite w_env_set_env.
  set (w1 := set_env y w) in *. clearbody w1. clear Hse.
  assert (Hw1' := Hw1). destruct Hw1' as [ [t Ht] Hsy Hg Hmt].
  fold (entry_directory id). rewrite run_bind.
  destruct (run_AddExport_table id room t w1) as (w2 & -> & Hp2 & Hge & Hsg & Ht2 & Hm2); [done..|].
  cbv beta iota. rewrite run_bind.
  change (run (loc (Set_ V_generation ?g)) w2) with (Done tt, set_var V_generation g w2).
  cbv beta iota. rewrite set_generation_id, run_bind by done.
  change (run (loc (Get V_generation)) w2) with (Done (w_generation w2), w2). cbv beta iota.
  rewrite run_bind.
  assert (Hk : forall id', is_some (ExportsSpec.lookup (entry_directory id')
                 (t ++ [entry_directory id +:+ " " +:+ export_options nfsService])) =
               kernel_exports id' w1 || String.eqb (VolumeIDToServiceName id) (VolumeIDToServiceName id')).
  { intros id'. by rewrite lookup_added, entry_ne_prefix, (kernel_table w1 t). }
  destruct (run_resynced room (t ++ [entry_directory id +:+ " " +:+ export_options nfsService])
              (w_generation w2) w2) as (w3 & -> & Hw3 & Hp3 & Hm3 & Hk3); [done|done|lia|lia|lia| |].
  { intros id'. rewrite Hk, Hm2. intros [Hkk|Heq]%orb_true_iff; [by apply Hmt|].
    apply String.eqb_eq in Heq. rewrite Hm1. unfold staging_path in *. by rewrite <- Heq. }
  exists w3. split; [done|]. split; [done|]. split; [etrans; [exact Hp1|by etrans]|].
  split; [congruence|]. intros id'. by rewrite Hk3, Hk.
Qed.

Lemma run_export_locked_ok ctx req id m room w :
  directory_ok nfsService = true -> node_sound (S room) w ->
  exreq_VolumeId req = id -> exreq_ExportNfsContext req = Some m ->
  mget (Some m) "ServiceName" = VolumeIDToServiceName id ->
  exists context resp w', run (export_locked nfsService ctx req) w = (Done (context, (Some resp, None)), w') /\
    node_sound room w' /\ w_held w' = w_held w /\ exported_on id w w'.
Proof.
  intros Hdir Hw <- Hctx Hname. set (id := exreq_VolumeId req) in *. unfold export_locked. rewrite Hctx. fold id.
  assert (Hf : free exportsLock w) by by eapply node_sound_free. assert (Hw' := Hw). destruct Hw' as [ [t Ht] Hsy Hg Hmt].
  rewrite run_bind.
  destruct (run_plain (OsStat (staging_path id)) w _ eq_refl eq_refl eq_refl) as (y1 & -> & Hy1). rewrite run_bind.
  destruct (represents_scan _ _ Ht) as (lines & Hscan & Hfind & _).
  destruct (run_CheckExport_ok (entry_directory id) (set_env y1 w) lines) as [y2 E]; [by destruct w..|].
  pose proof (mounted_run _ (set_env y1 w) (CheckExport_calls (entry_directory id))) as Hy2.
  fold (entry_directory id). rewrite E in Hy2 |- *. autorewrite with goenv in *. cbn [snd] in Hy2.
  rewrite w_env_set_env in Hy2. cbv beta iota. rewrite Hfind, <- (kernel_table w t) by done.
  assert (Hse : same_exports w (set_env y2 w)) by (apply same_exports_env; congruence).
  assert (Hw2 : node_sound (S room) (set_env y2 w)) by (apply node_sound_env; congruence).
  destruct (kernel_exports id w) eqn:Hk.
  - assert (Hmo := Hmt id Hk). rewrite (h_stat (staging_path id)) by done. cbn [is_some negb andb].
    do 3 eexists. split; [done|]. split; [by apply node_sound_less|]. split; [by destruct w|].
    split.
    + intros i. rewrite (same_exports_kernel _ _ _ Hse). destruct (String.eqb_spec (VolumeIDToServiceName id) (VolumeIDToServiceName i)) as [E1|];
        [|by rewrite orb_false_r].
      revert Hk. unfold kernel_exports, entry_directory, staging_path. rewrite E1. by intros ->.
    + rewrite w_env_set_env, Hy2, Hy1. symmetry. by apply subseteq_union_1_L, singleton_subseteq_l.
  - rewrite andb_false_r. unfold select_call. rewrite run_bind.
    destruct (run_plain (SelectDone ctx) (set_env y2 w) None) as (y3 & -> & Hy3); [done|done|apply h_done|].
    cbv beta iota. autorewrite with goenv in *. rewrite run_bind.
    destruct (h_mount id (Some m) y3 Hname) as (y4 & Em & Hy4).
    rewrite (run_ext (VcsiMountVolume id "" NfsExportDirectory (Some m)) _ (staging_path id, None) y4 eq_refl)
      by by autorewrite with goenv.
    cbv beta iota. autorewrite with goenv. rewrite run_bind.
    assert (Hy : mounted y4 = {[staging_path id]} ∪ mounted (w_env w)) by congruence.
    destruct (run_export_mounted_ok id {| exresp_VolumeId := id; exresp_ExportNfsContext := None |} room
                (set_env y4 w)) as (w5 & -> & Hw5 & Hp5 & Hm5 & Hk5); [done|..].
    { apply node_sound_mounts; [|done]. rewrite Hy. apply union_subseteq_r. }
    { rewrite <- Hk. by destruct w. }
    { rewrite w_env_set_env, Hy. by apply elem_of_union_l, elem_of_singleton_2. }
    do 3 eexists. split; [done|]. split; [done|]. split; [destruct Hp5 as (_ & _ & -> & _); by destruct w|].
    rewrite w_env_set_env, Hy in Hm5.
    split; [|exact Hm5]. intros i. rewrite Hk5. by destruct w.
Qed.

(** Entering and leaving the critical section of a volume. *)
Lemma node_ok_section {A} fuel id (p : prog A) room w (Q : A -> world Y -> Prop) :
  node_ok room w -> all_ops (fun B (e : locE B) => touches_map nfsPVLock e = false) p ->
  (forall l a w', Q a w' -> Q a (set_lockmap nfsPVLock l w')) ->
  (let w1 := set_lockmap nfsPVLock (<[id:=id]> (w_nfsPVLock w)) w in
   exists a w', run p w1 = (Done a, w') /\ Q a w') ->
  exists a w', run (_ ← nfsLockPV (S fuel) id; deferred p (nfsUnlockPV id)) w = (Done a, w') /\ Q a w' /\
    w_nfsPVLock w' = ∅.
Proof.
  intros [_ Hl] Hp HQ (a & w' & E & Hw'). exists a, (set_lockmap nfsPVLock ∅ w').
  rewrite run_nfs_section by (by rewrite ?Hl || done). cbv zeta in E. rewrite E. cbn [fst snd]. rewrite Hl.
  split; [done|]. split; [by apply HQ|]. by destruct w'.
Qed.

Lemma run_unmount_ok n id name w :
  names_volume id name -> NfsExportDirectory +:+ "/" +:+ name ∈ mounted (w_env w) ->
  exists y, run (unmount_attempts (S n) id name) w = (Done None, set_env y w) /\
    mounted y = mounted (w_env w) ∖ {[NfsExportDirectory +:+ "/" +:+ name]}.
Proof.
  intros Hv Hm. unfold unmount_attempts. fold unmount_attempts. rewrite run_bind.
  destruct (h_unmount id name (w_env w) Hv Hm) as (y & E & Hy).
  rewrite (run_ext (VcsiUnmountVolume id NfsExportDirectory (Some {["ServiceName" := name]})) _ None y eq_refl E).
  by exists y.
Qed.

Lemma run_DeleteExport_table d room t w :
  node_sound (S room) w -> represents w t ->
  let g := w_generation w + 1 in
  exists w', run (DeleteExport d) w = (Done (g, None), w') /\
    same_process w w' /\ w_generation w' = g /\ w_syncedGeneration w' = w_syncedGeneration w /\
    represents w' (ExportsSpec.delete d t) /\ mounted (w_env w') = mounted (w_env w).
Proof.
  intros [ _ Hsy Hg _] Ht. cbv zeta. assert (Hf := proj1 Ht).
  destruct (represents_scan _ _ Ht) as (lines & Hscan & _ & Hkeep).
  pose proof (mounted_run (DeleteExport d) w (DeleteExport_calls d)) as Hma.
  destruct (run_DeleteExport_ok d w lines Hf Hscan) as [y E].
  rewrite Hkeep in E. cbv zeta in E.
  rewrite int64_id in E by lia. rewrite E in Hma |- *. cbn [snd] in Hma. eexists. split; [done|].
  do 3 (split; [by destruct w|]). split; [|done].
  apply (represents_delete w); [done|by destruct w..].
Qed.

(** The entries of a volume and the path that is deleted for another one. *)
Lemma entry_not_deleted id id' e :
  HasPrefix (VolumeIDToServiceName id') (VolumeIDToServiceName id) = false ->
  HasPrefix e (entry_directory id') = true -> HasPrefix e (staging_path id) = false.
Proof.
  intros Hne [r ->]%HasPrefix_true. unfold entry_directory, staging_path.
  rewrite !string_app_assoc, !HasPrefix_app_l. apply not_true_is_false. intros Hp.
  apply entry_of_prefix in Hp; [congruence|apply service_name_no_slash].
Qed.

Lemma export_path_staging id req :
  directory_ok nfsService = true -> IsNFSVolumeID id = true ->
  mget (unreq_UnexportNfsContext req) "ServiceName" = VolumeIDToServiceName id ->
  export_path req = staging_path id.
Proof.
  unfold directory_ok, export_path. rewrite !andb_true_iff. intros [ [ [ [ _ Hdd%negb_true_iff] _] _] _] Hnfs ->.
  rewrite (proj2 (String.eqb_neq _ _)) by by apply service_name_nonempty.
  apply ReplaceAll_id, not_double_app; [done|apply service_name_no_slash].
Qed.

Lemma run_drop id room w :
  node_sound (S room) w ->
  exists w2 w3, run (DeleteExport (staging_path id)) w = (Done (w_generation w + 1, None), w2) /\
    w_generation w2 = w_generation w + 1 /\
    run (ResyncNFSMountd (w_generation w + 1)) w2 = (Done None, w3) /\
    node_sound room w3 /\ same_process w w3 /\ mounted (w_env w3) = mounted (w_env w) /\
    forall i, kernel_exports i w3 = kernel_exports i w && negb (drops id i).
Proof.
  intros Hw. assert (Hw' := Hw). destruct Hw' as [ [t Ht] Hsy Hg Hmt].
  destruct (run_DeleteExport_table (staging_path id) room t w Hw Ht) as (w2 & Hr2 & Hp2 & Hge & Hsg & Ht2 & Hm2).
  destruct (run_resynced room (ExportsSpec.delete (staging_path id) t) (w_generation w + 1) w2)
    as (w3 & Hr3 & Hw3 & Hp3 & Hm3 & Hk3); [done|done|lia|lia|lia| |].
  { intros i Hs%lookup_deleted_some. rewrite Hm2. apply Hmt. by rewrite (kernel_table w t). }
  exists w2, w3. do 4 (split; [done|]). split; [by etrans|]. split; [congruence|].
  intros i. rewrite Hk3, (kernel_table w t) by done. unfold drops.
  destruct (HasPrefix (VolumeIDToServiceName i) (VolumeIDToServiceName id)) eqn:E.
  - rewrite andb_false_r, lookup_deleted_prefix; [done|].
    unfold entry_directory, staging_path. rewrite !string_app_assoc, HasPrefix_app_l.
    apply HasPrefix_true in E as [r ->]. rewrite string_app_assoc.
    rewrite (HasPrefix_app_l "/"). apply HasPrefix_app.
  - rewrite andb_true_r, lookup_deleted; [done|]. intros e. by apply entry_not_deleted.
Qed.

(** Unmounting a volume that is not exported. *)
Lemma run_unmount_sound n driverVolumeID id room w :
  node_sound room w -> names_volume driverVolumeID (VolumeIDToServiceName id) -> staging_path id ∈ mounted (w_env w) ->
  (forall i, VolumeIDToServiceName i = VolumeIDToServiceName id -> kernel_exports i w = false) ->
  exists y, run (unmount_attempts (S n) driverVolumeID (VolumeIDToServiceName id)) w = (Done None, set_env y w) /\
    node_sound room (set_env y w) /\ mounted y = mounted (w_env w) ∖ {[staging_path id]}.
Proof.
  intros [ [t Ht] Hsy Hg Hmt] Hvol Hmo Hgone.
  destruct (run_unmount_ok n driverVolumeID (VolumeIDToServiceName id) w Hvol Hmo) as (y & -> & Hy).
  fold (staging_path id) in Hy. exists y. split; [done|]. split; [|done]. split.
  - exists t. apply (represents_frame w); [done|by destruct w, Ht|by destruct w].
  - by destruct w.
  - by destruct w.
  - intros i Hk. assert (Hki : kernel_exports i w = true) by by destruct w.
    rewrite w_env_set_env, Hy, elem_of_difference, elem_of_singleton.
    split; [by apply Hmt|]. intros Hi%staging_path_inj. by rewrite Hgone in Hki.
Qed.

Lemma run_unexport_locked_ok req id room w :
  directory_ok nfsService = true -> node_sound (S room) w -> IsNFSVolumeID id = true ->
  mget (unreq_UnexportNfsContext req) "ServiceName" = VolumeIDToServiceName id ->
  ToArrayVolumeID (unreq_VolumeId req) = ToArrayVolumeID id -> node_exports id w = true ->
  exists resp w', run (unexport_locked req) w = (Done (Some resp, None), w') /\
    node_sound room w' /\ unexported_on id w w'.
Proof.
  intros Hdir Hw Hnfs Hname Hid [_ Hmo%bool_decide_eq_true]%andb_true_iff.
  unfold unexport_locked. rewrite (export_path_staging id) by done.
  destruct (run_drop id room w Hw) as (w2 & w3 & Hr2 & _ & Hr3 & Hw3 & _ & Hm3 & Hk3).
  rewrite run_bind, Hr2. cbv beta iota. rewrite run_bind, Hr3. cbv beta iota. cbn [unexport_rounds].
  rewrite run_bind.
  destruct (run_plain (Sleep (1 * second)) w3 tt) as (y4 & -> & Hy4); [done|done|by destruct (env_step _ _).1|].
  cbv beta iota. unfold UnmountVolume, maxUnmountAttempts. rewrite run_bind, Hname.
  assert (Hkw : forall y i, kernel_exports i (set_env y w3) = kernel_exports i w3) by by destruct w3.
  destruct (run_unmount_sound 9 (unreq_VolumeId req) id room (set_env y4 w3)) as (y5 & -> & Hw5 & Hy5).
  { by apply node_sound_env. }
  { by apply names_same_volume. }
  { by rewrite w_env_set_env, Hy4, Hm3. }
  { intros i Hi. by rewrite Hkw, Hk3, drops_same, andb_false_r. }
  rewrite w_env_set_env, Hy4, Hm3 in Hy5. autorewrite with goenv in *.
  do 2 eexists. split; [done|]. split; [done|]. split; [|by rewrite w_env_set_env].
  intros i. by rewrite Hkw, Hk3.
Qed.

Lemma run_ExportNfsVolume_ok fuel ctx req room w :
  directory_ok nfsService = true -> node_ok (S room) w ->
  mget (exreq_ExportNfsContext req) "ServiceName" = VolumeIDToServiceName (exreq_VolumeId req) ->
  IsNFSVolumeID (exreq_VolumeId req) = true ->
  exists context resp w',
    run (ExportNfsVolume nfsService (S fuel) ctx req) w = (Done (context, (Some resp, None)), w') /\
    node_ok room w' /\ exported_on (exreq_VolumeId req) w w'.
Proof.
  intros Hdir Hw Hname Hnfs. destruct (exreq_ExportNfsContext req) as [m|] eqn:Hm.
  2: { symmetry in Hname. by apply service_name_nonempty in Hname. }
  destruct (node_ok_section fuel (exreq_VolumeId req) (export_locked nfsService ctx req) (S room) w
    (fun r w' => (exists c resp, r = (c, (Some resp, None))) /\ node_sound room w' /\
       exported_on (exreq_VolumeId req) w w'))
    as (r & w' & E & ((c & resp & ->) & Hs & He) & Hl); [done|by auto with goprog| | |].
  - intros l r w' (Hr & Hs & He). split; [done|]. split; [by apply node_sound_lockmap|].
    by eapply same_exports_exported; [|apply same_exports_lockmap|].
  - cbv zeta. set (w1 := set_lockmap _ _ w).
    destruct (run_export_locked_ok ctx req (exreq_VolumeId req) m room w1)
      as (c & resp & w' & E & Hs & _ & He); [done|by apply node_sound_lockmap, Hw|done..|].
    exists (c, (Some resp, None)), w'. split; [done|]. split; [eauto|]. split; [done|].
    by eapply same_exports_exported; [apply same_exports_lockmap| |].
  - exists c, resp, w'. done.
Qed.

Lemma run_UnexportNfsVolume_ok fuel req id room w :
  directory_ok nfsService = true -> node_ok (S room) w ->
  mget (unreq_UnexportNfsContext req) "ServiceName" = VolumeIDToServiceName id ->
  IsNFSVolumeID id = true -> ToArrayVolumeID (unreq_VolumeId req) = ToArrayVolumeID id ->
  node_exports id w = true ->
  exists resp w',
    run (UnexportNfsVolume (S fuel) req) w = (Done (Some resp, None), w') /\
    node_ok room w' /\ unexported_on id w w'.
Proof.
  intros Hdir Hw Hname Hnfs Hid Hexp.
  destruct (node_ok_section fuel (unreq_VolumeId req) (unexport_locked req) (S room) w
    (fun r w' => (exists resp, r = (Some resp, None)) /\ node_sound room w' /\ unexported_on id w w'))
    as (r & w' & E & ((resp & ->) & Hs & He) & Hl); [done|by auto with goprog| | |].
  - intros l r w' (Hr & Hs & He). split; [done|]. split; [by apply node_sound_lockmap|].
    by eapply same_exports_unexported; [|apply same_exports_lockmap|].
  - cbv zeta. set (w1 := set_lockmap _ _ w).
    assert (Hse : same_exports w w1) by apply same_exports_lockmap.
    destruct (run_unexport_locked_ok req id room w1)
      as (resp & w' & E & Hs & He); [done|by apply node_sound_lockmap, Hw|done..| |].
    { by rewrite (same_exports_node _ _ _ Hse). }
    exists (Some resp, None), w'. split; [done|]. split; [eauto|]. split; [done|].
    by eapply same_exports_unexported; [exact Hse| |].
  - exists resp, w'. done.
Qed.

(** C13: on a node that works, [ExportNfsVolume] succeeds and makes the node
    export the volume: it is mounted below the export directory and the kernel
    exports its mount point.  The other volumes are exported as before, and
    the node keeps working. *)
Theorem ExportNfsVolume_on_host (fuel : nat) (ctx : context) (req : ExportNfsVolumeRequest) (room : nat) w
    (Hdir : directory_ok nfsService = true) (Hw : node_ok (S room) w)
    (Hname : mget (exreq_ExportNfsContext req) "ServiceName" = VolumeIDToServiceName (exreq_VolumeId req))
    (Hnfs : IsNFSVolumeID (exreq_VolumeId req) = true) :
  exists context resp w',
    run (ExportNfsVolume nfsService (S fuel) ctx req) w = (Done (context, (Some resp, None)), w') /\
    node_ok room w' /\ node_exports (exreq_VolumeId req) w' = true /\
    forall id', VolumeIDToServiceName id' <> VolumeIDToServiceName (exreq_VolumeId req) ->
      node_exports id' w' = node_exports id' w.
Proof.
  destruct (run_ExportNfsVolume_ok fuel ctx req room w) as (c & resp & w' & E & Hok & He); [done..|].
  exists c, resp, w'. do 2 (split; [done|]). split; [by eapply exported_serving|].
  intros id' Hne. by eapply node_exports_hold, exported_others.
Qed.

(** C14: on a node that works, [UnexportNfsVolume] of a volume that the node
    exports succeeds: the kernel does not export it any more and it is not
    mounted any more.  No other mount is touched; the kernel stops to export
    exactly those of the other volumes whose service names extend its own
    ([DeleteExport] drops them), and the node keeps working. *)
Theorem UnexportNfsVolume_on_host (fuel : nat) (req : UnexportNfsVolumeRequest) (id : string) (room : nat) w
    (Hdir : directory_ok nfsService = true) (Hw : node_ok (S room) w)
    (Hname : mget (unreq_UnexportNfsContext req) "ServiceName" = VolumeIDToServiceName id)
    (Hnfs : IsNFSVolumeID id = true) (Hid : ToArrayVolumeID (unreq_VolumeId req) = ToArrayVolumeID id)
    (Hexp : node_exports id w = true) :
  exists resp w',
    run (UnexportNfsVolume (S fuel) req) w = (Done (Some resp, None), w') /\ node_ok room w' /\
    kernel_exports id w' = false /\ ~ staging_path id ∈ mounted (w_env w') /\
    mounted (w_env w') = mounted (w_env w) ∖ {[staging_path id]} /\
    forall id', kernel_exports id' w' =
      kernel_exports id' w && negb (HasPrefix (VolumeIDToServiceName id') (VolumeIDToServiceName id)).
Proof.
  destruct (run_UnexportNfsVolume_ok fuel req id room w) as (resp & w' & E & Hok & He); [done..|].
  exists resp, w'. do 2 (split; [done|]).
  destruct (proj1 (node_hold_none id w') (unexported_none id w w' He)) as [Hn1 Hn2].
  split; [exact Hn1|]. split; [exact Hn2|]. split; [exact (proj2 He)|exact (proj1 He)].
Qed.
End Healthy.

(** ** A node whose state is what the driver has mounted *)

Definition host_step : Env (gset string) := fun B e =>
  match e in extE B return gset string -> B * gset string with
  | OsStat path => fun y =>
      (if decide (path ∈ y) then None else Some (Errorf "no such file or directory"), y)
  | VcsiMountVolume _ _ dir ctx => fun y =>
      let path := dir +:+ "/" +:+ mget ctx "ServiceName" in ((path, None), {[path]} ∪ y)
  | VcsiUnmountVolume _ dir ctx => fun y =>
      let path := dir +:+ "/" +:+ mget ctx "ServiceName" in
      if decide (path ∈ y) then (None, y ∖ {[path]}) else (Some (Errorf "not mounted"), y)
  | e => fun y => (calm_answer e, y)
  end.

Section Example.
#[local] Existing Instance ascii_tables.
#[local] Existing Instance demo_globals.
#[local] Existing Instance host_step.

#[export] Instance host_reliable : ReliableFiles (gset string).
Proof. by constructor. Qed.

#[export] Program Instance host_works : Host (gset string) := { mounted := fun y => y }.
Next Obligation. intros path y Hp. cbn. by rewrite decide_True. Qed.
Next Obligation. done. Qed.
Next Obligation. done. Qed.
Next Obligation. done. Qed.
Next Obligation. done. Qed.
Next Obligation.
  intros id ctx y Hn. eexists. cbn. rewrite Hn. split; [reflexivity|done].
Qed.
Next Obligation. intros id name y _ Hp. eexists. cbn. rewrite decide_True by done. split; [reflexivity|done]. Qed.
Next Obligation. intros B e y He. destruct e; try discriminate He; done. Qed.

Definition fresh_node : world (gset string) := initial_world "" ∅.

Lemma fresh_node_ok : node_ok 1000 fresh_node.
Proof.
  split; [|done]. split; [|done|vm_compute; done|].
  - exists []. split; [done|]. by exists [].
  - intros id Hk. discriminate Hk.
Qed.

Lemma demo_directory_ok : directory_ok demo_service = true.
Proof. vm_compute. reflexivity. Qed.

Definition export_v1 : ExportNfsVolumeRequest :=
  {| exreq_VolumeId := "nfs-v1"; exreq_ExportNfsContext := Some {["ServiceName" := "nfs-v1"]} |}.
Definition unexport_v1 : UnexportNfsVolumeRequest :=
  {| unreq_VolumeId := "nfs-v1"; unreq_UnexportNfsContext := Some {["ServiceName" := "nfs-v1"]} |}.

Lemma ExportNfsVolume_on_host_witness :
  exists context resp w', run (ExportNfsVolume demo_service 1 Background export_v1) fresh_node =
    (Done (context, (Some resp, None)), w') /\ node_exports "nfs-v1" w' = true.
Proof.
  destruct (ExportNfsVolume_on_host demo_service 0 Background export_v1 999 fresh_node)
    as (c & resp & w' & Hr & _ & He & _).
  - exact demo_directory_ok.
  - exact fresh_node_ok.
  - vm_compute. reflexivity.
  - reflexivity.
  - exists c, resp, w'. split; [exact Hr|exact He].
Defined.

Lemma UnexportNfsVolume_on_host_witness :
  exists w resp w', node_exports "nfs-v1" w = true /\
    run (UnexportNfsVolume 1 unexport_v1) w = (Done (Some resp, None), w') /\
    kernel_exports "nfs-v1" w' = false /\ staging_path "nfs-v1" ∉ mounted (w_env w').
Proof.
  destruct (run_ExportNfsVolume_ok demo_service 0 Background export_v1 999 fresh_node)
    as (c & resp & w & Hr & Hok & He%exported_serving).
  - exact demo_directory_ok.
  - exact fresh_node_ok.
  - vm_compute. reflexivity.
  - reflexivity.
  - destruct (UnexportNfsVolume_on_host demo_service 0 unexport_v1 "nfs-v1" 998 w)
      as (resp' & w' & Hr' & _ & Hk & Hm & _).
    + exact demo_directory_ok.
    + exact Hok.
    + vm_compute. reflexivity.
    + reflexivity.
    + reflexivity.
    + exact He.
    + exists w, resp', w'. split; [exact He|]. split; [exact Hr'|]. split; [exact Hk|exact Hm].
Defined.
End Example.
