(* ===== verification/NodeMonitor.v ===== *)
(** * Monitoring of the nodes ([src/nfs/nodemonitor.go])

    The controller pings every worker node from a goroutine of its own, which
    keeps the node's [NodeStatus] and starts the recovery of a node that
    missed [maxBadPing] pings in a row.  What recovery does is an interface
    here ([Recovery]); [NodeRecovery.v] implements it. *)

From S2P Require Import Prelude GoStrings Messages GoProg Exports Config NfsServer.

Definition GetExportsTimeout : Z := 5 * second.
Definition maxBadPing : Z := 2.

Class Recovery := { nodeRecovery : string -> prog unit }.

Definition setPingRate (rate : Z) : prog unit :=
  with_lock monitorMux (loc (Set_ V_pingRate rate)).
Definition getPingRate : prog Z :=
  with_lock monitorMux (loc (Get V_pingRate)).

Definition isControlPlaneNode (node : Node) : bool :=
  match node_Labels node with
  | Some labels =>
      bool_decide (labels !! "node-role.kubernetes.io/control-plane" <> None)
  | None => false
  end.

(** [GetNodeStatus]: the pointer held by the map, nil when there is none. *)
Definition GetNodeStatus (address : string) : prog (option nat) :=
  m ← loc (Get V_nodeIPAddress); mret (m !! address).

Section Monitor.
Context `{Recovery} (s : CsiNfsService).

Definition ping (pingRequest : PingRequest) : prog (result PingResponse) :=
  client ← getNfsClient (ping_NodeIpAddress pingRequest) (cs_nfsClientServicePort s);
  match client with
  | inr e => mret (inr e)
  | inl address => ext (RpcPing address pingRequest)
  end.

Definition getExports (nodeIP : string) : prog (pair_err (list string)) :=
  client ← getNfsClient nodeIP (cs_nfsClientServicePort s);
  match client with
  | inr e => mret ([], Some e)
  | inl address =>
      r ← ext (RpcGetExports address);
      mret (match r with
            | inr e => ([], Some e)
            | inl resp => (exports_Exports resp, None)
            end)
  end.

(** An assignment to a field of the structure [p] points to. *)
Definition update_status (p : nat) (f : NodeStatus -> NodeStatus) : prog unit :=
  st ← loc (Get (V_status p)); loc (Set_ (V_status p) (f st)).
Definition read_status {A} (p : nat) (f : NodeStatus -> A) : prog A :=
  st ← loc (Get (V_status p)); mret (f st).

Definition with_online (b : bool) (st : NodeStatus) : NodeStatus :=
  {| ns_nodeName := ns_nodeName st; ns_nodeIP := ns_nodeIP st; ns_badPings := ns_badPings st;
     ns_goodPings := ns_goodPings st; ns_inRecovery := ns_inRecovery st; ns_online := b;
     ns_status := ns_status st; ns_dumpingExports := ns_dumpingExports st |}.
Definition with_badPings (n : Z) (st : NodeStatus) : NodeStatus :=
  {| ns_nodeName := ns_nodeName st; ns_nodeIP := ns_nodeIP st; ns_badPings := n;
     ns_goodPings := ns_goodPings st; ns_inRecovery := ns_inRecovery st; ns_online := ns_online st;
     ns_status := ns_status st; ns_dumpingExports := ns_dumpingExports st |}.
Definition with_goodPings (n : Z) (st : NodeStatus) : NodeStatus :=
  {| ns_nodeName := ns_nodeName st; ns_nodeIP := ns_nodeIP st; ns_badPings := ns_badPings st;
     ns_goodPings := n; ns_inRecovery := ns_inRecovery st; ns_online := ns_online st;
     ns_status := ns_status st; ns_dumpingExports := ns_dumpingExports st |}.
Definition with_inRecovery (b : bool) (st : NodeStatus) : NodeStatus :=
  {| ns_nodeName := ns_nodeName st; ns_nodeIP := ns_nodeIP st; ns_badPings := ns_badPings st;
     ns_goodPings := ns_goodPings st; ns_inRecovery := b; ns_online := ns_online st;
     ns_status := ns_status st; ns_dumpingExports := ns_dumpingExports st |}.
Definition with_dumpingExports (b : bool) (st : NodeStatus) : NodeStatus :=
  {| ns_nodeName := ns_nodeName st; ns_nodeIP := ns_nodeIP st; ns_badPings := ns_badPings st;
     ns_goodPings := ns_goodPings st; ns_inRecovery := ns_inRecovery st; ns_online := ns_online st;
     ns_status := ns_status st; ns_dumpingExports := b |}.
Definition with_status (m : string) (st : NodeStatus) : NodeStatus :=
  {| ns_nodeName := ns_nodeName st; ns_nodeIP := ns_nodeIP st; ns_badPings := ns_badPings st;
     ns_goodPings := ns_goodPings st; ns_inRecovery := ns_inRecovery st; ns_online := ns_online st;
     ns_status := m; ns_dumpingExports := ns_dumpingExports st |}.

(** Errors that say that this node, not the pinged one, may be cut off. *)
Definition local_trouble (e : go_error) : bool :=
  Contains (err_text e) "network is unreachable"
  || Contains (err_text e) "error while waiting for new LB policy update"
  || Contains (err_text e) "deadline exceeded while waiting for connections to become ready".

Definition ping_failed (p : nat) (e : go_error) : prog unit :=
  if negb (local_trouble e) then
    _ ← update_status p (with_online false);
    _ ← update_status p (fun st => with_badPings (int64 (ns_badPings st + 1)) st);
    _ ← update_status p (with_goodPings 0);
    st ← loc (Get (V_status p));
    if negb (ns_inRecovery st) && (maxBadPing <=? ns_badPings st) then
      _ ← update_status p (with_inRecovery true);
      _ ← update_status p (with_dumpingExports true);
      ip ← read_status p ns_nodeIP;
      go (nodeRecovery ip)
    else mret tt
  else mret tt.

Definition ping_succeeded (p : nat) (resp : PingResponse) : prog unit :=
  _ ← update_status p (with_status (pong_Status resp));
  _ ← update_status p (with_online true);
  _ ← update_status p (with_badPings 0);
  _ ← update_status p (fun st => with_goodPings (int64 (ns_goodPings st + 1)) st);
  good ← read_status p ns_goodPings;
  _ ← (if 2 <=? good then update_status p (with_dumpingExports false) else mret tt);
  update_status p (with_inRecovery false).

(** One turn of the endless loop.  A response that is not ready comes without
    an error, whose text the log statement asks for. *)
Definition pinger_round (p : nat) : prog unit :=
  ip ← read_status p ns_nodeIP;
  dump ← read_status p ns_dumpingExports;
  r ← ping {| ping_NodeIpAddress := ip; ping_DumpAllExports := dump |};
  _ ← match r with
      | inr e => ping_failed p e
      | inl resp =>
          if pong_Ready resp then ping_succeeded p resp
          else Panic "invalid memory address or nil pointer dereference"
      end;
  rate ← getPingRate;
  ext (Sleep rate).

(** [fuel] turns of the loop, after which the goroutine is still running. *)
Fixpoint pinger_loop (fuel : nat) (p : nat) : prog unit :=
  match fuel with
  | O => NoFuel Rounds
  | S fuel => _ ← pinger_round p; pinger_loop fuel p
  end.

Definition new_status (node : Node) (ip : string) : NodeStatus :=
  {| ns_nodeName := node_Name node; ns_nodeIP := ip; ns_badPings := 0; ns_goodPings := 0;
     ns_inRecovery := false; ns_online := false; ns_status := ""; ns_dumpingExports := false |}.

Definition pinger (fuel : nat) (node : Node) : prog unit :=
  match node_Addresses node with
  | [] => mret tt
  | ip :: _ =>
      p ← loc (NewStatus (new_status node ip));
      _ ← loc (PutNode ip p);
      pinger_loop fuel p
  end.

Definition startNodeMonitor (fuel : nat) (node : Node) : prog unit :=
  if isControlPlaneNode node then mret tt else go (pinger fuel node).

(** The goroutine of [getNodeExportCounts] for one node: what it sends before
    it closes its channel. *)
Definition count_node (p : nat) : prog (option (string * Z)) :=
  ip ← read_status p ns_nodeIP;
  '(exports, err) ← getExports ip;
  inRecovery ← read_status p ns_inRecovery;
  if negb (is_some err) && negb inRecovery then
    name ← read_status p ns_nodeName;
    mret (Some (name, Z.of_nat (List.length exports)))
  else mret None.

(** What is read from the channels, in the order in which they were made. *)
Definition add_count (exportsMap : gmap string Z) (c : option (string * Z)) : gmap string Z :=
  match c with Some (nodeName, quantity) => <[nodeName := quantity]> exportsMap | None => exportsMap end.
Definition add_counts (l : list (option (string * Z))) : gmap string Z := List.fold_left add_count l ∅.

(** The goroutines of all nodes run at the same time. *)
Definition getNodeExportCounts : prog (gmap string Z) :=
  m ← loc (Get V_nodeIPAddress);
  choices ← ext RangeChoices;
  counts ← parallel (count_node <$> permute choices (snd <$> map_to_list m));
  mret (add_counts counts).

(** Counting reads the state of the process and nothing else. *)
Definition is_get {B} (e : locE B) : bool := match e with Get _ => true | _ => false end.

Lemma getNodeExportCounts_reads : all_ops (fun B (e : locE B) => is_get e = true) getNodeExportCounts.
Proof.
  unfold getNodeExportCounts. apply all_ops_bind; [by split|]. intros m.
  apply all_ops_bind; [done|]. intros choices. apply all_ops_bind; [|done]. apply all_ops_parallel.
  apply Forall_fmap, Forall_true. intros p. unfold compose, count_node, getExports, getNfsClient, read_status.
  walk_ops reflexivity.
Qed.
End Monitor.

Lemma add_counts_gen l m k :
  let r := List.fold_left add_count l m in
  (forall q, r !! k = Some q -> m !! k = Some q \/ Some (k, q) ∈ l) /\
  (is_Some (m !! k) \/ (exists q : Z, Some (k, q) ∈ l) -> is_Some (r !! k)).
Proof.
  revert m. induction l as [|c l IH]; intros m r.
  { split; [by left|]. intros [?|[q Hq] ]; [done|]. by apply not_elem_of_nil in Hq. }
  destruct c as [ [n q] |].
  - destruct (IH (<[n := q]> m)) as [IH1 IH2]. split.
    + intros q' [Hq|Hq]%IH1; [|by right; right].
      apply lookup_insert_Some in Hq as [ [<- <-]|[_ Hq] ]; [right; by left|by left].
    + intros Hk. apply IH2. destruct (decide (n = k)) as [->|Hne]; [left; rewrite lookup_insert_eq; eauto|].
      rewrite lookup_insert_ne by done. destruct Hk as [?|[q' Hq'] ]; [by left|].
      apply elem_of_cons in Hq' as [ [= <- <-]|Hq']; [done|right; eauto].
  - destruct (IH m) as [IH1 IH2]. split.
    + intros q' [Hq|Hq]%IH1; [by left|by right; right].
    + intros Hk. apply IH2. destruct Hk as [?|[q' Hq'] ]; [by left|].
      apply elem_of_cons in Hq' as [ [=]|Hq']. right; eauto.
Qed.

(** The map holds what was sent, and something for every name that was. *)
Lemma add_counts_spec l k :
  (forall q, add_counts l !! k = Some q -> Some (k, q) ∈ l) /\
  (forall q, Some (k, q) ∈ l -> is_Some (add_counts l !! k)).
Proof.
  destruct (add_counts_gen l ∅ k) as [H1 H2]. split.
  - intros q [Hq|Hq]%H1; [by rewrite lookup_empty in Hq|done].
  - intros q Hq. apply H2. right. by exists q.
Qed.

(** ** The abstract state machine of a monitored node *)

Module Monitored.
(** What a ping showed: the node answered, the node did not answer, or this
    node may be cut off. *)
Inductive observation := Up (status : string) | Down | Unknown.

(** The observations that count, latest first. *)
Definition counted (h : list observation) : list bool :=
  List.fold_left (fun l o => match o with Up _ => true :: l | Down => false :: l | Unknown => l end) h [].

(** How often the latest counted observation was made in a row. *)
Fixpoint streak (b : bool) (l : list bool) : Z :=
  match l with
  | x :: l => if Bool.eqb x b then 1 + streak b l else 0
  | [] => 0
  end.

Definition up_streak (h : list observation) : Z := streak true (counted h).
Definition down_streak (h : list observation) : Z := streak false (counted h).

(** An outage began and two successful pings in a row have not been seen since. *)
Fixpoint outage (l : list bool) : bool :=
  match l with
  | x :: ((y :: _) as l') => if Bool.eqb x y then negb x else outage l'
  | _ => false
  end.

(** The observation that [o] completes an outage of [maxBadPing] pings. *)
Definition starts_recovery (h : list observation) (o : observation) : bool :=
  match o with Down => down_streak h =? maxBadPing - 1 | _ => false end.

Fixpoint recoveries (h : list observation) (os : list observation) : nat :=
  match os with
  | [] => O
  | o :: os => (if starts_recovery h o then 1 else 0) + recoveries (h ++ [o]) os
  end%nat.
End Monitored.
Import Monitored.

(** The status of a node with the history [h]. *)
Definition status_of (name ip : string) (h : list observation) (st : NodeStatus) : Prop :=
  ns_nodeName st = name /\ ns_nodeIP st = ip /\
  ns_badPings st = down_streak h /\ ns_goodPings st = up_streak h /\
  ns_online st = (0 <? up_streak h) /\
  ns_inRecovery st = (maxBadPing <=? down_streak h) /\
  ns_dumpingExports st = outage (counted h).

(** The update that one observation makes, and whether recovery is started. *)
Definition next_status (o : observation) (st : NodeStatus) : NodeStatus * bool :=
  match o with
  | Unknown => (st, false)
  | Up m =>
      let good := int64 (ns_goodPings st + 1) in
      ({| ns_nodeName := ns_nodeName st; ns_nodeIP := ns_nodeIP st; ns_badPings := 0;
          ns_goodPings := good; ns_inRecovery := false; ns_online := true; ns_status := m;
          ns_dumpingExports := if 2 <=? good then false else ns_dumpingExports st |}, false)
  | Down =>
      let bad := int64 (ns_badPings st + 1) in
      let recover := negb (ns_inRecovery st) && (maxBadPing <=? bad) in
      ({| ns_nodeName := ns_nodeName st; ns_nodeIP := ns_nodeIP st; ns_badPings := bad;
          ns_goodPings := 0; ns_inRecovery := ns_inRecovery st || recover; ns_online := false;
          ns_status := ns_status st; ns_dumpingExports := ns_dumpingExports st || recover |}, recover)
  end.

Lemma counted_app h o :
  counted (h ++ [o]) = match o with Up _ => true :: counted h | Down => false :: counted h
                       | Unknown => counted h end.
Proof. unfold counted. by rewrite fold_left_app. Qed.

Lemma streak_bounds b l : 0 <= streak b l <= Z.of_nat (List.length l).
Proof. induction l as [|x l IH]; cbn; [lia|]. destruct (Bool.eqb x b); lia. Qed.

Lemma counted_length h : (List.length (counted h) <= List.length h)%nat.
Proof.
  induction h as [|o h IH] using rev_ind; [done|]. rewrite counted_app, length_app.
  destruct o; cbn; lia.
Qed.

Lemma streaks_exclusive l : streak true l = 0 \/ streak false l = 0.
Proof. destruct l as [|[] l]; cbn; auto. Qed.

Lemma next_status_correct name ip h o st :
  Z.of_nat (List.length h) < max_int64 ->
  status_of name ip h st ->
  status_of name ip (h ++ [o]) (next_status o st).1 /\
  (next_status o st).2 = starts_recovery h o.
Proof.
  intros Hlen (Hname & Hip & Hbad & Hgood & Hon & Hrec & Hdump).
  pose proof (counted_length h) as Hc.
  pose proof (streak_bounds true (counted h)) as Ht. pose proof (streak_bounds false (counted h)) as Hf.
  unfold status_of, starts_recovery, up_streak, down_streak in *. rewrite counted_app.
  unfold maxBadPing in *.
  destruct o; cbn [next_status fst snd ns_nodeName ns_nodeIP ns_badPings ns_goodPings ns_online
                   ns_inRecovery ns_dumpingExports]; [| |done].
  - rewrite Hgood, Hdump, int64_id by (unfold min_int64, max_int64 in *; lia).
    split; [|done]. do 2 (split; [done|]). clear - Ht Hf.
    destruct (counted h) as [|[] [|[] l]]; try pose proof (streak_bounds true l); cbn in *;
      repeat split; lia_bool.
  - rewrite Hbad, Hrec, Hdump, int64_id by (unfold min_int64, max_int64 in *; lia).
    split; [do 2 (split; [done|])|]; clear - Ht Hf; destruct (counted h) as [|[] [|[] l]];
      try pose proof (streak_bounds false l); cbn in *; repeat split; lia_bool.
Qed.

(** ** The pinger implements the state machine *)

Section StatusCells.
Context {X : Type} `{Env X}.
Implicit Types w : world X.

Definition has_status (p : nat) (st : NodeStatus) w : Prop := w_statuses w !! p = Some st.
Definition set_status (p : nat) (st : NodeStatus) w : world X :=
  set_statuses (<[p:=st]> (w_statuses w)) w.

Lemma has_set_status p st st' w : has_status p st w -> has_status p st' (set_status p st' w).
Proof.
  unfold has_status, set_status. intros Hp%lookup_lt_Some. destruct w. cbn in *.
  by apply list_lookup_insert_eq.
Qed.

Lemma set_set_status p st st' w : set_status p st (set_status p st' w) = set_status p st w.
Proof. unfold set_status. destruct w. cbn. by rewrite list_insert_insert_eq. Qed.

Lemma set_status_id p st w : has_status p st w -> set_status p st w = w.
Proof. unfold has_status, set_status. intros Hp. destruct w. cbn in *. by rewrite list_insert_id. Qed.

Lemma run_read_status {A} p (f : NodeStatus -> A) st w :
  has_status p st w -> run (read_status p f) w = (Done (f st), w).
Proof.
  unfold has_status. intros Hp. unfold read_status. destruct w. cbn in *.
  by rewrite (nth_lookup_Some _ _ _ _ Hp).
Qed.

Lemma run_get_status p st w :
  has_status p st w -> run (loc (Get (V_status p))) w = (Done st, w).
Proof.
  unfold has_status. intros Hp. destruct w. cbn in *.
  by rewrite (nth_lookup_Some _ _ _ _ Hp).
Qed.

Lemma run_update_status p f st w :
  has_status p st w -> run (update_status p f) w = (Done tt, set_status p (f st) w).
Proof.
  unfold has_status. intros Hp. unfold update_status, set_status. destruct w. cbn in *.
  by rewrite (nth_lookup_Some _ _ _ _ Hp).
Qed.
End StatusCells.
#[global] Arguments update_status : simpl never.
#[global] Arguments read_status : simpl never.

#[export] Hint Resolve has_set_status : goprog.

(** One operation on the status cell. *)
Ltac status_step :=
  rewrite ?run_bind;
  first [erewrite run_update_status by eauto 9 with goprog
        | erewrite run_read_status by eauto 9 with goprog
        | erewrite run_get_status by eauto 9 with goprog];
  rewrite ?set_set_status; cbv beta iota.

Section Pinger.
Context `{Recovery} (s : CsiNfsService) {X : Type} `{Env X}.
Implicit Types w : world X.

Lemma run_ping_succeeded p resp st w :
  has_status p st w ->
  run (ping_succeeded p resp) w =
  (Done tt, set_status p (next_status (Up (pong_Status resp)) st).1 w).
Proof.
  intros Hs. unfold ping_succeeded. do 5 status_step. cbn [next_status fst].
  cbn [with_goodPings with_badPings with_online with_status ns_goodPings].
  destruct (2 <=? int64 (ns_goodPings st + 1)) eqn:E; repeat status_step; [done|].
  change (mret () ≫= ?f) with (f tt). cbv beta. by status_step.
Qed.

Lemma run_ping_failed p e st w :
  has_status p st w ->
  let o := if local_trouble e then Unknown else Down in
  run (ping_failed p e) w =
  (Done tt, set_status p (next_status o st).1
              (set_spawned (w_spawned w ++ if (next_status o st).2 then [nodeRecovery (ns_nodeIP st)]
                                           else []) w)).
Proof.
  intros Hs. cbv zeta. unfold ping_failed. destruct (local_trouble e); cbn [negb next_status fst snd].
  { rewrite app_nil_r. replace (set_spawned (w_spawned w) w) with w by by destruct w.
    by rewrite set_status_id. }
  do 4 status_step.
  cbn [with_goodPings with_badPings with_online ns_goodPings ns_badPings ns_inRecovery].
  destruct (negb (ns_inRecovery st) && (maxBadPing <=? int64 (ns_badPings st + 1))) eqn:E.
  - do 3 status_step. destruct w. cbn. rewrite !orb_true_r. done.
  - rewrite !orb_false_r, app_nil_r. by destruct w.
Qed.

(** What a ping told the pinger. *)
Definition observe (r : result PingResponse) : observation :=
  match r with
  | inl resp => Up (pong_Status resp)
  | inr e => if local_trouble e then Unknown else Down
  end.

(** *** What the pings of a run showed *)

(** A client that cannot be made is a ping that failed. *)
Definition seen (ev : event) : option observation :=
  match ev with
  | Event e b =>
      match e in extE B return B -> option observation with
      | NewClient _ => fun err => match err with Some e => Some (observe (inr e)) | None => None end
      | RpcPing _ _ => fun r => Some (observe r)
      | _ => fun _ => None
      end b
  end.

(** The observations of a run, in order. *)
Definition pings (t : list event) : list observation := omap seen t.

(** A node answered, without an error, that it is not ready. *)
Definition unready (ev : event) : bool :=
  match ev with
  | Event e b =>
      match e in extE B return B -> bool with
      | RpcPing _ _ => fun r => match r with inl resp => negb (pong_Ready resp) | inr _ => false end
      | _ => fun _ => false
      end b
  end.

(** The node at [ip] is asked, at its own address, and to dump its exports
    exactly during an outage; [h] is what was observed before. *)
Definition asks (ip : string) (h : list observation) (ev : event) : Prop :=
  let server := ip +:+ ":" +:+ cs_nfsClientServicePort s in
  match ev with
  | Event (NewClient address) _ => address = server
  | Event (RpcPing address req) _ =>
      address = server /\
      req = {| ping_NodeIpAddress := ip; ping_DumpAllExports := outage (counted h) |}
  | _ => True
  end.

Fixpoint well_asked (ip : string) (h : list observation) (t : list event) : Prop :=
  match t with
  | [] => True
  | ev :: t => asks ip h ev /\ well_asked ip (h ++ pings [ev]) t
  end.

Lemma pings_app t t' : pings (t ++ t') = pings t ++ pings t'.
Proof. apply omap_app. Qed.

Lemma well_asked_app ip h t t' :
  well_asked ip h t -> well_asked ip (h ++ pings t) t' -> well_asked ip h (t ++ t').
Proof.
  revert h. induction t as [|ev t IH]; intros h; cbn [well_asked app]; [by rewrite app_nil_r|].
  intros [Hev Ht] Ht'. split; [done|]. apply IH; [done|]. rewrite <- app_assoc.
  by rewrite <- pings_app.
Qed.

(** The calls of one ping, which ends in [r]. *)
Inductive contact (address : string) (req : PingRequest) : list event -> result PingResponse -> Prop :=
  | NoClient e : contact address req [Event (NewClient address) (Some e)] (inr e)
  | Pinged r :
      contact address req [Event (NewClient address) None; Event (RpcPing address req) r] r.

Lemma contact_pings address req t r : contact address req t r -> pings t = [observe r].
Proof. by intros []. Qed.

Lemma contact_asks ip h address req t r :
  contact address req t r -> address = ip +:+ ":" +:+ cs_nfsClientServicePort s ->
  req = {| ping_NodeIpAddress := ip; ping_DumpAllExports := outage (counted h) |} ->
  well_asked ip h t.
Proof. intros [e|r'] -> ->; cbn; rewrite ?app_nil_r; done. Qed.

(** The effect of an observation on the process. *)
Definition observed (p : nat) (st : NodeStatus) (o : observation) w : world X :=
  set_status p (next_status o st).1
    (set_spawned (w_spawned w ++ if (next_status o st).2 then [nodeRecovery (ns_nodeIP st)] else []) w).

Lemma run_ping req w :
  exists r x, run (ping s req) w = (Done r, set_env x w) /\
    contact (ping_NodeIpAddress req +:+ ":" +:+ cs_nfsClientServicePort s) req (trace (ping s req) w) r.
Proof.
  destruct w. unfold ping, getNfsClient. ask. destruct r as [e|].
  { do 2 eexists. split; [done|]. constructor. }
  ask. do 2 eexists. split; [done|]. constructor.
Qed.
#[local] Arguments ping : simpl never.

Lemma run_getPingRate w :
  free monitorMux w -> run getPingRate w = (Done (w_pingRate w), w).
Proof.
  intros Hf. unfold getPingRate. rewrite run_with_lock by done.
  destruct w as [? ? [] ]. unfold free in Hf. cbn in *. by subst.
Qed.

Lemma trace_getPingRate w : trace getPingRate w = [].
Proof. apply trace_silent. unfold getPingRate. walk_calls. Qed.
#[local] Arguments getPingRate : simpl never.

(** What the pinger does with the end [r] of a ping. *)
Definition react (p : nat) (r : result PingResponse) : prog unit :=
  match r with
  | inr e => ping_failed p e
  | inl resp =>
      if pong_Ready resp then ping_succeeded p resp
      else Panic "invalid memory address or nil pointer dereference"
  end.

Lemma trace_react p r w : trace (react p r) w = [].
Proof.
  apply trace_silent. unfold react, ping_failed, ping_succeeded, update_status, read_status. walk_calls.
Qed.

Lemma run_react p r st w :
  has_status p st w ->
  (forall resp, r = inl resp -> pong_Ready resp = true) ->
  run (react p r) w = (Done tt, observed p st (observe r) w).
Proof.
  intros Hs Hr. unfold observed. destruct r as [resp|e]; cbn [react observe].
  - rewrite (Hr resp) by done. rewrite (run_ping_succeeded p resp st) by done.
    cbn [next_status snd]. rewrite app_nil_r. by destruct w.
  - by rewrite (run_ping_failed p e st).
Qed.

(** The end of a turn. *)
Definition pause : prog unit := rate ← getPingRate; ext (Sleep rate).

Lemma run_pause x w :
  free monitorMux w ->
  run pause (set_env x w) = (Done tt, set_env (env_step (Sleep (w_pingRate w)) x).2 w) /\
  trace pause (set_env x w) = [Event (Sleep (w_pingRate w)) tt].
Proof.
  intros Hf. unfold pause.
  rewrite run_bind, trace_bind, run_getPingRate, trace_getPingRate by (by destruct w).
  destruct w. cbn. unfold ext_step. cbn. by destruct (env_step _ _) as [ [] y].
Qed.

Lemma pinger_round_eq p :
  pinger_round s p =
  (ip ← read_status p ns_nodeIP; dump ← read_status p ns_dumpingExports;
   r ← ping s {| ping_NodeIpAddress := ip; ping_DumpAllExports := dump |};
   _ ← react p r; pause).
Proof. reflexivity. Qed.

(** A turn is a ping, the reaction to its end, and a pause. *)
Lemma pinger_turn p st r x w :
  let req := {| ping_NodeIpAddress := ns_nodeIP st; ping_DumpAllExports := ns_dumpingExports st |} in
  has_status p st w -> run (ping s req) w = (Done r, set_env x w) ->
  run (pinger_round s p) w = run (_ ← react p r; pause) (set_env x w) /\
  trace (pinger_round s p) w = trace (ping s req) w ++ trace (_ ← react p r; pause) (set_env x w).
Proof.
  intros req Hs Hping. rewrite pinger_round_eq. split.
  - rewrite run_bind, (run_read_status _ _ st) by done. rewrite run_bind, (run_read_status _ _ st) by done.
    fold req. by rewrite run_bind, Hping.
  - rewrite trace_bind, (run_read_status _ _ st) by done. rewrite trace_silent by by cbn.
    rewrite trace_bind, (run_read_status _ _ st) by done. rewrite trace_silent by by cbn.
    rewrite trace_bind. fold req. by rewrite Hping.
Qed.

Lemma observed_env p st o x w : observed p st o (set_env x w) = set_env x (observed p st o w).
Proof. by destruct w. Qed.

Lemma run_reaction p st r x w :
  free monitorMux w -> has_status p st w -> (forall resp, r = inl resp -> pong_Ready resp = true) ->
  run (_ ← react p r; pause) (set_env x w) =
    (Done tt, set_env (env_step (Sleep (w_pingRate w)) x).2 (observed p st (observe r) w)) /\
  trace (_ ← react p r; pause) (set_env x w) = [Event (Sleep (w_pingRate w)) tt].
Proof.
  intros Hf Hs Hr. rewrite run_bind, trace_bind, trace_react.
  rewrite (run_react p r st) by (by destruct w || done). rewrite observed_env.
  assert (Hf' : free monitorMux (observed p st (observe r) w)) by by destruct w.
  destruct (run_pause x _ Hf') as [-> ->]. by replace (w_pingRate (observed _ _ _ _)) with (w_pingRate w) by by destruct w.
Qed.

Lemma run_pinger_round p st w :
  let address := ns_nodeIP st +:+ ":" +:+ cs_nfsClientServicePort s in
  let req := {| ping_NodeIpAddress := ns_nodeIP st; ping_DumpAllExports := ns_dumpingExports st |} in
  free monitorMux w -> has_status p st w ->
  exists t r, contact address req t r /\
    (((forall resp, r = inl resp -> pong_Ready resp = true) /\
      exists x, run (pinger_round s p) w = (Done tt, set_env x (observed p st (observe r) w)) /\
                trace (pinger_round s p) w = t ++ [Event (Sleep (w_pingRate w)) tt]) \/
     exists resp msg w', r = inl resp /\ pong_Ready resp = false /\
       run (pinger_round s p) w = (Panicked msg, w') /\ trace (pinger_round s p) w = t).
Proof.
  intros address req Hf Hs. destruct (run_ping req w) as (r & x & Hping & Hc).
  destruct (pinger_turn p st r x w Hs Hping) as [-> ->]. fold req.
  exists (trace (ping s req) w), r. split; [exact Hc|].
  assert (Hr : (forall resp, r = inl resp -> pong_Ready resp = true) \/
               exists resp, r = inl resp /\ pong_Ready resp = false).
  { destruct r as [resp|e]; [|by left]. destruct (pong_Ready resp) eqn:E; [left; congruence|eauto]. }
  destruct Hr as [Hready|(resp & -> & Hr)].
  - left. split; [exact Hready|]. destruct (run_reaction p st r x w Hf Hs Hready) as [-> ->]. eauto.
  - right. exists resp. do 2 eexists. do 2 (split; [done|]).
    rewrite run_bind, trace_bind, trace_react. cbn [react]. rewrite Hr. by rewrite app_nil_r.
Qed.

(** The same when it is known what the node answers. *)
Lemma run_pinger_round_answer p st r x1 x2 w :
  let address := ns_nodeIP st +:+ ":" +:+ cs_nfsClientServicePort s in
  let req := {| ping_NodeIpAddress := ns_nodeIP st; ping_DumpAllExports := ns_dumpingExports st |} in
  free monitorMux w -> has_status p st w ->
  env_step (NewClient address) (w_env w) = (None, x1) -> env_step (RpcPing address req) x1 = (r, x2) ->
  (forall resp, r = inl resp -> pong_Ready resp = true) ->
  run (pinger_round s p) w =
  (Done tt, set_env (env_step (Sleep (w_pingRate w)) x2).2 (observed p st (observe r) w)).
Proof.
  intros address req Hf Hs Ec Ep Hr.
  assert (E : run (ping s req) w = (Done r, set_env x2 w)).
  { unfold ping, getNfsClient. rewrite !run_bind, (run_ext _ w None x1) by done. cbv beta iota.
    change (run (mret ?r) ?v) with (Done r, v). cbv beta iota.
    rewrite (run_ext _ (set_env x1 w) r x2); [by rewrite set_env_set_env|done|by rewrite w_env_set_env]. }
  destruct (pinger_turn p st r x2 w Hs E) as [-> _]. by apply run_reaction.
Qed.
#[local] Arguments pinger_round : simpl never.

Lemma recoveries_app h os o :
  recoveries h (os ++ [o]) = (recoveries h os + if starts_recovery (h ++ os) o then 1 else 0)%nat.
Proof.
  revert h. induction os as [|o' os IH]; intros h; cbn.
  - rewrite app_nil_r. lia.
  - rewrite IH, <- app_assoc. cbn. lia.
Qed.

(** The goroutine that watches the node [name] at [ip] has made the
    observations [h], starting from the world [w0]. *)
Definition watching (p : nat) (name ip : string) (h : list observation) (w0 w : world X) : Prop :=
  w_held w = w_held w0 /\ w_nodeIPAddress w = w_nodeIPAddress w0 /\
  w_spawned w = w_spawned w0 ++ replicate (recoveries [] h) (nodeRecovery ip) /\
  exists st, has_status p st w /\ status_of name ip h st.

Lemma observed_watching p name ip h o st x w0 w :
  Z.of_nat (List.length h) < max_int64 ->
  has_status p st w -> status_of name ip h st -> watching p name ip h w0 w ->
  watching p name ip (h ++ [o]) w0 (set_env x (observed p st o w)).
Proof.
  intros Hlen Hs Hst (Hh & Hn & Hsp & _).
  destruct (next_status_correct name ip h o st Hlen Hst) as [Hnext Hstart].
  split; [by destruct w|]. split; [by destruct w|]. split.
  - rewrite recoveries_app, replicate_add. cbn. unfold observed. rewrite Hstart.
    destruct Hst as (_ & -> & _). destruct w. cbn in *. rewrite Hsp, <- app_assoc.
    by destruct (starts_recovery h o).
  - exists (next_status o st).1. split; [|done]. unfold observed.
    assert (E : forall v : world X, has_status p (next_status o st).1 (set_env x v) <->
                  has_status p (next_status o st).1 v) by by intros [].
    apply E. eapply has_set_status. destruct w. exact Hs.
Qed.

Lemma pings_turn address req t r e : contact address req t r -> pings (t ++ [Event (Sleep e) tt]) = [observe r].
Proof. intros Hc. rewrite pings_app, (contact_pings _ _ _ _ Hc). by rewrite app_nil_r. Qed.

Lemma run_pinger_loop fuel p name ip h w0 w :
  Z.of_nat (List.length h + fuel) <= max_int64 -> free monitorMux w0 ->
  watching p name ip h w0 w ->
  let t := trace (pinger_loop s fuel p) w in
  well_asked ip h t /\
  ((exists w', run (pinger_loop s fuel p) w = (Exhausted, w') /\ List.length (pings t) = fuel /\
     existsb unready t = false /\ watching p name ip (h ++ pings t) w0 w') \/
   exists msg w' t' ev, run (pinger_loop s fuel p) w = (Panicked msg, w') /\
     t = t' ++ [ev] /\ unready ev = true).
Proof.
  intros Hlen Hf. revert h w Hlen. induction fuel as [|fuel IH]; intros h w Hlen Hw t; unfold t.
  { split; [done|]. left. exists w. by rewrite app_nil_r. }
  pose proof Hw as (Hh & _ & _ & st & Hs & Hst). cbn [pinger_loop]. rewrite run_bind, trace_bind.
  assert (Hf' : free monitorMux w) by (unfold free; by rewrite Hh).
  destruct (run_pinger_round p st w Hf' Hs) as (tr & r & Hc & Hround).
  assert (Hip : ns_nodeIP st = ip) by apply Hst.
  assert (Hask : well_asked ip h tr).
  { eapply contact_asks; [exact Hc|by rewrite Hip|]. rewrite Hip. f_equal. apply Hst. }
  destruct Hround as [(Hready & x & -> & ->)|(resp & msg & w' & -> & Hr & -> & ->)].
  - destruct (IH (h ++ [observe r]) (set_env x (observed p st (observe r) w))) as (Ha & Hrun).
    { rewrite length_app. cbn. lia. }
    { eapply observed_watching; eauto. lia. }
    rewrite pings_app, (pings_turn _ _ _ _ _ Hc), List.existsb_app, app_assoc. split.
    + apply well_asked_app; [apply well_asked_app; [done|by cbn]|]. by rewrite (pings_turn _ _ _ _ _ Hc).
    + destruct Hrun as [(w' & -> & Hlen' & Hu & Hw')|(msg & w' & t' & ev & -> & -> & Hev)].
      * left. exists w'. split; [done|]. split; [cbn; lia|]. split; [|done]. rewrite Hu, orb_false_r.
        rewrite List.existsb_app. destruct Hc as [e|[resp|e] ]; try done. cbn. by rewrite Hready.
      * right. exists msg, w', (tr ++ [Event (Sleep (w_pingRate w)) tt] ++ t'), ev.
        by rewrite <- !app_assoc.
  - rewrite app_nil_r. split; [done|]. right. inversion Hc; subst.
    exists msg, w', [Event (NewClient (ns_nodeIP st +:+ ":" +:+ cs_nfsClientServicePort s)) None].
    eexists. split; [done|]. split; [reflexivity|]. cbn. by rewrite Hr.
Qed.

(** The whole goroutine: what [pinger] does before its first turn. *)
Lemma pinger_starts fuel node ip others w :
  node_Addresses node = ip :: others ->
  let p := List.length (w_statuses w) in
  exists w1, run (pinger s fuel node) w = run (pinger_loop s fuel p) w1 /\
    trace (pinger s fuel node) w = trace (pinger_loop s fuel p) w1 /\
    w_held w1 = w_held w /\ w_nodeIPAddress w1 !! ip = Some p /\ w_spawned w1 = w_spawned w /\
    has_status p (new_status node ip) w1.
Proof.
  intros Haddr p. unfold pinger. rewrite Haddr.
  exists (set_var V_nodeIPAddress (<[ip:=p]> (w_nodeIPAddress w))
               (set_statuses (w_statuses w ++ [new_status node ip]) w)).
  destruct w. cbn. do 3 (split; [done|]). split; [apply lookup_insert_eq|]. split; [done|].
  unfold has_status. cbn. unfold p. cbn. by rewrite lookup_app_r, Nat.sub_diag by lia.
Qed.

Lemma run_pinger fuel node ip others w :
  node_Addresses node = ip :: others -> Z.of_nat fuel <= max_int64 -> free monitorMux w ->
  let p := List.length (w_statuses w) in
  let t := trace (pinger s fuel node) w in
  well_asked ip [] t /\
  ((exists w' st, run (pinger s fuel node) w = (Exhausted, w') /\
     List.length (pings t) = fuel /\ existsb unready t = false /\
     w_nodeIPAddress w' !! ip = Some p /\ w_statuses w' !! p = Some st /\
     status_of (node_Name node) ip (pings t) st /\
     w_spawned w' = w_spawned w ++ replicate (recoveries [] (pings t)) (nodeRecovery ip)) \/
   exists msg w' t' ev, run (pinger s fuel node) w = (Panicked msg, w') /\
     t = t' ++ [ev] /\ unready ev = true).
Proof.
  intros Haddr Hfuel Hmux p t. unfold t.
  destruct (pinger_starts fuel node ip others w Haddr) as (w1 & E & Et & Hh & Hn & Hsp & Hs).
  rewrite E, Et. fold p in Hn, Hs |- *.
  destruct (run_pinger_loop fuel p (node_Name node) ip [] w1 w1) as
    [Ha [(w' & -> & Hlen & Hu & _ & Hn' & Hsp' & st & Hst & Hof)|Hp] ].
  - done.
  - unfold free. by rewrite Hh.
  - do 2 (split; [done|]). cbn. split; [by rewrite app_nil_r|]. exists (new_status node ip).
    split; [exact Hs|done].
  - split; [exact Ha|]. left. exists w', st. rewrite Hn', Hsp', Hsp. eauto 9.
  - split; [exact Ha|]. right. exact Hp.
Qed.

(** C8: the goroutine that watches a node implements the abstract state
    machine.  Its run is read off its calls: [pings t] is what its pings
    showed, a client that could not be made, the answers and the errors of
    the node, in order.  Every ping goes to the node's own address and asks
    it to dump its exports exactly while an outage lasts.  After any number
    of turns (fewer than 2^63) there was one ping in each; the status that
    [nodeIPAddress] holds for the node is the one that these pings determine
    (bad and good pings are the lengths of the present run of failures and
    successes, the node is online when the last counted ping succeeded, in
    recovery when at least [maxBadPing] pings failed since, and dumps its
    exports until two pings in a row succeed); and recovery was started once
    per outage.  The only way to stop is a panic, at once when the node
    answers without error that it is not ready. *)
Theorem pinger_refines_state_machine (fuel : nat) (node : Node) (ip : string)
    (others : list string) w
    (Haddr : node_Addresses node = ip :: others)
    (Hfuel : Z.of_nat fuel <= max_int64) (Hmux : free monitorMux w) :
  let p := List.length (w_statuses w) in
  let t := trace (pinger s fuel node) w in
  well_asked ip [] t /\
  ((exists w' st, run (pinger s fuel node) w = (Exhausted, w') /\
     List.length (pings t) = fuel /\ existsb unready t = false /\
     w_nodeIPAddress w' !! ip = Some p /\ w_statuses w' !! p = Some st /\
     status_of (node_Name node) ip (pings t) st /\
     w_spawned w' = w_spawned w ++ replicate (recoveries [] (pings t)) (nodeRecovery ip)) \/
   (exists msg w' t' ev, run (pinger s fuel node) w = (Panicked msg, w') /\
     t = t' ++ [ev] /\ unready ev = true)).
Proof. by apply run_pinger with (others := others). Qed.

(** *** How fast failures are detected *)

Lemma recoveries_outage h : maxBadPing <= down_streak h -> (1 <= recoveries [] h)%nat.
Proof.
  unfold maxBadPing, down_streak.
  induction h as [|o h IH] using rev_ind; [by cbn|]. rewrite recoveries_app. cbn [app].
  unfold down_streak, maxBadPing, starts_recovery in *. rewrite counted_app.
  destruct o as [m| |]; intros Hd.
  { cbn in Hd. lia. }
  2: { specialize (IH Hd). lia. }
  change (2 <= 1 + streak false (counted h)) in Hd.
  destruct (Z.eq_dec (streak false (counted h)) 1) as [E|E].
  - unfold down_streak. rewrite E. change (1 =? maxBadPing - 1) with true. cbv iota. lia.
  - assert (Hlong : 2 <= streak false (counted h)) by lia. specialize (IH Hlong). lia.
Qed.

Lemma recoveries_none h : Down ∉ h -> recoveries [] h = 0%nat.
Proof.
  induction h as [|o h IH] using rev_ind; [done|]. intros [Hh Ho]%not_elem_of_app.
  rewrite recoveries_app, IH by done. destruct o; try done. destruct Ho. by left.
Qed.

(** Two failed pings in a row, one successful ping, two of them, a ping that
    failed because of this node's own network. *)
Lemma status_bounds (name ip m1 m2 : string) (h : list observation) (st : NodeStatus) :
  (status_of name ip (h ++ [Down; Down]) st ->
   ns_online st = false /\ ns_inRecovery st = true /\ ns_dumpingExports st = true) /\
  (status_of name ip (h ++ [Up m1]) st ->
   ns_online st = true /\ ns_inRecovery st = false /\ ns_badPings st = 0) /\
  (status_of name ip (h ++ [Up m1; Up m2]) st -> ns_dumpingExports st = false) /\
  (status_of name ip (h ++ [Unknown]) st <-> status_of name ip h st) /\
  (status_of name ip h st ->
   (ns_inRecovery st = true -> ns_online st = false /\ ns_dumpingExports st = true) /\
   (ns_online st = true -> ns_badPings st = 0) /\ (0 < ns_badPings st -> ns_goodPings st = 0)).
Proof.
  pose proof (streak_bounds true (counted h)) as Ht. pose proof (streak_bounds false (counted h)) as Hf.
  assert (E : forall a b, h ++ [a; b] = (h ++ [a]) ++ [b]) by (intros; by rewrite <- app_assoc).
  unfold status_of, up_streak, down_streak, maxBadPing. rewrite !E, !counted_app. cbn.
  split; [|split; [|split; [|split; [done|]]]]; intros (_ & _ & Hb & Hg & Ho & Hr & Hd).
  - rewrite Ho, Hr, Hd. repeat split; lia_bool.
  - rewrite Ho, Hr, Hb. repeat split; lia_bool.
  - exact Hd.
  - rewrite Hb, Hg, Ho, Hr, Hd. destruct (counted h) as [|[] [|[] l]]; cbn;
      try pose proof (streak_bounds true l); try pose proof (streak_bounds false l);
      repeat split; try discriminate; intros; breflect; try lia; lia_bool.
Qed.

(** C34: how fast the goroutine that watches a node notices failures, in any
    run of it: when the last two pings failed, whatever was before, the
    node's status says offline, in recovery and dumping exports, and its
    recovery was started; when the last ping succeeded the node is online and
    out of recovery, with no bad pings left, and when the last two succeeded
    it is not asked to dump its exports; a node in recovery is offline; and no
    recovery is ever started while no ping fails, whatever this node's own
    network does. *)
Theorem pinger_detection_bounds (fuel : nat) (node : Node) (ip : string) (others : list string)
    w w' (st : NodeStatus)
    (Haddr : node_Addresses node = ip :: others)
    (Hfuel : Z.of_nat fuel <= max_int64) (Hmux : free monitorMux w)
    (Hrun : run (pinger s fuel node) w = (Exhausted, w'))
    (Hst : w_statuses w' !! List.length (w_statuses w) = Some st) :
  let h := pings (trace (pinger s fuel node) w) in
  (forall h', h = h' ++ [Down; Down] ->
     ns_online st = false /\ ns_inRecovery st = true /\ ns_dumpingExports st = true /\
     exists n, w_spawned w' = w_spawned w ++ replicate (S n) (nodeRecovery ip)) /\
  (forall h' m, h = h' ++ [Up m] ->
     ns_online st = true /\ ns_inRecovery st = false /\ ns_badPings st = 0) /\
  (forall h' m1 m2, h = h' ++ [Up m1; Up m2] -> ns_dumpingExports st = false) /\
  (ns_inRecovery st = true -> ns_online st = false /\ ns_dumpingExports st = true) /\
  (Down ∉ h -> w_spawned w' = w_spawned w).
Proof.
  intros h. destruct (run_pinger fuel node ip others w Haddr Hfuel Hmux) as [_ [Hx|Hx] ].
  2: { destruct Hx as (msg & w2 & _ & _ & E & _). by rewrite E in Hrun. }
  destruct Hx as (w2 & st2 & E & _ & _ & _ & Hs2 & Hof & Hsp). fold h in Hof, Hsp.
  rewrite E in Hrun. injection Hrun as ->. rewrite Hs2 in Hst. injection Hst as ->.
  pose proof (fun m1 m2 h => status_bounds (node_Name node) ip m1 m2 h st) as Hb.
  split; [|split; [|split; [|split] ] ].
  - intros h' Hh. rewrite Hh in Hof, Hsp. destruct (Hb "" "" h') as (Hd & _).
    destruct (Hd Hof) as (Ho & Hr & Hdump). do 3 (split; [done|]).
    assert (Hone : (1 <= recoveries [] (h' ++ [Down; Down]))%nat).
    { apply recoveries_outage. destruct Hof as (_ & _ & _ & _ & _ & Hrec & _). rewrite Hrec in Hr. lia_bool. }
    exists (Nat.pred (recoveries [] (h' ++ [Down; Down]))). by rewrite Nat.succ_pred by lia.
  - intros h' m Hh. rewrite Hh in Hof. by apply (Hb m "" h').
  - intros h' m1 m2 Hh. rewrite Hh in Hof. by apply (Hb m1 m2 h').
  - by apply (Hb "" "" h).
  - intros Hd. by rewrite Hsp, (recoveries_none _ Hd), app_nil_r.
Qed.
End Pinger.

(** ** Concrete behaviour *)

Definition demo_node : Node :=
  {| node_Name := "node-1"; node_Labels := None; node_Annotations := None;
     node_Addresses := ["10.0.0.1"] |}.

(** A node that never answers: recovery is started once, at the second ping. *)
Definition silent : Env unit := fun B e =>
  match e in extE B return unit -> B * unit with
  | RpcPing _ _ => fun x => (inr (Errorf "context deadline exceeded"), x)
  | e => fun x => (calm_answer e, x)
  end.

#[local] Definition no_recovery : Recovery := {| nodeRecovery := fun _ => Ret tt |}.

Lemma pinger_refines_state_machine_witness :
  exists w' st,
    run (H := silent) (@pinger no_recovery demo_service 3 demo_node) (initial_world "" tt) = (Exhausted, w') /\
    w_statuses w' !! 0%nat = Some st /\
    status_of "node-1" "10.0.0.1" [Down; Down; Down] st.
Proof.
  destruct (@pinger_refines_state_machine no_recovery demo_service unit silent
              3 demo_node "10.0.0.1" [] (initial_world "" tt))
    as [_ [(w' & st & E & _ & _ & _ & Hs & Hst & _)|(msg & w' & t' & ev & E & _)] ].
  - reflexivity.
  - unfold max_int64. lia.
  - reflexivity.
  - exists w', st. split; [exact E|]. split; [exact Hs|exact Hst].
  - vm_compute in E. discriminate E.
Defined.

Lemma pinger_detection_bounds_witness :
  exists w' st,
    run (H := silent) (@pinger no_recovery demo_service 3 demo_node) (initial_world "" tt) = (Exhausted, w') /\
    w_statuses w' !! 0%nat = Some st /\ ns_online st = false /\ ns_inRecovery st = true.
Proof.
  eexists _, _. split; [vm_compute; reflexivity|]. split; [reflexivity|].
  destruct (@pinger_detection_bounds no_recovery demo_service unit silent
              3 demo_node "10.0.0.1" [] (initial_world "" tt)
              (run (H := silent) (@pinger no_recovery demo_service 3 demo_node) (initial_world "" tt)).2
              (List.nth 0 (w_statuses (run (H := silent) (@pinger no_recovery demo_service 3 demo_node)
                 (initial_world "" tt)).2) empty_status)) as (Hd & _).
  - reflexivity.
  - unfold max_int64. lia.
  - reflexivity.
  - vm_compute. reflexivity.
  - vm_compute. reflexivity.
  - destruct (Hd [Down]) as (Ho & Hr & _); [vm_compute; reflexivity|]. split; [exact Ho|exact Hr].
Defined.

Example silent_node :
  let w := (run (H := silent) (@pinger {| nodeRecovery := fun ip => Panic ip |} demo_service 5 demo_node)
              (initial_world "" tt)).2 in
  w_spawned w = [Panic "10.0.0.1"] /\ ns_badPings <$> w_statuses w = [5].
Proof. vm_compute. repeat split; reflexivity. Qed.
