(* ===== verification/NodeDump.v ===== *)
(** * [Ping] drops the exports of a node that comes back

    A node that failed kept the exports of the volumes that were moved away
    meanwhile.  The controller pings it with [DumpAllExports] until it has
    dropped them.  On a node that works ([NodeHost.v]) one such call suffices:
    every volume whose Service the API still knows is neither exported nor
    mounted afterwards; volumes without a Service stay. *)

From S2P Require Import Prelude GoStrings Messages GoProg Naming Exports Config NfsServer NodeHost NodeMonitor.

(** ** The name in a line of the exports file *)

Definition no_char (c : ascii) (s : string) : bool := string_all (fun d => negb (Ascii.eqb d c)) s.

Lemma clean_components_app rooted stack a b :
  clean_components rooted stack (a ++ b) = clean_components rooted (clean_components rooted stack a) b.
Proof.
  revert stack. induction a as [|c a IH]; intros stack; [done|]. cbn.
  destruct (String.eqb c "" || String.eqb c "."); [done|].
  destruct (String.eqb c ".."); [|done]. destruct stack as [|d stack]; [done|].
  by destruct (String.eqb d "..").
Qed.

Lemma Split_nonempty s sep : Split s sep <> [].
Proof.
  destruct s as [|c s]; [done|]. rewrite Split_cons. destruct (Ascii.eqb c sep); [done|]. by destruct (Split s sep).
Qed.

Lemma Split_app_sep s sep t : Split (s +:+ String sep t) sep = Split s sep ++ Split t sep.
Proof.
  induction s as [|c s IH].
  - change ("" +:+ ?u) with u. by rewrite Split_cons, Ascii.eqb_refl.
  - change (String c s +:+ ?u) with (String c (s +:+ u)). rewrite !Split_cons, IH.
    destruct (Ascii.eqb c sep); [done|]. pose proof (Split_nonempty s sep). by destruct (Split s sep).
Qed.

Lemma Join_snoc l x : l <> [] -> Join (l ++ [x]) "/" = Join l "/" +:+ "/" +:+ x.
Proof.
  induction l as [|y l IH]; [done|]. intros _. destruct l as [|z l]; [done|].
  change (Join ((y :: z :: l) ++ [x]) "/") with (y +:+ "/" +:+ Join ((z :: l) ++ [x]) "/").
  rewrite IH by done. change (Join (y :: z :: l) "/") with (y +:+ "/" +:+ Join (z :: l) "/").
  by rewrite !string_app_assoc.
Qed.

Lemma Clean_entry d n :
  HasPrefix d "/" = true -> d <> "/" -> Clean d = d -> no_slash n = true ->
  n <> "" -> n <> "." -> n <> ".." ->
  Clean (d +:+ "/" +:+ n +:+ "/") = d +:+ "/" +:+ n.
Proof.
  intros Hroot Hne Hclean Hn H1 H2 H3.
  assert (Hroot' : HasPrefix (d +:+ "/" +:+ n +:+ "/") "/" = true).
  { apply HasPrefix_true in Hroot as [r ->]. rewrite string_app_assoc. apply HasPrefix_app. }
  unfold Clean in *. rewrite Hroot in Hclean. rewrite Hroot'.
  change ("/" +:+ n +:+ "/") with (String "/" (n +:+ String "/" "")).
  rewrite Split_app_sep, Split_app, clean_components_app by done.
  set (S0 := clean_components true [] (Split d "/")) in *.
  change (Split "" "/") with [""]. cbn [clean_components].
  rewrite (proj2 (String.eqb_neq n "")), (proj2 (String.eqb_neq n ".")), (proj2 (String.eqb_neq n "..")) by done.
  cbn [orb clean_components]. change (String.eqb "" "" || String.eqb "" ".") with true. cbv iota.
  cbn [List.rev]. destruct (decide (List.rev S0 = [])) as [E|E].
  - rewrite E in Hclean. cbn in Hclean. by destruct Hne.
  - rewrite Join_snoc by done. rewrite <- string_app_assoc. by rewrite Hclean.
Qed.

Section Dump.
Context `{UnicodeTables} `{Globals} (nfsService : CsiNfsService).

(** The export directory as [filepath.Clean] leaves it, in one word. *)
Definition plain_directory : bool :=
  String.eqb (Clean NfsExportDirectory) NfsExportDirectory && no_char " " NfsExportDirectory.

(** The line of a volume in the exports file. *)
Definition export_line (id : string) : string :=
  entry_directory id +:+ " " +:+ export_options nfsService.

Lemma Replace1_prefix p s : Replace1 (p +:+ s) p "" = s.
Proof.
  trans (sdrop (String.length p) (p +:+ s)); [|apply sdrop_app].
  pose proof (HasPrefix_app p s) as Hp. destruct (p +:+ s); cbn [Replace1]; by rewrite Hp.
Qed.

Lemma name_not_dots id d : IsNFSVolumeID id = true -> first_is alnum d = false -> VolumeIDToServiceName id <> d.
Proof.
  intros [r ->]%HasPrefix_true Hd E. change (CsiNfsPrefixDash +:+ r) with ("nfs-" +:+ r) in E.
  pose proof (service_name_first ("nfs-" +:+ r)) as Hf. rewrite <- service_name_formula, E, Hd in Hf.
  destruct (ToLower_nfs r) as [t Ht]. rewrite Ht in Hf. discriminate Hf.
Qed.

Lemma line_name id :
  directory_ok nfsService = true -> plain_directory = true -> IsNFSVolumeID id = true ->
  Clean (List.hd "" (Split (export_line id) " ")) = staging_path id /\
  export_service_name (staging_path id) = VolumeIDToServiceName id.
Proof.
  unfold directory_ok, plain_directory. rewrite !andb_true_iff.
  intros [ [ [ [Hroot Hdd%negb_true_iff] _] _] _] [Hclean%String.eqb_eq Hsp] Hnfs.
  assert (Hlegal : string_all legal (VolumeIDToServiceName id) = true).
  { rewrite service_name_formula. apply service_name_legal. }
  assert (Hword : no_char " " (entry_directory id) = true).
  { unfold no_char, entry_directory, staging_path in *. rewrite !string_all_app, Hsp. cbn [andb].
    rewrite !andb_true_iff. split; [split|]; [done| |done]. revert Hlegal. apply string_all_impl.
    intros c Hc. destruct (Ascii.eqb_spec c " ") as [->|]; [discriminate Hc|done]. }
  unfold export_line. change (" " +:+ ?o) with (String " " o). rewrite Split_app by done. cbn [List.hd]. split.
  - unfold entry_directory, staging_path. rewrite !string_app_assoc.
    apply Clean_entry; [done| |done|apply service_name_no_slash|by apply name_not_dots..].
    intros E. by rewrite E in Hdd.
  - unfold export_service_name, staging_path. by rewrite Replace1_prefix, (Replace1_prefix "/").
Qed.

(** ** One ping *)

Context {Y : Type} `{Env Y} `{!ReliableFiles Y} `{!Host Y}.
Implicit Types w : world Y.

(** The Services of the driver's namespace, which the API serves to the node. *)
Variable services : string -> option Service.
Definition api_serves : Prop :=
  forall name (y : Y),
    match services name with
    | Some svc => (env_step (KubeGetService DriverNamespace name) y).1 = inl svc
    | None => exists e, (env_step (KubeGetService DriverNamespace name) y).1 = inr e /\ err_notfound e = true
    end.

(** The volume has a Service that names the volume of the host driver. *)
Definition dumped (id : string) : bool :=
  is_some (services (VolumeIDToServiceName id) ≫= fun svc => svc_Annotations svc ≫= lookup "driverVolumeID").

Hypothesis Hdir : directory_ok nfsService = true.
Hypothesis Hplain : plain_directory = true.
Hypothesis Hapi : api_serves.

(** The annotation of a Service names the volume that has the Service. *)
Definition annotations_match : Prop :=
  forall name svc v, services name = Some svc -> svc_Annotations svc ≫= lookup "driverVolumeID" = Some v ->
    VolumeIDToServiceName ("nfs-" +:+ v) = name.
Hypothesis Hmatch : annotations_match.

Lemma run_GetServiceContent_ok name w :
  exists err y, run (GetServiceContent name) w = (Done (services name, err), set_env y w) /\
    is_some err = negb (is_some (services name)) /\ mounted y = mounted (w_env w).
Proof.
  unfold GetServiceContent, maxGetSvcAttempts, get_service_attempts. rewrite run_bind.
  destruct (run_plain (KubeGetService DriverNamespace name) w _ eq_refl eq_refl eq_refl) as (y & -> & Hy).
  pose proof (Hapi name (w_env w)) as Ha. destruct (services name) as [svc|]; cbv beta iota.
  - rewrite Ha. by exists None, y.
  - destruct Ha as (e & -> & Hnf). cbv beta iota. rewrite Hnf. by exists (Some e), y.
Qed.
#[local] Arguments GetServiceContent : simpl never.

(** The exports and the mounts after the dump of some volumes. *)
Definition after_dump (ids : list string) w w' : Prop :=
  (forall i, kernel_exports i w' = kernel_exports i w && negb (existsb (fun id => dumped id && drops id i) ids)) /\
  (forall path, path ∈ mounted (w_env w') <->
     path ∈ mounted (w_env w) /\ forall id, In id ids -> dumped id = true -> path <> staging_path id).

Lemma run_ping_export_ok id room w :
  node_sound (S room) w -> IsNFSVolumeID id = true -> staging_path id ∈ mounted (w_env w) ->
  exists w', run (ping_export true (export_line id)) w = (Done (inl true), w') /\
    node_sound room w' /\ after_dump [id] w w'.
Proof.
  intros Hw Hnfs Hmo. unfold ping_export. destruct (line_name id Hdir Hplain Hnfs) as [-> ->].
  rewrite run_bind.
  destruct (run_GetServiceContent_ok (VolumeIDToServiceName id) w) as (err & y & -> & He & Hy). cbv beta iota.
  assert (Hw1 : node_sound (S room) (set_env y w)) by by apply node_sound_env.
  assert (Hk : forall i, kernel_exports i (set_env y w) = kernel_exports i w) by by destruct w.
  destruct (dumped id) eqn:Hd; unfold dumped in Hd.
  - destruct (services (VolumeIDToServiceName id)) as [svc|] eqn:Hs; [|done]. cbn [mbind option_bind] in Hd.
    destruct err; [done|]. destruct (svc_Annotations svc ≫= lookup "driverVolumeID") as [v|] eqn:Hv; [|done].
    destruct (run_drop id room (set_env y w) Hw1) as (w2 & w3 & Hr2 & Hge & Hr3 & Hw3 & _ & Hm3 & Hk3).
    rewrite run_bind, Hr2. cbv beta iota. rewrite run_bind, <- Hge.
    change (run (loc (Set_ V_generation ?g)) w2) with (Done tt, set_var V_generation g w2).
    cbv beta iota. rewrite set_generation_id, run_bind by done.
    change (run (loc (Get V_generation)) w2) with (Done (w_generation w2), w2). cbv beta iota.
    rewrite run_bind, Hge, Hr3. cbv beta iota. unfold UnmountVolume, maxUnmountAttempts. rewrite run_bind.
    rewrite w_env_set_env, Hy in Hm3. setoid_rewrite Hk in Hk3.
    destruct (run_unmount_sound 9 ("nfs-" +:+ v) id room w3) as (y4 & -> & Hw4 & Hy4).
    { done. }
    { rewrite <- (Hmatch _ _ _ Hs Hv). by apply names_same_volume; [apply HasPrefix_app|]. }
    { by rewrite Hm3. }
    { intros i Hi. by rewrite Hk3, drops_same, andb_false_r. }
    eexists. split; [done|]. split; [done|]. split.
    + intros i. cbn [existsb]. unfold dumped. rewrite Hs. cbn [mbind option_bind]. rewrite Hv, orb_false_r.
      rewrite <- Hk3. by destruct w3.
    + intros path. rewrite w_env_set_env, Hy4, Hm3, elem_of_difference, elem_of_singleton.
      split; intros [Hin Hne]; (split; [done|]).
      * intros i [->|[]] _. done.
      * apply Hne; [by left|]. unfold dumped. by rewrite Hs; cbn [mbind option_bind]; rewrite Hv.
  - exists (set_env y w). split; [|split; [by apply node_sound_less|split]].
    + destruct (services (VolumeIDToServiceName id)) as [svc|] eqn:Hs; destruct err; try done.
      cbn [mbind option_bind] in Hd. by destruct (svc_Annotations svc ≫= lookup "driverVolumeID").
    + intros i. cbn [existsb]. unfold dumped. by rewrite Hd, andb_true_r.
    + intros path. rewrite w_env_set_env, Hy. split; [|by intros [? _] ]. intros Hp. split; [done|].
      intros i [->|[]]. unfold dumped. by rewrite Hd.
Qed.
#[local] Arguments ping_export : simpl never.

Lemma run_ping_exports_ok ids room w :
  node_sound (List.length ids + room) w -> Forall (fun id => IsNFSVolumeID id = true) ids ->
  NoDup (VolumeIDToServiceName <$> ids) -> (forall id, In id ids -> staging_path id ∈ mounted (w_env w)) ->
  exists w', run (ping_exports true (export_line <$> ids)) w =
      (Done (Some {| pong_Ready := true; pong_Status := "" |}, None), w') /\
    node_sound room w' /\ after_dump ids w w'.
Proof.
  revert w. induction ids as [|id ids IH]; intros w Hw Hnfs Hnd Hmo.
  - exists w. split; [done|]. split; [done|]. split.
    + intros i. by rewrite andb_true_r.
    + intros path. split; [|by intros [? _] ]. by intros Hp.
  - apply Forall_cons in Hnfs as [Hid Hnfs]. rewrite fmap_cons in Hnd. apply NoDup_cons in Hnd as [Hnin Hnd].
    destruct (run_ping_export_ok id (List.length ids + room) w) as (w1 & E1 & Hw1 & Hk1 & Hm1);
      [done|done|by apply Hmo; left|].
    destruct (IH w1 Hw1 Hnfs Hnd) as (w2 & E2 & Hw2 & Hk2 & Hm2).
    { intros i Hi. apply Hm1. split; [by apply Hmo; right|]. intros j [->|[]] _ Hs%staging_path_inj.
      apply Hnin. rewrite <- Hs. apply list_elem_of_fmap. exists i. by rewrite list_elem_of_In. }
    exists w2. split; [|split; [done|split]].
    + rewrite fmap_cons. unfold ping_exports. fold ping_exports. rewrite run_bind, E1. exact E2.
    + intros i. rewrite Hk2, Hk1. cbn [existsb]. by rewrite orb_false_r, negb_orb, andb_assoc.
    + intros path. rewrite Hm2, Hm1. split.
      * intros [ [Hp Hq1] Hq2]. split; [done|]. intros i [->|Hi]; [by apply Hq1; left|by apply Hq2].
      * intros [Hp Hq1]. split; [split; [done|]|].
        -- intros i [->|[]]. by apply Hq1; left.
        -- intros i Hi. by apply Hq1; right.
Qed.

Lemma filter_all {A} (f : A -> bool) l : (forall x, In x l -> f x = true) -> List.filter f l = l.
Proof.
  induction l as [|x l IH]; [done|]. intros Hf. cbn. rewrite Hf by by left.
  f_equal. apply IH. intros y Hy. apply Hf. by right.
Qed.

Lemma node_sound_more n m w : node_sound (n + m) w -> node_sound m w.
Proof. induction n as [|n IH]; [done|]. intros Hw. by apply IH, node_sound_less. Qed.

Lemma export_line_prefix id : HasPrefix (export_line id) NfsExportDirectory = true.
Proof. unfold export_line, entry_directory, staging_path. rewrite !string_app_assoc. apply HasPrefix_app. Qed.

Lemma export_lines_text ids : Forall (fun e => text_line e /\ untrimmable e = true) (export_line <$> ids).
Proof.
  apply Forall_fmap, List.Forall_forall. intros id _.
  pose proof (entry_directory_ok nfsService id Hdir) as Hok. unfold entry_ok in Hok. breflect. by split.
Qed.

Lemma export_lines_scan ids :
  ScanLines (unlines (export_line <$> ids)) = (export_line <$> ids, false).
Proof.
  pose proof (export_lines_text ids) as Ht.
  rewrite ScanLines_unlines by (eapply Forall_impl; [exact Ht|by intros e []]). f_equal.
  induction Ht as [|e t [_ He] _ IH]; [done|]. cbn. by rewrite dropCR_untrimmable, IH.
Qed.

(** The kernel exports the volumes of the file. *)
Lemma kernel_exports_listed ids id room w :
  node_sound room w -> w_exports w = unlines (export_line <$> ids) -> In id ids -> kernel_exports id w = true.
Proof.
  intros Hw Hfile Hid. rewrite (kernel_table w (export_line <$> ids)).
  - unfold ExportsSpec.lookup. destruct (List.find _ _) eqn:Hf; [done|].
    pose proof (List.find_none _ _ Hf (export_line id) (in_map _ _ _ Hid)) as Hn.
    unfold ExportsSpec.belongs, export_line in Hn. by rewrite HasPrefix_app in Hn.
  - apply represents_lines; [by eapply node_sound_free|done|apply export_lines_text].
  - apply Hw.
Qed.

(** ... and no other. *)
Lemma listed_of_kernel i ids room w :
  node_sound room w -> w_exports w = unlines (export_line <$> ids) -> kernel_exports i w = true ->
  exists id, In id ids /\ VolumeIDToServiceName i = VolumeIDToServiceName id.
Proof.
  intros Hw Hfile. rewrite (kernel_table w (export_line <$> ids)).
  - unfold ExportsSpec.lookup. destruct (List.find _ _) as [l|] eqn:Hf; [|done]. intros _.
    apply List.find_some in Hf as [(id & <- & Hid)%in_map_iff Hp]. exists id. split; [done|].
    unfold ExportsSpec.belongs, export_line in Hp. rewrite entry_ne_prefix in Hp. by apply String.eqb_eq in Hp.
  - apply represents_lines; [by eapply node_sound_free|done|apply export_lines_text].
  - apply Hw.
Qed.

(** Nothing is left of a volume that was dumped, if it was exported or not even
    mounted. *)
Lemma dumped_gone i ids room w w' :
  node_sound room w -> w_exports w = unlines (export_line <$> ids) -> after_dump ids w w' ->
  dumped i = true ->
  kernel_exports i w' = false /\
  ((staging_path i ∈ mounted (w_env w) -> kernel_exports i w = true) -> staging_path i ∉ mounted (w_env w')).
Proof.
  intros Hw Hfile [Hk Hm] Hd.
  assert (Hlisted : kernel_exports i w = true -> exists id, In id ids /\ dumped id = true /\
            VolumeIDToServiceName i = VolumeIDToServiceName id).
  { intros E. destruct (listed_of_kernel i ids room w Hw Hfile E) as (id & Hid & Hn). exists id.
    unfold dumped in *. by rewrite <- Hn. }
  split.
  - rewrite Hk. destruct (kernel_exports i w); [|done]. destruct Hlisted as (id & Hid & Hdi & Hn); [done|].
    replace (existsb _ ids) with true; [done|]. symmetry. apply existsb_exists. exists id. split; [done|].
    by rewrite Hdi, drops_same.
  - intros Hex [Hp Hne]%Hm. destruct Hlisted as (id & Hid & Hdi & Hn); [by apply Hex|].
    apply (Hne id Hid Hdi). unfold staging_path. by rewrite Hn.
Qed.

Lemma run_Ping_dump req ids room w :
  ping_DumpAllExports req = true -> node_sound (List.length ids + room) w ->
  w_exports w = unlines (export_line <$> ids) ->
  Forall (fun id => IsNFSVolumeID id = true) ids -> NoDup (VolumeIDToServiceName <$> ids) ->
  exists w', run (Ping req) w = (Done (Some {| pong_Ready := true; pong_Status := "" |}, None), w') /\
    node_sound room w' /\ after_dump ids w w'.
Proof.
  intros Hdump Hw Hfile Hnfs Hnd. unfold Ping. rewrite Hdump, run_bind.
  assert (Hscan : ScanLines (w_exports w) = (export_line <$> ids, false)) by (rewrite Hfile; apply export_lines_scan).
  destruct (run_GetExports_ok NfsExportDirectory w _ (node_sound_free _ _ Hw) Hscan) as [y E].
  pose proof (mounted_run _ w (GetExports_calls NfsExportDirectory)) as Hy. rewrite E in Hy |- *.
  cbn [snd] in Hy. rewrite w_env_set_env in Hy. cbv beta iota.
  assert (Hse : same_exports w (set_env y w)) by by apply same_exports_env.
  rewrite (filter_all (fun line => HasPrefix line NfsExportDirectory)).
  2: { intros l (id & <- & _)%in_map_iff. apply export_line_prefix. }
  destruct (run_ping_exports_ok ids room (set_env y w)) as (w' & E' & Hw' & Hk & Hm); [by apply node_sound_env|done|done| |].
  { intros id Hid. rewrite w_env_set_env, Hy. apply (sound_mounted _ _ Hw).
    by eapply kernel_exports_listed. }
  exists w'. split; [exact E'|]. split; [done|]. split.
  - intros i. by rewrite Hk, (same_exports_kernel _ _ _ Hse).
  - intros path. by rewrite Hm, w_env_set_env, Hy.
Qed.

(** C15: on a node that works, when the exports file lists different volumes
    and the API answers, [Ping] with [DumpAllExports] reports that the node is
    ready.  It has unmounted exactly those listed volumes that have a Service
    (with the annotation that names the volume of the host driver), and the
    kernel exports what it did before, but for these volumes and those whose
    service names extend the name of one of them.  So nothing is left on the
    node of a volume with a Service, neither export nor mount; exports whose
    Service was deleted while the node was down stay. *)
Theorem Ping_dumps_exports (req : PingRequest) (ids : list string) (room : nat) w
    (Hdump : ping_DumpAllExports req = true) (Hw : node_sound (List.length ids + room) w)
    (Hfile : w_exports w = unlines (export_line <$> ids))
    (Hnfs : Forall (fun id => IsNFSVolumeID id = true) ids) (Hnodup : NoDup (VolumeIDToServiceName <$> ids)) :
  exists w', run (Ping req) w = (Done (Some {| pong_Ready := true; pong_Status := "" |}, None), w') /\
    node_sound room w' /\
    (forall path, path ∈ mounted (w_env w') <->
       path ∈ mounted (w_env w) /\ forall id, In id ids -> dumped id = true -> path <> staging_path id) /\
    (forall id', kernel_exports id' w' = kernel_exports id' w &&
       negb (existsb (fun id => dumped id && HasPrefix (VolumeIDToServiceName id') (VolumeIDToServiceName id)) ids)) /\
    (forall id, In id ids -> dumped id = true ->
       kernel_exports id w' = false /\ ~ staging_path id ∈ mounted (w_env w')) /\
    forall id, In id ids -> (forall id', In id' ids -> dumped id' = true -> drops id' id = false) ->
       node_exports id w' = node_exports id w.
Proof.
  destruct (run_Ping_dump req ids room w) as (w' & E & Hw' & Hk & Hm); [done..|].
  exists w'. split; [done|]. split; [done|]. split; [exact Hm|]. split; [exact Hk|]. split.
  - intros id Hid Hd. destruct (dumped_gone id ids _ w w' Hw Hfile (conj Hk Hm) Hd) as [Hk' Hm'].
    split; [done|]. apply Hm'. intros _. by eapply kernel_exports_listed.
  - intros id Hid Hno. apply node_exports_hold, node_hold_same.
    + rewrite Hk. replace (existsb _ ids) with false; [by rewrite andb_true_r|].
      symmetry. apply not_true_is_false. intros (id' & Hid' & [Hd Hp]%andb_true_iff)%existsb_exists.
      by rewrite Hno in Hp.
    + rewrite Hm. split; [by intros [? _]|]. intros Hp. split; [done|]. intros id' Hid' Hd Hs%staging_path_inj.
      specialize (Hno id' Hid' Hd). by rewrite drops_same in Hno.
Qed.
End Dump.

(** ** A node with two exports, one of which still has a Service *)

Definition demo_services (name : string) : option Service :=
  if String.eqb name "nfs-v1" then
    Some {| svc_Name := "nfs-v1"; svc_Namespace := ""; svc_Labels := None;
            svc_Annotations := Some {["driverVolumeID" := "v1"]}; svc_ClusterIP := ""; svc_Ports := [] |}
  else None.

Definition served_step : Env (gset string) := fun B e =>
  match e in extE B return gset string -> B * gset string with
  | KubeGetService _ name => fun y =>
      (match demo_services name with Some svc => inl svc | None => inr not_found end, y)
  | e => host_step _ e
  end.

Section Example.
#[local] Existing Instance ascii_tables.
#[local] Existing Instance demo_globals.
#[local] Existing Instance served_step.

#[local] Instance served_reliable : ReliableFiles (gset string).
Proof. by constructor. Qed.

#[local] Program Instance served_works : Host (gset string) := { mounted := fun y => y }.
Next Obligation. intros path y Hp. cbn. by rewrite decide_True. Qed.
Next Obligation. done. Qed.
Next Obligation. done. Qed.
Next Obligation. done. Qed.
Next Obligation. done. Qed.
Next Obligation.
  intros id ctx y Hn. eexists. cbn. rewrite Hn. split; [reflexivity|done].
Qed.
Next Obligation. intros id name y _ Hp. eexists. cbn. rewrite decide_True by done. split; [reflexivity|done]. Qed.
Next Obligation. intros B e y He. destruct e; try discriminate He; done. Qed.

Lemma served_fresh_ok : node_ok 1000 fresh_node.
Proof.
  split; [|done]. split; [|done|vm_compute; done|].
  - exists []. split; [done|]. by exists [].
  - intros id Hk. discriminate Hk.
Qed.

Definition export_named (id : string) : prog (gomap * pair_err (option ExportNfsVolumeResponse)) :=
  ExportNfsVolume demo_service 1 Background
    {| exreq_VolumeId := id; exreq_ExportNfsContext := Some {["ServiceName" := id]} |}.
Definition node_v1 : world (gset string) := (run (export_named "nfs-v1") fresh_node).2.
Definition node_v1_v2 : world (gset string) := (run (export_named "nfs-v2") node_v1).2.

Lemma run_export_named id room w :
  VolumeIDToServiceName id = id -> IsNFSVolumeID id = true -> node_ok (S room) w ->
  node_ok room (run (export_named id) w).2 /\ node_exports id (run (export_named id) w).2 = true.
Proof.
  intros Hname Hnfs Hw.
  destruct (run_ExportNfsVolume_ok demo_service 0 Background
     {| exreq_VolumeId := id; exreq_ExportNfsContext := Some {["ServiceName" := id]} |} room w)
    as (c & resp & w' & Hr & Hok & He%exported_serving); [vm_compute; reflexivity|done| |done|].
  - cbn. rewrite lookup_singleton_eq. by rewrite Hname.
  - unfold export_named. by rewrite Hr.
Qed.

Lemma node_v1_v2_ok : node_ok 998 node_v1_v2.
Proof.
  unfold node_v1_v2, node_v1. apply run_export_named; [vm_compute; reflexivity|done|].
  apply run_export_named; [vm_compute; reflexivity|done|]. apply served_fresh_ok.
Qed.

Lemma demo_api : api_serves demo_services.
Proof. intros name y. cbn. destruct (demo_services name); [done|]. by exists not_found. Qed.

Lemma demo_match : annotations_match demo_services.
Proof.
  intros name svc v. unfold demo_services. destruct (String.eqb_spec name "nfs-v1") as [->|]; [|done].
  intros [= <-] [= <-]. vm_compute. reflexivity.
Qed.

Lemma Ping_dumps_exports_witness :
  exists w', run (Ping {| ping_NodeIpAddress := "10.0.0.1"; ping_DumpAllExports := true |}) node_v1_v2 =
      (Done (Some {| pong_Ready := true; pong_Status := "" |}, None), w') /\
    kernel_exports "nfs-v1" w' = false /\ ~ staging_path "nfs-v1" ∈ mounted (w_env w') /\
    node_exports "nfs-v2" w' = true.
Proof.
  destruct (Ping_dumps_exports demo_service demo_services) with
     (req := {| ping_NodeIpAddress := "10.0.0.1"; ping_DumpAllExports := true |}) (ids := ["nfs-v1"; "nfs-v2"])
     (room := 0%nat) (w := node_v1_v2) as (w' & E & _ & _ & _ & Hgone & Hstay).
  - exact demo_directory_ok.
  - vm_compute. reflexivity.
  - exact demo_api.
  - exact demo_match.
  - reflexivity.
  - apply (node_sound_more 996). apply node_v1_v2_ok.
  - vm_compute. reflexivity.
  - repeat constructor.
  - apply (bool_decide_eq_true_1 _). vm_compute. reflexivity.
  - exists w'. split; [exact E|]. destruct (Hgone "nfs-v1") as [Hk Hm].
    + by left.
    + vm_compute. reflexivity.
    + split; [exact Hk|]. split; [exact Hm|]. rewrite Hstay.
      * vm_compute. reflexivity.
      * right. by left.
      * intros id [<-|[<-|[]]]; vm_compute; congruence.
Defined.

(** The pings during and after an outage: the node is online after the first
    answer, and its exports are still dumped at the second one. *)
Definition pinged (os : list Monitored.observation) : NodeStatus :=
  List.fold_left (fun st o => (next_status o st).1) os
    (new_status {| node_Name := "worker-1"; node_Addresses := ["10.0.0.1"]; node_Labels := None; node_Annotations := None |}
       "10.0.0.1").
Definition back_again : NodeStatus := pinged (repeat Monitored.Down (Z.to_nat maxBadPing) ++ [Monitored.Up ""]).

(** A volume that is exported between the two is dropped at once, although its
    Service names this node. *)
Theorem second_ping_drops_new_export :
  ns_online back_again = true /\ node_exports "nfs-v1" node_v1 = true /\
  let '(r, w) := run (Ping {| ping_NodeIpAddress := "10.0.0.1";
                              ping_DumpAllExports := ns_dumpingExports back_again |}) node_v1 in
  r = Done (Some {| pong_Ready := true; pong_Status := "" |}, None) /\ node_exports "nfs-v1" w = false.
Proof. vm_compute. repeat split; reflexivity. Qed.
End Example.
