(* ===== verification/Startup.v ===== *)
(** * The service and its start ([src/nfs/csinfs.go], [identity.go])

    [New] makes the service, the host driver calls [BeforeServe] once before it
    serves requests: it reads the environment, validates the configuration,
    connects to Kubernetes and starts either the monitors (controller) or the
    NFS server (node).  [BeforeServe] fills in the fields of its receiver, so
    it returns the service with its error. *)

From S2P Require Import Prelude GoStrings Messages GoProg Naming Exports Config K8s NfsServer NodeMonitor.

(** gRPC's server and the network, and gocsi's view of the environment. *)
Class Network := {
  Listener : Type;
  net_Listen : string -> string -> prog (result Listener);
  grpc_Serve : Listener -> prog (option go_error);
}.
Class Gocsi := {
  EnvVarMode : string;
  csictx_Getenv : context -> string -> string;
}.

(** [&CsiNfsService{..}]: the other fields have their zero values. *)
Definition New (provisionerName : string) : CsiNfsService := {|
  cs_provisionerName := provisionerName;
  cs_mode := ""; cs_nodeID := ""; cs_nodeIPAddress := ""; cs_podCIDR := ""; cs_nodeName := "";
  cs_failureRetries := 10;
  cs_waitCreateNfsServiceInterval := 10 * second;
  cs_nfsServerPort := ""; cs_nfsClientServicePort := "";
|}.

(** The fields that [BeforeServe] assigns. *)
Definition with_environment (mode nodeName serverPort clientPort : string) (s : CsiNfsService) : CsiNfsService := {|
  cs_provisionerName := cs_provisionerName s;
  cs_mode := mode; cs_nodeID := cs_nodeID s; cs_nodeIPAddress := cs_nodeIPAddress s;
  cs_podCIDR := cs_podCIDR s; cs_nodeName := nodeName;
  cs_failureRetries := cs_failureRetries s;
  cs_waitCreateNfsServiceInterval := cs_waitCreateNfsServiceInterval s;
  cs_nfsServerPort := serverPort; cs_nfsClientServicePort := clientPort;
|}.
Definition with_network (nodeIPAddress podCIDR : string) (s : CsiNfsService) : CsiNfsService := {|
  cs_provisionerName := cs_provisionerName s;
  cs_mode := cs_mode s; cs_nodeID := cs_nodeID s; cs_nodeIPAddress := nodeIPAddress;
  cs_podCIDR := podCIDR; cs_nodeName := cs_nodeName s;
  cs_failureRetries := cs_failureRetries s;
  cs_waitCreateNfsServiceInterval := cs_waitCreateNfsServiceInterval s;
  cs_nfsServerPort := cs_nfsServerPort s; cs_nfsClientServicePort := cs_nfsClientServicePort s;
|}.

Definition export_dir_mode : Z := 511. (* 0o777 *)

Section Start.
Context `{Globals} `{Network} `{Gocsi} `{Recovery}.

Definition validate_names : prog (option go_error) :=
  if String.eqb DriverNamespace "" then
    mret (Some (Errorf "DriverNamespace variable not set; this is used to find Services and EndpointSlices in the driver namespace"))
  else if String.eqb DriverName "" then
    mret (Some (Errorf "DriverName not set. This is the value of the driver name in the csinode objects, e.g. csi-vxflexos.dellemc.com"))
  else mret None.

Definition validateGlobalVariables (s : CsiNfsService) : prog (option go_error) :=
  if String.eqb (cs_mode s) "" then
    mret (Some (Errorf ("s.mode not set to " +:+ String "034" "node" +:+ String "034" " or "
                          +:+ String "034" "controller" +:+ String "034" "")))
  else if String.eqb (cs_mode s) "node" then
    if String.eqb NodeRoot "" then
      mret (Some (Errorf "shared-nfs NodeRoot variable must be set; used for chroot into node; validated with /noderoot/etc/exports"))
    else
      e ← ext (OsStat (NodeRoot +:+ "/etc/exports"));
      match e with
      | Some _ =>
          mret (Some (Errorf "could not stat NodeRoot/etc/exports - this file must exist for kernel nfs installations"))
      | None =>
          if String.eqb NfsExportDirectory "" then
            mret (Some (Errorf "NfsExportDirectory not set it is where block devices are exported via NFS"))
          else validate_names
      end
  else validate_names.

Fixpoint start_monitors (fuel : nat) (s : CsiNfsService) (nodes : list Node) : prog unit :=
  match nodes with
  | [] => mret tt
  | node :: nodes => _ ← startNodeMonitor s fuel node; start_monitors fuel s nodes
  end.

Definition startNodeMonitors (fuel : nat) (s : CsiNfsService) : prog (option go_error) :=
  r ← GetAllNodes;
  match r with
  | inr e => mret (Some (Errorf ("unable to retrieve nodes: " +:+ err_text e)))
  | inl nodes => _ ← start_monitors fuel s nodes; mret None
  end.

Definition listen (ipAddress port : string) : prog (result Listener) :=
  net_Listen "tcp" (ipAddress +:+ ":" +:+ port).
Definition serve (lis : Listener) : prog (option go_error) := grpc_Serve lis.

Definition startNfsServiceServer (ipAddress port : string)
    (listenFunc : string -> string -> prog (result Listener))
    (serveFunc : Listener -> prog (option go_error)) : prog (option go_error) :=
  r ← listenFunc ipAddress port;
  match r with
  | inr err => mret (Some err)
  | inl lis => serveFunc lis
  end.

(** The goroutine of the node's NFS server. *)
Definition nfs_server (s : CsiNfsService) : prog unit :=
  _ ← startNfsServiceServer (cs_nodeIPAddress s) (cs_nfsClientServicePort s) listen serve; mret tt.

(** The last part of [BeforeServe], by the mode. *)
Definition start_mode (fuel : nat) (s : CsiNfsService) : prog (CsiNfsService * option go_error) :=
  if negb (String.eqb (cs_mode s) "node") then e ← startNodeMonitors fuel s; mret (s, e)
  else
    e ← ext (OsStat (NodeRoot +:+ NfsExportDirectory));
    _ ← (if is_some e then ext (OsMkdirAll (NodeRoot +:+ NfsExportDirectory) export_dir_mode) else mret None);
    _ ← go (nfs_server s);
    mret (s, None).

(** The address of the node, and the CIDR of the pods or, without one, [/8]
    around the address. *)
Definition set_network (node : Node) (s : CsiNfsService) : prog CsiNfsService :=
  let nodeIPAddress := match node_Addresses node with ip :: _ => ip | [] => cs_nodeIPAddress s end in
  podCIDR ← ext (OsGetenv EnvPodCIDR);
  mret (with_network nodeIPAddress
          (if String.eqb podCIDR "" then nodeIPAddress +:+ "/8" else podCIDR) s).

Definition node_name : prog string :=
  nodeName ← ext (OsGetenv EnvCSINodeName);
  if String.eqb nodeName "" then ext (OsGetenv EnvNodeName) else mret nodeName.

Definition BeforeServe (fuel : nat) (s : CsiNfsService) (ctx : context)
    : prog (CsiNfsService * option go_error) :=
  let mode := csictx_Getenv ctx EnvVarMode in
  nodeName ← node_name;
  if String.eqb nodeName "" then
    mret (with_environment mode nodeName (cs_nfsServerPort s) (cs_nfsClientServicePort s) s,
          Some (Errorf "X_CSI_NODE_NAME or NODE_NAME environment variable not set"))
  else
    serverPort ← ext (OsGetenv EnvNFSServerPort);
    clientPort ← ext (OsGetenv EnvNFSClientServicePort);
    let s := with_environment mode nodeName serverPort clientPort s in
    e ← validateGlobalVariables s;
    match e with
    | Some err => mret (s, Some err)
    | None =>
        e ← Connect;
        match e with
        | Some err => mret (s, Some err)
        | None =>
            r ← GetNode (cs_nodeName s);
            match r with
            | inr err => mret (s, Some err)
            | inl node => s ← set_network node s; start_mode fuel s
            end
        end
    end.
End Start.

(** ** A start that reports success is complete *)

Section Started.
Context `{Globals} `{Network} `{Gocsi} `{Recovery}.
Context {X : Type} `{Env X}.
Implicit Types w : world X.

Definition names_set : Prop := DriverNamespace <> "" /\ DriverName <> "".

Definition globals_valid (s : CsiNfsService) : Prop :=
  cs_mode s <> "" /\ names_set /\
  (cs_mode s = "node" -> NodeRoot <> "" /\ NfsExportDirectory <> "").

Lemma run_validateGlobalVariables s w :
  exists e x, run (validateGlobalVariables s) w = (Done e, set_env x w) /\
    (e = None -> globals_valid s).
Proof.
  assert (Hnames : exists e, validate_names = mret e /\ (e = None -> names_set)).
  { unfold validate_names, names_set. repeat case_match; eexists; (split; [done|]); try done.
    rewrite !String.eqb_neq in *. done. }
  destruct Hnames as (e & He & Hn). unfold validateGlobalVariables, globals_valid. rewrite He.
  destruct (String.eqb_spec (cs_mode s) ""); [eexists _, (w_env w); by rewrite set_env_id|].
  destruct (String.eqb_spec (cs_mode s) "node"); [|eexists _, (w_env w); rewrite set_env_id; split; [done|]; naive_solver].
  destruct (String.eqb_spec NodeRoot ""); [eexists _, (w_env w); by rewrite set_env_id|].
  rewrite run_bind. call_as r x. destruct r; [do 2 eexists; by split|].
  destruct (String.eqb_spec NfsExportDirectory ""); do 2 eexists; (split; [done|]); naive_solver.
Qed.

(** The monitors of a list of nodes. *)
Definition monitors (fuel : nat) (s : CsiNfsService) (nodes : list Node) : list (prog unit) :=
  pinger s fuel <$> List.filter (fun node => negb (isControlPlaneNode node)) nodes.

Lemma run_start_monitors fuel s nodes w :
  run (start_monitors fuel s nodes) w =
  (Done tt, set_spawned (w_spawned w ++ monitors fuel s nodes) w).
Proof.
  revert w. induction nodes as [|node nodes IH]; intros w; cbn [start_monitors].
  { destruct w. cbn. by rewrite app_nil_r. }
  rewrite run_bind. unfold startNodeMonitor, monitors. cbn [List.filter].
  destruct (isControlPlaneNode node); cbn [negb].
  - rewrite run_ret. apply IH.
  - change (run (go ?p) ?w) with (Done tt, spawn p w). cbv beta iota. rewrite IH.
    destruct w. cbn. by rewrite <- app_assoc.
Qed.

(** The goroutines that a started service runs. *)
Definition running (fuel : nat) (s : CsiNfsService) (ps : list (prog unit)) : Prop :=
  if String.eqb (cs_mode s) "node" then ps = [nfs_server s]
  else exists nodes x, (env_step KubeListNodes x).1 = inl nodes /\ ps = monitors fuel s nodes.

Lemma run_start_mode fuel s w :
  exists e x ps, run (start_mode fuel s) w = (Done (s, e), set_env x (set_spawned (w_spawned w ++ ps) w)) /\
    match e with None => running fuel s ps | Some _ => ps = [] end.
Proof.
  unfold start_mode, running. destruct (String.eqb (cs_mode s) "node"); cbn [negb].
  - rewrite run_bind. call_as r x. rewrite run_bind. destruct r as [e|]; cbn [is_some].
    + call_as r y. exists None, y, [nfs_server s]. split; [by destruct w|done].
    + exists None, x, [nfs_server s]. split; [by destruct w|done].
  - unfold startNodeMonitors, GetAllNodes. rewrite !run_bind. call_as r x. destruct r as [nodes|e].
    + rewrite run_bind, run_start_monitors. exists None, x, (monitors fuel s nodes).
      split; [by destruct w|]. exists nodes, (w_env w). by rewrite Ecall.
    + eexists (Some _), x, []. split; [|done]. cbn. destruct w. cbn. by rewrite app_nil_r.
Qed.

(** Fields that the start does not touch. *)
Definition same_identity (s s' : CsiNfsService) : Prop :=
  cs_provisionerName s' = cs_provisionerName s /\ cs_nodeID s' = cs_nodeID s /\
  cs_failureRetries s' = cs_failureRetries s /\
  cs_waitCreateNfsServiceInterval s' = cs_waitCreateNfsServiceInterval s.

(** C31: [BeforeServe] in any environment: it ends, and when it reports success
    the service is completely started.  Mode, node name, CIDR and the driver's
    variables are set, the export directory too in node mode; a node runs its
    NFS server and a controller one monitor for each node that the API listed
    and that is not of the control plane.  When it reports an error, nothing
    was started. *)
Theorem BeforeServe_starts (fuel : nat) (s : CsiNfsService) (ctx : context) w :
  exists s' e x ps, run (BeforeServe fuel s ctx) w =
      (Done (s', e), set_env x (set_spawned (w_spawned w ++ ps) w)) /\
    same_identity s s' /\ cs_mode s' = csictx_Getenv ctx EnvVarMode /\
    match e with
    | None => globals_valid s' /\ cs_nodeName s' <> "" /\ cs_podCIDR s' <> "" /\ running fuel s' ps
    | Some _ => ps = []
    end.
Proof.
  assert (Hnil : forall x, set_env x w = set_env x (set_spawned (w_spawned w ++ []) w)).
  { intros x. destruct w. cbn. by rewrite app_nil_r. }
  unfold BeforeServe. rewrite run_bind.
  assert (Hname : exists n x, run node_name w = (Done n, set_env x w)).
  { unfold node_name. rewrite run_bind. call_as n x. destruct (String.eqb n ""); [|by do 2 eexists].
    call_as n' y. by do 2 eexists. }
  destruct Hname as (n & x1 & ->). destruct (String.eqb_spec n "") as [->|Hn].
  { do 4 eexists. split; [by rewrite Hnil|]. by repeat split. }
  rewrite run_bind. call_as p1 x2. rewrite run_bind. call_as p2 x3. rewrite run_bind.
  set (s1 := with_environment _ n p1 p2 s).
  destruct (run_validateGlobalVariables s1 (set_env x3 w)) as (e & x4 & -> & Hvalid).
  autorewrite with goenv. destruct e as [e|].
  { do 4 eexists. split; [by rewrite Hnil|]. by repeat split. }
  assert (Hconn : forall v : world X, exists e x, run Connect v = (Done e, set_env x v)).
  { intros v. unfold Connect, RestInClusterConfigFunc, NewForConfigFunc. rewrite run_bind. call_as r x.
    destruct r; [by do 2 eexists|]. rewrite run_bind. call_as r y. destruct r; by do 2 eexists. }
  rewrite run_bind. destruct (Hconn (set_env x4 w)) as (r & x5 & ->). autorewrite with goenv. destruct r as [e|].
  { do 4 eexists. split; [by rewrite Hnil|]. by repeat split. }
  unfold GetNode.
  rewrite run_bind. call_as r x6. destruct r as [node|e].
  2: { do 4 eexists. split; [by rewrite Hnil|]. by repeat split. }
  rewrite run_bind. unfold set_network. rewrite run_bind. call_as cidr x7. rewrite run_ret.
  set (s2 := with_network _ _ s1).
  destruct (run_start_mode fuel s2 (set_env x7 w)) as (e & x8 & ps & -> & He).
  exists s2, e, x8, ps. split; [by destruct w|]. split; [by repeat split|]. split; [done|].
  destruct e as [e|]; [done|]. split; [by apply Hvalid|]. split; [done|]. split; [|done].
  unfold s2, with_network. cbn. destruct (String.eqb_spec cidr ""); [|done].
  match goal with |- ?a +:+ _ <> _ => by destruct a end.
Qed.
End Started.
