(* ===== verification/Controller.v ===== *)
(** * The controller service ([src/nfs/controller.go])

    Publishing a volume to a first node makes that node the NFS server of the
    volume: the host driver attaches it there, the node exports it, and an
    EndpointSlice and a Service are created; publishing to a further node adds
    a client label to the Service.  Unpublishing removes the label, and with
    the last one everything else.  A handler changes the request that it was
    given; the model names the changed request, and captures the arguments of
    deferred calls when they are deferred, as Go does. *)

From S2P Require Import Prelude GoStrings Messages GoProg Naming Exports Json Config K8s NfsServer NodeMonitor.

Definition DefaultNFSServerPort : string := "2049".

Definition blockVolumeCapability : VolumeCapability :=
  {| cap_AccessType := AccessBlock; cap_AccessMode := MULTI_NODE_MULTI_WRITER |}.

(** [cs.LockPV]: a spin lock; [fuel] bounds the number of attempts. *)
Fixpoint LockPV (fuel : nat) (name requestID : string) (highPriority : bool) : prog unit :=
  match fuel with
  | O => NoFuel (Waits PVLock name)
  | S fuel =>
      let sleepTime := if highPriority then second / 5 else 3 * second in
      '(_, loaded) ← loc (LoadOrStore PVLock name requestID);
      if loaded : bool then _ ← ext (Sleep sleepTime); LockPV fuel name requestID highPriority
      else mret tt
  end.

Definition UnlockPV (name : string) : prog unit := loc (Delete PVLock name).

(** [maps.Copy(dst, src)] *)
Definition maps_Copy (dst : gmap string string) (src : gomap) : gmap string string :=
  default ∅ src ∪ dst.

(** The port number of the created objects. *)
Definition port_number (nfsServerPort : string) : Z :=
  int32 (match Atoi nfsServerPort with
         | Some port => port
         | None => default 0 (Atoi DefaultNFSServerPort)
         end).

Definition client_label (nodeID : string) : string := "client/" +:+ nodeID.

Section Controller.
Context `{UnicodeTables} `{Globals} `{Printing} (cs : CsiNfsService).

Definition CreateVolume (req : CreateVolumeRequest) : prog (pair_err (option CreateVolumeResponse)) :=
  let subreq := {| cv_Name := cv_Name req;
                   cv_Parameters := mdelete (cv_Parameters req) CsiNfsParameter;
                   cv_VolumeCapabilities := [blockVolumeCapability] |} in
  '(resp, err) ← ext (VcsiCreateVolume subreq);
  match err with
  | Some e => mret (resp, Some e)
  | None =>
      match resp ≫= cvr_Volume with
      | None => Panic "invalid memory address or nil pointer dereference"
      | Some v =>
          mret (Some {| cvr_Volume := Some {| vol_VolumeId := ArrayToNFSVolumeID (vol_VolumeId v);
                                              vol_VolumeContext := vol_VolumeContext v |} |}, None)
      end
  end.

(** Slice and service of a volume: both, or an error and neither. *)
Definition getServiceAndSlice (serviceName : string)
    : prog (pair_err (option Service * option EndpointSlice)) :=
  r ← GetEndpointSlice DriverNamespace serviceName;
  match r with
  | inr e => mret ((None, None), Some e)
  | inl endpoint =>
      r ← GetService DriverNamespace serviceName;
      match r with
      | inr e => mret ((None, None), Some e)
      | inl service => mret ((Some service, Some endpoint), None)
      end
  end.

Definition callExportNfsVolume (nodeIPAddress : string) (req : ExportNfsVolumeRequest)
    : prog (result ExportNfsVolumeResponse) :=
  client ← getNfsClient nodeIPAddress (cs_nfsClientServicePort cs);
  match client with
  | inr e => mret (inr e)
  | inl address => ext (RpcExport address req)
  end.

Definition callUnexportNfsVolume (nodeIPAddress : string) (req : UnexportNfsVolumeRequest)
    : prog (result UnexportNfsVolumeResponse) :=
  client ← getNfsClient nodeIPAddress (cs_nfsClientServicePort cs);
  match client with
  | inr e => mret (inr e)
  | inl address => ext (RpcUnexport address req)
  end.

(** The loop [exportRetry]: it ends with the first success or with the
    context. *)
Fixpoint export_retry (fuel : nat) (ctx : context) (nodeIPAddress : string)
    (req : ExportNfsVolumeRequest) : prog (option go_error) :=
  match fuel with
  | O => NoFuel Retries
  | S fuel =>
      select_call ctx (callExportNfsVolume nodeIPAddress req)
        (fun e => mret (Some (status_Errorf codes_DeadlineExceeded (err_text e))))
        (fun r =>
           match r with
           | inl _ => mret None
           | inr _ => _ ← ext (Sleep (10 * second)); export_retry fuel ctx nodeIPAddress req
           end)
  end.

Definition new_slice (namespace name pvName nodeIPAddress nodeID arrayID : string) : EndpointSlice :=
  {| es_Name := name;
     es_Namespace := namespace;
     es_Labels := Some {["nodeID" := nodeID; "nodeIP" := nodeIPAddress;
                         "kubernetes.io/service-name" := name; "pvName" := pvName]};
     es_Annotations := Some {[DriverVolumeID := arrayID]};
     es_Endpoints := [{| ep_Addresses := [nodeIPAddress]; ep_Ready := Some true |}];
     es_Ports := [("nfs-server", port_number (cs_nfsServerPort cs))] |}.

Definition new_service (namespace name pvName nodeIPAddress nodeID arrayID : string) : Service :=
  {| svc_Name := name;
     svc_Namespace := namespace;
     svc_Labels := Some {["NodeId" := nodeID; client_label nodeID := nodeID;
                          "NodeIp" := nodeIPAddress; "pvName" := pvName]};
     svc_Annotations := Some {[DriverVolumeID := arrayID]};
     svc_ClusterIP := "";
     svc_Ports := [("nfs-server", port_number (cs_nfsServerPort cs))] |}.

(** The end of [makeNfsService]: first the slice, then the service. *)
Definition create_objects (namespace name pvName nodeIPAddress nodeID arrayID : string)
    : prog (pair_err (option Service)) :=
  r ← CreateEndpointSlice namespace (new_slice namespace name pvName nodeIPAddress nodeID arrayID);
  match r with
  | inr e => mret (None, Some e)
  | inl _ =>
      r ← CreateService namespace (new_service namespace name pvName nodeIPAddress nodeID arrayID);
      match r with
      | inr e => mret (None, Some e)
      | inl service => mret (Some service, None)
      end
  end.

Definition makeNfsService (fuel : nat) (ctx : context) (namespace name pvName nodeIPAddress : string)
    (req : ControllerPublishVolumeRequest) : prog (pair_err (option Service)) :=
  let nodeID := pub_NodeId req in
  let arrayID := ToArrayVolumeID (pub_VolumeId req) in
  match pub_VolumeContext req with
  | None => Panic "assignment to entry in nil map"
  | Some volumeContext =>
      let volumeContext := <["shared-nfs" := ""]> volumeContext in
      '(subpublishResponse, err) ← ext (VcsiControllerPublish
          {| pub_VolumeId := arrayID; pub_NodeId := nodeID;
             pub_VolumeCapability := Some blockVolumeCapability;
             pub_VolumeContext := Some volumeContext |});
      match err, subpublishResponse with
      | Some e, _ => mret (None, Some e)
      | None, None => Panic "invalid memory address or nil pointer dereference"
      | None, Some subpublishResponse =>
          let exportContext := maps_Copy (<[ServiceName := name]> volumeContext)
                                         (pubr_PublishContext subpublishResponse) in
          err ← export_retry fuel ctx nodeIPAddress
                  {| exreq_VolumeId := ArrayToNFSVolumeID arrayID;
                     exreq_ExportNfsContext := Some exportContext |};
          match err with
          | Some e => mret (None, Some e)
          | None =>
              create_objects namespace name pvName nodeIPAddress nodeID arrayID
          end
      end
  end.

Definition with_labels (labels : gomap) (service : Service) : Service :=
  {| svc_Name := svc_Name service; svc_Namespace := svc_Namespace service; svc_Labels := labels;
     svc_Annotations := svc_Annotations service; svc_ClusterIP := svc_ClusterIP service;
     svc_Ports := svc_Ports service |}.

Definition addNodeToNfsService (service : Service) (req : ControllerPublishVolumeRequest)
    : prog (pair_err (option Service)) :=
  let nodeID := pub_NodeId req in
  if String.eqb (mget (svc_Labels service) (client_label nodeID)) "" then
    match svc_Labels service with
    | None => Panic "assignment to entry in nil map"
    | Some labels =>
        let service := with_labels (Some (<[client_label nodeID := nodeID]> labels)) service in
        r ← UpdateService (svc_Namespace service) service;
        mret (match r with
              | inr e => (None, Some e)
              | inl _ => (Some service, None)
              end)
    end
  else mret (Some service, None).

Definition count_clients (labels : gomap) : nat :=
  List.length (List.filter (fun k => HasPrefix k "client/") (fst <$> map_to_list (default ∅ labels))).

(** Whether the last client was removed, the updated service, the error. *)
Definition removeNodeFromNfsService (service : Service) (req : ControllerUnpublishVolumeRequest)
    : prog (bool * result Service) :=
  let labels := mdelete (svc_Labels service) (client_label (unpub_NodeId req)) in
  let nclients := count_clients labels in
  r ← UpdateService (svc_Namespace service) (with_labels labels service);
  mret (Nat.eqb nclients 0, r).

(** [nodeStatus == nil || !nodeStatus.online || nodeStatus.inRecovery] *)
Definition node_unavailable (nodeStatus : option nat) : prog bool :=
  match nodeStatus with
  | None => mret true
  | Some p =>
      online ← read_status p ns_online;
      if negb online then mret true else read_status p ns_inRecovery
  end.

Definition publish_locked (fuel : nat) (ctx : context) (req : ControllerPublishVolumeRequest)
    : prog (pair_err (option ControllerPublishVolumeResponse)) :=
  let name := mget (pub_VolumeContext req) "Name" in
  let serviceName := VolumeIDToServiceName (pub_VolumeId req) in
  let namespace := DriverNamespace in
  r ← GetNodeByCSINodeID DriverName (pub_NodeId req);
  match r with
  | inr e => mret (None, Some (status_Errorf codes_Internal
                     ("could not retrieve Node " +:+ pub_NodeId req +:+ ": " +:+ err_text e)))
  | inl node =>
      match node_Addresses node with
      | [] => mret (None, Some (status_Errorf codes_Internal
                       ("could not determine address of Node " +:+ pub_NodeId req)))
      | nodeIPAddress :: _ =>
          '((service, endpoint), _) ← getServiceAndSlice serviceName;
          let resp := {| pubr_PublishContext :=
                           Some {["name" := name; CsiNfsPrefix := serviceName]} |} in
          match service, endpoint with
          | None, None =>
              nodeStatus ← GetNodeStatus nodeIPAddress;
              unavailable ← node_unavailable nodeStatus;
              if unavailable : bool then
                mret (None, Some (status_Errorf codes_ResourceExhausted
                  ("Node  " +:+ pub_NodeId req +:+ " (" +:+ nodeIPAddress
                     +:+ ") is not online or is in node recovery")))
              else
                '(_, err) ← makeNfsService fuel ctx namespace serviceName name nodeIPAddress req;
                mret (Some resp, err)
          | Some service, Some _ =>
              '(_, err) ← addNodeToNfsService service req;
              mret (Some resp, err)
          | _, _ => mret (Some {| pubr_PublishContext := None |}, None)
          end
      end
  end.

Definition ControllerPublishVolume (lockFuel fuel : nat) (ctx : context)
    (req : ControllerPublishVolumeRequest)
    : prog (pair_err (option ControllerPublishVolumeResponse)) :=
  _ ← LockPV lockFuel (pub_VolumeId req) (getRequestIDFromContext ctx) false;
  deferred (publish_locked fuel ctx req) (UnlockPV (pub_VolumeId req)).

(** The address of the first endpoint; an endpoint without address panics. *)
Definition first_address (slice : EndpointSlice) : prog string :=
  match es_Endpoints slice with
  | [] => mret ""
  | ep :: _ =>
      match ep_Addresses ep with
      | [] => Panic "index out of range"
      | a :: _ => mret a
      end
  end.

(** The node is gone: its NFS server cannot be asked to unexport. *)
Definition node_down (e : go_error) : bool :=
  Contains (err_text e) "i/o timeout" || Contains (err_text e) "no route to host".

(** The end of [ControllerUnpublishVolume] for the last client: the slice, the
    service, and the attachment to the node that served the volume. *)
Definition delete_objects (req : ControllerUnpublishVolumeRequest) (serviceName : string)
    (service : Service) (slice : EndpointSlice)
    : prog (pair_err (option ControllerUnpublishVolumeResponse)) :=
  err ← DeleteEndpointSlice (es_Namespace slice) serviceName;
  match err with
  | Some e => mret (None, Some e)
  | None =>
      err ← DeleteService (svc_Namespace service) serviceName;
      match err with
      | Some e => mret (None, Some e)
      | None =>
          ext (VcsiControllerUnpublish
                 {| unpub_VolumeId := ToArrayVolumeID (unpub_VolumeId req);
                    unpub_NodeId := mget (es_Labels slice) "nodeID" |})
      end
  end.

Definition unpublish_last (req : ControllerUnpublishVolumeRequest) (serviceName nodeIPAddress : string)
    (service : Service) (slice : EndpointSlice)
    : prog (pair_err (option ControllerUnpublishVolumeResponse)) :=
  r ← callUnexportNfsVolume nodeIPAddress
        {| unreq_VolumeId := unpub_VolumeId req;
           unreq_UnexportNfsContext := Some {[ServiceName := serviceName]} |};
  match r with
  | inr e =>
      if negb (node_down e) then mret (Some Unpublished, Some e)
      else delete_objects req serviceName service slice
  | inl _ => delete_objects req serviceName service slice
  end.

Definition unpublish_locked (req : ControllerUnpublishVolumeRequest)
    : prog (pair_err (option ControllerUnpublishVolumeResponse)) :=
  let serviceName := VolumeIDToServiceName (unpub_VolumeId req) in
  '((service, slice), err) ← getServiceAndSlice serviceName;
  match err with
  | Some e =>
      if Contains (err_text e) "not found" then mret (Some Unpublished, None)
      else mret (None, Some e)
  | None =>
      match service, slice with
      | Some service, Some slice =>
          nodeIPAddress ← first_address slice;
          if String.eqb nodeIPAddress "" then
            mret (None, Some (Errorf ("no IP address found for endpointslice: " +:+ show_slice slice)))
          else
            '(last, r) ← removeNodeFromNfsService service req;
            match r with
            | inr e =>
                mret (None, Some (Errorf ("removeNodeFromNfsService failed: " +:+ err_text e)))
            | inl service =>
                if last : bool then unpublish_last req serviceName nodeIPAddress service slice
                else mret (Some Unpublished, None)
            end
      | _, _ => Panic "invalid memory address or nil pointer dereference"
      end
  end.

Definition ControllerUnpublishVolume (lockFuel : nat) (ctx : context)
    (req : ControllerUnpublishVolumeRequest)
    : prog (pair_err (option ControllerUnpublishVolumeResponse)) :=
  _ ← LockPV lockFuel (unpub_VolumeId req) (getRequestIDFromContext ctx) false;
  deferred (unpublish_locked req) (UnlockPV (unpub_VolumeId req)).
End Controller.

(** ** Footprints and the volume lock *)

Section Footprint.
Context `{UnicodeTables} `{Globals} `{Printing} (cs : CsiNfsService).
Local Abbreviation unlocked := (fun B (e : locE B) => touches_map PVLock e = false).
Local Ltac unfold_calls :=
  unfold callExportNfsVolume, callUnexportNfsVolume, getNfsClient, getServiceAndSlice,
    GetEndpointSlice, GetService, CreateEndpointSlice, CreateService, UpdateService,
    DeleteEndpointSlice, DeleteService, GetNodeByCSINodeID, GetNodeStatus, read_status,
    addNodeToNfsService, removeNodeFromNfsService, node_unavailable, first_address.

Lemma export_retry_ops fuel ctx ip req : all_ops unlocked (export_retry cs fuel ctx ip req).
Proof. induction fuel; cbn [export_retry]; unfold_calls; walk_ops reflexivity. Qed.
#[local] Hint Resolve export_retry_ops : goprog.

Lemma makeNfsService_ops fuel ctx a b c d req :
  all_ops unlocked (makeNfsService cs fuel ctx a b c d req).
Proof. unfold makeNfsService, create_objects; unfold_calls; walk_ops reflexivity. Qed.
#[local] Hint Resolve makeNfsService_ops : goprog.

Lemma publish_locked_ops fuel ctx req : all_ops unlocked (publish_locked cs fuel ctx req).
Proof. unfold publish_locked; unfold_calls; walk_ops reflexivity. Qed.

Lemma unpublish_locked_ops req : all_ops unlocked (unpublish_locked cs req).
Proof. unfold unpublish_locked, unpublish_last, delete_objects; unfold_calls; walk_ops reflexivity. Qed.
End Footprint.
#[export] Hint Resolve publish_locked_ops unpublish_locked_ops : goprog.

Section VolumeLock.
Context {X : Type} `{Env X}.
Implicit Types w : world X.

Lemma run_LockPV fuel id requestID high w :
  w_PVLock w !! id = None ->
  run (LockPV (S fuel) id requestID high) w =
  (Done tt, set_lockmap PVLock (<[id:=requestID]> (w_PVLock w)) w).
Proof. intros Hid. cbn. by rewrite Hid. Qed.

(** A handler's critical section for a volume that nobody works on. *)
Lemma run_pv_section {A} fuel id requestID high (p : prog A) w :
  w_PVLock w !! id = None ->
  all_ops (fun B (e : locE B) => touches_map PVLock e = false) p ->
  let w1 := set_lockmap PVLock (<[id:=requestID]> (w_PVLock w)) w in
  run (_ ← LockPV (S fuel) id requestID high; deferred p (UnlockPV id)) w =
  ((run p w1).1,
   match (run p w1).1 with
   | Done _ | Panicked _ => set_lockmap PVLock (w_PVLock w) (run p w1).2
   | _ => (run p w1).2
   end).
Proof.
  intros Hid Hp. cbv zeta. rewrite run_bind, run_LockPV by done.
  exact (run_deferred_unlock PVLock id requestID p w Hp Hid).
Qed.
End VolumeLock.

(** ** Behaviour in every environment *)

Section ControllerOutcomes.
Context `{UnicodeTables} `{Globals} `{Printing} (cs : CsiNfsService) (R : Prop) (S : Prop).
Local Abbreviation oks := (outcomes R S (fun _ => True)).
Local Ltac unfold_calls :=
  unfold callExportNfsVolume, callUnexportNfsVolume, getNfsClient,
    GetEndpointSlice, GetService, CreateEndpointSlice, CreateService, UpdateService,
    DeleteEndpointSlice, DeleteService, GetNodeByCSINodeID, GetNodeStatus, read_status,
    addNodeToNfsService, removeNodeFromNfsService, node_unavailable, first_address.

(** Slice and service are returned together or not at all. *)
Definition both_or_error (r : pair_err (option Service * option EndpointSlice)) : Prop :=
  match r with
  | ((Some _, Some _), None) => True
  | ((None, None), Some _) => True
  | _ => False
  end.

Lemma getServiceAndSlice_both name : outcomes R S both_or_error (getServiceAndSlice name).
Proof. unfold getServiceAndSlice; unfold_calls. walk_outcomes; done. Qed.

#[local] Hint Resolve getServiceAndSlice_both : gopost.

Lemma export_retry_outcomes fuel ctx ip req : S -> oks (export_retry cs fuel ctx ip req).
Proof. intros HS. induction fuel; cbn [export_retry]; unfold_calls; walk_outcomes; done. Qed.

Lemma makeNfsService_outcomes fuel ctx a b c d req :
  R -> S -> oks (makeNfsService cs fuel ctx a b c d req).
Proof.
  intros HR HS. pose proof (fun ip r => export_retry_outcomes fuel ctx ip r HS).
  unfold makeNfsService, create_objects; unfold_calls. walk_outcomes; done.
Qed.

(** A successful publish answers the context that the node plugin needs. *)
Definition publish_context (req : ControllerPublishVolumeRequest) : ControllerPublishVolumeResponse :=
  {| pubr_PublishContext :=
       Some {["name" := mget (pub_VolumeContext req) "Name";
              CsiNfsPrefix := VolumeIDToServiceName (pub_VolumeId req)]} |}.

Lemma publish_locked_outcomes fuel ctx req :
  R -> S ->
  outcomes R S (fun r => r.2 = None -> r.1 = Some (publish_context req)) (publish_locked cs fuel ctx req).
Proof.
  intros HR HS. pose proof (fun a b c d => makeNfsService_outcomes fuel ctx a b c d req HR HS).
    unfold publish_locked; unfold_calls. walk_outcomes; done.
Qed.

Lemma unpublish_locked_outcomes req : R -> oks (unpublish_locked cs req).
Proof.
  intros HR. unfold unpublish_locked, unpublish_last, delete_objects, getServiceAndSlice; unfold_calls.
  walk_outcomes; done.
Qed.
End ControllerOutcomes.

Section AnyEnvironment.
Context `{UnicodeTables} `{Globals} `{Printing} (cs : CsiNfsService) {X : Type} `{Env X}.
Implicit Types w : world X.

(** C19: [ControllerPublishVolume] in any environment, for a volume nobody works
    on: it never blocks; when it returns, and also when it panics, the volume
    lock is as before; and when it reports success the response carries the
    publish context with the volume's name and service name, so that the code
    for a service without slice (or a slice without service), which answers
    an empty response, is never reached. *)
Theorem ControllerPublishVolume_any_environment (lockFuel fuel : nat) (ctx : context)
    (req : ControllerPublishVolumeRequest) w (Hlock : w_PVLock w !! pub_VolumeId req = None) :
  let '(o, w') := run (ControllerPublishVolume cs (S lockFuel) fuel ctx req) w in
  match o with
  | Done (resp, err) =>
      w_PVLock w' = w_PVLock w /\ (err = None -> resp = Some (publish_context req))
  | Panicked _ => w_PVLock w' = w_PVLock w
  | Exhausted => True
  | Blocked => False
  end.
Proof.
  unfold ControllerPublishVolume. rewrite run_pv_section by (done || auto with goprog).
  match goal with |- context [run (publish_locked cs fuel ctx req) ?w1] =>
    pose proof (run_outcomes True True _ _ w1 (publish_locked_outcomes cs True True fuel ctx req I I)) as Ho;
    destruct (run (publish_locked cs fuel ctx req) w1) as [o w'] end.
  cbn in *. destruct o as [[resp err]|msg| |]; try done; by destruct w'.
Qed.

(** C20: [ControllerUnpublishVolume] in any environment, for a volume nobody
    works on: it terminates with the volume lock as before; a slice that is
    reported as not found means success with nothing else called, and any
    other failure to get it is returned. *)
Theorem ControllerUnpublishVolume_any_environment (lockFuel : nat) (ctx : context)
    (req : ControllerUnpublishVolumeRequest) w (Hlock : w_PVLock w !! unpub_VolumeId req = None) :
  let '(o, w') := run (ControllerUnpublishVolume cs (S lockFuel) ctx req) w in
  w_PVLock w' = w_PVLock w /\
  match o with Done _ | Panicked _ => True | Exhausted | Blocked => False end /\
  forall e x,
    env_step (KubeGetSlice DriverNamespace (VolumeIDToServiceName (unpub_VolumeId req))) (w_env w)
      = (inr e, x) ->
    o = Done (if Contains (err_text e) "not found" then (Some Unpublished, None) else (None, Some e)) /\
    w' = set_env x w.
Proof.
  unfold ControllerUnpublishVolume. rewrite run_pv_section by (done || auto with goprog).
  set (w1 := set_lockmap PVLock _ w).
  pose proof (run_outcomes True False _ _ w1 (unpublish_locked_outcomes cs True False req I)) as Ho.
  assert (Hfound : forall e x,
    env_step (KubeGetSlice DriverNamespace (VolumeIDToServiceName (unpub_VolumeId req))) (w_env w)
      = (inr e, x) ->
    run (unpublish_locked cs req) w1 =
    (Done (if Contains (err_text e) "not found" then (Some Unpublished, None) else (None, Some e)),
     set_env x w1)).
  { intros e x E. unfold unpublish_locked, getServiceAndSlice, GetEndpointSlice.
    rewrite !run_bind.
    assert (E1 : w_env w1 = w_env w) by by destruct w.
    rewrite (run_ext (KubeGetSlice DriverNamespace (VolumeIDToServiceName (unpub_VolumeId req)))
               w1 (inr e) x) by (done || by rewrite E1).
    cbn. by destruct (Contains (err_text e) "not found"). }
  destruct (run (unpublish_locked cs req) w1) as [o w']. cbn in *.
  split; [destruct o; try done; by destruct w'|]. split; [by destruct o|].
  intros e x E. apply Hfound in E as [= -> ->]. split; [done|]. by destruct w.
Qed.
End AnyEnvironment.

(** ** Termination: the retry loop ends at the deadline

    A context with a deadline: time only passes, a pause makes it pass, and
    once no time remains the context is done. *)

Class Deadline (X : Type) `{Env X} := {
  remaining : X -> nat;
  remaining_step B (e : extE B) x : (remaining (env_step e x).2 <= remaining x)%nat;
  remaining_sleep ns x :
    0 < ns -> (remaining (env_step (Sleep ns) x).2 <= Nat.pred (remaining x))%nat;
  remaining_done ctx x : remaining x = O -> (env_step (SelectDone ctx) x).1 <> None;
}.

Section Termination.
Context `{UnicodeTables} `{Globals} `{Printing} (cs : CsiNfsService) {X : Type} `{Deadline X}.
Implicit Types w : world X.

Lemma remaining_ext {B} (e : extE B) w :
  (remaining (w_env (ext_step e w).2) <= remaining (w_env w))%nat.
Proof.
  unfold ext_step. pose proof (remaining_step B e (w_env w)) as Hs.
  destruct (env_step e (w_env w)) as [b x]. cbn in *.
  assert (E : w_env (note_exec e b (set_env x w)) = x); [|by rewrite E].
  destruct w, e; cbn; try case_match; done.
Qed.

Lemma remaining_loc {B} (e : locE B) w b w' : loc_step e w = Some (b, w') -> w_env w' = w_env w.
Proof.
  intros Hs. destruct w, e; cbn in *; repeat case_match; simplify_eq; try done;
    by destruct m || by destruct v.
Qed.

Lemma run_remaining {A} (p : prog A) w :
  (remaining (w_env (run p w).2) <= remaining (w_env w))%nat.
Proof.
  revert w. induction p as [A a|A msg|A|A B e k IH|A B e k IH|A q IHq k IH]; intros w; cbn; try lia.
  - destruct (loc_step e w) as [[b w']|] eqn:Hs; [|cbn; lia].
    apply remaining_loc in Hs. rewrite <- Hs. apply IH.
  - pose proof (remaining_ext e w) as He. destruct (ext_step e w) as [b w']. cbn in *.
    etrans; [apply IH|done].
  - etrans; [apply IH|]. by destruct w.
Qed.

(** [p] ends before the fuel does, when less than [n] time remains. *)
Definition ends_within (n : nat) {A} (p : prog A) : Prop :=
  forall w, (remaining (w_env w) < n)%nat -> (run p w).1 <> Exhausted.

Lemma ends_bind n {A B} (p : prog A) (f : A -> prog B) :
  ends_within n p -> (forall a, ends_within n (f a)) -> ends_within n (p ≫= f).
Proof.
  intros Hp Hf w Hw. rewrite run_bind. specialize (Hp w Hw). pose proof (run_remaining p w) as Hr.
  destruct (run p w) as [[a|msg| |] w']; cbn in *; try done. apply Hf. lia.
Qed.

Lemma ends_total n {A} (p : prog A) : outcomes True False (fun _ => True) p -> ends_within n p.
Proof.
  intros Hp w _. pose proof (run_outcomes _ _ _ _ w Hp) as Ho. by destruct (run p w) as [[] ?].
Qed.

Lemma callExport_total ip req : outcomes True False (fun _ => True) (callExportNfsVolume cs ip req).
Proof. unfold callExportNfsVolume, getNfsClient. walk_outcomes; done. Qed.

Lemma export_retry_ends fuel ctx ip req : ends_within fuel (export_retry cs fuel ctx ip req).
Proof.
  induction fuel as [|fuel IH]; intros w Hw; [lia|]. cbn [export_retry]. unfold select_call.
  rewrite run_bind. destruct (env_step (SelectDone ctx) (w_env w)) as [d x] eqn:E.
  rewrite (run_ext (SelectDone ctx) w d x eq_refl E).
  pose proof (remaining_step _ (SelectDone ctx) (w_env w)) as Hstep.
  pose proof (remaining_done ctx (w_env w)) as Hdone. rewrite E in *. cbn in Hstep, Hdone.
  destruct d as [e|]; [done|]. rewrite run_bind.
  assert (Hx : w_env (set_env x w) = x) by apply w_env_set_env.
  pose proof (ends_total (S fuel) _ (callExport_total ip req) (set_env x w)) as Hcall.
  pose proof (run_remaining (callExportNfsVolume cs ip req) (set_env x w)) as Hrem.
  rewrite Hx in *. specialize (Hcall ltac:(lia)).
  destruct (run (callExportNfsVolume cs ip req) (set_env x w)) as [[r|msg| |] w']; try done.
  destruct r as [r|e]; [done|]. cbn in Hrem. rewrite run_bind.
  destruct (env_step (Sleep (10 * second)) (w_env w')) as [u y] eqn:E'.
  rewrite (run_ext (Sleep (10 * second)) w' u y eq_refl E'). apply IH.
  pose proof (remaining_sleep (10 * second) (w_env w')) as Hsl. rewrite E' in Hsl.
  rewrite w_env_set_env. cbn in Hsl. specialize (Hsl ltac:(unfold second; lia)). 
  destruct (decide (remaining (w_env w) = 0%nat)) as [Hz|Hz]; [by destruct (Hdone Hz)|]. lia.
Qed.

(** C21: [ControllerPublishVolume] ends: although the export of the volume is
    retried without a limit, the handler returns before the retry loop has
    turned more often than time units remain until the request's deadline. *)
Theorem ControllerPublishVolume_ends (lockFuel fuel : nat) (ctx : context)
    (req : ControllerPublishVolumeRequest) w
    (Hlock : w_PVLock w !! pub_VolumeId req = None) (Hfuel : (remaining (w_env w) < fuel)%nat) :
  (run (ControllerPublishVolume cs (S lockFuel) fuel ctx req) w).1 <> Exhausted /\
  (run (ControllerPublishVolume cs (S lockFuel) fuel ctx req) w).1 <> Blocked.
Proof.
  unfold ControllerPublishVolume. rewrite run_pv_section by (done || auto with goprog). cbn [fst].
  set (w1 := set_lockmap PVLock _ w). split.
  - assert (Hends : ends_within fuel (publish_locked cs fuel ctx req)); [|apply Hends; by destruct w].
    assert (Hmake : forall a b c d, ends_within fuel (makeNfsService cs fuel ctx a b c d req)).
    { intros a b c d. unfold makeNfsService, create_objects, CreateEndpointSlice, CreateService.
      destruct (pub_VolumeContext req) as [m|]; [|by apply ends_total].
      apply ends_bind; [by apply ends_total|]. intros [[r|] [e|]]; try by apply ends_total.
      apply ends_bind; [apply export_retry_ends|]. intros err. apply ends_total. walk_outcomes; done. }
    unfold publish_locked. apply ends_bind.
    { apply ends_total. unfold GetNodeByCSINodeID. walk_outcomes; done. }
    intros [node|e]; [|by apply ends_total]. destruct (node_Addresses node) as [|ip others];
      [by apply ends_total|]. apply ends_bind.
    { apply ends_total. unfold getServiceAndSlice, GetEndpointSlice, GetService. walk_outcomes; done. }
    intros [[[svc|] [sl|]] err]; try by apply ends_total.
    + apply ends_total. unfold addNodeToNfsService, UpdateService. walk_outcomes; done.
    + apply ends_bind; [apply ends_total; unfold GetNodeStatus; walk_outcomes; done|]. intros st.
      apply ends_bind; [apply ends_total; unfold node_unavailable, read_status; walk_outcomes; done|].
      intros [|]; [by apply ends_total|]. apply ends_bind; [apply Hmake|].
      intros [s err']. by apply ends_total.
  - pose proof (run_outcomes True True _ _ w1 (publish_locked_outcomes cs True True fuel ctx req I I)) as Ho.
    by destruct (run (publish_locked cs fuel ctx req) w1) as [[] ?].
Qed.
End Termination.

(** ** Ports *)

(** the port of the created objects always fits 32 bits; a port that the
    configuration gives in decimal and that fits is used as it is, a text that
    is not a number means 2049; a larger number is cut to its low 32 bits, not
    rejected. *)
Theorem port_number_range (port : string) :
  - 2 ^ 31 <= port_number port < 2 ^ 31 /\
  (forall p, Atoi port = Some p -> - 2 ^ 31 <= p < 2 ^ 31 -> port_number port = p) /\
  (Atoi port = None -> port_number port = 2049) /\
  port_number "4294969345" = 2049.
Proof.
  unfold port_number. split; [apply int32_range|]. split; [|split].
  - intros p -> Hp. by apply int32_id.
  - intros ->. vm_compute. reflexivity.
  - vm_compute. reflexivity.
Qed.

(** ** Witnesses *)

Section Witnesses.
#[local] Existing Instance ascii_tables.
#[local] Existing Instance demo_globals.
#[local] Existing Instance demo_printing.

Definition demo_publish : ControllerPublishVolumeRequest :=
  {| pub_VolumeId := "nfs-v1"; pub_NodeId := "csi-1"; pub_VolumeCapability := None;
     pub_VolumeContext := Some ∅ |}.

Lemma ControllerPublishVolume_any_environment_witness :
  w_PVLock (run (H := calm) (ControllerPublishVolume demo_service 1 1 Background demo_publish)
              (initial_world "" tt)).2 = ∅.
Proof.
  pose proof (ControllerPublishVolume_any_environment (H2 := calm) demo_service 0 1 Background
                demo_publish (initial_world "" tt) eq_refl) as Hp.
  destruct (run (H := calm) (ControllerPublishVolume demo_service 1 1 Background demo_publish)
              (initial_world "" tt)) as [[[resp err]|msg| |] w'] eqn:E.
  - exact (proj1 Hp).
  - exact Hp.
  - vm_compute in E. discriminate E.
  - destruct Hp.
Defined.

Lemma ControllerUnpublishVolume_any_environment_witness :
  (run (H := calm) (ControllerUnpublishVolume demo_service 1 Background
                      {| unpub_VolumeId := "nfs-v1"; unpub_NodeId := "csi-1" |})
     (initial_world "" tt)).1 = Done (Some Unpublished, None).
Proof.
  pose proof (ControllerUnpublishVolume_any_environment (H2 := calm) demo_service 0 Background
                {| unpub_VolumeId := "nfs-v1"; unpub_NodeId := "csi-1" |}
                (initial_world "" tt) eq_refl) as Hp.
  destruct (run (H := calm) (ControllerUnpublishVolume demo_service 1 Background
                      {| unpub_VolumeId := "nfs-v1"; unpub_NodeId := "csi-1" |})
     (initial_world "" tt)) as [o w'].
  destruct Hp as (_ & _ & Hnf). destruct (Hnf not_found tt eq_refl) as [-> _]. reflexivity.
Defined.

(** A node that never exports, and a request with two time units left. *)
Definition hopeless : Env nat := fun B e =>
  match e in extE B return nat -> B * nat with
  | RpcExport _ _ => fun x => (inr (Errorf "connection refused"), x)
  | Sleep _ => fun x => (tt, Nat.pred x)
  | SelectDone _ => fun x =>
      (match x with O => Some (Errorf "context deadline exceeded") | S _ => None end, x)
  | KubeListNodes => fun x =>
      (inl [{| node_Name := "csi-1"; node_Labels := None; node_Addresses := ["10.0.0.1"];
               node_Annotations := Some {[nodeid_annotation :=
                 render [("csi-powerstore.dellemc.com", "csi-1")]]} |}], x)
  | e => fun x => (calm_answer e, x)
  end.

Program Definition hopeless_deadline : @Deadline nat hopeless := {| remaining := fun x => x |}.
Next Obligation. intros B e x. destruct e; cbn; lia. Qed.
Next Obligation. intros ns x _. cbn. lia. Qed.
Next Obligation. intros ctx x ->. done. Qed.

Definition hopeless_world : world nat :=
  set_var V_nodeIPAddress {["10.0.0.1" := 0%nat]}
    (set_statuses [{| ns_nodeName := "csi-1"; ns_nodeIP := "10.0.0.1"; ns_badPings := 0;
                      ns_goodPings := 1; ns_inRecovery := false; ns_online := true;
                      ns_status := ""; ns_dumpingExports := false |}] (initial_world "" 2%nat)).

Lemma ControllerPublishVolume_ends_witness :
  (run (H := hopeless) (ControllerPublishVolume demo_service 1 3 Background demo_publish)
     hopeless_world).1 <> Exhausted /\
  (run (H := hopeless) (ControllerPublishVolume demo_service 1 3 Background demo_publish)
     hopeless_world).1 <> Blocked.
Proof.
  apply (@ControllerPublishVolume_ends ascii_tables demo_globals demo_service nat hopeless
           hopeless_deadline 0 3 Background demo_publish hopeless_world); [reflexivity|cbn; lia].
Defined.

(** The same request: it fails with the deadline after two retries, and leaves
    the volume attached. *)
Example hopeless_publish :
  (run (H := hopeless) (ControllerPublishVolume demo_service 1 3 Background demo_publish)
     hopeless_world).1 =
  Done (Some (publish_context demo_publish),
        Some (status_Errorf codes_DeadlineExceeded "context deadline exceeded")).
Proof. vm_compute. reflexivity. Qed.
End Witnesses.
