(* ===== verification/Sharing.v ===== *)
(** * Publishing and unpublishing as reference counting

    The contract of the controller for one volume: it is served by the first
    node it was published to, as long as some node uses it.  The abstract state
    is the server and the set of client nodes; the refinement theorem says
    that [ControllerPublishVolume] and [ControllerUnpublishVolume] implement it
    with the Service, the EndpointSlice, the attachment and the export, on a
    cluster whose parts do what they are asked ([Cluster]). *)

From S2P Require Import Prelude GoStrings Messages GoProg Naming Exports Json Config K8s NfsServer NodeHost NodeMonitor Controller.

(** ** The abstract specification *)

Module Shared.
(** The node that serves the volume and the nodes that use it. *)
Definition state := option (string * gset string).

Inductive op := Publish (node : string) | Unpublish (node : string).

Definition step (o : op) (s : state) : state :=
  match o, s with
  | Publish n, None => Some (n, {[n]})
  | Publish n, Some (server, clients) => Some (server, {[n]} ∪ clients)
  | Unpublish _, None => None
  | Unpublish n, Some (server, clients) =>
      if decide (clients ∖ {[n]} = ∅) then None else Some (server, clients ∖ {[n]})
  end.

(** Recovery: another node serves the volume, for the same clients. *)
Definition move (n : string) (s : state) : state :=
  match s with None => None | Some (_, clients) => Some (n, clients) end.
End Shared.

(** ** A cluster that does what it is asked *)

(** The calls that attach and detach volumes, and those that reach the NFS
    servers of the nodes. *)
Definition attach_call {B} (e : extE B) : bool :=
  match e with VcsiControllerPublish _ | VcsiControllerUnpublish _ => true | _ => false end.
Definition exports_call {B} (e : extE B) : bool :=
  match e with RpcExport _ _ | RpcUnexport _ _ | RpcPing _ _ | RpcGetExports _ => true | _ => false end.

(** Which volumes of the array are attached to which nodes. *)
Definition attachments : Type := gset (string * string).

(** The nodes that the volume [aid] is attached to. *)
Definition nodes_of (aid : string) (A : attachments) : gset string :=
  set_map snd (filter (fun p => p.1 = aid) A).

(** To detach a volume from a node, as CSI has it: without a node, from all. *)
Definition detach (aid n : string) (A : attachments) : attachments :=
  if String.eqb n "" then filter (fun p => p.1 <> aid) A else A ∖ {[(aid, n)]}.

Lemma elem_of_nodes_of n aid A : n ∈ nodes_of aid A <-> (aid, n) ∈ A.
Proof.
  unfold nodes_of. rewrite elem_of_map. split.
  - intros ([aid' n'] & -> & Hp). apply elem_of_filter in Hp as [Ha Hp]. cbn in *. by subst.
  - intros Hp. exists (aid, n). by rewrite elem_of_filter.
Qed.

Lemma nodes_of_attach aid n A : nodes_of aid ({[(aid, n)]} ∪ A) = {[n]} ∪ nodes_of aid A.
Proof. apply set_eq. intros m. rewrite elem_of_nodes_of, !elem_of_union, !elem_of_singleton, elem_of_nodes_of. intuition congruence. Qed.

Lemma nodes_of_attach_ne aid aid' n A : aid' <> aid -> nodes_of aid' ({[(aid, n)]} ∪ A) = nodes_of aid' A.
Proof.
  intros Hne. apply set_eq. intros m. rewrite !elem_of_nodes_of, elem_of_union, elem_of_singleton. intuition congruence.
Qed.

(** Detached from its only node, a volume is attached to none. *)
Lemma nodes_of_detach aid n A : nodes_of aid A ⊆ {[n]} -> nodes_of aid (detach aid n A) = ∅.
Proof.
  intros HA. apply set_eq. intros m. rewrite elem_of_nodes_of. unfold detach. split; [|set_solver].
  case_match; [by rewrite elem_of_filter; intros []|]. intros [Hm Hne]%elem_of_difference.
  apply elem_of_nodes_of, HA in Hm. set_solver.
Qed.

Lemma nodes_of_detach_ne aid aid' n A : aid' <> aid -> nodes_of aid' (detach aid n A) = nodes_of aid' A.
Proof.
  intros Hne. apply set_eq. intros m. rewrite !elem_of_nodes_of. unfold detach.
  case_match; [rewrite elem_of_filter|rewrite elem_of_difference, elem_of_singleton]; cbn; intuition congruence.
Qed.

(** The host driver, which attaches volumes to nodes, and the nodes.  The
    driver attaches a volume to a node unless it is attached to another one;
    it detaches a volume from the node that it is told, and from no other. *)
Class Cluster (X : Type) `{KubeStore X} := {
  attached : X -> attachments;
  cluster_nodes : list Node;
  c_publish req x :
    nodes_of (pub_VolumeId req) (attached x) ⊆ {[pub_NodeId req]} ->
    exists r x', env_step (VcsiControllerPublish req) x = ((Some r, None), x') /\
      default ∅ (pubr_PublishContext r) !! ServiceName = None /\
      attached x' = {[(pub_VolumeId req, pub_NodeId req)]} ∪ attached x;
  c_unpublish req x :
    exists x', env_step (VcsiControllerUnpublish req) x = ((Some Unpublished, None), x') /\
      attached x' = detach (unpub_VolumeId req) (unpub_NodeId req) (attached x);
  c_nodes x : (env_step KubeListNodes x).1 = inl cluster_nodes;
  c_client address x : (env_step (NewClient address) x).1 = None;
  c_done ctx x : (env_step (SelectDone ctx) x).1 = None;
  c_frame B (e : extE B) x :
    attach_call e = false -> attached (env_step e x).2 = attached x;
}.

(** The NFS servers of the nodes: after an export the server serves the volume,
    after an unexport nothing of it is left there; the other servers and the
    volumes that are [separate] from it are not touched.  [servers_ok n]: they
    work, and have room for [n] more changes. *)
Class NfsServers (X : Type) `{Env X} `{UnicodeTables} := {
  server_state : Type;
  servers : X -> server_state;
  servers_ok : nat -> server_state -> Prop;
  exported_at : server_state -> string -> gmap string hold; (* what the servers have of an NFS volume *)
  server_at : string -> Prop;
  separate : string -> string -> Prop;
  s_less n t : servers_ok (S n) t -> servers_ok n t;
  s_export address req id n x :
    servers_ok (S n) (servers x) -> server_at address -> IsNFSVolumeID id = true ->
    exreq_VolumeId req = id ->
    mget (exreq_ExportNfsContext req) ServiceName = VolumeIDToServiceName id ->
    exists r x', env_step (RpcExport address req) x = (inl r, x') /\
      servers_ok n (servers x') /\
      exported_at (servers x') id = <[address := Serving]> (exported_at (servers x) id) /\
      forall id', separate id id' -> exported_at (servers x') id' = exported_at (servers x) id';
  s_unexport address req id n x :
    servers_ok (S n) (servers x) -> exported_at (servers x) id !! address = Some Serving -> IsNFSVolumeID id = true ->
    ToArrayVolumeID (unreq_VolumeId req) = ToArrayVolumeID id ->
    mget (unreq_UnexportNfsContext req) ServiceName = VolumeIDToServiceName id ->
    exists r x', env_step (RpcUnexport address req) x = (inl r, x') /\
      servers_ok n (servers x') /\
      exported_at (servers x') id = delete address (exported_at (servers x) id) /\
      forall id', separate id id' -> exported_at (servers x') id' = exported_at (servers x) id';
  s_frame B (e : extE B) x : exports_call e = false -> servers (env_step e x).2 = servers x;
}.

Lemma removed_subseteq (a : string) (E : gmap string hold) (stale : gset string) :
  dom E ⊆ {[a]} ∪ stale -> dom (delete a E) ⊆ stale.
Proof. rewrite dom_delete_L. intros HE x [Hx Hne]%elem_of_difference. by apply HE, elem_of_union in Hx as [?|?]. Qed.

Lemma added_subseteq (a : string) (E : gmap string hold) (stale : gset string) :
  dom E ⊆ stale -> dom (<[a := Serving]> E) ⊆ {[a]} ∪ stale.
Proof. rewrite dom_insert_L. apply union_mono_l. Qed.

Section Sharing.
Context `{UnicodeTables} `{Globals} `{Printing} (cs : CsiNfsService).
Context {X : Type} `{Env X} `{!KubeStore X} `{!Cluster X} `{!NfsServers X}.
Implicit Types w : world X.
Implicit Types x : X.
Implicit Types stale : gset string.

(** The node with the CSI id [n] has the address [ip]. *)
Definition node_at (n ip : string) : Prop :=
  exists node rest, List.find (node_has_id DriverName n) cluster_nodes = Some node /\
                    node_Addresses node = ip :: rest.

Definition online_at (ip : string) w : Prop :=
  exists p st, w_nodeIPAddress w !! ip = Some p /\ has_status p st w /\
               ns_online st = true /\ ns_inRecovery st = false.

(** The address of the server at [ip]. *)
Definition service_address (ip : string) : string := ip +:+ ":" +:+ cs_nfsClientServicePort cs.

(** The servers that have something of the volume. *)
Definition exporters (id : string) x : gmap string hold := exported_at (servers x) id.

(** The nodes that the volume is attached to. *)
Definition attached_to (id : string) x : gset string := nodes_of (ToArrayVolumeID id) (attached x).

(** The volume with the id [id] is in the abstract state [s]; only the servers
    [stale] may have something of it although they should not. *)
Definition serves (id : string) (stale : gset string) (s : Shared.state) x : Prop :=
  let name := VolumeIDToServiceName id in
  match s with
  | None =>
      services x !! name = None /\ slices x !! name = None /\
      attached_to id x = ∅ /\ dom (exporters id x) ⊆ stale
  | Some (server, clients) =>
      exists svc labels sl ip ep addrs eps,
        services x !! name = Some svc /\ svc_Name svc = name /\ svc_Namespace svc = DriverNamespace /\
        svc_Labels svc = Some labels /\
        (forall n, n ∈ clients <-> is_Some (labels !! client_label n)) /\
        slices x !! name = Some sl /\ es_Namespace sl = DriverNamespace /\
        mget (es_Labels sl) "nodeID" = server /\
        es_Endpoints sl = ep :: eps /\ ep_Addresses ep = ip :: addrs /\ ip <> "" /\
        attached_to id x = {[server]} /\
        exporters id x !! service_address ip = Some Serving /\
        dom (exporters id x) ⊆ {[service_address ip]} ∪ stale
  end.

(** The same but for the server's own export, which it may have lost. *)
Definition placed (id : string) (stale : gset string) (server : string) (clients : gset string) x : Prop :=
  let name := VolumeIDToServiceName id in
  exists svc labels sl ip ep addrs eps,
    services x !! name = Some svc /\ svc_Name svc = name /\ svc_Namespace svc = DriverNamespace /\
    svc_Labels svc = Some labels /\
    (forall n, n ∈ clients <-> is_Some (labels !! client_label n)) /\
    slices x !! name = Some sl /\ es_Namespace sl = DriverNamespace /\
    mget (es_Labels sl) "nodeID" = server /\
    es_Endpoints sl = ep :: eps /\ ep_Addresses ep = ip :: addrs /\ ip <> "" /\
    attached_to id x = {[server]} /\
    dom (exporters id x) ⊆ {[service_address ip]} ∪ stale.

Lemma serves_placed id stale server clients x :
  serves id stale (Some (server, clients)) x -> placed id stale server clients x.
Proof.
  intros (svc & labels & sl & ip & ep & addrs & eps & Hs). exists svc, labels, sl, ip, ep, addrs, eps. tauto.
Qed.

(** Other volumes are not touched. *)
Definition same_elsewhere (id : string) x x' : Prop :=
  (forall name, name <> VolumeIDToServiceName id ->
     services x' !! name = services x !! name /\ slices x' !! name = slices x !! name) /\
  (forall aid, aid <> ToArrayVolumeID id -> nodes_of aid (attached x') = nodes_of aid (attached x)) /\
  (forall id', separate id id' -> exporters id' x' = exporters id' x).

#[global] Instance same_elsewhere_preorder id : PreOrder (same_elsewhere id).
Proof.
  split; [done|]. intros x y z (A & B & C) (A' & B' & C').
  split; [|split]; intros k Hk; [split|..].
  - rewrite (proj1 (A' k Hk)). by apply A.
  - rewrite (proj2 (A' k Hk)). by apply A.
  - rewrite B' by done. by apply B.
  - rewrite C' by done. by apply C.
Qed.

(** The servers after an export or unexport: [E] is what they have of the volume. *)
Definition servers_moved (id : string) (n : nat) (E : gmap string hold) x x' : Prop :=
  servers_ok n (servers x') /\ exporters id x' = E /\
  forall id', separate id id' -> exporters id' x' = exporters id' x.

(** *** Client labels *)

Lemma client_label_inj n m : client_label n = client_label m -> n = m.
Proof. apply string_app_inj_l. Qed.

Lemma count_clients_zero labels :
  count_clients (Some labels) = O <-> forall n, labels !! client_label n = None.
Proof.
  unfold count_clients. cbn [default]. rewrite length_zero_iff_nil. split.
  - intros Hnil n. destruct (labels !! client_label n) as [v|] eqn:E; [|done].
    assert (Hin : In (client_label n) []); [|done]. rewrite <- Hnil.
    apply filter_In. split; [|by apply HasPrefix_app].
    apply list_elem_of_In, list_elem_of_fmap. exists (client_label n, v).
    split; [done|]. by apply elem_of_map_to_list.
  - intros Hnone. destruct (List.filter _ _) as [|k l] eqn:E; [done|].
    assert (Hin : In k (k :: l)) by by left. rewrite <- E in Hin.
    apply filter_In in Hin as [Hin Hk]. apply HasPrefix_true in Hk as [n ->].
    apply list_elem_of_In, list_elem_of_fmap in Hin as ([k v] & Hk & Hin). cbn in Hk. subst k.
    apply elem_of_map_to_list in Hin.
    change (labels !! client_label n = Some v) in Hin. by rewrite Hnone in Hin.
Qed.

(** *** The calls on this cluster *)

(** Nothing that the specification speaks of has changed. *)
Definition same_view x x' : Prop :=
  services x' = services x /\ slices x' = slices x /\
  attached x' = attached x /\ servers x' = servers x.

#[global] Instance same_view_preorder : PreOrder same_view.
Proof.
  split; [done|]. unfold same_view. intros x y z ??. destruct_and?. split_and!; congruence.
Qed.

Definition moves_volume {B} (e : extE B) : bool := attach_call e || exports_call e.

Lemma call_frame {B} (e : extE B) w :
  is_exec e = false -> store_call e = false -> moves_volume e = false ->
  exists x, run (ext e) w = (Done (env_step e (w_env w)).1, set_env x w) /\ same_view (w_env w) x.
Proof.
  intros He Hs Hm. apply orb_false_iff in Hm as [Hm1 Hm2].
  destruct (env_step e (w_env w)) as [b x] eqn:E.
  exists x. split; [by apply run_ext|].
  pose proof (store_frame B e (w_env w) Hs) as [Hv1 Hv2].
  pose proof (c_frame B e (w_env w) Hm1) as Hv3. pose proof (s_frame B e (w_env w) Hm2) as Hv4.
  rewrite E in *. done.
Qed.

Lemma run_getNfsClient ip w :
  exists x, run (getNfsClient ip (cs_nfsClientServicePort cs)) w =
    (Done (inl (service_address ip)), set_env x w) /\ same_view (w_env w) x.
Proof.
  unfold getNfsClient. fold (service_address ip). rewrite run_bind.
  destruct (call_frame (NewClient (service_address ip)) w)
    as (x & -> & Hx); [done..|]. rewrite c_client. eauto.
Qed.

Lemma run_GetNodeByCSINodeID n ip w :
  node_at n ip ->
  exists node rest x, run (GetNodeByCSINodeID DriverName n) w = (Done (inl node), set_env x w) /\
    node_Addresses node = ip :: rest /\ same_view (w_env w) x.
Proof.
  intros (node & rest & Hf & Ha). unfold GetNodeByCSINodeID. rewrite run_bind.
  destruct (call_frame KubeListNodes w) as (x & -> & Hx); [done..|]. rewrite c_nodes, Hf. cbn. eauto 6.
Qed.

Lemma run_getServiceAndSlice name w :
  exists r x, run (getServiceAndSlice name) w = (Done r, set_env x w) /\ same_view (w_env w) x /\
    match services (w_env w) !! name, slices (w_env w) !! name with
    | Some svc, Some sl => r = ((Some svc, Some sl), None)
    | _, _ => exists e, r = ((None, None), Some e) /\ Contains (err_text e) "not found" = true
    end.
Proof.
  unfold getServiceAndSlice, GetEndpointSlice, GetService. rewrite run_bind.
  destruct (get_slice name (w_env w)) as (x & E & Hv1 & Hv2).
  rewrite (run_ext (KubeGetSlice DriverNamespace name) w _ _ eq_refl E).
  pose proof (c_frame _ (KubeGetSlice DriverNamespace name) (w_env w) eq_refl) as Hv3.
  pose proof (s_frame _ (KubeGetSlice DriverNamespace name) (w_env w) eq_refl) as Hv4.
  rewrite E in Hv3, Hv4. cbn in Hv3, Hv4.
  assert (Hnf : forall kind, Contains (err_text (not_found_error kind name)) "not found" = true).
  { intros kind. cbn. do 2 apply Contains_app. rewrite <- (string_app_nil_r " not found").
    by apply (Contains_app " "), Contains_prefix. }
  destruct (slices (w_env w) !! name) as [sl|] eqn:Hsl; cbn [found].
  - rewrite run_bind. destruct (get_service name x) as (y & E' & Hv1' & Hv2').
    erewrite run_ext; [|done|by rewrite w_env_set_env].
    pose proof (c_frame _ (KubeGetService DriverNamespace name) x eq_refl) as Hv3'.
    pose proof (s_frame _ (KubeGetService DriverNamespace name) x eq_refl) as Hv4'.
    rewrite E' in Hv3', Hv4'. cbn in Hv3', Hv4'.
    autorewrite with goenv. rewrite Hv1.
    destruct (services (w_env w) !! name) as [svc|] eqn:Hsvc; cbn; do 2 eexists;
      (split; [done|]); (split; [unfold same_view; split_and!; congruence|]); [done|eauto].
  - do 2 eexists. split; [done|]. split; [done|].
    destruct (services (w_env w) !! name); eauto.
Qed.

(** A call that only changes the store, only attaches, or only exports. *)
Lemma store_only {B} (e : extE B) w x0 b x :
  env_step e x0 = (b, x) -> w_env w = x0 -> is_exec e = false -> moves_volume e = false ->
  run (ext e) w = (Done b, set_env x w) /\ attached x = attached x0 /\ servers x = servers x0.
Proof.
  intros E <- He [Hm1 Hm2]%orb_false_iff. split; [by apply run_ext|].
  pose proof (c_frame B e (w_env w) Hm1) as Hf1. pose proof (s_frame B e (w_env w) Hm2) as Hf2.
  by rewrite E in Hf1, Hf2.
Qed.

Lemma attach_only {B} (e : extE B) w x0 b x :
  env_step e x0 = (b, x) -> w_env w = x0 -> is_exec e = false ->
  store_call e = false -> exports_call e = false ->
  run (ext e) w = (Done b, set_env x w) /\ services x = services x0 /\ slices x = slices x0 /\
  servers x = servers x0.
Proof.
  intros E <- He Hm Hm2. split; [by apply run_ext|].
  pose proof (store_frame B e (w_env w) Hm) as [Hf1 Hf2]. pose proof (s_frame B e (w_env w) Hm2) as Hf3.
  by rewrite E in Hf1, Hf2, Hf3.
Qed.

Lemma export_only {B} (e : extE B) w x0 b x :
  env_step e x0 = (b, x) -> w_env w = x0 -> is_exec e = false ->
  store_call e = false -> attach_call e = false ->
  run (ext e) w = (Done b, set_env x w) /\ services x = services x0 /\ slices x = slices x0 /\
  attached x = attached x0.
Proof.
  intros E <- He Hm Hm2. split; [by apply run_ext|].
  pose proof (store_frame B e (w_env w) Hm) as [Hf1 Hf2]. pose proof (c_frame B e (w_env w) Hm2) as Hf3.
  by rewrite E in Hf1, Hf2, Hf3.
Qed.

(** [servers_moved] depends on the servers only. *)
Lemma servers_moved_view id n E x y x' y' :
  servers_moved id n E x x' -> servers y = servers x -> servers y' = servers x' ->
  servers_moved id n E y y'.
Proof. unfold servers_moved, exporters. by intros ? -> ->. Qed.

Lemma run_callExport ip req id n w :
  servers_ok (S n) (servers (w_env w)) -> server_at (service_address ip) -> IsNFSVolumeID id = true ->
  exreq_VolumeId req = id ->
  mget (exreq_ExportNfsContext req) ServiceName = VolumeIDToServiceName id ->
  exists r x, run (callExportNfsVolume cs ip req) w = (Done (inl r), set_env x w) /\
    services x = services (w_env w) /\ slices x = slices (w_env w) /\ attached x = attached (w_env w) /\
    servers_moved id n (<[service_address ip := Serving]> (exporters id (w_env w))) (w_env w) x.
Proof.
  intros Hok Hat Hnfs Hid Hname. unfold callExportNfsVolume. rewrite run_bind.
  destruct (run_getNfsClient ip w) as (y & -> & ? & ? & ? & Hsy). cbv beta iota.
  destruct (s_export (service_address ip) req id n y) as (r & z & E & Hz1 & Hz2 & Hz3);
    [by rewrite Hsy|done..|].
  destruct (export_only _ _ _ _ _ E (w_env_set_env y w) eq_refl eq_refl eq_refl) as (-> & Hz4 & Hz5 & Hz6).
  autorewrite with goenv. do 2 eexists. split; [done|]. do 3 (split; [congruence|]).
  unfold servers_moved, exporters. rewrite <- Hsy. done.
Qed.

Lemma run_callUnexport ip req id n w :
  servers_ok (S n) (servers (w_env w)) -> exporters id (w_env w) !! service_address ip = Some Serving ->
  IsNFSVolumeID id = true -> ToArrayVolumeID (unreq_VolumeId req) = ToArrayVolumeID id ->
  mget (unreq_UnexportNfsContext req) ServiceName = VolumeIDToServiceName id ->
  exists r x, run (callUnexportNfsVolume cs ip req) w = (Done (inl r), set_env x w) /\
    services x = services (w_env w) /\ slices x = slices (w_env w) /\ attached x = attached (w_env w) /\
    servers_moved id n (delete (service_address ip) (exporters id (w_env w))) (w_env w) x.
Proof.
  intros Hok Hat Hnfs Hid Hname. unfold callUnexportNfsVolume. rewrite run_bind.
  destruct (run_getNfsClient ip w) as (y & -> & ? & ? & ? & Hsy). cbv beta iota.
  destruct (s_unexport (service_address ip) req id n y) as (r & z & E & Hz1 & Hz2 & Hz3);
    [by rewrite Hsy|by rewrite Hsy|done..|].
  destruct (export_only _ _ _ _ _ E (w_env_set_env y w) eq_refl eq_refl eq_refl) as (-> & Hz4 & Hz5 & Hz6).
  autorewrite with goenv. do 2 eexists. split; [done|]. do 3 (split; [congruence|]).
  unfold servers_moved, exporters. rewrite <- Hsy. done.
Qed.

Lemma run_export_retry fuel ctx ip req id n w :
  servers_ok (S n) (servers (w_env w)) -> server_at (service_address ip) -> IsNFSVolumeID id = true ->
  exreq_VolumeId req = id ->
  mget (exreq_ExportNfsContext req) ServiceName = VolumeIDToServiceName id ->
  exists x, run (export_retry cs (S fuel) ctx ip req) w = (Done None, set_env x w) /\
    services x = services (w_env w) /\ slices x = slices (w_env w) /\
    attached x = attached (w_env w) /\
    servers_moved id n (<[service_address ip := Serving]> (exporters id (w_env w))) (w_env w) x.
Proof.
  intros Hok Hat Hnfs Hid Hname. cbn [export_retry]. unfold select_call. rewrite run_bind.
  destruct (call_frame (SelectDone ctx) w) as (x & -> & Hx); [done..|].
  destruct Hx as (?&?&?&Hsx). rewrite c_done, run_bind.
  destruct (run_callExport ip req id n (set_env x w)) as (r & y & -> & ? & ? & ? & Hm); [|done..|].
  { autorewrite with goenv. by rewrite Hsx. }
  autorewrite with goenv in *. eexists. split; [done|]. do 3 (split; [congruence|]).
  unfold exporters in *. rewrite <- Hsx. by eapply servers_moved_view.
Qed.
#[local] Arguments export_retry : simpl never.

Lemma mget_maps_Copy dst src k :
  default ∅ src !! k = None -> mget (Some (maps_Copy dst src)) k = mget (Some dst) k.
Proof. intros Hk. unfold mget, maps_Copy. cbn. by rewrite lookup_union_r. Qed.

Lemma run_makeNfsService fuel ctx name pvName ip req m room w :
  pub_VolumeContext req = Some m ->
  services (w_env w) !! name = None -> slices (w_env w) !! name = None ->
  attached_to (pub_VolumeId req) (w_env w) = ∅ ->
  servers_ok (S room) (servers (w_env w)) -> server_at (service_address ip) ->
  IsNFSVolumeID (pub_VolumeId req) = true -> name = VolumeIDToServiceName (pub_VolumeId req) ->
  let aid := ToArrayVolumeID (pub_VolumeId req) in
  let svc := new_service cs DriverNamespace name pvName ip (pub_NodeId req) aid in
  exists x, run (makeNfsService cs (S fuel) ctx DriverNamespace name pvName ip req) w =
              (Done (Some svc, None), set_env x w) /\
    services x = <[name := svc]> (services (w_env w)) /\
    slices x = <[name := new_slice cs DriverNamespace name pvName ip (pub_NodeId req) aid]>
                 (slices (w_env w)) /\
    attached x = {[(aid, pub_NodeId req)]} ∪ attached (w_env w) /\
    servers_moved (pub_VolumeId req) room
      (<[service_address ip := Serving]> (exporters (pub_VolumeId req) (w_env w))) (w_env w) x.
Proof.
  intros Hm Hsvc Hsl Hatt Hok Hat Hnfs Hname. cbv zeta. unfold makeNfsService, create_objects. rewrite Hm, run_bind.
  match goal with |- context [VcsiControllerPublish ?r] =>
    destruct (c_publish r (w_env w)) as (resp & x1 & E1 & Hctx & Ha1); [cbn; unfold attached_to in Hatt; by rewrite Hatt|] end.
  destruct (attach_only _ _ _ _ _ E1 eq_refl eq_refl eq_refl eq_refl) as (-> & Hs1 & Hl1 & Hsv1).
  cbn [pub_VolumeId pub_NodeId] in *. cbv beta iota zeta. rewrite run_bind.
  match goal with |- context [export_retry cs (S fuel) ctx ip ?r] =>
    destruct (run_export_retry fuel ctx ip r (pub_VolumeId req) room (set_env x1 w))
      as (x2 & -> & Hs2 & Hl2 & Ha2 & He2) end.
  { autorewrite with goenv. by rewrite Hsv1. }
  { done. }
  { done. }
  { by apply nfs_id. }
  { cbn [exreq_ExportNfsContext]. by rewrite mget_maps_Copy, mget_insert. }
  autorewrite with goenv in *. unfold CreateEndpointSlice. rewrite run_bind.
  match goal with |- context [KubeCreateSlice _ ?sl] =>
    destruct (create_slice sl x2) as (x3 & E3 & Hs3 & Hl3); [cbn; congruence|] end.
  destruct (store_only _ _ _ _ _ E3 (w_env_set_env x2 w) eq_refl eq_refl) as (-> & Ha3 & Hsv3).
  autorewrite with goenv in *. unfold CreateService. rewrite run_bind.
  match goal with |- context [KubeCreateService _ ?s] =>
    destruct (create_service s x3) as (x4 & E4 & Hs4 & Hl4); [cbn; congruence|] end.
  destruct (store_only _ _ _ _ _ E4 (w_env_set_env x3 w) eq_refl eq_refl) as (-> & Ha4 & Hsv4).
  autorewrite with goenv in *. cbn [svc_Name es_Name new_slice new_service] in *.
  eexists. split; [done|]. do 3 (split; [congruence|]).
  unfold servers_moved, exporters in *. by rewrite Hsv4, Hsv3, <- Hsv1.
Qed.
#[local] Arguments makeNfsService : simpl never.

(** *** The two handlers *)

Lemma new_service_clients namespace name pvName ip n aid m :
  is_Some (default ∅ (svc_Labels (new_service cs namespace name pvName ip n aid)) !! client_label m)
  <-> m = n.
Proof.
  cbn. rewrite lookup_insert_ne by discriminate. split.
  - intros Hm. destruct (decide (m = n)) as [|Hne]; [done|]. exfalso.
    rewrite lookup_insert_ne in Hm by (intros ?%client_label_inj; congruence).
    rewrite lookup_insert_ne, lookup_singleton_ne in Hm by discriminate. by destruct Hm.
  - intros ->. rewrite lookup_insert_eq. eauto.
Qed.

Lemma run_node_available ip w :
  online_at ip w ->
  exists p, run (GetNodeStatus ip) w = (Done (Some p), w) /\
            run (node_unavailable (Some p)) w = (Done false, w).
Proof.
  intros (p & st & Hp & Hs & Hon & Hrec). exists p. split.
  - unfold GetNodeStatus. destruct w. cbn in *. by rewrite Hp.
  - unfold node_unavailable. rewrite run_bind, (run_read_status _ _ st) by done. rewrite Hon. cbn [negb].
    by rewrite (run_read_status _ _ st), Hrec by done.
Qed.

Definition publishes (n : string) (req : ControllerPublishVolumeRequest) (id : string) : Prop :=
  pub_VolumeId req = id /\ pub_NodeId req = n /\ pub_VolumeContext req <> None.

Lemma run_publish_first fuel ctx req id n ip stale room w :
  publishes n req id -> IsNFSVolumeID id = true -> node_at n ip -> ip <> "" -> online_at ip w ->
  server_at (service_address ip) -> servers_ok (S room) (servers (w_env w)) ->
  serves id stale None (w_env w) ->
  exists resp x, run (publish_locked cs (S fuel) ctx req) w = (Done (Some resp, None), set_env x w) /\
    serves id stale (Some (n, {[n]})) x /\ same_elsewhere id (w_env w) x /\ servers_ok room (servers x).
Proof.
  intros (Hid & Hn & Hctx) Hnfs Hat Hip Hon Hsrv Hok (Hs & Hl & Ha & He).
  destruct (pub_VolumeContext req) as [m|] eqn:Hm; [|done].
  unfold publish_locked. rewrite Hid, Hn, run_bind.
  destruct (run_GetNodeByCSINodeID n ip w Hat) as (node & rest & x1 & -> & Haddr & Hv1).
  rewrite Haddr, run_bind.
  destruct (run_getServiceAndSlice (VolumeIDToServiceName id) (set_env x1 w))
    as (r & x2 & -> & Hv2 & Hr).
  destruct Hv1 as (Hs1 & Hl1 & Ha1 & He1). autorewrite with goenv in *. rewrite Hs1, Hs in Hr.
  destruct Hr as (e & -> & _). cbv beta iota zeta. rewrite run_bind.
  destruct (run_node_available ip (set_env x2 w)) as (p & -> & Hav); [by destruct w|].
  rewrite run_bind, Hav, run_bind. destruct Hv2 as (Hs2 & Hl2 & Ha2 & He2).
  destruct (run_makeNfsService fuel ctx (VolumeIDToServiceName id) (mget (pub_VolumeContext req) "Name") ip req m
              room (set_env x2 w)) as (x3 & -> & Hs3 & Hl3 & Ha3 & Hok3 & He3 & Hsep3);
    [done|autorewrite with goenv; unfold attached_to in *; congruence..|].
  autorewrite with goenv in *. rewrite Hid, Hn in *.
  assert (Ha' : nodes_of (ToArrayVolumeID id) (attached x2) = ∅) by (unfold attached_to in Ha; congruence).
  assert (Hexp : forall id', exporters id' x2 = exporters id' (w_env w)).
  { intros id'. unfold exporters. congruence. }
  do 2 eexists. split; [done|]. split; [|split; [|done]].
  - exists (new_service cs DriverNamespace (VolumeIDToServiceName id) (mget (pub_VolumeContext req) "Name") ip n
              (ToArrayVolumeID id)).
    do 2 eexists. exists ip. do 3 eexists.
    unfold attached_to. rewrite Hs3, Hl3, Ha3, He3, !lookup_insert_eq, Hexp, nodes_of_attach, Ha', union_empty_r_L.
    do 4 (split; [reflexivity|]). split.
    { intros k. rewrite elem_of_singleton. symmetry.
      exact (new_service_clients DriverNamespace (VolumeIDToServiceName id)
               (mget (pub_VolumeContext req) "Name") ip n (ToArrayVolumeID id) k). }
    do 5 (split; [reflexivity|]). do 2 (split; [done|]).
    split; [done|by apply added_subseteq].
  - split; [intros k Hk; split|split; intros k Hk]; rewrite ?Hs3, ?Hl3, ?Ha3.
    4: by rewrite Hsep3.
    3: rewrite nodes_of_attach_ne by done; congruence.
    all: rewrite lookup_insert_ne by done; congruence.
Qed.

Lemma run_publish_again fuel ctx req id n ip server clients stale w :
  publishes n req id -> node_at n ip ->
  serves id stale (Some (server, clients)) (w_env w) ->
  exists resp x, run (publish_locked cs fuel ctx req) w = (Done (Some resp, None), set_env x w) /\
    serves id stale (Some (server, {[n]} ∪ clients)) x /\ same_elsewhere id (w_env w) x /\
    servers x = servers (w_env w).
Proof.
  intros (Hid & Hn & _) Hat
    (svc & labels & sl & ip0 & ep & addrs & eps & Hs & Hname & Hns & Hlab & Hcl & Hl & Hrest).
  unfold publish_locked. rewrite Hid, Hn, run_bind.
  destruct (run_GetNodeByCSINodeID n ip w Hat) as (node & rest & x1 & -> & Haddr & Hv1).
  rewrite Haddr, run_bind.
  destruct (run_getServiceAndSlice (VolumeIDToServiceName id) (set_env x1 w)) as (r & x2 & -> & Hv2 & Hr).
  destruct Hv1 as (Hs1 & Hl1 & Ha1 & He1). autorewrite with goenv in *. rewrite Hs1, Hl1, Hs, Hl in Hr.
  subst r. destruct Hv2 as (Hs2 & Hl2 & Ha2 & He2). cbv beta iota zeta.
  rewrite run_bind. unfold addNodeToNfsService. rewrite Hn, Hlab.
  destruct (String.eqb (mget (Some labels) (client_label n)) "") eqn:E.
  - unfold UpdateService. rewrite run_bind.
    set (svc' := with_labels (Some (<[client_label n:=n]> labels)) svc).
    change (svc_Namespace svc') with (svc_Namespace svc). rewrite Hns.
    destruct (update_service svc' x2) as (x3 & E3 & Hs3 & Hl3).
    { cbn. rewrite Hname, Hs2, Hs1, Hs. eauto. }
    destruct (store_only _ _ _ _ _ E3 (w_env_set_env x2 w) eq_refl eq_refl) as (-> & Ha3 & He3).
    cbn [svc_Name svc' with_labels] in Hs3. rewrite Hname in Hs3. autorewrite with goenv in *.
    do 2 eexists. split; [done|].
    assert (Hsv : servers x3 = servers (w_env w)) by congruence.
    split; [|split; [|done]].
    + exists svc', (<[client_label n:=n]> labels), sl, ip0, ep, addrs, eps.
      unfold exporters, attached_to. rewrite Hs3, Hl3, Ha3, Hsv, lookup_insert_eq, Hl2, Hl1, Ha2, Ha1.
      do 4 (split; [done|]). split; [|done]. intros m. rewrite elem_of_union, elem_of_singleton, Hcl.
      rewrite lookup_insert_is_Some. split.
      * intros [->|Hm]; [by left|]. destruct (decide (n = m)) as [->|Hne]; [by left|].
        right. split; [by intros ?%client_label_inj|done].
      * intros [->%client_label_inj|[_ Hm]]; auto.
    + split; [intros k Hk; split|split; intros k Hk]; unfold exporters; rewrite ?Hs3, ?Hl3, ?Ha3, ?Hsv;
        rewrite ?lookup_insert_ne by done; congruence.
  - autorewrite with goenv. do 2 eexists. split; [done|].
    assert (Hin : n ∈ clients).
    { apply Hcl. change (mget (Some labels) (client_label n))
        with (default "" (labels !! client_label n)) in E.
      destruct (labels !! client_label n) as [v|]; [eauto|discriminate E]. }
    assert (Hcup : {[n]} ∪ clients = clients) by by apply subseteq_union_1_L, singleton_subseteq_l.
    rewrite Hcup. assert (Hsv : servers x2 = servers (w_env w)) by congruence.
    split; [|split; [|done]].
    + exists svc, labels, sl, ip0, ep, addrs, eps. unfold exporters, attached_to.
      rewrite Hs2, Hl2, Ha2, Hsv, Hs1, Hl1, Ha1. done.
    + split; [intros k Hk; split|split; intros k Hk]; unfold exporters; congruence.
Qed.

Definition unpublishes (n : string) (req : ControllerUnpublishVolumeRequest) (id : string) : Prop :=
  unpub_VolumeId req = id /\ unpub_NodeId req = n.

Lemma run_unpublish_absent req id n stale w :
  unpublishes n req id -> serves id stale None (w_env w) ->
  exists x, run (unpublish_locked cs req) w = (Done (Some Unpublished, None), set_env x w) /\
    serves id stale None x /\ same_elsewhere id (w_env w) x /\ servers x = servers (w_env w).
Proof.
  intros (Hid & Hn) (Hs & Hl & Ha & He). unfold unpublish_locked. rewrite Hid, run_bind.
  destruct (run_getServiceAndSlice (VolumeIDToServiceName id) w) as (r & x & -> & (Hs1 & Hl1 & Ha1 & He1) & Hr).
  rewrite Hs in Hr. destruct Hr as (e & -> & Hnf). cbv beta iota zeta. rewrite Hnf.
  eexists. split; [done|]. split; [|split; [|done]].
  - unfold serves, exporters, attached_to. rewrite Hs1, Hl1, Ha1, He1. done.
  - split; [intros k Hk; split|split; intros k Hk]; unfold exporters; congruence.
Qed.

(** Removing the label of [n]. *)
Lemma remaining_clients (labels : gmap string string) (clients : gset string) n :
  (forall m, m ∈ clients <-> is_Some (labels !! client_label m)) ->
  (forall m, m ∈ clients ∖ {[n]} <-> is_Some (delete (client_label n) labels !! client_label m)) /\
  Nat.eqb (count_clients (Some (delete (client_label n) labels))) 0 =
  bool_decide (clients ∖ {[n]} = ∅).
Proof.
  intros Hcl.
  assert (Hrest : forall m, m ∈ clients ∖ {[n]} <->
                  is_Some (delete (client_label n) labels !! client_label m)).
  { intros m. rewrite elem_of_difference, elem_of_singleton, Hcl, lookup_delete_is_Some.
    split; intros [Ha Hb]; split; [|done|done|by intros ->].
    intros E%client_label_inj. by subst. }
  split; [done|]. apply eq_bool_prop_intro. rewrite bool_decide_spec, Is_true_true, Nat.eqb_eq.
  rewrite count_clients_zero. split.
  - intros Hnone. apply set_eq. intros m. rewrite Hrest, Hnone.
    split; [by intros [? ?]|set_solver].
  - intros Hempty m. apply eq_None_not_Some. rewrite <- Hrest, Hempty. set_solver.
Qed.

Lemma run_unpublish_last req id name ip svc sl server room w :
  mget (es_Labels sl) "nodeID" = server ->
  unpub_VolumeId req = id -> name = VolumeIDToServiceName id -> IsNFSVolumeID id = true ->
  servers_ok (S room) (servers (w_env w)) -> exporters id (w_env w) !! service_address ip = Some Serving ->
  svc_Namespace svc = DriverNamespace -> es_Namespace sl = DriverNamespace ->
  is_Some (services (w_env w) !! name) -> is_Some (slices (w_env w) !! name) ->
  exists x, run (unpublish_last cs req name ip svc sl) w = (Done (Some Unpublished, None), set_env x w) /\
    services x = delete name (services (w_env w)) /\ slices x = delete name (slices (w_env w)) /\
    attached x = detach (ToArrayVolumeID id) server (attached (w_env w)) /\
    servers_moved id room (delete (service_address ip) (exporters id (w_env w))) (w_env w) x.
Proof.
  intros Hserver Hid Hname Hnfs Hok Hat Hns1 Hns2 Hsvc Hsl. unfold unpublish_last. rewrite Hid, run_bind.
  match goal with |- context [callUnexportNfsVolume cs ip ?r] =>
    destruct (run_callUnexport ip r id room w Hok Hat Hnfs) as (r1 & x2 & -> & Hs2 & Hl2 & Ha2 & He2) end.
  { reflexivity. }
  { cbn [unreq_UnexportNfsContext]. rewrite <- Hname. reflexivity. }
  cbv beta iota.
  unfold delete_objects, DeleteEndpointSlice, DeleteService. rewrite Hns1, Hns2, Hid, run_bind.
  destruct (delete_slice name x2) as (x3 & E3 & Hs3 & Hl3); [by rewrite Hl2|].
  destruct (store_only _ _ _ _ _ E3 (w_env_set_env x2 w) eq_refl eq_refl) as (-> & Ha3 & He3).
  autorewrite with goenv in *. cbv beta iota. rewrite run_bind.
  destruct (delete_service name x3) as (x4 & E4 & Hs4 & Hl4); [by rewrite Hs3, Hs2|].
  destruct (store_only _ _ _ _ _ E4 (w_env_set_env x3 w) eq_refl eq_refl) as (-> & Ha4 & He4).
  autorewrite with goenv in *. cbv beta iota.
  match goal with |- context [VcsiControllerUnpublish ?r] =>
    destruct (c_unpublish r x4) as (x5 & E5 & Ha5) end.
  destruct (attach_only _ _ _ _ _ E5 (w_env_set_env x4 w) eq_refl eq_refl eq_refl)
    as (-> & Hs5 & Hl5 & He5).
  autorewrite with goenv in *. cbn [unpub_VolumeId unpub_NodeId] in Ha5.
  eexists. split; [done|]. do 3 (split; [congruence|]).
  eapply servers_moved_view; [exact He2|done|congruence].
Qed.
#[local] Arguments unpublish_last : simpl never.

Lemma run_unpublish_client req id n server clients stale room w :
  unpublishes n req id -> IsNFSVolumeID id = true -> servers_ok (S room) (servers (w_env w)) ->
  serves id stale (Some (server, clients)) (w_env w) ->
  exists x, run (unpublish_locked cs req) w = (Done (Some Unpublished, None), set_env x w) /\
    serves id stale (Shared.step (Shared.Unpublish n) (Some (server, clients))) x /\
    same_elsewhere id (w_env w) x /\ servers_ok room (servers x).
Proof.
  intros (Hid & Hn) Hnfs Hok
    (svc & labels & sl & ip & ep & addrs & eps & Hs & Hname & Hns & Hlab & Hcl & Hl & Hlns & Hsrv
       & Heps & Haddrs & Hip & Ha & Hin & He).
  destruct (remaining_clients labels clients n Hcl) as [Hcl' Hlast].
  unfold unpublish_locked. rewrite Hid, run_bind.
  destruct (run_getServiceAndSlice (VolumeIDToServiceName id) w)
    as (r & x1 & -> & (Hs1 & Hl1 & Ha1 & He1) & Hr).
  rewrite Hs, Hl in Hr. subst r. cbv beta iota zeta. unfold first_address. rewrite Heps, Haddrs.
  rewrite run_bind, run_ret. apply String.eqb_neq in Hip as Hip'. rewrite Hip'.
  unfold removeNodeFromNfsService, UpdateService. rewrite Hn, Hlab, Hns, !run_bind.
  change (mdelete (Some labels) ?k) with (Some (delete k labels)). rewrite Hlast.
  set (svc' := with_labels (Some (delete (client_label n) labels)) svc).
  destruct (update_service svc' x1) as (x2 & E2 & Hs2 & Hl2).
  { cbn. rewrite Hname, Hs1, Hs. eauto. }
  destruct (store_only _ _ _ _ _ E2 (w_env_set_env x1 w) eq_refl eq_refl) as (-> & Ha2 & He2).
  cbn [svc_Name svc' with_labels] in Hs2. rewrite Hname in Hs2.
  autorewrite with goenv in *. rewrite run_ret. cbv beta iota. cbn [Shared.step].
  case_bool_decide as Hempty; [rewrite decide_True by done|rewrite decide_False by done].
  - destruct (run_unpublish_last req id (VolumeIDToServiceName id) ip svc' sl server room (set_env x2 w))
      as (x3 & -> & Hs3 & Hl3 & Ha3 & Hok3 & He3 & Hsep3); [done..| | |done|done| | |];
      autorewrite with goenv.
    { by rewrite He2, He1. }
    { unfold exporters. by rewrite He2, He1. }
    { rewrite Hs2, lookup_insert_eq. eauto. }
    { rewrite Hl2, Hl1, Hl. eauto. }
    autorewrite with goenv in *. assert (Hexp : forall id', exporters id' x2 = exporters id' (w_env w)).
    { intros id'. unfold exporters. congruence. }
    eexists. split; [done|]. split; [|split; [|done]].
    + unfold serves, attached_to. rewrite Hs3, Hl3, Ha3, He3, !lookup_delete_eq, Hexp, Ha2, Ha1.
      do 2 (split; [done|]). split; [apply nodes_of_detach; by unfold attached_to in Ha; rewrite Ha|]. by apply removed_subseteq.
    + split; [intros k Hk; split|split; intros k Hk]; rewrite ?Hs3, ?Hl3, ?Ha3.
      4: by rewrite Hsep3.
      3: rewrite nodes_of_detach_ne by done; congruence.
      all: rewrite lookup_delete_ne by done; rewrite ?Hs2, ?lookup_insert_ne by done; congruence.
  - eexists. split; [done|]. assert (Hsv : servers x2 = servers (w_env w)) by congruence.
    split; [|split; [|rewrite Hsv; by apply s_less] ].
    + exists svc', (delete (client_label n) labels), sl, ip, ep, addrs, eps. unfold exporters, attached_to.
      rewrite Hs2, Hl2, Ha2, Hsv, lookup_insert_eq, Hl1, Ha1. done.
    + split; [intros k Hk; split|split; intros k Hk]; unfold exporters; rewrite ?Hs2, ?Hl2, ?Ha2, ?Hsv;
        rewrite ?lookup_insert_ne by done; congruence.
Qed.

(** *** Sequences of calls *)

Definition publish_request (id n : string) (m : gmap string string) : ControllerPublishVolumeRequest :=
  {| pub_VolumeId := id; pub_NodeId := n; pub_VolumeCapability := None; pub_VolumeContext := Some m |}.

Definition exec (fuel : nat) (ctx : context) (id : string) (m : gmap string string) (o : Shared.op)
    : prog bool :=
  match o with
  | Shared.Publish n =>
      '(_, err) ← ControllerPublishVolume cs (S fuel) (S fuel) ctx (publish_request id n m);
      mret (negb (is_some err))
  | Shared.Unpublish n =>
      '(_, err) ← ControllerUnpublishVolume cs (S fuel) ctx
                    {| unpub_VolumeId := id; unpub_NodeId := n |};
      mret (negb (is_some err))
  end.

Fixpoint exec_all (fuel : nat) (ctx : context) (id : string) (m : gmap string string)
    (ops : list Shared.op) : prog (list bool) :=
  match ops with
  | [] => mret []
  | o :: ops => b ← exec fuel ctx id m o; bs ← exec_all fuel ctx id m ops; mret (b :: bs)
  end.

(** A node that can serve: known to the cluster, online, with an NFS server. *)
Definition usable (w : world X) (o : Shared.op) : Prop :=
  match o with
  | Shared.Publish n =>
      exists ip, node_at n ip /\ ip <> "" /\ online_at ip w /\ server_at (service_address ip)
  | Shared.Unpublish _ => True
  end.

Lemma usable_env x w o : usable w o -> usable (set_env x w) o.
Proof. destruct o as [n|n]; cbn; [|done]. intros (ip & ? & ? & ? & ?). exists ip. by destruct w. Qed.

Lemma unlock_env l l' x w :
  w_PVLock w = l -> set_lockmap PVLock l (set_env x (set_lockmap PVLock l' w)) = set_env x w.
Proof. intros <-. by destruct w. Qed.

Lemma run_exec fuel ctx id m o s stale room w :
  IsNFSVolumeID id = true -> w_PVLock w !! id = None -> usable w o ->
  servers_ok (S room) (servers (w_env w)) -> serves id stale s (w_env w) ->
  exists x, run (exec fuel ctx id m o) w = (Done true, set_env x w) /\
    serves id stale (Shared.step o s) x /\ same_elsewhere id (w_env w) x /\ servers_ok room (servers x).
Proof.
  intros Hnfs Hlock Huse Hok Hserv.
  set (w1 := fun r => set_lockmap PVLock (<[id:=r]> (w_PVLock w)) w).
  assert (Hw1 : forall r, w_env (w1 r) = w_env w) by by destruct w.
  destruct o as [n|n]; cbn [exec]; rewrite run_bind;
    [unfold ControllerPublishVolume|unfold ControllerUnpublishVolume];
    rewrite run_pv_section by (done || auto with goprog); cbn [pub_VolumeId unpub_VolumeId publish_request];
    match goal with |- context [set_lockmap PVLock (<[id:=?r]> _) w] => fold (w1 r); set (rid := r) end.
  - destruct Huse as (ip & Hat & Hip & Hon & Hsrv).
    assert (Hpub : publishes n (publish_request id n m) id) by done.
    assert (Hrun : exists resp x, run (publish_locked cs (S fuel) ctx (publish_request id n m)) (w1 rid) =
              (Done (Some resp, None), set_env x (w1 rid)) /\
              serves id stale (Shared.step (Shared.Publish n) s) x /\
              same_elsewhere id (w_env (w1 rid)) x /\ servers_ok room (servers x)).
    { destruct s as [[server clients]|].
      - edestruct run_publish_again as (resp & x & Hr & Hx & Hel & Hsv); [done|done|by rewrite Hw1|].
        exists resp, x. do 3 (split; [done|]). rewrite Hsv, Hw1. by apply s_less.
      - eapply run_publish_first; [done..| |done|by rewrite Hw1|by rewrite Hw1]. by destruct w. }
    destruct Hrun as (resp & x & -> & Hx & Hel). cbn [fst snd]. unfold w1. rewrite unlock_env by done.
    exists x. rewrite Hw1 in Hel. done.
  - assert (Hrun : exists x, run (unpublish_locked cs {| unpub_VolumeId := id; unpub_NodeId := n |}) (w1 rid) =
              (Done (Some Unpublished, None), set_env x (w1 rid)) /\
              serves id stale (Shared.step (Shared.Unpublish n) s) x /\
              same_elsewhere id (w_env (w1 rid)) x /\ servers_ok room (servers x)).
    { destruct s as [[server clients]|].
      - apply run_unpublish_client; [done|done|by rewrite Hw1..].
      - destruct (run_unpublish_absent {| unpub_VolumeId := id; unpub_NodeId := n |} id n stale (w1 rid))
          as (x & Hr & Hx & Hel & Hsv); [done|by rewrite Hw1|].
        exists x. do 3 (split; [done|]). rewrite Hsv, Hw1. by apply s_less. }
    destruct Hrun as (x & -> & Hx & Hel). cbn [fst snd]. unfold w1. rewrite unlock_env by done.
    exists x. rewrite Hw1 in Hel. done.
Qed.
#[local] Arguments exec : simpl never.

Lemma run_exec_all (fuel : nat) (ctx : context) (id : string)
    (m : gmap string string) (ops : list Shared.op) (s : Shared.state) stale room w
    (Hnfs : IsNFSVolumeID id = true) (Hlock : w_PVLock w !! id = None)
    (Huse : Forall (usable w) ops) (Hok : servers_ok (List.length ops + room) (servers (w_env w)))
    (Hserv : serves id stale s (w_env w)) :
  exists x, run (exec_all fuel ctx id m ops) w =
              (Done (replicate (List.length ops) true), set_env x w) /\
    serves id stale (List.fold_left (fun s o => Shared.step o s) ops s) x /\
    same_elsewhere id (w_env w) x /\ servers_ok room (servers x).
Proof.
  revert s w Hlock Huse Hok Hserv. induction ops as [|o ops IH]; intros s w Hlock Huse Hok Hserv.
  { exists (w_env w). cbn. by autorewrite with goenv. }
  apply Forall_cons in Huse as [Ho Hops]. cbn [exec_all]. rewrite run_bind.
  destruct (run_exec fuel ctx id m o s stale (List.length ops + room) w) as (x & -> & Hx & Hel & Hok2);
    [done..|]. rewrite run_bind.
  destruct (IH (Shared.step o s) (set_env x w)) as (y & -> & Hy & Hel2 & Hok3).
  - by destruct w.
  - eapply Forall_impl; [exact Hops|]. intros o'. apply usable_env.
  - by autorewrite with goenv.
  - by autorewrite with goenv.
  - autorewrite with goenv in *. exists y. do 2 (split; [done|]). split; [by etrans|done].
Qed.

(** C3: [ControllerPublishVolume] and [ControllerUnpublishVolume] implement the
    reference-counted sharing of a volume: on a cluster whose parts do what
    they are asked, every sequence of calls for a volume, made for nodes that
    are known and online, succeeds and ends in the state of the abstract
    specification: no objects, attachment or export while nobody uses the
    volume; otherwise the volume is attached to the first node, exported by its
    server and no other (but for the servers that had failed to unexport it
    before), described by the slice, and the client labels of the service are
    the nodes that use it.  Other volumes, the volume locks and the rest of
    the process are left as they were. *)
Theorem publish_unpublish_refine_sharing (fuel : nat) (ctx : context) (id : string)
    (m : gmap string string) (ops : list Shared.op) (s : Shared.state) stale w
    (Hnfs : IsNFSVolumeID id = true) (Hlock : w_PVLock w !! id = None)
    (Huse : Forall (usable w) ops) (Hok : servers_ok (List.length ops) (servers (w_env w)))
    (Hserv : serves id stale s (w_env w)) :
  exists x, run (exec_all fuel ctx id m ops) w =
              (Done (replicate (List.length ops) true), set_env x w) /\
    serves id stale (List.fold_left (fun s o => Shared.step o s) ops s) x /\
    same_elsewhere id (w_env w) x.
Proof.
  destruct (run_exec_all fuel ctx id m ops s stale 0 w) as (x & Hr & Hx & Hel & _); [done..| |done|eauto].
  by rewrite Nat.add_0_r.
Qed.
End Sharing.

(** ** A simulated cluster *)

Record sim := Sim {
  sim_services : gmap string Service;
  sim_slices : gmap string EndpointSlice;
  sim_attached : attachments;
  sim_exported : gmap string (gset string); (* service name to the servers that export it *)
}.

Definition sim_exporters (t : gmap string (gset string)) (name : string) : gset string :=
  default ∅ (t !! name).

Definition sim_node (n ip : string) : Node :=
  {| node_Name := n; node_Labels := None;
     node_Annotations := Some {[nodeid_annotation := render [("csi-powerstore.dellemc.com", n)]]};
     node_Addresses := [ip] |}.
Definition sim_nodes : list Node := [sim_node "csi-1" "10.0.0.1"; sim_node "csi-2" "10.0.0.2"].

Definition sim_step : Env sim := fun B e =>
  match e in extE B return sim -> B * sim with
  | KubeGetService _ name => fun x => (found "services" name (sim_services x !! name), x)
  | KubeGetSlice _ name => fun x => (found "endpointslices" name (sim_slices x !! name), x)
  | KubeCreateService _ s => fun x =>
      match sim_services x !! svc_Name s with
      | Some _ => (inr (already_exists_error "services" (svc_Name s)), x)
      | None => (inl s, Sim (<[svc_Name s:=s]> (sim_services x)) (sim_slices x) (sim_attached x)
                            (sim_exported x))
      end
  | KubeCreateSlice _ s => fun x =>
      match sim_slices x !! es_Name s with
      | Some _ => (inr (already_exists_error "endpointslices" (es_Name s)), x)
      | None => (inl s, Sim (sim_services x) (<[es_Name s:=s]> (sim_slices x)) (sim_attached x)
                            (sim_exported x))
      end
  | KubeUpdateService _ s => fun x =>
      match sim_services x !! svc_Name s with
      | None => (inr (not_found_error "services" (svc_Name s)), x)
      | Some _ => (inl s, Sim (<[svc_Name s:=s]> (sim_services x)) (sim_slices x) (sim_attached x)
                              (sim_exported x))
      end
  | KubeUpdateSlice _ s => fun x =>
      match sim_slices x !! es_Name s with
      | None => (inr (not_found_error "endpointslices" (es_Name s)), x)
      | Some _ => (inl s, Sim (sim_services x) (<[es_Name s:=s]> (sim_slices x)) (sim_attached x)
                              (sim_exported x))
      end
  | KubeDeleteService _ name => fun x =>
      match sim_services x !! name with
      | None => (Some (not_found_error "services" name), x)
      | Some _ => (None, Sim (delete name (sim_services x)) (sim_slices x) (sim_attached x)
                             (sim_exported x))
      end
  | KubeDeleteSlice _ name => fun x =>
      match sim_slices x !! name with
      | None => (Some (not_found_error "endpointslices" name), x)
      | Some _ => (None, Sim (sim_services x) (delete name (sim_slices x)) (sim_attached x)
                             (sim_exported x))
      end
  | KubeListSlices _ selector => fun x => (inl (labelled "nodeIP" (TrimPrefix selector "nodeIP=") (sim_slices x)), x)
  | KubeListNodes => fun x => (inl sim_nodes, x)
  | KubeGetPV name => fun x =>
      (inl {| pv_Name := name; pv_VolumeHandle := Some ("nfs-" +:+ name) |}, x)
  | KubeGetNode name => fun x =>
      (found "nodes" name (List.find (fun n => String.eqb (node_Name n) name) sim_nodes), x)
  | VcsiControllerPublish r => fun x =>
      ((Some {| pubr_PublishContext := None |}, None),
       Sim (sim_services x) (sim_slices x) ({[(pub_VolumeId r, pub_NodeId r)]} ∪ sim_attached x)
           (sim_exported x))
  | VcsiControllerUnpublish r => fun x =>
      ((Some Unpublished, None),
       Sim (sim_services x) (sim_slices x) (detach (unpub_VolumeId r) (unpub_NodeId r) (sim_attached x))
           (sim_exported x))
  | RpcExport address r => fun x =>
      (inl {| exresp_VolumeId := exreq_VolumeId r; exresp_ExportNfsContext := None |},
       Sim (sim_services x) (sim_slices x) (sim_attached x)
           (let name := mget (exreq_ExportNfsContext r) ServiceName in
            <[name := {[address]} ∪ sim_exporters (sim_exported x) name]> (sim_exported x)))
  | RpcUnexport address r => fun x =>
      (inl {| unresp_VolumeId := unreq_VolumeId r; unresp_UnexportNfsContext := None |},
       Sim (sim_services x) (sim_slices x) (sim_attached x)
           (let name := mget (unreq_UnexportNfsContext r) ServiceName in
            <[name := sim_exporters (sim_exported x) name ∖ {[address]}]> (sim_exported x)))
  | e => fun x => (calm_answer e, x)
  end.

Section Simulation.
#[local] Existing Instance ascii_tables.
#[local] Existing Instance demo_globals.
#[local] Existing Instance demo_printing.
#[local] Existing Instance sim_step.

#[export] Program Instance sim_store : KubeStore sim := {
  services := sim_services;
  slices := sim_slices;
}.
Next Obligation. intros. eexists. split; [reflexivity|done]. Qed.
Next Obligation. intros. eexists. split; [reflexivity|done]. Qed.
Next Obligation. intros s x Hs. cbn. rewrite Hs. eexists. split; [reflexivity|done]. Qed.
Next Obligation. intros s x Hs. cbn. rewrite Hs. eexists. split; [reflexivity|done]. Qed.
Next Obligation. intros s x [v Hs]. cbn. rewrite Hs. eexists. split; [reflexivity|done]. Qed.
Next Obligation. intros s x [v Hs]. cbn. rewrite Hs. eexists. split; [reflexivity|done]. Qed.
Next Obligation. intros s x [v Hs]. cbn. rewrite Hs. eexists. split; [reflexivity|done]. Qed.
Next Obligation. intros s x [v Hs]. cbn. rewrite Hs. eexists. split; [reflexivity|done]. Qed.
Next Obligation. intros B e x He. destruct e; try discriminate He; done. Qed.

#[export] Program Instance sim_cluster : Cluster sim := {
  attached := sim_attached;
  cluster_nodes := sim_nodes;
}.
Next Obligation. intros. do 2 eexists. split; [reflexivity|done]. Qed.
Next Obligation. intros. eexists. split; [reflexivity|done]. Qed.
Next Obligation. done. Qed.
Next Obligation. done. Qed.
Next Obligation. done. Qed.
Next Obligation. intros B e x He. destruct e; try discriminate He; cbn; try case_match; done. Qed.

#[export] Program Instance sim_servers : NfsServers sim := {
  server_state := gmap string (gset string);
  servers := sim_exported;
  servers_ok := fun _ _ => True;
  exported_at := fun t id => gset_to_gmap Serving (sim_exporters t (VolumeIDToServiceName id));
  server_at := fun _ => True;
  separate := fun id id' => VolumeIDToServiceName id <> VolumeIDToServiceName id';
}.
Next Obligation. done. Qed.
Next Obligation.
  intros address req id n x _ _ _ _ Hname. do 2 eexists. split; [reflexivity|]. split; [done|].
  cbn. rewrite Hname. unfold sim_exporters.
  split; [by rewrite lookup_insert_eq, <- gset_to_gmap_union_singleton|].
  intros id' Hne. by rewrite lookup_insert_ne.
Qed.
Next Obligation.
  intros address req id n x _ _ _ _ Hname. do 2 eexists. split; [reflexivity|]. split; [done|].
  cbn. rewrite Hname. unfold sim_exporters.
  split; [by rewrite lookup_insert_eq, <- gset_to_gmap_difference_singleton|].
  intros id' Hne. by rewrite lookup_insert_ne.
Qed.
Next Obligation. intros B e x He. destruct e; try discriminate He; cbn; try case_match; done. Qed.

(** Two nodes, both online. *)
Definition online_status (ip : string) : NodeStatus :=
  {| ns_nodeName := "node"; ns_nodeIP := ip; ns_badPings := 0; ns_goodPings := 1;
     ns_inRecovery := false; ns_online := true; ns_status := ""; ns_dumpingExports := false |}.
Definition sim_world : world sim :=
  set_var V_nodeIPAddress {["10.0.0.1" := 0%nat; "10.0.0.2" := 1%nat]}
    (set_statuses [online_status "10.0.0.1"; online_status "10.0.0.2"]
       (initial_world "" (Sim ∅ ∅ ∅ ∅))).

Definition sim_ops : list Shared.op :=
  [Shared.Publish "csi-1"; Shared.Publish "csi-2"; Shared.Unpublish "csi-1"].

Lemma sim_usable_1 : usable demo_service sim_world (Shared.Publish "csi-1").
Proof.
  exists "10.0.0.1". split; [|split; [done|split; [|done] ] ].
  - exists (sim_node "csi-1" "10.0.0.1"), []. split; vm_compute; reflexivity.
  - exists 0%nat, (online_status "10.0.0.1"). repeat split; vm_compute; reflexivity.
Qed.

Lemma sim_usable_2 : usable demo_service sim_world (Shared.Publish "csi-2").
Proof.
  exists "10.0.0.2". split; [|split; [done|split; [|done] ] ].
  - exists (sim_node "csi-2" "10.0.0.2"), []. split; vm_compute; reflexivity.
  - exists 1%nat, (online_status "10.0.0.2"). repeat split; vm_compute; reflexivity.
Qed.

Lemma sim_world_serves id : serves demo_service id ∅ None (w_env sim_world).
Proof. repeat split. unfold exporters. cbn. done. Qed.

Lemma publish_unpublish_refine_sharing_witness :
  exists x, run (exec_all demo_service 0 Background "nfs-v1" ∅ sim_ops) sim_world =
              (Done [true; true; true], set_env x sim_world) /\
    serves demo_service "nfs-v1" ∅ (Some ("csi-1", {["csi-2"]})) x.
Proof.
  destruct (publish_unpublish_refine_sharing demo_service 0 Background "nfs-v1" ∅ sim_ops None ∅ sim_world)
    as (x & Hr & Hx & _).
  - reflexivity.
  - reflexivity.
  - repeat constructor; [exact sim_usable_1|exact sim_usable_2].
  - exact I.
  - apply sim_world_serves.
  - exists x. split; [exact Hr|].
    replace (Some ("csi-1", {["csi-2"]} : gset string))
      with (List.fold_left (fun s o => Shared.step o s) sim_ops None); [exact Hx|].
    vm_compute. reflexivity.
Defined.
End Simulation.

(** ** Failures of the API in the middle of a call *)

Inductive fault := FailDeleteService | FailCreateService | FailGetSlice.

(** The simulated cluster, on which the listed calls fail once, in order. *)
Definition faulty_step : Env (sim * list fault) := fun B e =>
  let pass (x : sim) (fs : list fault) := let '(b, x') := sim_step _ e x in (b, (x', fs)) in
  match e in extE B return (sim -> list fault -> B * (sim * list fault)) ->
                           sim * list fault -> B * (sim * list fault) with
  | KubeDeleteService _ _ => fun pass '(x, fs) =>
      match fs with
      | FailDeleteService :: fs => (Some (Errorf "etcdserver: request timed out"), (x, fs))
      | _ => pass x fs
      end
  | KubeCreateService _ _ => fun pass '(x, fs) =>
      match fs with
      | FailCreateService :: fs => (inr (Errorf "etcdserver: request timed out"), (x, fs))
      | _ => pass x fs
      end
  | KubeGetSlice _ _ => fun pass '(x, fs) =>
      match fs with
      | FailGetSlice :: fs => (inr (Errorf "etcdserver: request timed out"), (x, fs))
      | _ => pass x fs
      end
  | _ => fun pass '(x, fs) => pass x fs
  end pass.

Definition faulty_world (fs : list fault) : world (sim * list fault) :=
  set_var V_nodeIPAddress {["10.0.0.1" := 0%nat; "10.0.0.2" := 1%nat]}
    (set_statuses [online_status "10.0.0.1"; online_status "10.0.0.2"]
       (initial_world "" (Sim ∅ ∅ ∅ ∅, fs))).

Section Faults.
#[local] Existing Instance ascii_tables.
#[local] Existing Instance demo_globals.
#[local] Existing Instance demo_printing.
#[local] Existing Instance faulty_step.

Definition error_of {A} (o : outcome (pair_err A)) : option (option go_error) :=
  match o with Done (_, err) => Some err | _ => None end.

(** What the cluster holds for the volume [nfs-v1]: is there a slice, is there
    a service, to which nodes is it attached, who exports it. *)
Definition situation (w : world (sim * list fault)) :
    option string * bool * list string * list string :=
  let x := (w_env w).1 in
  (sl ← sim_slices x !! "nfs-v1"; labels ← es_Labels sl; labels !! "nodeID",
   is_some (sim_services x !! "nfs-v1"),
   elements (nodes_of "v1" (sim_attached x)), elements (sim_exporters (sim_exported x) "nfs-v1")).

Definition publish_on (n : string) (w : world (sim * list fault)) :=
  run (ControllerPublishVolume demo_service 1 1 Background (publish_request "nfs-v1" n ∅)) w.
Definition unpublish_on (n : string) (w : world (sim * list fault)) :=
  run (ControllerUnpublishVolume demo_service 1 Background
         {| unpub_VolumeId := "nfs-v1"; unpub_NodeId := n |}) w.

(** a failure of the API to delete the Service leaks the volume: the slice
    is already gone, so the retried [ControllerUnpublishVolume] takes the
    volume for unpublished and reports success, with the Service left behind
    and the volume still attached to its server. *)
Theorem Unpublish_retry_leaks :
  let '(r0, w0) := publish_on "csi-1" (faulty_world [FailDeleteService]) in
  let '(r1, w1) := unpublish_on "csi-1" w0 in
  let '(r2, w2) := unpublish_on "csi-1" w1 in
  error_of r0 = Some None /\
  error_of r1 = Some (Some (Errorf "etcdserver: request timed out")) /\
  error_of r2 = Some None /\
  situation w2 = (None, true, ["csi-1"], []).
Proof. vm_compute. repeat split; reflexivity. Qed.

(** when the slice was created and the Service was not, publishing is stuck:
    the retried call takes the volume for new, attaches and exports it again,
    fails because the slice exists, and leaves everything as it found it, so
    every further call does the same. *)
Theorem Publish_stuck_after_half_creation :
  let '(r1, w1) := publish_on "csi-1" (faulty_world [FailCreateService]) in
  let '(r2, w2) := publish_on "csi-1" w1 in
  error_of r1 = Some (Some (Errorf "etcdserver: request timed out")) /\
  error_of r2 = Some (Some (already_exists_error "endpointslices" "nfs-v1")) /\
  situation w1 = (Some "csi-1", false, ["csi-1"], ["10.0.0.1:2050"]) /\
  w_env w2 = w_env w1.
Proof. vm_compute. repeat split; reflexivity. Qed.

(** any failure to read the slice is taken for its absence: when it strikes
    while a second node is published, the volume that the first node serves
    is attached to and exported by both, while slice and service still name
    the first. *)
Theorem Publish_transient_error_moves_volume :
  let '(r0, w0) := publish_on "csi-1" (faulty_world []) in
  let '(r1, w1) := publish_on "csi-2" (set_env ((w_env w0).1, [FailGetSlice]) w0) in
  error_of r0 = Some None /\
  situation w0 = (Some "csi-1", true, ["csi-1"], ["10.0.0.1:2050"]) /\
  error_of r1 = Some (Some (already_exists_error "endpointslices" "nfs-v1")) /\
  situation w1 = (Some "csi-1", true, ["csi-1"; "csi-2"], ["10.0.0.1:2050"; "10.0.0.2:2050"]).
Proof. vm_compute. repeat split; reflexivity. Qed.
End Faults.
