(* ===== verification/NodeService.v ===== *)
(** * The node service ([src/nfs/node.go])

    Staging mounts the NFS export of a volume's Service, publishing binds it
    to the pod's directory; unpublishing and unstaging unmount again.  The
    handlers of a volume exclude each other through [PVLock], mount commands
    through [mountMutex].  Responses without fields are [option unit]: [None]
    is the nil pointer. *)

From S2P Require Import Prelude GoStrings Messages GoProg Naming Exports Config K8s Controller.

Definition defaultTimeout : Z := 10 * second.
Definition nodeStageRetryWait : Z := defaultTimeout.

Section Node.
Context `{UnicodeTables} `{Globals} `{Printing} (ns : CsiNfsService).

Definition isAlreadyMounted (device : string) : prog bool :=
  '(out, err) ← ext (Exec ExecuteCommand "mount" []);
  mret (match err with
        | Some _ => false
        | None => existsb (fun line => Contains line device) (Split out nl)
        end).

Definition mount_source (service : Service) (serviceName : string) : string :=
  svc_ClusterIP service +:+ ":" +:+ NfsExportDirectory +:+ "/" +:+ serviceName.

(** The mount command, under [mountMutex]; when the context ends first the
    command is left running. *)
Definition stage_mount (ctx : context) (mountSource target : string)
    : prog (pair_err (option unit)) :=
  with_lock mountMutex
    (select_call ctx
       (ext (Exec GetCombinedOutput "mount"
               ["-t"; "nfs4"; "-o"; "max_connect=2"; mountSource; target]))
       (fun _ => mret (None, Some (Errorf "NodeStage Mount command timeout")))
       (fun '(_, err) =>
          mret (match err with
                | Some e => (None, Some e)
                | None => (Some tt, None)
                end))).

Definition nodeStageVolume (ctx : context) (req : NodeStageVolumeRequest)
    : prog (pair_err (option unit)) :=
  let serviceName := VolumeIDToServiceName (stage_VolumeId req) in
  r ← GetService DriverNamespace serviceName;
  match r with
  | inr _ =>
      mret (Some tt, Some (Errorf ("could not get service Namespace: " +:+ DriverNamespace
        +:+ ", ServiceName: " +:+ serviceName +:+ ", Service: " +:+ show_failed_service)))
  | inl service =>
      if String.eqb (svc_ClusterIP service) "" then
        mret (Some tt, Some (Errorf ("NodeStageVolume " +:+ stage_VolumeId req
                                       +:+ " failed, service IP empty")))
      else
        let mountSource := mount_source service serviceName in
        mounted ← isAlreadyMounted mountSource;
        if mounted : bool then mret (Some tt, None)
        else if String.eqb (stage_StagingTargetPath req) "" then
          mret (Some tt, Some (Errorf ("NodeStageVolume " +:+ stage_VolumeId req
                                         +:+ " failed, TargetPath empty")))
        else
          let target := stage_StagingTargetPath req in
          '(_, err) ← ext (Exec ExecuteCommand "mkdir" ["-p"; target]);
          _ ← match err with
              | Some _ => _ ← ext (Exec ExecuteCommand "umount" [target]); mret tt
              | None => mret tt
              end;
          _ ← ext (Exec ExecuteCommand "chmod" ["02777"; target]);
          stage_mount ctx mountSource target
  end.

(** The retry loop: [attempts] are left, [resp] and [err] are from the last one. *)
Fixpoint stage_attempts (attempts : nat) (ctx : context) (req : NodeStageVolumeRequest)
    (last : pair_err (option unit)) : prog (pair_err (option unit)) :=
  match attempts with
  | O => mret last
  | S attempts =>
      '(resp, err) ← nodeStageVolume ctx req;
      match err with
      | None => mret (resp, None)
      | Some e =>
          if negb (Contains (err_text e) "timeout") then mret (resp, Some e)
          else _ ← ext (Sleep nodeStageRetryWait); stage_attempts attempts ctx req (resp, Some e)
      end
  end.

Definition NodeStageVolume (lockFuel : nat) (ctx : context) (req : NodeStageVolumeRequest)
    : prog (pair_err (option unit)) :=
  _ ← LockPV lockFuel (stage_VolumeId req) (stage_VolumeId req) false;
  deferred (stage_attempts (cs_failureRetries ns) ctx req (Some tt, None))
    (UnlockPV (stage_VolumeId req)).

(** An unmount whose failure with exit status 32 counts as done. *)
Definition umount_result (r : pair_err string) : pair_err (option unit) :=
  match r.2 with
  | Some e => if negb (Contains (err_text e) "exit status 32") then (Some tt, Some e)
              else (Some tt, None)
  | None => (Some tt, None)
  end.

Definition unstage_locked (req : NodeUnstageVolumeRequest) : prog (pair_err (option unit)) :=
  if negb (IsNFSVolumeID (unstage_VolumeId req)) then
    mret (Some tt, Some (Errorf ("nfs NodeUnstageVolume called on non NFS volume "
                                   +:+ unstage_VolumeId req)))
  else
    r ← ext (Exec ExecuteCommandContext "umount" ["--force"; unstage_StagingTargetPath req]);
    mret (umount_result r).

Definition NodeUnstageVolume (lockFuel : nat) (req : NodeUnstageVolumeRequest)
    : prog (pair_err (option unit)) :=
  _ ← LockPV lockFuel (unstage_VolumeId req) (unstage_VolumeId req) false;
  deferred (unstage_locked req) (UnlockPV (unstage_VolumeId req)).

Definition publish_bind (req : NodePublishVolumeRequest) : prog (pair_err (option unit)) :=
  '(_, err) ← ext (Exec ExecuteCommand "mkdir" ["-p"; npub_TargetPath req]);
  let failed := match err with
                | Some e => if negb (Contains (err_text e) "exists") then Some e else None
                | None => None
                end in
  match failed with
  | Some e => mret (Some tt, Some (Errorf (npub_VolumeId req +:+ ": Couldn't create target directory: "
                                             +:+ err_text e)))
  | None =>
      '(_, err) ← ext (Exec ExecuteCommand "mount"
                         ["--bind"; npub_StagingTargetPath req; npub_TargetPath req]);
      mret (Some tt, err)
  end.

Definition NodePublishVolume (lockFuel : nat) (req : NodePublishVolumeRequest)
    : prog (pair_err (option unit)) :=
  _ ← LockPV lockFuel (npub_VolumeId req) (npub_VolumeId req) false;
  deferred (publish_bind req) (UnlockPV (npub_VolumeId req)).

Definition unpublish_umount (req : NodeUnpublishVolumeRequest) : prog (pair_err (option unit)) :=
  if negb (IsNFSVolumeID (nunpub_VolumeId req)) then
    mret (Some tt, Some (Errorf ("nfs NodeUnpublishVolume called on non NFS volume "
                                   +:+ nunpub_VolumeId req)))
  else
    r ← ext (Exec ExecuteCommandContext "umount" ["--force"; "-l"; nunpub_TargetPath req]);
    mret (umount_result r).

Definition NodeUnpublishVolume (lockFuel : nat) (req : NodeUnpublishVolumeRequest)
    : prog (pair_err (option unit)) :=
  _ ← LockPV lockFuel (nunpub_VolumeId req) (nunpub_VolumeId req) false;
  deferred (unpublish_umount req) (UnlockPV (nunpub_VolumeId req)).
End Node.

(** ** Footprints *)

Section Footprint.
Context `{UnicodeTables} `{Globals} `{Printing} (ns : CsiNfsService).
Local Abbreviation unlocked := (fun B (e : locE B) => touches_map PVLock e = false).
Local Ltac unfold_calls := unfold nodeStageVolume, stage_mount, isAlreadyMounted, GetService.

Lemma nodeStageVolume_ops ctx req : all_ops unlocked (nodeStageVolume ctx req).
Proof. unfold_calls. walk_ops reflexivity. Qed.
#[local] Hint Resolve nodeStageVolume_ops : goprog.

Lemma stage_attempts_ops n ctx req last : all_ops unlocked (stage_attempts n ctx req last).
Proof. revert last. induction n; intros; cbn [stage_attempts]; walk_ops reflexivity. Qed.

Lemma unstage_locked_ops req : all_ops unlocked (unstage_locked req).
Proof. unfold unstage_locked. walk_ops reflexivity. Qed.

Lemma publish_bind_ops req : all_ops unlocked (publish_bind req).
Proof. unfold publish_bind. walk_ops reflexivity. Qed.

Lemma unpublish_umount_ops req : all_ops unlocked (unpublish_umount req).
Proof. unfold unpublish_umount. walk_ops reflexivity. Qed.
End Footprint.
#[export] Hint Resolve stage_attempts_ops unstage_locked_ops publish_bind_ops unpublish_umount_ops : goprog.

(** ** Behaviour in every environment *)

Section AnyEnvironment.
Context `{UnicodeTables} `{Globals} `{Printing} (ns : CsiNfsService) {X : Type} `{Env X}.
Implicit Types w : world X.

(** The process is as before, apart from goroutines that were left behind. *)
Definition locks_kept w w' : Prop := w_held w' = w_held w /\ w_PVLock w' = w_PVLock w.

#[global] Instance locks_kept_preorder : PreOrder locks_kept.
Proof. split; [done|]. intros x y z [? ?] [? ?]. split; congruence. Qed.

Definition mount_args (source target : string) : list string :=
  ["-t"; "nfs4"; "-o"; "max_connect=2"; source; target].

(** What a staged volume shows: the service has an address, and either the
    list of mounts mentions the source or the mount command succeeded. *)
Definition staged (req : NodeStageVolumeRequest) : Prop :=
  let name := VolumeIDToServiceName (stage_VolumeId req) in
  exists service (x : X),
    (env_step (KubeGetService DriverNamespace name) x).1 = inl service /\
    svc_ClusterIP service <> "" /\
    let source := mount_source service name in
    ((exists y out, (env_step (Exec ExecuteCommand "mount" []) y).1 = (out, None) /\
                    existsb (fun line => Contains line source) (Split out nl) = true) \/
     (stage_StagingTargetPath req <> "" /\
      exists y, (env_step (Exec GetCombinedOutput "mount"
                   (mount_args source (stage_StagingTargetPath req))) y).1.2 = None)).

Lemma run_stage_mount ctx source target w :
  free mountMutex w ->
  exists r w', run (stage_mount ctx source target) w = (Done r, w') /\ locks_kept w w' /\
    (r.2 = None ->
     exists y, (env_step (Exec GetCombinedOutput "mount" (mount_args source target)) y).1.2 = None).
Proof.
  intros Hf. unfold stage_mount, mount_args. rewrite run_with_lock by done.
  destruct w as [? ? [] ]. unfold free in Hf. cbn in Hf. subst. unfold select_call.
  ask. destruct r as [e|]; cbn; [by do 2 eexists|].
  ask. destruct r as [out [e|]]; cbn; do 2 eexists; (split; [done|]); (split; [done|]); [done|].
  intros _. eexists. by rewrite Hask0.
Qed.
#[local] Arguments stage_mount : simpl never.

Lemma run_isAlreadyMounted device w :
  exists b x, run (isAlreadyMounted device) w = (Done b, set_env x w) /\
    (b = true -> exists y out, (env_step (Exec ExecuteCommand "mount" []) y).1 = (out, None) /\
                   existsb (fun line => Contains line device) (Split out nl) = true).
Proof.
  unfold isAlreadyMounted. destruct w. ask. destruct r as [out [e|]]; cbn; do 2 eexists;
    (split; [done|]); [done|]. intros Hb. do 2 eexists. by rewrite Hask.
Qed.
#[local] Arguments isAlreadyMounted : simpl never.

Lemma run_nodeStageVolume ctx req w :
  free mountMutex w ->
  exists r w', run (nodeStageVolume ctx req) w = (Done r, w') /\ locks_kept w w' /\
    (r.2 = None -> staged req).
Proof.
  intros Hf. unfold nodeStageVolume, GetService. destruct w as [? ? hh]. ask.
  destruct r as [service|e]; cbn; [|by do 2 eexists].
  destruct (String.eqb (svc_ClusterIP service) "") eqn:Hip; cbn; [by do 2 eexists|]. breflect.
  rewrite run_bind.
  match goal with |- context [run (isAlreadyMounted ?d) ?w1] =>
    destruct (run_isAlreadyMounted d w1) as (b & y & -> & Hb) end. cbn.
  destruct b.
  { do 2 eexists. split; [done|]. split; [done|]. intros _. exists service. eexists.
    rewrite Hask. split; [done|]. split; [done|]. by left; apply Hb. }
  destruct (String.eqb (stage_StagingTargetPath req) "") eqn:Ht; cbn; [by do 2 eexists|]. breflect.
  ask. destruct r as [out [e|]]; cbn; [ask|]; ask;
    (match goal with |- context [run (stage_mount ctx ?s ?t) ?w2] =>
      destruct (run_stage_mount ctx s t w2 Hf) as (r2 & w2' & -> & Hk & Hm) end;
     do 2 eexists; split; [done|]; split; [exact Hk|]; intros Hnone;
     exists service; eexists; rewrite Hask; split; [done|]; split; [done|]; right; auto).
Qed.
#[local] Arguments nodeStageVolume : simpl never.

Lemma run_stage_attempts n ctx req last w :
  free mountMutex w -> (last.2 = None -> (0 < n)%nat) ->
  exists r w', run (stage_attempts n ctx req last) w = (Done r, w') /\ locks_kept w w' /\
    (r.2 = None -> staged req).
Proof.
  revert last w. induction n as [|n IH]; intros last w Hf Hlast.
  { do 2 eexists. split; [done|]. split; [done|]. cbn. intros Hnone. specialize (Hlast Hnone). lia. }
  cbn [stage_attempts]. rewrite run_bind.
  destruct (run_nodeStageVolume ctx req w Hf) as ([resp err] & w1 & -> & Hk & Hst). cbn in Hst.
  destruct err as [e|]; [|by do 2 eexists].
  destruct (negb (Contains (err_text e) "timeout")); [by do 2 eexists|].
  assert (Hf1 : free mountMutex w1) by (unfold free in *; by rewrite (proj1 Hk)).
  destruct w1 as [? ? h1]. ask.
  match goal with |- context [run (stage_attempts n ctx req ?l) ?w2] =>
    destruct (IH l w2 Hf1) as (r2 & w2' & -> & Hk2 & Hst2); [done|] end.
  do 2 eexists. split; [done|]. split; [|done]. etrans; [exact Hk|exact Hk2].
Qed.

(** C22: [NodeStageVolume] in any environment, for a volume nobody works on: it
    terminates without panicking, whatever commands and the API answer, with
    the volume lock and [mountMutex] given back; and when it reports success
    the volume's service has an address and its export is mounted: the mount
    command for the staging path succeeded, or the list of mounts mentions
    the export. *)
Theorem NodeStageVolume_any_environment (lockFuel : nat) (ctx : context)
    (req : NodeStageVolumeRequest) w
    (Hlock : w_PVLock w !! stage_VolumeId req = None) (Hmount : free mountMutex w)
    (Hretries : (0 < cs_failureRetries ns)%nat) :
  exists r w', run (NodeStageVolume ns (S lockFuel) ctx req) w = (Done r, w') /\
    locks_kept w w' /\ (r.2 = None -> staged req).
Proof.
  unfold NodeStageVolume. rewrite run_pv_section by (done || auto with goprog).
  destruct (run_stage_attempts (cs_failureRetries ns) ctx req (Some tt, None)
              (set_lockmap PVLock (<[stage_VolumeId req:=stage_VolumeId req]> (w_PVLock w)) w))
    as (r & w' & -> & [Hh _] & Hst); [by destruct w|done|].
  cbn [fst snd]. do 2 eexists. split; [done|]. split; [|done]. split; [|by destruct w'].
  by destruct w, w'.
Qed.

(** A call of the system under the volume lock. *)
Lemma run_locked_exec {A} fuel id kind name args (f : pair_err string -> A) w :
  w_PVLock w !! id = None -> is_exportfs_r name args = false ->
  run (_ ← LockPV (S fuel) id id false;
       deferred (r ← ext (Exec kind name args); mret (f r)) (UnlockPV id)) w =
  let '(r, x) := env_step (Exec kind name args) (w_env w) in (Done (f r), set_env x w).
Proof.
  intros Hid Hname. rewrite run_pv_section; [|done|walk_ops reflexivity].
  rewrite !run_bind. destruct w. cbn in *. unfold ext_step. cbn. rewrite Hname.
  destruct (env_step _ _) as [r x]. done.
Qed.

Lemma umount_outcome (a : pair_err string * X) w :
  (let '(r, x) := a in (Done (umount_result r), set_env x w)) =
  (let '((_, err), x) := a in
   match err with
   | None => (Done (Some tt, None), set_env x w)
   | Some e =>
       if Contains (err_text e) "exit status 32" then (Done (Some tt, None), set_env x w)
       else (Done (Some tt, Some e), set_env x w)
   end).
Proof.
  destruct a as [ [out [e|] ] x]; [|done]. unfold umount_result. cbn [snd].
  by destruct (Contains (err_text e) "exit status 32").
Qed.

(** C23: [NodeUnstageVolume] and [NodeUnpublishVolume] on every branch, for a
    volume nobody works on: a volume id without the NFS prefix is refused and
    nothing is executed; otherwise exactly one [umount] of the given path is
    executed, and the handler succeeds when that command did or when the text
    of its error contains "exit status 32", and returns every other error as
    it is; nothing of the process changes. *)
Theorem node_unmounts_correct (lockFuel : nat) (ureq : NodeUnstageVolumeRequest)
    (preq : NodeUnpublishVolumeRequest) w
    (Hu : w_PVLock w !! unstage_VolumeId ureq = None)
    (Hp : w_PVLock w !! nunpub_VolumeId preq = None) :
  run (NodeUnstageVolume (S lockFuel) ureq) w =
    (if IsNFSVolumeID (unstage_VolumeId ureq) then
       let '((_, err), x) := env_step (Exec ExecuteCommandContext "umount"
                               ["--force"; unstage_StagingTargetPath ureq]) (w_env w) in
       match err with
       | None => (Done (Some tt, None), set_env x w)
       | Some e =>
           if Contains (err_text e) "exit status 32" then (Done (Some tt, None), set_env x w)
           else (Done (Some tt, Some e), set_env x w)
       end
     else (Done (Some tt, Some (Errorf ("nfs NodeUnstageVolume called on non NFS volume "
                                          +:+ unstage_VolumeId ureq))), w)) /\
  run (NodeUnpublishVolume (S lockFuel) preq) w =
    (if IsNFSVolumeID (nunpub_VolumeId preq) then
       let '((_, err), x) := env_step (Exec ExecuteCommandContext "umount"
                               ["--force"; "-l"; nunpub_TargetPath preq]) (w_env w) in
       match err with
       | None => (Done (Some tt, None), set_env x w)
       | Some e =>
           if Contains (err_text e) "exit status 32" then (Done (Some tt, None), set_env x w)
           else (Done (Some tt, Some e), set_env x w)
       end
     else (Done (Some tt, Some (Errorf ("nfs NodeUnpublishVolume called on non NFS volume "
                                          +:+ nunpub_VolumeId preq))), w)).
Proof.
  split.
  - unfold NodeUnstageVolume, unstage_locked. destruct (IsNFSVolumeID (unstage_VolumeId ureq)); cbn [negb].
    + rewrite run_locked_exec by done. apply umount_outcome.
    + rewrite run_pv_section by (done || walk_ops reflexivity). by destruct w.
  - unfold NodeUnpublishVolume, unpublish_umount. destruct (IsNFSVolumeID (nunpub_VolumeId preq)); cbn [negb].
    + rewrite run_locked_exec by done. apply umount_outcome.
    + rewrite run_pv_section by (done || walk_ops reflexivity). by destruct w.
Qed.

(** C24: [NodePublishVolume] on every branch, for a volume nobody works on: the
    target directory is made first, and a failure that does not say "exists"
    is returned without mounting; otherwise the result is that of one bind
    mount of the staging path; the process is as before. *)
Theorem NodePublishVolume_correct (lockFuel : nat) (req : NodePublishVolumeRequest) w
    (Hlock : w_PVLock w !! npub_VolumeId req = None) :
  let '((_, e1), x1) := env_step (Exec ExecuteCommand "mkdir" ["-p"; npub_TargetPath req]) (w_env w) in
  run (NodePublishVolume (S lockFuel) req) w =
  match e1 with
  | Some e =>
      if Contains (err_text e) "exists" then
        let '((_, e2), x2) := env_step (Exec ExecuteCommand "mount"
          ["--bind"; npub_StagingTargetPath req; npub_TargetPath req]) x1 in
        (Done (Some tt, e2), set_env x2 w)
      else (Done (Some tt, Some (Errorf (npub_VolumeId req
              +:+ ": Couldn't create target directory: " +:+ err_text e))), set_env x1 w)
  | None =>
      let '((_, e2), x2) := env_step (Exec ExecuteCommand "mount"
        ["--bind"; npub_StagingTargetPath req; npub_TargetPath req]) x1 in
      (Done (Some tt, e2), set_env x2 w)
  end.
Proof.
  destruct (env_step (Exec ExecuteCommand "mkdir" ["-p"; npub_TargetPath req]) (w_env w))
    as [[o1 e1] x1] eqn:E1.
  unfold NodePublishVolume. rewrite run_pv_section by (done || auto with goprog).
  unfold publish_bind. destruct w. cbn in E1 |- *. unfold ext_step. cbn. rewrite E1. cbn.
  destruct e1 as [e|]; [destruct (Contains (err_text e) "exists"); cbn; [|done]|cbn];
    unfold ext_step; cbn; destruct (env_step _ x1) as [[o2 e2] x2]; done.
Qed.
End AnyEnvironment.

(** ** Concrete behaviour *)

Section Scenarios.
#[local] Existing Instance ascii_tables.
#[local] Existing Instance demo_globals.
#[local] Existing Instance demo_printing.

Definition demo_stage (id : string) : NodeStageVolumeRequest :=
  {| stage_VolumeId := id; stage_StagingTargetPath := "/staging" |}.

(** A node whose mounts are [listing]; the mount command answers [answer], and
    the state counts how often it was started. *)
Definition mounts_env (listing : string) (answer : option go_error) : Env nat := fun B e =>
  match e in extE B return nat -> B * nat with
  | KubeGetService ns name => fun n =>
      (inl {| svc_Name := name; svc_Namespace := ns; svc_Labels := None; svc_Annotations := None;
              svc_ClusterIP := "10.96.0.7"; svc_Ports := [] |}, n)
  | Exec ExecuteCommand name _ => fun n =>
      ((if String.eqb name "mount" then listing else "", None), n)
  | Exec GetCombinedOutput _ _ => fun n => (("", answer), S n)
  | e => fun n => (calm_answer e, n)
  end.

Definition stage_with (listing : string) (answer : option go_error) (id : string) :=
  let '(r, w) := run (H := mounts_env listing answer)
                   (NodeStageVolume demo_service 1 Background (demo_stage id)) (initial_world "" 0%nat) in
  (r, w_env w).

(** the retries of [NodeStageVolume]: a mount that fails with a timeout is
    tried as often as [failureRetries] says and its error is returned; any
    other error ends the handler after one mount; success needs one mount. *)
Theorem NodeStageVolume_retries :
  stage_with "" (Some (Errorf "connection timeout")) "nfs-v1" =
    (Done (None, Some (Errorf "connection timeout")), cs_failureRetries demo_service) /\
  stage_with "" (Some (Errorf "access denied")) "nfs-v1" =
    (Done (None, Some (Errorf "access denied")), 1%nat) /\
  stage_with "" None "nfs-v1" = (Done (Some tt, None), 1%nat).
Proof. vm_compute. repeat split; reflexivity. Qed.

(** the search for an existing mount is a search for a substring: when a
    volume is mounted whose service name extends that of the volume to stage,
    [NodeStageVolume] reports success without mounting anything. *)
Theorem NodeStageVolume_sibling_mounted :
  stage_with ("10.96.0.7:/var/lib/dell/nfs/nfs-v10 on /other type nfs4 (rw)" +:+ newline) None "nfs-v1" =
  (Done (Some tt, None), 0%nat).
Proof. vm_compute. repeat split; reflexivity. Qed.

Lemma NodeStageVolume_any_environment_witness :
  exists r w', run (H := mounts_env "" None)
      (NodeStageVolume demo_service 1 Background (demo_stage "nfs-v1")) (initial_world "" 0%nat)
      = (Done r, w') /\ w_PVLock w' = ∅.
Proof.
  destruct (NodeStageVolume_any_environment (H2 := mounts_env "" None) demo_service 0 Background
              (demo_stage "nfs-v1") (initial_world "" 0%nat)) as (r & w' & Hr & [_ Hl] & _).
  - reflexivity.
  - reflexivity.
  - cbn. lia.
  - exists r, w'. split; [exact Hr|exact Hl].
Defined.

(** A node where every [umount] ends in [answer]. *)
Definition umount_env (answer : option go_error) : Env unit := fun B e =>
  match e in extE B return unit -> B * unit with
  | Exec ExecuteCommandContext _ _ => fun x => (("", answer), x)
  | e => fun x => (calm_answer e, x)
  end.

(** Both handlers for an NFS volume, at the node with this answer. *)
Definition unmount_with (answer : option go_error) :=
  ((run (H := umount_env answer) (NodeUnstageVolume 1
      {| unstage_VolumeId := "nfs-v1"; unstage_StagingTargetPath := "/s" |}) (initial_world "" tt)).1,
   (run (H := umount_env answer) (NodeUnpublishVolume 1
      {| nunpub_VolumeId := "v1"; nunpub_TargetPath := "/t" |}) (initial_world "" tt)).1).

Lemma node_unmounts_correct_witness :
  let refused := Done (Some tt, Some (Errorf "nfs NodeUnpublishVolume called on non NFS volume v1")) in
  unmount_with None = (Done (Some tt, None), refused) /\
  unmount_with (Some (Errorf "exit status 32")) = (Done (Some tt, None), refused) /\
  unmount_with (Some (Errorf "busy")) = (Done (Some tt, Some (Errorf "busy")), refused).
Proof.
  intros refused. split; [|split].
  - destruct (node_unmounts_correct (H2 := umount_env None) 0
      {| unstage_VolumeId := "nfs-v1"; unstage_StagingTargetPath := "/s" |}
      {| nunpub_VolumeId := "v1"; nunpub_TargetPath := "/t" |}
      (initial_world "" tt) eq_refl eq_refl) as [E1 E2].
    unfold unmount_with. rewrite E1, E2. reflexivity.
  - destruct (node_unmounts_correct (H2 := umount_env (Some (Errorf "exit status 32"))) 0
      {| unstage_VolumeId := "nfs-v1"; unstage_StagingTargetPath := "/s" |}
      {| nunpub_VolumeId := "v1"; nunpub_TargetPath := "/t" |}
      (initial_world "" tt) eq_refl eq_refl) as [E1 E2].
    unfold unmount_with. rewrite E1, E2. reflexivity.
  - destruct (node_unmounts_correct (H2 := umount_env (Some (Errorf "busy"))) 0
      {| unstage_VolumeId := "nfs-v1"; unstage_StagingTargetPath := "/s" |}
      {| nunpub_VolumeId := "v1"; nunpub_TargetPath := "/t" |}
      (initial_world "" tt) eq_refl eq_refl) as [E1 E2].
    unfold unmount_with. rewrite E1, E2. reflexivity.
Defined.

Lemma NodePublishVolume_correct_witness :
  (run (H := calm) (NodePublishVolume 1
      {| npub_VolumeId := "nfs-v1"; npub_StagingTargetPath := "/s"; npub_TargetPath := "/t" |})
     (initial_world "" tt)).1 = Done (Some tt, None).
Proof.
  pose proof (NodePublishVolume_correct (H2 := calm) 0
      {| npub_VolumeId := "nfs-v1"; npub_StagingTargetPath := "/s"; npub_TargetPath := "/t" |}
      (initial_world "" tt) eq_refl) as E.
  cbn [env_step calm calm_answer] in E. rewrite E. reflexivity.
Defined.
End Scenarios.
