(* ===== verification/NodeRecovery.v ===== *)
(** * Recovery of a failed node ([src/nfs/noderecovery.go])

    Every volume that the failed node served is moved to another node, each by
    a goroutine of its own.  Two things are shared with the goroutine that
    [reassignVolume] itself starts and are therefore cells of the state: the
    EndpointSlice ([V_slice]) and the variable [err] ([V_err]). *)

From S2P Require Import Prelude GoStrings Messages GoProg Naming Exports Json Config K8s NfsServer NodeMonitor Controller.

Definition endpointSliceTimeout : Z := 3 * second.
Definition quote_string : string := String "034" "".

(** [for nodeName, exportCount := range exportCounts]: the node selected so far
    and its count. *)
Definition lower (best : string * Z) (entry : string * Z) : string * Z :=
  if entry.2 <? best.2 then entry else best.

Section Recovery.
Context `{UnicodeTables} `{Globals} `{Printing} (s : CsiNfsService).

Definition findNextAvailableNode (pv : PersistentVolume) : prog string :=
  with_lock exportCountsLock
    (counts ← loc (Get V_exportCounts);
     choices ← ext RangeChoices;
     let '(selectedNode, _) :=
       List.fold_left lower (permute choices (map_to_list counts)) ("", max_int64) in
     counts ← loc (Get V_exportCounts);
     _ ← loc (PutCount selectedNode (int64 (default 0 (counts !! selectedNode) + 1)));
     match pv_VolumeHandle pv with
     | None => Panic "invalid memory address or nil pointer dereference"
     | Some _ => mret selectedNode
     end).

(** The driver's name for a node, picked from the text of its annotation. *)
Definition csi_node_names (annotation : string) : string :=
  ReplaceAll (ReplaceAll (ReplaceAll annotation "{" "") "}" "") quote_string "".

Definition pick_driver_name (driverNodeName part : string) : string :=
  if HasPrefix part DriverName then
    match Split part ":" with
    | _ :: name :: _ => name
    | _ => driverNodeName
    end
  else driverNodeName.

Definition driver_node_name (annotation : string) : string :=
  List.fold_left pick_driver_name (Split (csi_node_names annotation) ",") "".

Definition with_slice_labels (labels : gomap) (v : EndpointSlice) : EndpointSlice :=
  {| es_Name := es_Name v; es_Namespace := es_Namespace v; es_Labels := labels;
     es_Annotations := es_Annotations v; es_Endpoints := es_Endpoints v; es_Ports := es_Ports v |}.
Definition with_endpoints (eps : list Endpoint) (v : EndpointSlice) : EndpointSlice :=
  {| es_Name := es_Name v; es_Namespace := es_Namespace v; es_Labels := es_Labels v;
     es_Annotations := es_Annotations v; es_Endpoints := eps; es_Ports := es_Ports v |}.

(** [slice.Labels[key] = value] *)
Definition set_slice_label (sl : nat) (key value : string) : prog unit :=
  v ← loc (Get (V_slice sl));
  match es_Labels v with
  | None => Panic "assignment to entry in nil map"
  | Some labels => loc (Set_ (V_slice sl) (with_slice_labels (Some (<[key:=value]> labels)) v))
  end.

(** [slice.Endpoints[0].Addresses[0] = address] *)
Definition set_slice_address (sl : nat) (address : string) : prog unit :=
  v ← loc (Get (V_slice sl));
  match es_Endpoints v with
  | ep :: eps =>
      match ep_Addresses ep with
      | _ :: addrs =>
          loc (Set_ (V_slice sl)
                 (with_endpoints ({| ep_Addresses := address :: addrs; ep_Ready := ep_Ready ep |} :: eps) v))
      | [] => Panic "index out of range"
      end
  | [] => Panic "index out of range"
  end.

Fixpoint update_attempts (attempts : nat) (sl : nat) : prog (option go_error) :=
  match attempts with
  | O => v ← loc (Get (V_slice sl));
         mret (Some (Errorf ("unable to update endpoint slice " +:+ es_Name v)))
  | S attempts =>
      v ← loc (Get (V_slice sl));
      r ← UpdateEndpointSlice DriverNamespace v;
      match r with
      | inl _ => mret None
      | inr _ => _ ← ext (Sleep endpointSliceTimeout); update_attempts attempts sl
      end
  end.

Definition updateEndpointSlice (sl : nat) (nodeName : string) (node : Node) : prog (option go_error) :=
  match node_Addresses node with
  | [] => Panic "index out of range"
  | ip :: _ =>
      _ ← set_slice_label sl "nodeID" nodeName;
      _ ← set_slice_label sl "nodeIP" ip;
      _ ← set_slice_address sl ip;
      update_attempts 3 sl
  end.

(** The goroutine that unexports the volume from the failed node.  It reads the
    slice when it runs, and assigns the [err] of [reassignVolume]. *)
Definition unexport_old (sl err : nat) (pvName handle : string) : prog unit :=
  v ← loc (Get (V_slice sl));
  r ← callUnexportNfsVolume s (mget (es_Labels v) "nodeIP")
        {| unreq_VolumeId := ToArrayVolumeID handle;
           unreq_UnexportNfsContext :=
             Some {["csi.requestid" := pvName; ServiceName := es_Name v]} |};
  loc (Set_ (V_err err) (match r with inl _ => None | inr e => Some e end)).

(** [_, err = call; if err != nil]: assign and test the shared variable. *)
Definition assign_err (err : nat) (e : option go_error) : prog (option go_error) :=
  _ ← loc (Set_ (V_err err) e); loc (Get (V_err err)).

(** The node that comes with an error has no fields. *)
Definition empty_node : Node :=
  {| node_Name := ""; node_Labels := None; node_Annotations := None; node_Addresses := [] |}.

(** The last part of [reassignVolume]: attach to the selected node, export
    there, and update the slice; a failure of the update is only logged. *)
Definition publish_to (sl err : nat) (pvName handle pv : string) (node : Node) (nodeIPAddress : string)
    : prog (option go_error) :=
  let annotation := mget (node_Annotations node) nodeid_annotation in
  let driverNodeName := driver_node_name annotation in
  if String.eqb driverNodeName "" then
    mret (Some (Errorf ("reassignVolume couldn't identify driverNodeName: "
                          +:+ csi_node_names annotation)))
  else
    '(resp, e) ← ext (VcsiControllerPublish
        {| pub_VolumeId := ToArrayVolumeID handle; pub_NodeId := driverNodeName;
           pub_VolumeCapability := Some blockVolumeCapability; pub_VolumeContext := None |});
    e ← assign_err err e;
    match e, resp with
    | Some e, _ =>
        mret (Some (Errorf ("reassignVolume " +:+ pv +:+ " got error on ControllerPublishVolume: "
                              +:+ err_text e)))
    | None, None => Panic "invalid memory address or nil pointer dereference"
    | None, Some resp =>
        v ← loc (Get (V_slice sl));
        let context := maps_Copy {["csi.requestid" := pvName; ServiceName := es_Name v]}
                                 (pubr_PublishContext resp) in
        r ← callExportNfsVolume s nodeIPAddress
              {| exreq_VolumeId := handle; exreq_ExportNfsContext := Some context |};
        match r with
        | inr e => mret (Some (Errorf ("callExportNfsVolume failed " +:+ handle +:+ " "
                                         +:+ nodeIPAddress +:+ ": " +:+ err_text e)))
        | inl _ =>
            e ← updateEndpointSlice sl driverNodeName node;
            _ ← assign_err err e;
            mret None
        end
    end.

(** The middle part: unexport from the failed node (a goroutine), detach from
    it, look the selected node up. *)
Definition move_to (sl : nat) (pvName handle pv selectedNode : string) : prog (option go_error) :=
  err ← loc NewErr;
  _ ← go (unexport_old sl err pvName handle);
  v ← loc (Get (V_slice sl));
  '(_, e) ← ext (VcsiControllerUnpublish
      {| unpub_VolumeId := ToArrayVolumeID handle;
         unpub_NodeId := mget (es_Labels v) "nodeID" |});
  e ← assign_err err e;
  match e with
  | Some e =>
      mret (Some (Errorf ("reassignVolume " +:+ pv
        +:+ " ControllerUnpublishVolume failed error: " +:+ err_text e)))
  | None =>
      r ← GetNode selectedNode;
      e ← assign_err err (match r with inl _ => None | inr e => Some e end);
      match e with
      | Some e =>
          mret (Some (Errorf ("reassignVolume could not Get the selected node "
                                +:+ selectedNode +:+ ": " +:+ err_text e)))
      | None =>
          let node := match r with inl node => node | inr _ => empty_node end in
          match node_Addresses node with
          | [] => Panic "index out of range"
          | ip :: _ => publish_to sl err pvName handle pv node ip
          end
      end
  end.

(** [reassignVolume] under the volume's lock. *)
Definition reassign_locked (sl : nat) : prog (option go_error) :=
  v ← loc (Get (V_slice sl));
  let pvName := mget (es_Labels v) "pvName" in
  r ← GetPersistentVolume pvName;
  match r with
  | inr e => mret (Some (Errorf ("reassignVolume: couldn't Get volume " +:+ pvName +:+ ": "
                                   +:+ err_text e)))
  | inl pv =>
      r ← GetService DriverNamespace (es_Name v);
      match r with
      | inr e => mret (Some (Errorf ("reassignVolume: could not Get Service " +:+ pv_Name pv +:+ ": "
                                       +:+ err_text e)))
      | inl _ =>
          selectedNode ← findNextAvailableNode pv;
          match pv_VolumeHandle pv with
          | None => Panic "invalid memory address or nil pointer dereference"
          | Some handle => move_to sl pvName handle (pv_Name pv) selectedNode
          end
      end
  end.

Definition reassignVolume (lockFuel : nat) (sl : nat) : prog (option go_error) :=
  v ← loc (Get (V_slice sl));
  let volumeID := mget (es_Annotations v) DriverVolumeID in
  _ ← LockPV lockFuel volumeID "reassign" true;
  deferred (reassign_locked sl) (UnlockPV volumeID).

(** The goroutine that moves one volume: one retry. *)
Definition recover_volume (lockFuel : nat) (sl : nat) : prog unit :=
  e ← reassignVolume lockFuel sl;
  match e with
  | None => mret tt
  | Some _ => _ ← reassignVolume lockFuel sl; mret tt
  end.

Fixpoint start_recoveries (lockFuel : nat) (slices : list EndpointSlice) : prog unit :=
  match slices with
  | [] => mret tt
  | slice :: slices =>
      sl ← loc (NewSlice slice);
      _ ← go (recover_volume lockFuel sl);
      start_recoveries lockFuel slices
  end.

(** [nodeRecovery]; what follows the start of the goroutines only counts their
    successes for the log. *)
Definition node_recovery (lockFuel : nat) (nodeIP : string) : prog unit :=
  r ← GetEndpointSlices DriverNamespace ("nodeIP=" +:+ nodeIP);
  match r with
  | inr _ => mret tt
  | inl slices =>
      counts ← getNodeExportCounts s;
      _ ← loc (Set_ V_exportCounts counts);
      start_recoveries lockFuel slices
  end.

Definition recovery (lockFuel : nat) : Recovery := {| nodeRecovery := node_recovery lockFuel |}.
End Recovery.

(** ** The choice of the new node *)

Lemma fold_lower l b :
  let r := List.fold_left lower l b in
  (r = b \/ In r l) /\ r.2 <= b.2 /\ forall e, In e l -> r.2 <= e.2.
Proof.
  revert b. induction l as [|e l IH]; intros b; cbn; [split; [by left|]; split; [lia|done]|].
  destruct (IH (lower b e)) as (Hin & Hb & Hl). unfold lower in *.
  destruct (e.2 <? b.2) eqn:E; breflect; (split; [intuition|]); (split; [lia|]);
    intros e' [<-|He']; auto; lia.
Qed.

(** The node that the loop selects. *)
Definition selects (counts : gmap string Z) (sel : string) : Prop :=
  (counts = ∅ -> sel = "") /\
  (counts <> ∅ -> exists c, counts !! sel = Some c /\
                            forall n c', counts !! n = Some c' -> c <= c').

Lemma selection_correct choices (counts : gmap string Z) :
  (forall n c, counts !! n = Some c -> c < max_int64) ->
  selects counts (List.fold_left lower (permute choices (map_to_list counts)) ("", max_int64)).1.
Proof.
  intros Hmax. set (l := permute choices (map_to_list counts)).
  assert (Hl : forall n c, counts !! n = Some c <-> In (n, c) l).
  { intros n c. rewrite <- elem_of_map_to_list, <- list_elem_of_In. unfold l.
    by rewrite permute_Permutation. }
  destruct (fold_lower l ("", max_int64)) as (Hin & Hb & Hmin). split.
  - intros ->. assert (E : l = []); [|by rewrite E].
    apply Permutation_nil. unfold l. rewrite permute_Permutation. by rewrite map_to_list_empty.
  - intros (n0 & c0 & H0)%map_choose. assert (H0' := H0). apply Hl in H0'.
    destruct (List.fold_left lower l ("", max_int64)) as [sel c] eqn:E. cbn in *.
    destruct Hin as [[= -> ->]|Hin].
    + apply Hmin in H0'. cbn in H0'. apply Hmax in H0. lia.
    + exists c. split; [by apply Hl|]. intros n c' Hn. apply Hl in Hn. by apply Hmin in Hn.
Qed.

(** The counts after a node was selected. *)
Definition reserve (sel : string) (counts : gmap string Z) : gmap string Z :=
  <[sel := int64 (default 0 (counts !! sel) + 1)]> counts.

Section Selection.
Context {X : Type} `{Env X}.
Implicit Types w : world X.

Lemma run_findNextAvailableNode pv h w :
  pv_VolumeHandle pv = Some h -> free exportCountsLock w ->
  (forall n c, w_exportCounts w !! n = Some c -> c < max_int64) ->
  let x := (env_step RangeChoices (w_env w)).2 in
  exists sel, run (findNextAvailableNode pv) w =
      (Done sel, set_env x (set_var V_exportCounts (reserve sel (w_exportCounts w)) w)) /\
    selects (w_exportCounts w) sel.
Proof.
  intros Hpv Hf Hmax. unfold findNextAvailableNode. rewrite run_with_lock, Hpv by done.
  destruct w as [? ? [] ]. unfold free in Hf. cbn in Hf. subst. ask.
  pose proof (selection_correct r w_exportCounts Hmax) as Hsel.
  destruct (List.fold_left lower (permute r (map_to_list w_exportCounts)) ("", max_int64)) as [sel c].
  cbn in *. eexists. by split.
Qed.

(** C28: [findNextAvailableNode] in any environment (so for every order in which
    Go ranges over the map): it selects a node with the lowest export count,
    reserves a slot by adding one to its count, leaves the other counts alone
    and gives [exportCountsLock] back; without any count it selects the node
    with the empty name. *)
Theorem findNextAvailableNode_selects_lowest (pv : PersistentVolume) (h : string) w
    (Hpv : pv_VolumeHandle pv = Some h) (Hlock : free exportCountsLock w)
    (Hmax : forall n c, w_exportCounts w !! n = Some c -> c < max_int64) :
  exists sel x, run (findNextAvailableNode pv) w =
      (Done sel, set_env x (set_var V_exportCounts (reserve sel (w_exportCounts w)) w)) /\
    (w_exportCounts w = ∅ -> sel = "") /\
    (w_exportCounts w <> ∅ ->
     exists c, w_exportCounts w !! sel = Some c /\
               forall n c', w_exportCounts w !! n = Some c' -> c <= c').
Proof.
  destruct (run_findNextAvailableNode pv h w) as (sel & E & Hs1 & Hs2); eauto 6.
Qed.

(** The volumes of a failed node are spread one after the other. *)
Fixpoint spread (n : nat) (pv : PersistentVolume) : prog (list string) :=
  match n with
  | O => mret []
  | S n => sel ← findNextAvailableNode pv; rest ← spread n pv; mret (sel :: rest)
  end.

Definition balanced (counts : gmap string Z) : Prop :=
  forall n m c d, counts !! n = Some c -> counts !! m = Some d -> c <= d + 1.

Lemma reserve_balanced sel counts :
  counts <> ∅ -> selects counts sel -> (forall n c, counts !! n = Some c -> 0 <= c < max_int64) ->
  balanced counts -> balanced (reserve sel counts) /\ dom (reserve sel counts) = dom counts.
Proof.
  intros Hne [_ Hsel] Hrange Hbal. destruct (Hsel Hne) as (c & Hc & Hmin).
  unfold reserve. rewrite Hc. cbn [from_option id].
  assert (Hr := Hrange _ _ Hc). rewrite int64_id by (unfold min_int64, max_int64 in *; lia). split.
  - intros n m a b Ha Hb.
    apply lookup_insert_Some in Ha as [[<- <-]|[Hn Ha]];
      apply lookup_insert_Some in Hb as [[<- <-]|[Hm Hb]].
    + lia.
    + apply Hmin in Hb. lia.
    + specialize (Hbal _ _ _ _ Ha Hc). lia.
    + eauto.
  - rewrite dom_insert_L. apply elem_of_dom_2 in Hc.
    by apply subseteq_union_1_L, singleton_subseteq_l.
Qed.

Lemma run_spread n pv h w :
  pv_VolumeHandle pv = Some h -> free exportCountsLock w -> w_exportCounts w <> ∅ ->
  (forall k c, w_exportCounts w !! k = Some c -> 0 <= c < max_int64 - Z.of_nat n) ->
  balanced (w_exportCounts w) ->
  exists sels w', run (spread n pv) w = (Done sels, w') /\ List.length sels = n /\
    balanced (w_exportCounts w') /\ dom (w_exportCounts w') = dom (w_exportCounts w) /\
    Forall (fun sel => sel ∈ dom (w_exportCounts w)) sels.
Proof.
  intros Hpv. revert w. induction n as [|n IH]; intros w Hf Hne Hrange Hbal.
  { do 2 eexists. by repeat split. }
  cbn [spread]. rewrite run_bind.
  destruct (run_findNextAvailableNode pv h w Hpv Hf) as (sel & -> & Hsel).
  { intros k c Hk. specialize (Hrange k c Hk). lia. }
  set (w1 := set_env _ (set_var V_exportCounts (reserve sel (w_exportCounts w)) w)).
  assert (Hc1 : w_exportCounts w1 = reserve sel (w_exportCounts w)) by by destruct w.
  destruct (reserve_balanced sel (w_exportCounts w)) as [Hbal1 Hdom1]; [done..| |done|].
  { intros k c Hk. specialize (Hrange k c Hk). lia. }
  assert (Hin : sel ∈ dom (w_exportCounts w)).
  { destruct Hsel as [_ Hsel]. destruct (Hsel Hne) as (c & Hc & _). by eapply elem_of_dom_2. }
  rewrite run_bind. destruct (IH w1) as (sels & w' & -> & Hlen & Hb & Hd & Hall).
  - by destruct w.
  - intros Hempty. rewrite Hc1 in Hempty. apply (f_equal dom) in Hempty.
    rewrite Hdom1, dom_empty_L in Hempty. by rewrite Hempty in Hin.
  - rewrite Hc1. intros k c Hk. unfold reserve in Hk.
    apply elem_of_dom in Hin as [c0 Hc0]. rewrite Hc0 in Hk. cbn [from_option id] in Hk.
    pose proof (Hrange _ _ Hc0). rewrite int64_id in Hk by (unfold min_int64, max_int64 in *; lia).
    apply lookup_insert_Some in Hk as [[<- <-]|[_ Hk]]; [lia|]. specialize (Hrange _ _ Hk). lia.
  - by rewrite Hc1.
  - rewrite Hc1 in *. exists (sel :: sels), w'. rewrite Hd, Hdom1 in *.
    split; [done|]. split; [cbn; lia|]. split; [done|]. split; [done|]. by constructor.
Qed.

(** the volumes of a failed node are spread evenly: when the counts of the
    available nodes differ by at most one, they still do after any number of
    selections, all of which name available nodes. *)
Theorem selections_stay_balanced (n : nat) (pv : PersistentVolume) (h : string) w
    (Hpv : pv_VolumeHandle pv = Some h) (Hlock : free exportCountsLock w)
    (Hnodes : w_exportCounts w <> ∅)
    (Hrange : forall k c, w_exportCounts w !! k = Some c -> 0 <= c < max_int64 - Z.of_nat n)
    (Hbal : balanced (w_exportCounts w)) :
  exists sels w', run (spread n pv) w = (Done sels, w') /\ List.length sels = n /\
    balanced (w_exportCounts w') /\ dom (w_exportCounts w') = dom (w_exportCounts w) /\
    Forall (fun sel => sel ∈ dom (w_exportCounts w)) sels.
Proof. by eapply run_spread. Qed.
End Selection.

Definition demo_pv : PersistentVolume := {| pv_Name := "pv-1"; pv_VolumeHandle := Some "nfs-v1" |}.
Definition demo_counts : gmap string Z := {["n1" := 4%Z; "n2" := 3%Z; "n3" := 4%Z]}.
Definition counting_world : world unit := set_var V_exportCounts demo_counts (initial_world "" tt).

Lemma demo_counts_elem n c : demo_counts !! n = Some c -> c = 3%Z \/ c = 4%Z.
Proof.
  unfold demo_counts. rewrite !lookup_insert_Some, lookup_singleton_Some.
  intros [ [_ <-] | [_ [ [_ <-] | [_ [_ <-] ] ] ] ]; auto.
Qed.

Lemma findNextAvailableNode_selects_lowest_witness :
  exists x, run (H := calm) (findNextAvailableNode demo_pv) counting_world =
    (Done "n2", set_env x (set_var V_exportCounts (reserve "n2" demo_counts) counting_world)).
Proof.
  destruct (findNextAvailableNode_selects_lowest (H := calm) demo_pv "nfs-v1" counting_world)
    as (sel & x & Hr & _ & Hsel).
  - reflexivity.
  - reflexivity.
  - intros n c Hn. apply demo_counts_elem in Hn as [-> | ->]; reflexivity.
  - destruct Hsel as (c & Hc & Hmin).
    { by intros E%(f_equal (fun m : gmap string Z => m !! "n2")). }
    assert (Hsel : sel = "n2").
    { specialize (Hmin "n2" 3%Z eq_refl).
      change (demo_counts !! sel = Some c) in Hc. unfold demo_counts in Hc.
      rewrite !lookup_insert_Some, lookup_singleton_Some in Hc.
      destruct Hc as [ [_ <-] | [_ [ [<- _] | [_ [_ <-] ] ] ] ]; [lia|done|lia]. }
    subst sel. exists x. exact Hr.
Defined.

Lemma selections_stay_balanced_witness :
  exists sels w', run (H := calm) (spread 5 demo_pv) counting_world = (Done sels, w') /\
    balanced (w_exportCounts w').
Proof.
  destruct (selections_stay_balanced (H := calm) 5 demo_pv "nfs-v1" counting_world)
    as (sels & w' & Hr & _ & Hb & _).
  - reflexivity.
  - reflexivity.
  - by intros E%(f_equal (fun m : gmap string Z => m !! "n2")).
  - intros n c Hn. apply demo_counts_elem in Hn as [-> | ->]; split; done.
  - intros n m c d Hn Hm. apply demo_counts_elem in Hn as [-> | ->], Hm as [-> | ->]; done.
  - exists sels, w'. split; [exact Hr|exact Hb].
Defined.

(** ** Reading the node's CSI id from the text of its annotation *)

Fixpoint drop_char (c : ascii) (s : string) : string :=
  match s with
  | "" => ""
  | String d t => if Ascii.eqb d c then drop_char c t else String d (drop_char c t)
  end.

Lemma ReplaceAll_char c s : ReplaceAll s (String c "") "" = drop_char c s.
Proof.
  unfold ReplaceAll. induction s as [|d s IH]; [done|]. cbn [replace_all drop_char].
  assert (E : HasPrefix (String d s) (String c "") = Ascii.eqb d c).
  { cbn. rewrite HasPrefix_empty, andb_true_r. apply Ascii.eqb_sym. }
  rewrite E. cbn. by rewrite IH.
Qed.

Lemma drop_char_app c s t : drop_char c (s +:+ t) = drop_char c s +:+ drop_char c t.
Proof. induction s as [|d s IH]; [done|]. cbn. rewrite IH. by destruct (Ascii.eqb d c). Qed.

Lemma drop_char_id c s : string_all (fun d => negb (Ascii.eqb d c)) s = true -> drop_char c s = s.
Proof.
  induction s as [|d s IH]; cbn; [done|]. intros Hs. apply andb_true_iff in Hs as [Hd Hs].
  apply negb_true_iff in Hd. by rewrite Hd, IH.
Qed.

Lemma Split_Join (l : list string) sep :
  l <> [] -> Forall (fun s => string_all (fun c => negb (Ascii.eqb c sep)) s = true) l ->
  Split (Join l (String sep "")) sep = l.
Proof.
  intros Hne Hl. induction Hl as [|s l Hs Hl IH]; [done|].
  destruct l as [|t l]; [by apply Split_none|].
  change (Join (s :: t :: l) (String sep "")) with (s +:+ String sep (Join (t :: l) (String sep ""))).
  by rewrite Split_app, IH by done.
Qed.

(** No character that the text form of the annotation uses. *)
Definition bare_char (c : ascii) : bool :=
  negb (Ascii.eqb c "{") && negb (Ascii.eqb c "}") && negb (Ascii.eqb c "034") &&
  negb (Ascii.eqb c ",") && negb (Ascii.eqb c ":").
Definition bare (s : string) : bool := string_all bare_char s.
Definition bare_member (kv : string * string) : bool := bare kv.1 && bare kv.2.

Lemma bare_no c s :
  In c ["{"; "}"; "034"; ","; ":"]%char -> bare s = true ->
  string_all (fun d => negb (Ascii.eqb d c)) s = true.
Proof.
  intros Hc. apply string_all_impl. intros d Hd. unfold bare_char in Hd. breflect.
  apply negb_true_iff, Ascii.eqb_neq. intros ->. cbn in Hc. intuition congruence.
Qed.

Definition pair_text (kv : string * string) : string := kv.1 +:+ String ":" kv.2.

Lemma drop_bare c s : In c ["{"; "}"; "034"; ","; ":"]%char -> bare s = true -> drop_char c s = s.
Proof. intros Hc Hs. by apply drop_char_id, bare_no. Qed.

Lemma drop_Join (c : ascii) (f g : string * string -> string) ms :
  drop_char c "," = "," -> Forall (fun kv => drop_char c (f kv) = g kv) ms ->
  drop_char c (Join (f <$> ms) ",") = Join (g <$> ms) ",".
Proof.
  intros Hc Hms. induction Hms as [|kv ms Hkv Hms IH]; [done|].
  destruct ms as [|kv' ms]; [exact Hkv|].
  rewrite !fmap_cons in *. rewrite !Join_cons2, !drop_char_app, Hkv, Hc. f_equal. f_equal. exact IH.
Qed.

Lemma csi_node_names_rendered ms :
  forallb bare_member ms = true -> csi_node_names (render ms) = Join (pair_text <$> ms) ",".
Proof.
  intros Hms. unfold csi_node_names, quote_string. rewrite !ReplaceAll_char. unfold render.
  assert (Hb : Forall (fun kv => bare kv.1 = true /\ bare kv.2 = true) ms).
  { apply List.Forall_forall. intros kv Hin. rewrite forallb_forall in Hms. specialize (Hms kv Hin).
    unfold bare_member in Hms. by breflect. }
  assert (Hid : forall c, In c ["{"; "}"]%char ->
            Forall (fun kv => drop_char c (render_member kv) = render_member kv) ms).
  { intros c Hc. eapply Forall_impl; [exact Hb|]. intros kv [Hk Hv].
    unfold render_member, quoted. cbn. rewrite !drop_char_app. cbn. rewrite !drop_char_app.
    rewrite !(drop_bare c) by (done || (cbn in *; intuition)).
    cbn in Hc. destruct Hc as [<-|[<-|[]]]; done. }
  assert (Hq : Forall (fun kv => drop_char "034" (render_member kv) = pair_text kv) ms).
  { eapply Forall_impl; [exact Hb|]. intros kv [Hk Hv].
    unfold render_member, quoted, pair_text. cbn. rewrite !drop_char_app. cbn. rewrite !drop_char_app.
    rewrite !(drop_bare "034") by (done || (cbn; intuition)). cbn. by rewrite !string_app_nil_r. }
  rewrite !drop_char_app. cbn [drop_char Ascii.eqb Bool.eqb]. cbn.
  rewrite string_app_nil_r, (drop_Join "{" render_member render_member),
    (drop_Join "}" render_member render_member), (drop_Join "034" render_member pair_text); auto.
  - apply Hid. cbn. auto.
  - apply Hid. cbn. auto.
Qed.

Lemma HasPrefix_pair (d : string) (kv : string * string) :
  bare d = true -> bare kv.1 = true -> HasPrefix (pair_text kv) d = HasPrefix kv.1 d.
Proof.
  destruct kv as [k v]. unfold pair_text, bare. cbn [fst snd]. revert d.
  induction k as [|c k IH]; intros [|e d] Hd Hk; try done.
  - cbn in Hd |- *. apply andb_true_iff in Hd as [He _]. unfold bare_char in He. breflect.
    destruct (Ascii.eqb e ":") eqn:E; [|done]. by apply Ascii.eqb_eq in E.
  - cbn in Hd, Hk |- *. apply andb_true_iff in Hd as [He Hd], Hk as [Hc Hk]. by rewrite IH.
Qed.

(** The value of the last member whose key begins with the driver's name. *)
Definition last_with_prefix (d : string) (ms : list (string * string)) : string :=
  List.fold_left (fun name kv => if HasPrefix kv.1 d then kv.2 else name) ms "".

Section DriverName.
Context `{Globals}.

Lemma driver_node_name_rendered ms :
  bare DriverName = true -> DriverName <> "" -> forallb bare_member ms = true ->
  driver_node_name (render ms) = last_with_prefix DriverName ms.
Proof.
  intros Hd Hne Hms. unfold driver_node_name. rewrite csi_node_names_rendered by done.
  assert (Hb : Forall (fun kv => bare kv.1 = true /\ bare kv.2 = true) ms).
  { apply List.Forall_forall. intros kv Hin. rewrite forallb_forall in Hms. specialize (Hms kv Hin).
    unfold bare_member in Hms. by breflect. }
  destruct (decide (ms = [])) as [->|Hms0].
  { cbn. unfold pick_driver_name. by destruct DriverName. }
  change "," with (String "," "") at 1. rewrite Split_Join.
  - unfold last_with_prefix. clear Hms Hms0. generalize "" at 1 2. induction Hb as [|kv ms [Hk Hv] Hb IH];
      intros name; [done|]. cbn [fmap list_fmap List.fold_left]. rewrite IH. f_equal.
    unfold pick_driver_name. rewrite HasPrefix_pair by done. destruct (HasPrefix kv.1 DriverName); [|done].
    unfold pair_text. rewrite Split_app, Split_none by (apply bare_no; [cbn; auto 9|done]). done.
  - by destruct ms.
  - apply Forall_fmap. eapply Forall_impl; [exact Hb|]. intros kv [Hk Hv]. cbn. unfold pair_text.
    rewrite string_all_app. cbn. rewrite !(bare_no ",") by (done || (cbn; auto 9)). done.
Qed.

Lemma last_with_prefix_lookup d ms :
  (forall kv, In kv ms -> HasPrefix kv.1 d = true -> kv.1 = d) ->
  last_with_prefix d ms = default "" (members_map ms !! d).
Proof.
  unfold last_with_prefix, members_map. intros Hkeys.
  assert (Hgen : forall name (m : gmap string string), name = default "" (m !! d) ->
    List.fold_left (fun name kv => if HasPrefix kv.1 d then kv.2 else name) ms name =
    default "" (List.fold_left (fun m kv => <[kv.1:=kv.2]> m) ms m !! d)); [|by apply Hgen].
  induction ms as [|kv ms IH]; intros name m Hname; [exact Hname|]. cbn [List.fold_left].
  apply IH; [intros; apply Hkeys; [by right|done]|].
  destruct (HasPrefix kv.1 d) eqn:E.
  - rewrite (Hkeys kv) by (by left || done). by rewrite lookup_insert_eq.
  - rewrite lookup_insert_ne; [done|]. intros Heq. rewrite Heq, HasPrefix_refl in E. done.
Qed.

(** C30: the hand-written reading of the node's CSI id agrees with the JSON
    reading that publishing uses: on the text of a map of plain strings that
    hold none of the characters of the notation, and in which no other
    driver's name begins with this driver's name, [reassignVolume] finds the
    id that [json.Unmarshal] finds for the driver. *)
Theorem driver_node_name_agrees_with_json (ms : list (string * string))
    (Hdriver : bare DriverName = true) (Hname : DriverName <> "")
    (Hplain : forallb plain_member ms = true) (Hbare : forallb bare_member ms = true)
    (Honly : forall kv, In kv ms -> HasPrefix kv.1 DriverName = true -> kv.1 = DriverName) :
  exists m, Unmarshal (render ms) = Some m /\
            driver_node_name (render ms) = default "" (m !! DriverName).
Proof.
  exists (members_map ms). split; [by apply Unmarshal_rendered|].
  rewrite driver_node_name_rendered by done. by apply last_with_prefix_lookup.
Qed.
End DriverName.

Lemma driver_node_name_agrees_with_json_witness :
  @driver_node_name demo_globals
    (render [("csi-isilon.dellemc.com", "csi-9"); ("csi-powerstore.dellemc.com", "csi-1")]) = "csi-1".
Proof.
  destruct (@driver_node_name_agrees_with_json demo_globals
    [("csi-isilon.dellemc.com", "csi-9"); ("csi-powerstore.dellemc.com", "csi-1")]) as (m & Hm & E).
  - vm_compute. reflexivity.
  - discriminate.
  - vm_compute. reflexivity.
  - vm_compute. reflexivity.
  - intros kv [<-|[<-|[]]] Hp; [vm_compute in Hp; discriminate Hp|reflexivity].
  - assert (Hv : (m ← Unmarshal (render [("csi-isilon.dellemc.com", "csi-9");
                                        ("csi-powerstore.dellemc.com", "csi-1")]);
                  m !! "csi-powerstore.dellemc.com") = Some "csi-1") by (vm_compute; reflexivity).
    rewrite Hm in Hv. rewrite E. change (m !! "csi-powerstore.dellemc.com" = Some "csi-1") in Hv.
    change (default "" (m !! "csi-powerstore.dellemc.com") = "csi-1"). rewrite Hv. reflexivity.
Defined.

(** a driver whose name merely begins with this driver's name is mistaken
    for it, when its entry comes later in the annotation: the two readings
    differ. *)
Theorem driver_node_name_prefix_confusion :
  let ms := [("csi-powerstore.dellemc.com", "csi-1"); ("csi-powerstore.dellemc.com-b", "other-7")] in
  @driver_node_name demo_globals (render ms) = "other-7" /\
  (m ← Unmarshal (render ms); m !! @DriverName demo_globals) = Some "csi-1".
Proof. vm_compute. repeat split; reflexivity. Qed.
