(* ===== verification/Reassign.v ===== *)
(** * Moving a volume preserves its sharing

    What [reassignVolume] ([NodeRecovery.v]) does to a shared volume in the
    terms of [Sharing.v]: the server changes, the clients do not.  Then the
    ways in which it goes wrong: its [err] is shared with a goroutine, its
    lock is not the one of publishing, its last error is dropped, and it
    detaches the volume before it knows where to attach it. *)

From S2P Require Import Prelude GoStrings Messages GoProg Naming Exports Json Config K8s NfsServer NodeHost NodeMonitor Controller Sharing NodeRecovery.

(** ** Cells *)

Section Cells.
Context {X : Type} `{Env X}.
Implicit Types w : world X.

Definition has_slice (sl : nat) (v : EndpointSlice) w : Prop := w_slices w !! sl = Some v.

Lemma run_get_slice sl v w : has_slice sl v w -> run (loc (Get (V_slice sl))) w = (Done v, w).
Proof.
  unfold has_slice. intros Hs. destruct w. cbn in *. by rewrite (nth_lookup_Some _ _ _ _ Hs).
Qed.

Lemma has_slice_set sl v v' w : has_slice sl v w -> has_slice sl v' (set_var (V_slice sl) v' w).
Proof.
  unfold has_slice. intros Hs%lookup_lt_Some. destruct w. cbn in *. by apply list_lookup_insert_eq.
Qed.

Lemma run_assign_err err e w :
  (err < List.length (w_errs w))%nat -> run (assign_err err e) w = (Done e, set_var (V_err err) e w).
Proof.
  intros He. unfold assign_err. destruct w. cbn in *.
  rewrite (nth_lookup_Some _ _ _ e); [done|]. by apply list_lookup_insert_eq.
Qed.

(** Two worlds that differ in their environment, errors and goroutines, and in
    the slice in the cell [sl]. *)
Definition quiet (sl : nat) w w' : Prop :=
  w_PVLock w' = w_PVLock w /\ w_held w' = w_held w /\ w_exportCounts w' = w_exportCounts w /\
  w_statuses w' = w_statuses w /\ forall j, j <> sl -> w_slices w' !! j = w_slices w !! j.

#[global] Instance quiet_preorder sl : PreOrder (quiet sl).
Proof.
  split; [done|]. unfold quiet. intros x y z (? & ? & ? & ? & A) (? & ? & ? & ? & B).
  split_and!; [congruence..|]. intros j Hj. by rewrite B, A.
Qed.

(** Moreover there are as many errors. *)
Definition same_locks sl w w' : Prop :=
  quiet sl w w' /\ List.length (w_errs w') = List.length (w_errs w).

#[global] Instance same_locks_preorder sl : PreOrder (same_locks sl).
Proof. split; [done|]. intros x y z [? ?] [? ?]. split; [by etrans|congruence]. Qed.

Lemma same_locks_env sl x w : same_locks sl w (set_env x w).
Proof. by destruct w. Qed.
Lemma same_locks_err sl err e w : same_locks sl w (set_var (V_err err) e w).
Proof. split; [by destruct w|]. destruct w. cbn. by rewrite length_insert. Qed.
Lemma same_locks_slice sl v w : same_locks sl w (set_var (V_slice sl) v w).
Proof.
  destruct w. split; [|done]. do 4 (split; [done|]). intros j Hj. cbn. by rewrite list_lookup_insert_ne.
Qed.
Lemma same_locks_errs sl w w' : same_locks sl w w' -> List.length (w_errs w') = List.length (w_errs w).
Proof. by intros [_ ?]. Qed.
Lemma w_env_set_var {A} (v : var A) y w : w_env (set_var v y w) = w_env w.
Proof. by destruct w, v. Qed.
Lemma has_slice_env sl v x w : has_slice sl v w -> has_slice sl v (set_env x w).
Proof. by destruct w. Qed.
Lemma has_slice_err sl v err e w : has_slice sl v w -> has_slice sl v (set_var (V_err err) e w).
Proof. by destruct w. Qed.
End Cells.
#[export] Hint Resolve same_locks_env same_locks_err same_locks_slice has_slice_env has_slice_err
  has_slice_set : goprog.
#[export] Hint Rewrite @w_env_set_var : goenv.

(** ** The move *)

(** The parts of the cluster that recovery needs besides publishing. *)
Class Relocatable (X : Type) `{Cluster X} := {
  volume_handle : string -> option string; (* persistent volume to volume id *)
  node_of : string -> option Node;
  r_pv name h x :
    volume_handle name = Some h ->
    (env_step (KubeGetPV name) x).1 = inl {| pv_Name := name; pv_VolumeHandle := Some h |};
  r_node name node x :
    node_of name = Some node -> (env_step (KubeGetNode name) x).1 = inl node;
  r_list ip x :
    exists l x', env_step (KubeListSlices DriverNamespace ("nodeIP=" +:+ ip)) x = (inl l, x') /\
      l ≡ₚ labelled "nodeIP" ip (slices x) /\ services x' = services x /\ slices x' = slices x;
}.

(** ** The goroutine that unexports from the failed node, run late *)

Section LateUnexport.
Context `{UnicodeTables} `{Globals} `{Printing} (cs : CsiNfsService).
Context {X : Type} `{Env X}.
Implicit Types w : world X.

Definition label_in (sl : nat) (key : string) w : string := mget (es_Labels (get_var (V_slice sl) w)) key.

Lemma get_var_slice sl v w : has_slice sl v w -> get_var (V_slice sl) w = v.
Proof. unfold has_slice. intros Hs. destruct w. cbn in *. by rewrite (nth_lookup_Some _ _ _ _ Hs). Qed.

Lemma run_update_attempts_slices n sl w : w_slices (run (update_attempts n sl) w).2 = w_slices w.
Proof.
  revert w. induction n as [|n IH]; intros w; cbn [update_attempts]; [by destruct w|].
  unfold UpdateEndpointSlice. destruct w. ask. destruct r; [done|]. ask. by rewrite IH.
Qed.

Lemma run_set_slice_label sl key value w w' r v :
  has_slice sl v w -> run (set_slice_label sl key value) w = (Done r, w') ->
  exists labels, es_Labels v = Some labels /\
    has_slice sl (with_slice_labels (Some (<[key:=value]> labels)) v) w'.
Proof.
  intros Hs. unfold set_slice_label. rewrite run_bind, (run_get_slice sl v) by done.
  destruct (es_Labels v) as [labels|]; [|by cbn]. intros E. exists labels. split; [done|].
  cbn in E. injection E as _ <-. eapply has_slice_set, Hs.
Qed.

Lemma run_set_slice_address sl address w w' r v :
  has_slice sl v w -> run (set_slice_address sl address) w = (Done r, w') ->
  exists v', es_Labels v' = es_Labels v /\ has_slice sl v' w'.
Proof.
  intros Hs. unfold set_slice_address. rewrite run_bind, (run_get_slice sl v) by done.
  destruct (es_Endpoints v) as [|ep eps]; [by cbn|]. destruct (ep_Addresses ep) as [|a addrs]; [by cbn|].
  intros E. cbn in E. injection E as _ <-. eexists. split; [|eapply has_slice_set, Hs]. done.
Qed.

(** After [updateEndpointSlice], whether or not the API took the slice. *)
Lemma run_updateEndpointSlice_labels sl nodeName node ip rest v r w w' :
  node_Addresses node = ip :: rest -> has_slice sl v w ->
  run (updateEndpointSlice sl nodeName node) w = (Done r, w') -> label_in sl "nodeIP" w' = ip.
Proof.
  intros Hn Hs. unfold updateEndpointSlice. rewrite Hn, run_bind.
  destruct (run (set_slice_label sl "nodeID" nodeName) w) as [ [r1| | |] w1] eqn:E1; try done.
  destruct (run_set_slice_label _ _ _ _ _ _ _ Hs E1) as (l1 & _ & Hs1). rewrite run_bind.
  destruct (run (set_slice_label sl "nodeIP" ip) w1) as [ [r2| | |] w2] eqn:E2; try done.
  destruct (run_set_slice_label _ _ _ _ _ _ _ Hs1 E2) as (l2 & _ & Hs2). rewrite run_bind.
  destruct (run (set_slice_address sl ip) w2) as [ [r3| | |] w3] eqn:E3; try done.
  destruct (run_set_slice_address _ _ _ _ _ _ Hs2 E3) as (v3 & Hl & Hs3). intros E.
  assert (Hs' : has_slice sl v3 w').
  { unfold has_slice. change w' with (Done r, w').2. by rewrite <- E, run_update_attempts_slices. }
  unfold label_in. rewrite (get_var_slice _ _ _ Hs'), Hl. apply mget_insert.
Qed.

(** The calls of the goroutine. *)
Lemma trace_unexport_old sl err pvName handle w :
  let address := label_in sl "nodeIP" w +:+ ":" +:+ cs_nfsClientServicePort cs in
  (exists e, trace (unexport_old cs sl err pvName handle) w = [Event (NewClient address) (Some e)]) \/
  exists req b, unreq_VolumeId req = ToArrayVolumeID handle /\
    trace (unexport_old cs sl err pvName handle) w =
      [Event (NewClient address) None; Event (RpcUnexport address req) b].
Proof.
  intros address. unfold unexport_old, callUnexportNfsVolume, getNfsClient, label_in in *.
  destruct w. ask. destruct r as [e|]; cbn; [left; by eexists|]. ask. right. eexists _, _. split; [|reflexivity]. done.
Qed.

End LateUnexport.

Section Move.
Context `{UnicodeTables} `{Globals} `{Printing} (cs : CsiNfsService).
Context {X : Type} `{Env X} `{!KubeStore X} `{!Cluster X} `{!NfsServers X} `{!Relocatable X}.
Implicit Types w : world X.

(** The slice after the move to the node [new] at [ip]. *)
Definition moved_slice (new ip : string) (v : EndpointSlice) : EndpointSlice :=
  match es_Labels v, es_Endpoints v with
  | Some labels, ep :: eps =>
      with_endpoints ({| ep_Addresses := ip :: List.tl (ep_Addresses ep); ep_Ready := ep_Ready ep |} :: eps)
        (with_slice_labels (Some (<["nodeIP" := ip]> (<["nodeID" := new]> labels))) v)
  | _, _ => v
  end.

Lemma run_updateEndpointSlice sl new node ip rest v labels ep eps a addrs w :
  node_Addresses node = ip :: rest ->
  has_slice sl v w -> es_Labels v = Some labels -> es_Endpoints v = ep :: eps ->
  ep_Addresses ep = a :: addrs -> is_Some (slices (w_env w) !! es_Name v) ->
  exists w', run (updateEndpointSlice sl new node) w = (Done None, w') /\ same_locks sl w w' /\
    has_slice sl (moved_slice new ip v) w' /\
    services (w_env w') = services (w_env w) /\
    slices (w_env w') = <[es_Name v := moved_slice new ip v]> (slices (w_env w)) /\
    attached (w_env w') = attached (w_env w) /\ servers (w_env w') = servers (w_env w).
Proof.
  intros Hn Hs Hlab Heps Ha Hin. unfold updateEndpointSlice. rewrite Hn.
  assert (Hm : moved_slice new ip v =
    with_endpoints ({| ep_Addresses := ip :: addrs; ep_Ready := ep_Ready ep |} :: eps)
      (with_slice_labels (Some (<["nodeIP" := ip]> (<["nodeID" := new]> labels))) v)).
  { unfold moved_slice. by rewrite Hlab, Heps, Ha. }
  set (v1 := with_slice_labels (Some (<["nodeID" := new]> labels)) v).
  set (v2 := with_slice_labels (Some (<["nodeIP" := ip]> (<["nodeID" := new]> labels))) v).
  set (v3 := moved_slice new ip v).
  assert (E1 : run (set_slice_label sl "nodeID" new) w = (Done tt, set_var (V_slice sl) v1 w)).
  { unfold set_slice_label. rewrite run_bind, (run_get_slice sl v) by done. cbv beta iota.
    rewrite Hlab. by destruct w. }
  rewrite run_bind, E1. set (w1 := set_var (V_slice sl) v1 w).
  assert (Hs1 : has_slice sl v1 w1) by eauto with goprog.
  assert (E2 : run (set_slice_label sl "nodeIP" ip) w1 = (Done tt, set_var (V_slice sl) v2 w1)).
  { unfold set_slice_label. rewrite run_bind, (run_get_slice sl v1) by done. by destruct w. }
  rewrite run_bind, E2. set (w2 := set_var (V_slice sl) v2 w1).
  assert (Hs2 : has_slice sl v2 w2) by eauto with goprog.
  assert (E3 : run (set_slice_address sl ip) w2 = (Done tt, set_var (V_slice sl) v3 w2)).
  { unfold set_slice_address. rewrite run_bind, (run_get_slice sl v2) by done. cbv beta iota.
    change (es_Endpoints v2) with (es_Endpoints v). rewrite Heps, Ha. unfold v3. rewrite Hm.
    by destruct w. }
  rewrite run_bind, E3. set (w3 := set_var (V_slice sl) v3 w2).
  assert (Hs3 : has_slice sl v3 w3) by eauto with goprog.
  cbn [update_attempts]. rewrite run_bind, (run_get_slice sl v3) by done. cbv beta iota.
  rewrite run_bind. unfold UpdateEndpointSlice.
  assert (Henv : w_env w3 = w_env w) by (unfold w3, w2, w1; by autorewrite with goenv).
  destruct (update_slice v3 (w_env w)) as (x & E & Hsv & Hsl).
  { unfold v3. by rewrite Hm. }
  destruct (store_only _ _ _ _ _ E Henv eq_refl eq_refl) as (-> & Hat & Hex). cbv beta iota.
  exists (set_env x w3). split; [done|]. split.
  { unfold w3, w2, w1. do 3 (etrans; [apply same_locks_slice|]). apply same_locks_env. }
  split; [by apply has_slice_env|]. autorewrite with goenv.
  assert (Hname : es_Name v3 = es_Name v) by (unfold v3; by rewrite Hm).
  rewrite Hname in Hsl. done.
Qed.
#[local] Arguments updateEndpointSlice : simpl never.

Lemma run_publish_to sl err pvName id pvn node ip rest v labels ep eps a addrs room w :
  let new := driver_node_name (mget (node_Annotations node) nodeid_annotation) in
  new <> "" -> node_Addresses node = ip :: rest ->
  has_slice sl v w -> es_Labels v = Some labels -> es_Endpoints v = ep :: eps ->
  ep_Addresses ep = a :: addrs -> is_Some (slices (w_env w) !! es_Name v) ->
  (err < List.length (w_errs w))%nat -> attached_to id (w_env w) = ∅ ->
  servers_ok (S room) (servers (w_env w)) -> server_at (service_address cs ip) ->
  IsNFSVolumeID id = true -> es_Name v = VolumeIDToServiceName id ->
  exists w', run (publish_to cs sl err pvName id pvn node ip) w = (Done None, w') /\ same_locks sl w w' /\
    services (w_env w') = services (w_env w) /\
    slices (w_env w') = <[es_Name v := moved_slice new ip v]> (slices (w_env w)) /\
    attached (w_env w') = {[(ToArrayVolumeID id, new)]} ∪ attached (w_env w) /\
    servers_moved id room (<[service_address cs ip := Serving]> (exporters id (w_env w))) (w_env w) (w_env w').
Proof.
  cbv zeta. intros Hnew Hn Hs Hlab Heps Ha Hin Herr Hdet Hok Hat Hnfs Hname. unfold publish_to.
  set (new := driver_node_name (mget (node_Annotations node) nodeid_annotation)) in *.
  apply String.eqb_neq in Hnew as Hnew'. rewrite Hnew', run_bind.
  match goal with |- context [VcsiControllerPublish ?r] =>
    destruct (c_publish r (w_env w)) as (resp & x1 & E1 & Hctx & Ha1); [unfold attached_to in Hdet; cbn; by rewrite Hdet|] end.
  destruct (attach_only _ _ _ _ _ E1 eq_refl eq_refl eq_refl eq_refl) as (-> & Hs1 & Hl1 & Hsv1).
  cbn [pub_VolumeId pub_NodeId] in Ha1. cbv beta iota. rewrite run_bind, run_assign_err by by destruct w.
  cbv beta iota. set (w2 := set_var (V_err err) None (set_env x1 w)).
  assert (Hs2 : has_slice sl v w2) by (unfold w2; auto with goprog).
  assert (Henv2 : w_env w2 = x1) by (unfold w2; by autorewrite with goenv).
  assert (Hl2 : same_locks sl w w2) by (etrans; [apply same_locks_env|apply same_locks_err]).
  rewrite run_bind, (run_get_slice sl v) by done. cbv beta iota zeta. rewrite run_bind.
  match goal with |- context [callExportNfsVolume cs ip ?r] =>
    destruct (run_callExport cs ip r id room w2) as (r3 & x3 & -> & Hs3 & Hsl3 & Ha3 & He3) end.
  { by rewrite Henv2, Hsv1. }
  { done. }
  { done. }
  { done. }
  { cbn [exreq_ExportNfsContext]. rewrite mget_maps_Copy, <- Hname by done. reflexivity. }
  rewrite Henv2 in *. cbv beta iota. rewrite run_bind.
  destruct (run_updateEndpointSlice sl new node ip rest v labels ep eps a addrs (set_env x3 w2))
    as (w4 & -> & Hl4 & Hsl4 & Hs4 & Hv4 & Ha4 & He4);
    [done|by apply has_slice_env|done..|autorewrite with goenv; by rewrite Hsl3, Hl1|].
  cbv beta iota. autorewrite with goenv in *. rewrite run_bind, run_assign_err.
  2: { by rewrite (same_locks_errs _ _ _ Hl4), (same_locks_errs _ _ _ (same_locks_env sl _ _)), (same_locks_errs _ _ _ Hl2). }
  exists (set_var (V_err err) None w4). split; [done|]. split.
  { etrans; [exact Hl2|]. etrans; [apply (same_locks_env sl x3)|]. etrans; [exact Hl4|apply same_locks_err]. }
  autorewrite with goenv. rewrite Hs4, Hv4, Ha4, Hs3, Hsl3, Ha3, Hs1, Hl1, Ha1. do 3 (split; [done|]).
  unfold exporters in *. rewrite <- Hsv1. by eapply servers_moved_view.
Qed.
#[local] Arguments publish_to : simpl never.

(** A node that recovery can move volumes to. *)
Definition ready_node (sel new ip : string) : Prop :=
  exists node rest, node_of sel = Some node /\ node_Addresses node = ip :: rest /\ ip <> "" /\
    server_at (service_address cs ip) /\
    driver_node_name (mget (node_Annotations node) nodeid_annotation) = new /\ new <> "".

(** The slice [v] describes the volume [id] on the cluster. *)
Definition describes (v : EndpointSlice) (id : string) (x : X) : Prop :=
  es_Name v = VolumeIDToServiceName id /\ slices x !! es_Name v = Some v /\
  volume_handle (mget (es_Labels v) "pvName") = Some id /\ es_Labels v <> None.

(** Where the slice sends its clients. *)
Definition slice_ip (v : EndpointSlice) : string :=
  match es_Endpoints v with ep :: _ => List.hd "" (ep_Addresses ep) | [] => "" end.

(** The cluster after the move of the volume [id] to [new] at [ip]: the failed
    server has not been reached. *)
Definition moved (v : EndpointSlice) (id new ip : string) (room : nat) (x x' : X) : Prop :=
  services x' = services x /\
  slices x' = <[es_Name v := moved_slice new ip v]> (slices x) /\
  attached x' = {[(ToArrayVolumeID id, new)]} ∪
                  detach (ToArrayVolumeID id) (mget (es_Labels v) "nodeID") (attached x) /\
  servers_moved id room (<[service_address cs ip := Serving]> (exporters id x)) x x'.

Lemma moved_serves v id new ip server clients stale room x x' :
  describes v id x -> placed cs id stale server clients x -> ip <> "" ->
  moved v id new ip room x x' ->
  serves cs id ({[service_address cs (slice_ip v)]} ∪ stale) (Some (new, clients)) x' /\
  same_elsewhere id x x'.
Proof.
  intros (Hname & Hstored & _ & Hlabs)
    (svc & slabels & sl & ip0 & ep & addrs & eps & Hsvc & Hsn & Hsns & Hsl & Hcl & Hsl0
       & Hslns & Hsrv & Heps & Haddrs & _ & Hat & Hsub) Hip (Hs & Hl & Ha & _ & He & Hsep).
  rewrite <- Hname, Hstored in Hsl0. injection Hsl0 as <-.
  destruct (es_Labels v) as [labels|] eqn:Hlab; [|done].
  assert (Hm : moved_slice new ip v =
    with_endpoints ({| ep_Addresses := ip :: addrs; ep_Ready := ep_Ready ep |} :: eps)
      (with_slice_labels (Some (<["nodeIP" := ip]> (<["nodeID" := new]> labels))) v)).
  { unfold moved_slice. by rewrite Hlab, Heps, Haddrs. }
  split.
  - exists svc, slabels, (moved_slice new ip v), ip. do 3 eexists.
    unfold attached_to in *. rewrite Hs, Hl, Ha, He, nodes_of_attach, nodes_of_detach, union_empty_r_L by (by rewrite Hat, <- Hsrv).
    rewrite <- Hname, !lookup_insert_eq, Hname. do 6 (split; [done|]).
    rewrite Hm. split; [done|]. split.
    { cbn. rewrite lookup_insert_ne by discriminate. by rewrite lookup_insert_eq. }
    split; [reflexivity|]. split; [reflexivity|]. do 2 (split; [done|]).
    split; [done|].
    apply added_subseteq. etrans; [exact Hsub|]. apply union_mono_r, singleton_subseteq_l.
    unfold slice_ip. rewrite Heps, Haddrs. by apply elem_of_singleton_2.
  - split; [intros k Hk; split|split; intros k Hk]; rewrite ?Hs, ?Hl, ?Ha, ?Hname; [done|..|by apply Hsep].
    + by rewrite lookup_insert_ne.
    + by rewrite nodes_of_attach_ne, nodes_of_detach_ne.
Qed.

Lemma run_move_to sl pvName id sel new ip v labels ep eps a addrs room w :
  ready_node sel new ip -> has_slice sl v w -> es_Labels v = Some labels ->
  es_Endpoints v = ep :: eps -> ep_Addresses ep = a :: addrs -> is_Some (slices (w_env w) !! es_Name v) ->
  attached_to id (w_env w) = {[mget (es_Labels v) "nodeID"]} ->
  servers_ok (S room) (servers (w_env w)) -> IsNFSVolumeID id = true -> es_Name v = VolumeIDToServiceName id ->
  exists w', run (move_to cs sl pvName id pvName sel) w = (Done None, w') /\
    quiet sl w w' /\ moved v id new ip room (w_env w) (w_env w').
Proof.
  intros (node & rest & Hnode & Hna & Hip & Hsrv & Hdrv & Hnew) Hs Hlab Heps Haddrs Hstored Hatt Hok Hnfs Hname.
  unfold move_to. set (err := List.length (w_errs w)).
  set (w4 := spawn (unexport_old cs sl err pvName id) (set_errs (w_errs w ++ [None]) w)).
  assert (E4 : run (loc NewErr) w = (Done err, set_errs (w_errs w ++ [None]) w)) by by destruct w.
  rewrite run_bind, E4. cbv beta iota. rewrite run_bind.
  change (run (go ?p) ?w) with (Done tt, spawn p w). cbv beta iota. fold w4. rewrite run_bind.
  assert (Hs4 : has_slice sl v w4) by by destruct w. rewrite (run_get_slice sl v) by done.
  cbv beta iota. rewrite Hlab, run_bind.
  assert (Henv4 : w_env w4 = w_env w) by by destruct w.
  match goal with |- context [VcsiControllerUnpublish ?r] =>
    destruct (c_unpublish r (w_env w)) as (x5 & E5 & Ha5) end.
  destruct (attach_only _ _ _ _ _ E5 Henv4 eq_refl eq_refl eq_refl) as (-> & Hs5 & Hl5 & He5).
  cbn [unpub_VolumeId unpub_NodeId] in Ha5. cbv beta iota.
  assert (Herr4 : (err < List.length (w_errs w4))%nat).
  { unfold w4, err. destruct w. cbn. rewrite length_app. cbn. lia. }
  rewrite run_bind, run_assign_err by by destruct w. cbv beta iota.
  set (w5 := set_var (V_err err) None (set_env x5 w4)).
  assert (Henv5 : w_env w5 = x5) by (unfold w5; by autorewrite with goenv).
  unfold GetNode. rewrite run_bind.
  destruct (call_frame (KubeGetNode sel) w5) as (x6 & -> & Hs6 & Hl6 & Ha6 & He6); [done..|].
  rewrite (r_node _ node) by done. cbv beta iota. rewrite run_bind.
  assert (Hlk5 : same_locks sl w4 w5) by (etrans; [apply same_locks_env|apply same_locks_err]).
  rewrite run_assign_err.
  2: { by rewrite (same_locks_errs _ _ _ (same_locks_env sl _ _)), (same_locks_errs _ _ _ Hlk5). }
  cbv beta iota zeta. rewrite Hna. set (w6 := set_var (V_err err) None (set_env x6 w5)).
  assert (Hlk6 : same_locks sl w4 w6).
  { etrans; [exact Hlk5|]. etrans; [apply same_locks_env|apply same_locks_err]. }
  rewrite Henv5 in *. assert (Henv6 : w_env w6 = x6) by (unfold w6; by autorewrite with goenv).
  destruct (run_publish_to sl err pvName id pvName node ip rest v labels ep eps a addrs room w6)
    as (w7 & -> & Hlk7 & Hs7 & Hl7 & Ha7 & He7);
    [by rewrite Hdrv|done|unfold w6, w5; auto with goprog|done|done|done| | | | |done..|].
  { by rewrite Henv6, Hl6, Hl5. }
  { by rewrite (same_locks_errs _ _ _ Hlk6). }
  { unfold attached_to in *. rewrite Henv6, Ha6, Ha5. apply nodes_of_detach. by rewrite Hatt, Hlab. }
  { by rewrite Henv6, He6, He5. }
  exists w7. rewrite Hdrv, Henv6, Ha6, Ha5 in *. split; [done|].
  split; [trans w4; [by destruct w|]; trans w6; [apply Hlk6|apply Hlk7]|].
  unfold moved. rewrite Hlab. do 3 (split; [congruence|]). unfold exporters in *.
  rewrite <- He5, <- He6. eapply servers_moved_view; [exact He7|congruence|done].
Qed.
#[local] Arguments move_to : simpl never.

Local Abbreviation unlocked := (fun B (e : locE B) => touches_map PVLock e = false).

Lemma unexport_old_ops sl err a b : all_ops unlocked (unexport_old cs sl err a b).
Proof. unfold unexport_old, callUnexportNfsVolume, getNfsClient. walk_ops reflexivity. Qed.

Lemma updateEndpointSlice_ops sl n node : all_ops unlocked (updateEndpointSlice sl n node).
Proof.
  unfold updateEndpointSlice, set_slice_label, set_slice_address, UpdateEndpointSlice.
  cbn [update_attempts]. unfold UpdateEndpointSlice. walk_ops reflexivity.
Qed.
#[local] Hint Resolve unexport_old_ops updateEndpointSlice_ops : goprog.

Lemma reassign_locked_lock sl : all_ops unlocked (reassign_locked cs sl).
Proof.
  unfold reassign_locked, move_to, publish_to, assign_err, findNextAvailableNode, callExportNfsVolume,
    getNfsClient, GetPersistentVolume, GetService, GetNode.
  walk_ops reflexivity.
Qed.

(** Every counted node can take a volume. *)
Definition nodes_ready (counts : gmap string Z) : Prop :=
  counts <> ∅ /\
  forall n c, counts !! n = Some c -> c < max_int64 /\ exists new ip, ready_node n new ip.

Lemma run_reassign_locked sl v id server clients stale room w :
  has_slice sl v w -> describes v id (w_env w) ->
  placed cs id stale server clients (w_env w) ->
  servers_ok (S room) (servers (w_env w)) -> IsNFSVolumeID id = true ->
  free exportCountsLock w -> nodes_ready (w_exportCounts w) ->
  exists sel new ip w', run (reassign_locked cs sl) w = (Done None, w') /\
    ready_node sel new ip /\ selects (w_exportCounts w) sel /\
    quiet sl (set_var V_exportCounts (reserve sel (w_exportCounts w)) w) w' /\
    serves cs id ({[service_address cs (slice_ip v)]} ∪ stale) (Some (new, clients)) (w_env w') /\
    same_elsewhere id (w_env w) (w_env w') /\ services (w_env w') = services (w_env w) /\
    servers_ok room (servers (w_env w')).
Proof.
  intros Hs Hdesc Hserv Hok Hnfs Hf [Hne Hnodes]. assert (Hdesc' := Hdesc). assert (Hserv' := Hserv).
  destruct Hdesc as (Hname & Hstored & Hpv & Hlabs).
  destruct Hserv as (svc & slabels & sl0 & ip0 & ep & addrs & eps & Hsvc & _ & _ & _ & _ & Hsl0
    & _ & Hserver & Heps & Haddrs & _ & Hatt & _).
  rewrite <- Hname, Hstored in Hsl0. injection Hsl0 as <-.
  destruct (es_Labels v) as [labels|] eqn:Hlab; [|done].
  unfold reassign_locked. rewrite run_bind, (run_get_slice sl v) by done. cbv beta iota zeta.
  rewrite Hlab. unfold GetPersistentVolume. rewrite run_bind.
  destruct (call_frame (KubeGetPV (mget (Some labels) "pvName")) w) as (x1 & -> & Hv1); [done..|].
  rewrite (r_pv _ id) by done. cbv beta iota. unfold GetService. rewrite run_bind.
  destruct (get_service (es_Name v) x1) as (x2 & E2 & Hs2 & Hl2).
  destruct (store_only _ _ _ _ _ E2 (w_env_set_env x1 w) eq_refl eq_refl) as (-> & Ha2 & He2).
  destruct Hv1 as (Hs1 & Hl1 & Ha1 & He1). autorewrite with goenv. rewrite Hs1, Hname, Hsvc. cbn [found].
  rewrite run_bind.
  destruct (run_findNextAvailableNode {| pv_Name := mget (Some labels) "pvName"; pv_VolumeHandle := Some id |}
              id (set_env x2 w)) as (sel & -> & Hsel); [done|by destruct w| |].
  { intros n c Hn. apply (Hnodes n c). by destruct w. }
  assert (Hc2 : w_exportCounts (set_env x2 w) = w_exportCounts w) by by destruct w.
  rewrite Hc2 in *. autorewrite with goenv.
  destruct (proj2 Hsel Hne) as (c & Hc & _).
  destruct (Hnodes _ _ Hc) as [_ (new & ip & Hready)].
  set (x3 := (env_step RangeChoices x2).2).
  destruct (store_frame _ RangeChoices x2 eq_refl) as [Hs3 Hl3].
  pose proof (c_frame _ RangeChoices x2 eq_refl) as Ha3.
  pose proof (s_frame _ RangeChoices x2 eq_refl) as He3. fold x3 in Hs3, Hl3, Ha3, He3.
  set (w3 := set_env x3 (set_var V_exportCounts (reserve sel (w_exportCounts w)) (set_env x2 w))).
  assert (Henv3 : w_env w3 = x3) by by destruct w.
  cbn [pv_VolumeHandle pv_Name].
  destruct (run_move_to sl (mget (Some labels) "pvName") id sel new ip v labels ep eps ip0 addrs room w3)
    as (w7 & -> & Hq & Hs7 & Hl7 & Ha7 & He7); [done|by destruct w|done..| | | |done|done|].
  { rewrite Henv3, Hl3, Hl2, Hl1. eauto. }
  { unfold attached_to in *. rewrite Henv3, Ha3, Ha2, Ha1, Hlab. congruence. }
  { by rewrite Henv3, He3, He2, He1. }
  rewrite Henv3 in *. exists sel, new, ip, w7.
  split; [done|]. split; [done|]. split; [done|].
  split; [trans w3; [by destruct w|exact Hq]|].
  assert (Hsv : servers x3 = servers (w_env w)) by congruence.
  destruct (moved_serves v id new ip server clients stale room (w_env w) (w_env w7)) as [Hsv7 Hel7];
    [done..| | |].
  { by destruct Hready as (? & ? & ? & ? & ? & ?). }
  { unfold moved. do 3 (split; [congruence|]). unfold exporters in *.
    rewrite <- Hsv. by eapply servers_moved_view. }
  do 2 (split; [done|]). split; [congruence|]. apply He7.
Qed.
#[local] Arguments reassign_locked : simpl never.

Lemma run_reassignVolume (fuel : nat) (sl : nat) (v : EndpointSlice) (id server : string)
    (clients stale : gset string) (room : nat) w
    (Hslice : has_slice sl v w) (Hdesc : describes v id (w_env w))
    (Hserv : placed cs id stale server clients (w_env w))
    (Hok : servers_ok (S room) (servers (w_env w))) (Hnfs : IsNFSVolumeID id = true)
    (Hlock : w_PVLock w !! mget (es_Annotations v) DriverVolumeID = None)
    (Hfree : free exportCountsLock w) (Hnodes : nodes_ready (w_exportCounts w)) :
  exists sel new ip w', run (reassignVolume cs (S fuel) sl) w = (Done None, w') /\
    ready_node sel new ip /\ selects (w_exportCounts w) sel /\
    quiet sl (set_var V_exportCounts (reserve sel (w_exportCounts w)) w) w' /\
    serves cs id ({[service_address cs (slice_ip v)]} ∪ stale)
      (Some (new, clients)) (w_env w') /\
    same_elsewhere id (w_env w) (w_env w') /\ services (w_env w') = services (w_env w) /\
    servers_ok room (servers (w_env w')).
Proof.
  unfold reassignVolume. rewrite run_bind, (run_get_slice sl v) by done. cbv beta iota zeta.
  rewrite run_pv_section by (done || apply reassign_locked_lock). set (w1 := set_lockmap PVLock _ w).
  assert (Hw1 : w_env w1 = w_env w) by by destruct w.
  destruct (run_reassign_locked sl v id server clients stale room w1)
    as (sel & new & ip & w7 & E & Hr & Hsel & Hq & Hs & Hel & Hok');
    [by destruct w|by rewrite Hw1..|done|by destruct w|by destruct w|].
  rewrite E, Hw1 in *. cbn [fst snd]. exists sel, new, ip, (set_lockmap PVLock (w_PVLock w) w7).
  assert (Hw7 : forall l, w_env (set_lockmap PVLock l w7) = w_env w7) by by destruct w7.
  rewrite Hw7. split; [done|]. split; [done|]. split; [by destruct w|]. split; [|done].
  destruct Hq as (_ & HL & Hc & Hst & Hsl). do 4 (split; [by destruct w, w7|]). intros j Hj. specialize (Hsl j Hj). by destruct w, w7.
Qed.

(** C7: [reassignVolume] keeps the sharing of a volume: on a cluster whose parts
    do what they are asked, for a slice that describes the volume and nodes
    that can take it, it succeeds, and the volume, which was placed on another
    node (whose server may have lost the export), is served by the node with the lowest export count: attached to it,
    exported by its server, named by the slice, for the same clients.  The
    server that the slice named is the only one that may have kept an export
    it should not have.  Other volumes and all locks are left as they were,
    also the lock of the volume. *)
Theorem reassignVolume_preserves_sharing (fuel : nat) (sl : nat) (v : EndpointSlice) (id server : string)
    (clients stale : gset string) (room : nat) w
    (Hslice : has_slice sl v w) (Hdesc : describes v id (w_env w))
    (Hserv : placed cs id stale server clients (w_env w))
    (Hok : servers_ok (S room) (servers (w_env w))) (Hnfs : IsNFSVolumeID id = true)
    (Hlock : w_PVLock w !! mget (es_Annotations v) DriverVolumeID = None)
    (Hfree : free exportCountsLock w) (Hnodes : nodes_ready (w_exportCounts w)) :
  exists sel new ip w', run (reassignVolume cs (S fuel) sl) w = (Done None, w') /\
    ready_node sel new ip /\ selects (w_exportCounts w) sel /\
    w_PVLock w' = w_PVLock w /\ w_held w' = w_held w /\
    serves cs id ({[service_address cs (slice_ip v)]} ∪ stale)
      (Shared.move new (Some (server, clients))) (w_env w') /\
    same_elsewhere id (w_env w) (w_env w') /\ servers_ok room (servers (w_env w')).
Proof.
  destruct (run_reassignVolume fuel sl v id server clients stale room w)
    as (sel & new & ip & w' & E & Hr & Hsel & (HP & HL & _) & Hs & He & _ & Hok'); [done..|].
  exists sel, new, ip, w'. split; [done|]. do 2 (split; [done|]).
  split; [rewrite HP; by destruct w|]. split; [rewrite HL; by destruct w|done].
Qed.
End Move.

(** ** The simulated cluster after a failure *)

Inductive breakage := Sound | UnexportFails | UnpublishFails | UpdateSliceFails.

Definition unavailable : go_error := Errorf "rpc error: code = Unavailable".

(** The simulated cluster, on which one kind of call fails. *)
Definition broken_step (f : breakage) : Env sim := fun B e x =>
  match f, e in extE B return B * sim -> B * sim with
  | UnexportFails, RpcUnexport _ _ => fun _ => (inr unavailable, x)
  | UnpublishFails, VcsiControllerUnpublish _ => fun _ => ((None, Some unavailable), x)
  | UpdateSliceFails, KubeUpdateSlice _ _ => fun _ => (inr unavailable, x)
  | _, _ => fun pass => pass
  end (sim_step B e x).

Section SimulatedMove.
#[local] Existing Instance ascii_tables.
#[local] Existing Instance demo_globals.
#[local] Existing Instance demo_printing.
#[local] Existing Instance sim_step.

#[export] Program Instance sim_relocatable : Relocatable sim := {
  volume_handle := fun name => Some ("nfs-" +:+ name);
  node_of := fun name => List.find (fun n => String.eqb (node_Name n) name) sim_nodes;
}.
Next Obligation. by intros ? ? ? [= <-]. Qed.
Next Obligation. intros name node x Hn. cbn [env_step sim_step fst]. by rewrite Hn. Qed.
Next Obligation. intros ip x. do 2 eexists. split; [reflexivity|]. by rewrite TrimPrefix_app. Qed.

(** [csi-1] serves the volume [nfs-v1] for [csi-1] and [csi-2]; then it fails,
    and [counts] are the exports of the other nodes. *)
Definition sim_served : world sim :=
  (run (exec_all demo_service 0 Background "nfs-v1" {["Name" := "v1"]}
     [Shared.Publish "csi-1"; Shared.Publish "csi-2"]) sim_world).2.
Definition sim_slice : EndpointSlice :=
  default empty_slice (sim_slices (w_env sim_served) !! "nfs-v1").
Definition sim_failed (counts : gmap string Z) : world sim :=
  set_slices [sim_slice] (set_var V_exportCounts counts sim_served).

Lemma sim_slice_describes : describes sim_slice "nfs-v1" (w_env sim_served).
Proof.
  assert (Hsome : forall o : gomap, is_some o = true -> o <> None) by by intros [].
  do 3 (split; [vm_compute; reflexivity|]). apply Hsome. vm_compute. reflexivity.
Qed.

Lemma sim_node_ready : ready_node demo_service "csi-2" "csi-2" "10.0.0.2".
Proof.
  exists (sim_node "csi-2" "10.0.0.2"), []. repeat split; try (vm_compute; reflexivity); discriminate.
Qed.

Lemma sim_node_name new ip : ready_node demo_service "csi-2" new ip -> new = "csi-2".
Proof.
  intros (node & rest & Hn & _ & _ & _ & Hd & _).
  assert (E : node_of "csi-2" = Some (sim_node "csi-2" "10.0.0.2")) by (vm_compute; reflexivity).
  rewrite E in Hn. injection Hn as <-. rewrite <- Hd. vm_compute. reflexivity.
Qed.

Lemma sim_failed_slice counts : has_slice 0 sim_slice (sim_failed counts).
Proof. unfold sim_failed, has_slice. by destruct sim_served. Qed.

Lemma sim_failed_counts counts : w_exportCounts (sim_failed counts) = counts.
Proof. unfold sim_failed. by destruct sim_served. Qed.
Lemma sim_failed_env counts : w_env (sim_failed counts) = w_env sim_served.
Proof. unfold sim_failed. by destruct sim_served. Qed.

Lemma sim_served_serves :
  serves demo_service "nfs-v1" ∅ (Some ("csi-1", {["csi-1"; "csi-2"]})) (w_env sim_served).
Proof.
  destruct (run_exec_all demo_service 0 Background "nfs-v1" {["Name" := "v1"]}
    [Shared.Publish "csi-1"; Shared.Publish "csi-2"] None ∅ 0 sim_world) as (x & Hr & Hx & _).
  - reflexivity.
  - reflexivity.
  - repeat constructor; [exact sim_usable_1|exact sim_usable_2].
  - exact I.
  - apply sim_world_serves.
  - unfold sim_served. rewrite Hr. cbn [snd]. rewrite w_env_set_env.
    replace (Some ("csi-1", {["csi-1"; "csi-2"]} : gset string))
      with (List.fold_left (fun s o => Shared.step o s) [Shared.Publish "csi-1"; Shared.Publish "csi-2"] None);
      [exact Hx|]. vm_compute. reflexivity.
Qed.

Lemma reassignVolume_preserves_sharing_witness :
  exists w', run (reassignVolume demo_service 1 0) (sim_failed {["csi-2" := 3%Z]}) = (Done None, w') /\
    serves demo_service "nfs-v1" {["10.0.0.1:2050"]} (Some ("csi-2", {["csi-1"; "csi-2"]})) (w_env w').
Proof.
  destruct (reassignVolume_preserves_sharing demo_service 0 0 sim_slice "nfs-v1" "csi-1"
    {["csi-1"; "csi-2"]} ∅ 0 (sim_failed {["csi-2" := 3%Z]}))
    as (sel & new & ip & w' & Hr & Hready & Hsel & _ & _ & Hs & _).
  - apply sim_failed_slice.
  - rewrite sim_failed_env. exact sim_slice_describes.
  - rewrite sim_failed_env. apply serves_placed. exact sim_served_serves.
  - exact I.
  - reflexivity.
  - vm_compute. reflexivity.
  - vm_compute. reflexivity.
  - rewrite sim_failed_counts. split; [by intros E%(f_equal (fun m : gmap string Z => m !! "csi-2"))|].
    intros n c Hn.
    apply lookup_singleton_Some in Hn as [<- <-]. split; [done|].
    exists "csi-2", "10.0.0.2". exact sim_node_ready.
  - exists w'. split; [exact Hr|].
    rewrite sim_failed_counts in Hsel. destruct Hsel as [_ Hsel]. destruct Hsel as (c & Hc & _).
    { by intros E%(f_equal (fun m : gmap string Z => m !! "csi-2")). }
    apply lookup_singleton_Some in Hc as [<- <-].
    apply sim_node_name in Hready as ->.
    replace ({["10.0.0.1:2050"]} : gset string)
      with ({[service_address demo_service (slice_ip sim_slice)]} ∪ ∅ : gset string);
      [exact Hs|]. vm_compute. reflexivity.
Defined.

End SimulatedMove.

(** ** The ways in which it goes wrong *)

(** Where the slice, the array and the exports have the volume [nfs-v1]. *)
Definition places (x : sim) : option string * list string * list string :=
  (sl ← sim_slices x !! "nfs-v1"; labels ← es_Labels sl; labels !! "nodeID",
   elements (nodes_of "v1" (sim_attached x)), elements (sim_exporters (sim_exported x) "nfs-v1")).

Section Mishaps.
#[local] Existing Instance ascii_tables.
#[local] Existing Instance demo_globals.
#[local] Existing Instance demo_printing.

Definition move_with (f : breakage) (counts : gmap string Z) :
    outcome (option go_error) * (option string * list string * list string) :=
  let '(o, w) := run (H := broken_step f) (reassignVolume demo_service 1 0) (sim_failed counts) in
  (o, places (w_env w)).

(** [p] with its result in the cell 0. *)
Definition reporting (p : prog (option go_error)) : prog unit :=
  c ← loc NewErr; r ← p; loc (Set_ (V_err c) r).

Definition finished (p : prog unit) : bool := match p with Ret _ => true | _ => false end.

(** Goroutines that run by a schedule: do they all end, the errors that the
    first of them report, where the volume is. *)
Definition race (f : breakage) (ps : list (prog unit)) (schedule : list nat) :
    option (bool * list (option go_error) * (option string * list string * list string)) :=
  s ← run_schedule (H := broken_step f) schedule (System ps (sim_failed {["csi-2" := 3%Z]}));
  Some (forallb finished (threads s), List.firstn (List.length ps) (w_errs (shared s)), places (w_env (shared s))).

Definition moving : prog unit := reporting (reassignVolume demo_service 1 0).

(** Both clients give the volume up. *)
Definition unpublishing : prog unit :=
  reporting
    (let unpublish (n : string) :=
       ControllerUnpublishVolume demo_service 1 Background {| unpub_VolumeId := "nfs-v1"; unpub_NodeId := n |} in
     '(_, e1) ← unpublish "csi-1"; '(_, e2) ← unpublish "csi-2";
     mret (match e1 with Some e => Some e | None => e2 end)).

(** [reassignVolume] shares its [err] with the goroutine that unexports the
    volume from the failed node.  When that goroutine fails between an
    assignment and its test, a detachment that succeeded is reported as
    failed and the volume is left attached to no node; when the goroutine
    succeeds there, a detachment that failed passes for a success and the
    volume is attached to a second node. *)
Theorem reassignVolume_err_race :
  race UnexportFails [moving] (replicate 17 0%nat ++ replicate 4 1%nat ++ replicate 3 0%nat) =
    Some (true, [Some (Errorf ("reassignVolume v1 ControllerUnpublishVolume failed error: "
                                 +:+ err_text unavailable))],
          (Some "csi-1", [], ["10.0.0.1:2050"])) /\
  race UnpublishFails [moving] (replicate 17 0%nat ++ replicate 4 1%nat ++ replicate 22 0%nat) =
    Some (true, [None], (Some "csi-2", ["csi-1"; "csi-2"], ["10.0.0.2:2050"])).
Proof. split; vm_compute; reflexivity. Qed.

(** [reassignVolume] locks the array's id of the volume, the publishing
    handlers lock its NFS id: unpublishing runs in the middle of a move.  Every
    call reports success, and the volume has no slice, is attached to the
    selected node and exported by it. *)
Theorem reassignVolume_unpublish_race :
  race Sound [moving; unpublishing]
    (replicate 7 0%nat ++ replicate 17 1%nat ++ replicate 10 0%nat ++ replicate 4 2%nat
       ++ replicate 30 0%nat) =
  Some (true, [None; None], (None, ["csi-2"], ["10.0.0.2:2050"])).
Proof. vm_compute. reflexivity. Qed.

(** the goroutine that unexports the volume from the failed node looks up
    the address of that node in the slice when it comes to run; when that is
    after [updateEndpointSlice] has put the new address there, it unexports
    the volume from the new server.  The move reports success, the slice and
    the attachment name the new node, whose server does not export the volume
    any more, while the failed one still does. *)
Theorem reassignVolume_late_unexport :
  race Sound [moving] (replicate 32 0%nat ++ replicate 4 1%nat ++ replicate 7 0%nat) =
  Some (true, [None], (Some "csi-2", ["csi-2"], ["10.0.0.1:2050"])).
Proof. vm_compute. reflexivity. Qed.

(** [reassignVolume] reports success when the slice could not be updated:
    the volume is attached to and exported by the selected node, and the slice
    still names the failed one. *)
Theorem reassignVolume_update_lost :
  move_with UpdateSliceFails {["csi-2" := 3%Z]} =
  (Done None, (Some "csi-1", ["csi-2"], ["10.0.0.1:2050"; "10.0.0.2:2050"])).
Proof. vm_compute. reflexivity. Qed.

(** when no node has a count, [reassignVolume] first detaches the volume and
    then looks for the node with the empty name: it fails with the volume
    attached to no node. *)
Theorem reassignVolume_without_nodes :
  move_with Sound ∅ =
  (Done (Some (Errorf ("reassignVolume could not Get the selected node : "
                         +:+ err_text (not_found_error "nodes" "")))),
   (Some "csi-1", [], ["10.0.0.1:2050"])).
Proof. vm_compute. reflexivity. Qed.
End Mishaps.
