(* ===== verification/Failover.v ===== *)
(** * The recovery of a failed node moves every volume that it served

    [nodeRecovery] lists the endpoint slices of the failed node, counts the
    exports of the nodes that can be reached, and moves every volume in a
    goroutine of its own.  [Reassign.v] is about one such move; here the moves
    are put together: whatever the order in which the goroutines come to run
    (one after the other), every volume ends up on a node that was counted,
    with the clients it had. *)

From S2P Require Import Prelude GoStrings Messages GoProg Naming Exports Json Config K8s NfsServer NodeHost NodeMonitor Controller Sharing NodeRecovery Reassign.

(** What the answers to [GetExports] are supposed to fit in. *)
Definition many_exports : Z := 2 ^ 62.

(** Servers that can be asked for their exports. *)
Class Countings (X : Type) `{NfsServers X} := {
  few_exports : server_state -> Prop;
  f_exports address n x :
    servers_ok n (servers x) -> few_exports (servers x) ->
    exists r x', env_step (RpcGetExports address) x = (r, x') /\
      servers_ok n (servers x') /\ few_exports (servers x') /\
      (forall id, exported_at (servers x') id = exported_at (servers x) id) /\
      (server_at address -> exists resp, r = inl resp) /\
      forall resp, r = inl resp -> Z.of_nat (List.length (exports_Exports resp)) < many_exports;
}.

Section Failover.
Context `{UnicodeTables} `{Globals} `{Printing} (cs : CsiNfsService).
Context {X : Type} `{Env X} `{!KubeStore X} `{!Cluster X} `{!NfsServers X} `{!Relocatable X} `{!Countings X}.
Implicit Types w : world X.
Implicit Types x : X.

(** *** Counting *)

(** Nothing has changed but what a server may note when it is asked. *)
Definition asked (n : nat) x x' : Prop :=
  services x' = services x /\ slices x' = slices x /\ attached x' = attached x /\
  (servers_ok n (servers x) -> few_exports (servers x) ->
   servers_ok n (servers x') /\ few_exports (servers x') /\
   forall id, exporters id x' = exporters id x).

#[global] Instance asked_preorder n : PreOrder (asked n).
Proof.
  split; [done|]. intros x y z (A1 & A2 & A3 & A) (B1 & B2 & B3 & B).
  do 3 (split; [congruence|]). intros Hok Hfew. destruct (A Hok Hfew) as (Hok1 & Hfew1 & He1).
  destruct (B Hok1 Hfew1) as (Hok2 & Hfew2 & He2). do 2 (split; [done|]). intros id. by rewrite He2.
Qed.

Lemma asked_view n x x' : same_view x x' -> asked n x x'.
Proof. intros (A & B & C & D). unfold asked, exporters. rewrite D. done. Qed.

Lemma asked_serves n id stale s x x' :
  asked n x x' -> servers_ok n (servers x) -> few_exports (servers x) ->
  serves cs id stale s x -> serves cs id stale s x'.
Proof.
  intros (A & B & C & D) Hok Hfew. destruct (D Hok Hfew) as (_ & _ & He). unfold serves, attached_to. by rewrite A, B, C, He.
Qed.

(** While [w0] asks servers for their exports. *)
Definition asking (n : nat) w0 w : Prop := exists x, w = set_env x w0 /\ asked n (w_env w0) x /\
  servers_ok n (servers x) /\ few_exports (servers x).

Lemma asking_start n w : servers_ok n (servers (w_env w)) -> few_exports (servers (w_env w)) -> asking n w w.
Proof. intros Hok Hfew. exists (w_env w). by rewrite set_env_id. Qed.

Lemma asking_frame {B} (e : extE B) n w0 w :
  is_exec e = false -> store_call e = false -> moves_volume e = false ->
  asking n w0 w -> asking n w0 (ext_step e w).2.
Proof.
  intros He Hs Hm (x & -> & Hask & Hok & Hfew).
  destruct (call_frame e (set_env x w0)) as (x1 & Hr & Hx); [done..|]. rewrite w_env_set_env in Hx.
  cbn [run ext] in Hr. destruct (ext_step e (set_env x w0)) as [b w1]. injection Hr as _ ->.
  assert (Hask1 : asked n x x1) by by apply asked_view. destruct (proj2 (proj2 (proj2 Hask1)) Hok Hfew) as (? & ? & _).
  exists x1. rewrite set_env_set_env. split; [done|]. by split; [etrans|].
Qed.

Lemma asking_status n w0 w p st : asking n w0 w -> has_status p st w0 -> has_status p st w.
Proof. intros (x & -> & _). by destruct w0. Qed.

Lemma keeps_read_status {A} n w0 p st (f : NodeStatus -> A) :
  has_status p st w0 -> keeps (asking n w0) (fun a => a = f st) (read_status p f).
Proof.
  intros Hst w Hw. cbn. split; [done|]. pose proof (asking_status _ _ _ _ _ Hw Hst) as Hp.
  unfold has_status in Hp. by rewrite (nth_lookup_Some _ _ _ _ Hp).
Qed.

Lemma keeps_getExports ip n w0 :
  keeps (asking n w0)
    (fun r => (r.2 = None -> Z.of_nat (List.length r.1) < many_exports) /\
              (server_at (service_address cs ip) -> r.2 = None)) (getExports cs ip).
Proof.
  intros w Hw. fold (service_address cs ip). split; [by apply asking_frame|].
  unfold ext_step at 1. pose proof (c_client (service_address cs ip) (w_env w)) as Hc.
  destruct (env_step (NewClient (service_address cs ip)) (w_env w)) as [r y]. cbn in Hc. subst r. cbn. clear y w Hw.
  intros w (x & -> & Hask & Hok & Hfew).
  destruct (f_exports (service_address cs ip) n x Hok Hfew) as (r & x2 & E & Hok2 & Hfew2 & Hex2 & Hans & Hlen).
  pose proof (store_frame _ (RpcGetExports (service_address cs ip)) x eq_refl) as [Hv Hl].
  pose proof (c_frame _ (RpcGetExports (service_address cs ip)) x eq_refl) as Ha.
  unfold ext_step. rewrite w_env_set_env, E in *. cbn [fst snd note_exec] in *. rewrite set_env_set_env. split.
  - exists x2. split; [done|]. split; [|done]. etrans; [exact Hask|]. do 3 (split; [done|]). by intros.
  - destruct r as [resp|e]; cbn; split; try done; [intros _; by apply Hlen|]. intros Hat. by destruct (Hans Hat).
Qed.
#[local] Arguments getExports : simpl never.

(** What the goroutine of a node sends. *)
Definition counts_node (st : NodeStatus) (c : option (string * Z)) : Prop :=
  (forall k q, c = Some (k, q) -> k = ns_nodeName st /\ ns_inRecovery st = false /\ 0 <= q < many_exports) /\
  (ns_inRecovery st = false -> server_at (service_address cs (ns_nodeIP st)) -> exists q, c = Some (ns_nodeName st, q)).

Lemma keeps_count_node p st n w0 :
  has_status p st w0 -> keeps (asking n w0) (counts_node st) (count_node cs p).
Proof.
  intros Hst. unfold count_node. eapply keeps_bind; [by apply keeps_read_status|]. intros ip ->.
  eapply keeps_bind; [apply keeps_getExports|]. intros [l err] [Hlen Hans]. cbn in Hlen, Hans.
  eapply keeps_bind; [by apply keeps_read_status|]. intros r ->.
  destruct (negb (is_some err) && negb (ns_inRecovery st)) eqn:E.
  - apply andb_true_iff in E as [He%negb_true_iff Hr%negb_true_iff]. destruct err; [done|].
    eapply keeps_bind; [by apply keeps_read_status|]. intros name ->. split; [|eauto].
    intros k q [= <- <-]. split_and!; [done|done|lia|by apply Hlen].
  - split; [done|]. intros Hr Hat. rewrite (Hans Hat), Hr in E. discriminate E.
Qed.

(** The monitor knows the status of every node that it has registered; the
    nodes that are not being recovered can take volumes, and one of them runs
    a server. *)
Record monitored_ok w : Prop := {
  mo_status ip p : w_nodeIPAddress w !! ip = Some p -> exists st, has_status p st w;
  mo_ready ip p st : w_nodeIPAddress w !! ip = Some p -> has_status p st w -> ns_inRecovery st = false ->
    exists new ip', ready_node cs (ns_nodeName st) new ip';
  mo_answers : exists ip p st, w_nodeIPAddress w !! ip = Some p /\ has_status p st w /\
    ns_inRecovery st = false /\ server_at (service_address cs (ns_nodeIP st));
}.

(** The counted nodes can take [k] volumes. *)
Definition nodes_take (k : nat) (counts : gmap string Z) : Prop :=
  counts <> ∅ /\
  forall n c, counts !! n = Some c -> 0 <= c /\ c + Z.of_nat k < max_int64 /\ exists new ip, ready_node cs n new ip.

Lemma nodes_take_ready k counts : nodes_take (S k) counts -> nodes_ready cs counts.
Proof. intros [Hne Hall]. split; [done|]. intros n c (? & ? & ?)%Hall. split; [lia|done]. Qed.

Lemma nodes_take_reserve k counts sel :
  nodes_take (S k) counts -> selects counts sel -> nodes_take k (reserve sel counts).
Proof.
  intros [Hne Hall] [_ Hsel]. destruct (Hsel Hne) as (c0 & Hc0 & _). unfold reserve. rewrite Hc0.
  cbn [from_option id]. destruct (Hall _ _ Hc0) as (Hlo & Hhi & Hready).
  rewrite int64_id by (unfold min_int64, max_int64 in *; lia). split; [apply insert_non_empty|].
  intros n c [ [<- <-]|[_ Hc] ]%lookup_insert_Some; [split; [lia|split; [lia|done] ]|].
  destruct (Hall _ _ Hc) as (? & ? & ?). split; [done|]. split; [lia|done].
Qed.

Lemma run_getNodeExportCounts n k w :
  monitored_ok w -> servers_ok n (servers (w_env w)) -> few_exports (servers (w_env w)) ->
  Z.of_nat k < many_exports ->
  exists counts x', run (getNodeExportCounts cs) w = (Done counts, set_env x' w) /\ asked n (w_env w) x' /\
    nodes_take k counts.
Proof.
  intros Hmon Hok Hfew Hk. unfold getNodeExportCounts. rewrite run_bind.
  change (run (loc (Get V_nodeIPAddress)) w) with (Done (w_nodeIPAddress w), w). cbv beta iota. rewrite run_bind.
  destruct (call_frame RangeChoices w) as (x1 & -> & Hx1); [done..|]. cbv beta iota.
  set (ps := permute _ _).
  assert (Hps : forall p, In p ps <-> exists ip, w_nodeIPAddress w !! ip = Some p).
  { intros p. unfold ps. rewrite <- list_elem_of_In, permute_Permutation, list_elem_of_fmap. split.
    - intros ([ip q] & -> & Hin%elem_of_map_to_list). by exists ip.
    - intros [ip Hip]. exists (ip, p). split; [done|]. by apply elem_of_map_to_list. }
  assert (Hst : forall p st, has_status p st (set_env x1 w) <-> has_status p st w) by by destruct w.
  assert (Hs1 : servers x1 = servers (w_env w)) by apply Hx1.
  assert (Hsts : exists sts, Forall2 (fun p st => has_status p st (set_env x1 w)) ps sts).
  { apply Forall_choose, List.Forall_forall. intros p [ip Hip]%Hps.
    destruct (mo_status w Hmon ip p Hip) as [st Hs]. exists st. by apply Hst. }
  destruct Hsts as [sts Hsts]. rewrite run_bind.
  destruct (run_parallel (asking n (set_env x1 w)) (counts_node <$> sts) (count_node cs <$> ps) (set_env x1 w))
    as (l & w2 & -> & Hl & x2 & -> & Hask & _ & _).
  { intros w1. by apply asking_frame. }
  { apply Forall2_fmap. eapply Forall2_flip, Forall2_impl; [exact Hsts|]. intros p st Hp. by apply keeps_count_node. }
  { apply asking_start; by rewrite w_env_set_env, Hs1. }
  rewrite w_env_set_env, set_env_set_env in *. cbv beta iota. exists (add_counts l), x2. split; [done|].
  split; [etrans; [by apply asked_view|done]|].
  apply Forall2_fmap_l in Hl. split.
  - destruct (mo_answers w Hmon) as (ip & p & st & Hip & Hs & Hr & Hat).
    assert (Hin : In p ps) by (apply Hps; eauto). apply list_elem_of_In, list_elem_of_lookup in Hin as [k' Hk'].
    destruct (Forall2_lookup_l _ _ _ _ _ Hsts Hk') as (st' & Hst' & Hp'). apply Hst in Hp'.
    assert (st' = st) as -> by (unfold has_status in *; congruence).
    destruct (Forall2_lookup_l _ _ _ _ _ Hl Hst') as (c & Hc & _ & Hcount).
    destruct (Hcount Hr Hat) as [q ->]. intros E.
    destruct (proj2 (add_counts_spec l (ns_nodeName st)) q) as [q' Hq']; [by eapply list_elem_of_lookup_2|].
    by rewrite E, lookup_empty in Hq'.
  - intros m q Hq%(proj1 (add_counts_spec l m)). apply list_elem_of_lookup in Hq as [k' Hk'].
    destruct (Forall2_lookup_r _ _ _ _ _ Hl Hk') as (st & Hst' & Hcount & _).
    destruct (Hcount m q eq_refl) as (-> & Hr & Hlo & Hhi).
    destruct (Forall2_lookup_r _ _ _ _ _ Hsts Hst') as (p & Hp & Hps'). apply Hst in Hps'.
    apply list_elem_of_lookup_2, list_elem_of_In, Hps in Hp as [ip Hip].
    split; [lia|]. split; [unfold many_exports, max_int64 in *; lia|]. by eapply mo_ready.
Qed.
#[local] Arguments getNodeExportCounts : simpl never.

(** *** Volumes *)

(** A volume that the failed node served; it may have lost the export since. *)
Record lost := Lost {
  lo_slice : EndpointSlice;
  lo_id : string;
  lo_server : string;
  lo_clients : gset string;
  lo_stale : gset string;
}.
Implicit Types v : lost.

Definition stands v x : Prop :=
  describes (lo_slice v) (lo_id v) x /\
  placed cs (lo_id v) (lo_stale v) (lo_server v) (lo_clients v) x.

(** It is served by a node that was counted; only the failed server may have
    kept an export. *)
Definition moved_away v x : Prop :=
  exists sel new ip, ready_node cs sel new ip /\
    serves cs (lo_id v) ({[service_address cs (slice_ip (lo_slice v))]} ∪ lo_stale v)
      (Shared.move new (Some (lo_server v, lo_clients v))) x.

(** Calls for the volume [id] do not touch the volume [id']. *)
Definition apart (id id' : string) : Prop :=
  VolumeIDToServiceName id' <> VolumeIDToServiceName id /\
  ToArrayVolumeID id' <> ToArrayVolumeID id /\ separate id id'.

Definition same_volume (id : string) x x' : Prop :=
  let name := VolumeIDToServiceName id in
  services x' !! name = services x !! name /\ slices x' !! name = slices x !! name /\
  attached_to id x' = attached_to id x /\ exporters id x' = exporters id x.

#[global] Instance same_volume_preorder id : PreOrder (same_volume id).
Proof.
  split; [done|]. unfold same_volume. intros x y z (A & B & C & D) (A' & B' & C' & D'). split_and!; congruence.
Qed.

Lemma apart_same id id' x x' : same_elsewhere id x x' -> apart id id' -> same_volume id' x x'.
Proof.
  intros (A & B & C) (Hn & Ha & Hs). destruct (A _ Hn). split_and!; [done..|by apply B|by apply C].
Qed.

Lemma same_serves id stale s x x' : same_volume id x x' -> serves cs id stale s x -> serves cs id stale s x'.
Proof. intros (A & B & C & D). unfold serves. by rewrite A, B, C, D. Qed.

Lemma same_placed id stale server clients x x' :
  same_volume id x x' -> placed cs id stale server clients x -> placed cs id stale server clients x'.
Proof. intros (A & B & C & D). unfold placed. by rewrite A, B, C, D. Qed.

Lemma same_stands v x x' : same_volume (lo_id v) x x' -> stands v x -> stands v x'.
Proof.
  intros Hs [ (Hn & Hst & Hd) Hserv]. split; [|by eapply same_placed].
  split; [done|]. split; [|done]. destruct Hs as (_ & B & _). by rewrite Hn, B, <- Hn.
Qed.

Lemma same_moved v x x' : same_volume (lo_id v) x x' -> moved_away v x -> moved_away v x'.
Proof. intros Hs (sel & new & ip & Hr & Hm). exists sel, new, ip. split; [done|]. by eapply same_serves. Qed.

(** The lock that the move of the volume takes. *)
Definition lost_lock v : string := mget (es_Annotations (lo_slice v)) DriverVolumeID.

(** Goroutines that run one after the other. *)
Fixpoint in_turn (ps : list (prog unit)) : prog unit :=
  match ps with [] => mret tt | p :: ps => _ ← p; in_turn ps end.

Lemma run_recover_volume fuel sl v room w :
  has_slice sl (lo_slice v) w -> stands v (w_env w) -> IsNFSVolumeID (lo_id v) = true ->
  w_PVLock w !! lost_lock v = None -> servers_ok (S room) (servers (w_env w)) ->
  free exportCountsLock w -> nodes_ready cs (w_exportCounts w) ->
  exists sel w', run (recover_volume cs (S fuel) sl) w = (Done tt, w') /\
    selects (w_exportCounts w) sel /\
    quiet sl (set_var V_exportCounts (reserve sel (w_exportCounts w)) w) w' /\
    moved_away v (w_env w') /\ same_elsewhere (lo_id v) (w_env w) (w_env w') /\
    services (w_env w') = services (w_env w) /\ servers_ok room (servers (w_env w')).
Proof.
  intros Hs [Hdesc Hserv] Hnfs Hl Hok Hf Hn. unfold recover_volume. rewrite run_bind.
  destruct (run_reassignVolume cs fuel sl (lo_slice v) (lo_id v) (lo_server v) (lo_clients v) (lo_stale v) room w)
    as (sel & new & ip & w' & -> & Hr & Hsel & Hq & Hm & He & Hsv & Hok'); [done..|].
  exists sel, w'. split; [done|]. do 2 (split; [done|]). split; [|done]. by exists sel, new, ip.
Qed.
#[local] Arguments recover_volume : simpl never.

(** The volumes and the cells of their slices. *)
Definition all_apart (vols : list lost) : Prop :=
  NoDup (lo_id <$> vols) /\
  forall v v', v ∈ vols -> v' ∈ vols -> lo_id v <> lo_id v' -> apart (lo_id v) (lo_id v').

Lemma run_in_turn fuel (l : list (nat * lost)) room w :
  NoDup l.*1 -> all_apart l.*2 ->
  (forall sl v, (sl, v) ∈ l -> has_slice sl (lo_slice v) w /\ stands v (w_env w) /\
     IsNFSVolumeID (lo_id v) = true /\ w_PVLock w !! lost_lock v = None) ->
  servers_ok (List.length l + room) (servers (w_env w)) ->
  free exportCountsLock w -> nodes_take (List.length l) (w_exportCounts w) ->
  exists w', run (in_turn (recover_volume cs (S fuel) <$> l.*1)) w = (Done tt, w') /\
    (forall v, v ∈ l.*2 -> moved_away v (w_env w')) /\
    (forall id, (forall v, v ∈ l.*2 -> apart (lo_id v) id) -> same_volume id (w_env w) (w_env w')) /\
    w_PVLock w' = w_PVLock w /\ w_held w' = w_held w /\ w_statuses w' = w_statuses w /\
    services (w_env w') = services (w_env w) /\ servers_ok room (servers (w_env w')).
Proof.
  revert w. induction l as [|[sl v] l IH]; intros w Hcells Hapart Hl Hok Hf Htake.
  { exists w. split; [done|]. split; [by intros v Hv%elem_of_nil|]. done. }
  rewrite !fmap_cons in *. cbn [fst snd List.length] in *.
  apply NoDup_cons in Hcells as [Hnew Hcells]. destruct Hapart as [Hids Hapart].
  rewrite fmap_cons in Hids. apply NoDup_cons in Hids as [Hid Hids].
  destruct (Hl sl v) as (Hs & Hst & Hnfs & Hlock); [by left|].
  cbn [in_turn]. rewrite run_bind.
  destruct (run_recover_volume fuel sl v (List.length l + room) w)
    as (sel & w1 & -> & Hsel & (HP & HL & HC & HT & HS) & Hm & He & Hsv1 & Hok1);
    [done..|by eapply nodes_take_ready|]. cbv beta iota.
  assert (HP' : w_PVLock w1 = w_PVLock w) by (rewrite HP; by destruct w).
  assert (HL' : w_held w1 = w_held w) by (rewrite HL; by destruct w).
  assert (HT' : w_statuses w1 = w_statuses w) by (rewrite HT; by destruct w).
  assert (Hv : forall v', v' ∈ l.*2 -> lo_id v' <> lo_id v).
  { intros v' Hv' E. apply Hid. rewrite <- E. apply list_elem_of_fmap. by exists v'. }
  destruct (IH w1) as (w2 & E2 & Hm2 & He2 & HP2 & HL2 & HT2 & Hsv2 & Hok2); [done| | |done| | |].
  { split; [done|]. intros v1 v2 Hv1 Hv2. apply Hapart; by right. }
  { intros sl' v' Hin. destruct (Hl sl' v') as (Hs' & Hst' & Hnfs' & Hlock'); [by right|].
    assert (Hin2 : v' ∈ l.*2) by (apply list_elem_of_fmap; by exists (sl', v')).
    split; [|split; [|split; [done|by rewrite HP'] ] ].
    - unfold has_slice. rewrite HS; [by destruct w|]. intros ->. apply Hnew, list_elem_of_fmap. by exists (sl, v').
    - eapply same_stands; [|done]. eapply apart_same; [done|]. apply Hapart; [by left|by right|].
      by intros E%eq_sym%Hv. }
  { unfold free in *. by rewrite HL'. }
  { rewrite HC. replace (w_exportCounts _) with (reserve sel (w_exportCounts w)) by by destruct w.
    by apply nodes_take_reserve. }
  exists w2. split; [exact E2|]. split; [|split; [|split_and!; [congruence..|done] ] ].
  - intros v' [->|Hv']%elem_of_cons; [|by apply Hm2]. eapply same_moved; [|exact Hm]. apply He2.
    intros v' Hv'. apply Hapart; [by right|by left|by apply Hv].
  - intros id Hap. trans (w_env w1).
    + eapply apart_same; [done|]. apply Hap. by left.
    + apply He2. intros v' Hv'. apply Hap. by right.
Qed.

(** *** The whole recovery *)

Lemma run_start_recoveries fuel l w :
  run (start_recoveries cs fuel l) w =
  (Done tt, set_spawned (w_spawned w ++ (recover_volume cs fuel <$> seq (List.length (w_slices w)) (List.length l)))
              (set_slices (w_slices w ++ l) w)).
Proof.
  revert w. induction l as [|v l IH]; intros w.
  - cbn. rewrite !app_nil_r. by destruct w.
  - cbn [start_recoveries]. rewrite run_bind.
    change (run (loc (NewSlice v)) w) with (Done (List.length (w_slices w)), set_slices (w_slices w ++ [v]) w).
    cbv beta iota. rewrite run_bind. change (run (go ?p) ?w) with (Done tt, spawn p w). cbv beta iota.
    rewrite IH. destruct w. cbn. by rewrite length_app, Nat.add_1_r, <- !app_assoc.
Qed.

Lemma all_apart_perm vols vols' : vols ≡ₚ vols' -> all_apart vols -> all_apart vols'.
Proof.
  intros Hp [Hnd Hap]. split; [by rewrite <- Hp|]. intros v v'. rewrite <- Hp. apply Hap.
Qed.

Lemma asked_same n id x x' :
  asked n x x' -> servers_ok n (servers x) -> few_exports (servers x) -> same_volume id x x'.
Proof.
  intros (A & B & C & D) Hok Hfew. destruct (D Hok Hfew) as (_ & _ & He). unfold same_volume, attached_to. by rewrite A, B, C, He.
Qed.

(** The list and the counts; then one goroutine per slice is started. *)
Lemma run_node_recovery_starts fuel ip n k w :
  monitored_ok w -> servers_ok n (servers (w_env w)) -> few_exports (servers (w_env w)) ->
  Z.of_nat k < many_exports ->
  exists l counts x', asked n (w_env w) x' /\ nodes_take k counts /\
    l ≡ₚ labelled "nodeIP" ip (slices (w_env w)) /\
    run (node_recovery cs fuel ip) w =
    (Done tt, set_spawned (w_spawned w ++ (recover_volume cs fuel <$> seq (List.length (w_slices w)) (List.length l)))
                (set_slices (w_slices w ++ l) (set_var V_exportCounts counts (set_env x' w)))).
Proof.
  intros Hmon Hok Hfew Hk. unfold node_recovery, GetEndpointSlices. rewrite !run_bind.
  destruct (r_list ip (w_env w)) as (l & x1 & E & Hl & Hs1 & Hv1).
  pose proof (c_frame _ (KubeListSlices DriverNamespace ("nodeIP=" +:+ ip)) (w_env w) eq_refl) as Ha1.
  pose proof (s_frame _ (KubeListSlices DriverNamespace ("nodeIP=" +:+ ip)) (w_env w) eq_refl) as Hn1.
  rewrite E in Ha1, Hn1. cbn [snd] in Ha1, Hn1.
  rewrite (run_ext _ w (inl l) x1) by done. cbv beta iota.
  change (run (mret ?r) ?v) with (Done r, v). cbv beta iota. rewrite run_bind.
  assert (Hmon1 : monitored_ok (set_env x1 w)) by (destruct w, Hmon; by constructor).
  destruct (run_getNodeExportCounts n k (set_env x1 w)) as (counts & x2 & -> & Hask & Htake);
    [done|by rewrite w_env_set_env, Hn1..|done|].
  cbv beta iota. autorewrite with goenv in *. rewrite run_bind.
  change (run (loc (Set_ V_exportCounts ?c)) ?v) with (Done tt, set_var V_exportCounts c v). cbv beta iota.
  rewrite run_start_recoveries. exists l, counts, x2. split; [|split; [done|split; [done|] ] ].
  - etrans; [|exact Hask]. by apply asked_view.
  - by destruct w.
Qed.
#[local] Arguments node_recovery : simpl never.

(** The cells of the slices and the volumes. *)
Lemma run_node_recovery (fuel : nat) (ip : string) (vols : list lost) (room : nat) w :
  labelled "nodeIP" ip (slices (w_env w)) ≡ₚ lo_slice <$> vols -> all_apart vols ->
  Forall (fun v => stands v (w_env w) /\ IsNFSVolumeID (lo_id v) = true /\ w_PVLock w !! lost_lock v = None) vols ->
  monitored_ok w -> servers_ok (List.length vols + room) (servers (w_env w)) -> few_exports (servers (w_env w)) ->
  Z.of_nat (List.length vols) < many_exports -> free exportCountsLock w ->
  exists w1 moves, run (node_recovery cs (S fuel) ip) w = (Done tt, w1) /\
    w_spawned w1 = w_spawned w ++ moves /\ List.length moves = List.length vols /\
    forall order, order ≡ₚ moves ->
      exists w2, run (in_turn order) w1 = (Done tt, w2) /\
        (forall v, v ∈ vols -> moved_away v (w_env w2)) /\
        (forall id, (forall v, v ∈ vols -> apart (lo_id v) id) -> same_volume id (w_env w) (w_env w2)) /\
        w_PVLock w2 = w_PVLock w /\ w_held w2 = w_held w /\ w_statuses w2 = w_statuses w /\
        services (w_env w2) = services (w_env w) /\ servers_ok room (servers (w_env w2)).
Proof.
  intros Hlost Hapart Hvols Hmon Hok Hfew Hmany Hf.
  destruct (run_node_recovery_starts (S fuel) ip _ (List.length vols) w Hmon Hok Hfew Hmany)
    as (l & counts & x & Hask & Htake & Hl & E).
  rewrite Hlost in Hl. apply Permutation_map_inv in Hl as (vols' & -> & Hperm).
  rewrite length_map in E. set (k := List.length (w_slices w)) in *.
  set (cells := zip (seq k (List.length vols')) vols').
  assert (Hfst : cells.*1 = seq k (List.length vols')) by (apply fst_zip; by rewrite length_seq).
  assert (Hsnd : cells.*2 = vols') by (apply snd_zip; by rewrite length_seq).
  assert (Hlen : List.length vols' = List.length vols) by by rewrite Hperm.
  destruct (proj2 (proj2 (proj2 Hask)) Hok Hfew) as (Hok1 & _ & _).
  eexists _, (recover_volume cs (S fuel) <$> seq k (List.length vols')). split; [exact E|].
  split; [by destruct w|]. split; [by rewrite length_fmap, length_seq|].
  match type of E with _ = (_, ?u) => set (w1 := u) in * end. clear E.
  assert (Henv : w_env w1 = x) by by destruct w.
  intros order Horder. rewrite <- Hfst, <- list_fmap_compose in Horder.
  apply Permutation_map_inv in Horder as (cells' & -> & Hcells).
  assert (Hvols' : cells'.*2 ≡ₚ vols) by by rewrite <- Hcells, Hsnd.
  assert (Hlc : List.length cells' = List.length vols) by by rewrite <- (length_fmap snd cells'), Hvols'.
  change (List.map ?f ?l) with (f <$> l). rewrite list_fmap_compose.
  destruct (run_in_turn fuel cells' room w1) as (w2 & E2 & Hm & He & HP & HL & HT & Hsv & Hok2).
  - rewrite <- Hcells, Hfst. apply NoDup_seq.
  - eapply all_apart_perm; [|exact Hapart]. by rewrite Hvols'.
  - intros sl v Hin. rewrite <- Hcells in Hin.
    apply list_elem_of_lookup in Hin as [i Hin]. unfold cells in Hin. apply lookup_zip_Some in Hin as [Hsl Hv].
    apply lookup_seq in Hsl as [-> Hi].
    assert (Hin : v ∈ vols) by (rewrite Hperm; by eapply list_elem_of_lookup_2).
    rewrite Forall_forall in Hvols. destruct (Hvols v Hin) as (Hst & Hnfs & Hlock).
    split; [|split; [|split; [done|by destruct w] ] ].
    + unfold has_slice, k. destruct w. cbn. rewrite lookup_app_r by lia.
      rewrite list_lookup_fmap, Nat.add_comm, Nat.add_sub, Hv. done.
    + rewrite Henv. eapply same_stands; [|exact Hst]. by eapply asked_same.
  - by rewrite Henv, Hlc.
  - by destruct w.
  - rewrite Hlc. by destruct w.
  - exists w2. split; [exact E2|]. split; [intros v Hv; apply Hm; by rewrite Hvols'|]. split; [|split; [|split; [|split; [|split] ] ] ].
    + intros id Hid. trans (w_env w1).
      * rewrite Henv. by eapply asked_same.
      * apply He. intros v Hv. apply Hid. by rewrite <- Hvols'.
    + rewrite HP. by destruct w.
    + rewrite HL. by destruct w.
    + rewrite HT. by destruct w.
    + rewrite Hsv, Henv. apply Hask.
    + done.
Qed.


(** Two volumes in use. *)
Lemma run_two_volumes fuel ctx id1 id2 m1 m2 ops1 ops2 s1 s2 stale room w :
  IsNFSVolumeID id1 = true -> IsNFSVolumeID id2 = true -> apart id1 id2 -> apart id2 id1 ->
  w_PVLock w !! id1 = None -> w_PVLock w !! id2 = None ->
  Forall (usable cs w) ops1 -> Forall (usable cs w) ops2 ->
  servers_ok (List.length ops1 + (List.length ops2 + room)) (servers (w_env w)) ->
  serves cs id1 stale s1 (w_env w) -> serves cs id2 stale s2 (w_env w) ->
  exists x, (run (exec_all cs fuel ctx id2 m2 ops2) (run (exec_all cs fuel ctx id1 m1 ops1) w).2).2 = set_env x w /\
    serves cs id1 stale (List.fold_left (fun s o => Shared.step o s) ops1 s1) x /\
    serves cs id2 stale (List.fold_left (fun s o => Shared.step o s) ops2 s2) x /\
    servers_ok room (servers x).
Proof.
  intros Hn1 Hn2 Ha1 Ha2 Hl1 Hl2 Hu1 Hu2 Hok Hs1 Hs2.
  destruct (run_exec_all cs fuel ctx id1 m1 ops1 s1 stale (List.length ops2 + room) w)
    as (x1 & -> & Hx1 & He1 & Hok1); [done..|]. cbn [snd].
  destruct (run_exec_all cs fuel ctx id2 m2 ops2 s2 stale room (set_env x1 w))
    as (x2 & -> & Hx2 & He2 & Hok2); [done|by destruct w| |by rewrite w_env_set_env| |].
  { eapply Forall_impl; [exact Hu2|]. intros o. apply usable_env. }
  { rewrite w_env_set_env. eapply same_serves; [by eapply apart_same|done]. }
  cbn [snd]. rewrite set_env_set_env, w_env_set_env in *. exists x2. split; [done|].
  split; [|done]. eapply same_serves; [by eapply apart_same|done].
Qed.
End Failover.

(** ** Two volumes on a node that fails *)

Section Example.
#[local] Existing Instance ascii_tables.
#[local] Existing Instance demo_globals.
#[local] Existing Instance demo_printing.
#[local] Existing Instance sim_step.

#[export] Program Instance sim_countings : Countings sim := { few_exports := fun _ => True }.
Next Obligation.
  intros address n x _ _. do 2 eexists. split; [reflexivity|]. do 3 (split; [done|]).
  split; [by eexists|]. by intros resp [= <-].
Qed.

(** [csi-1] serves both volumes; then the monitor finds that it is down. *)
Definition ops_1 : list Shared.op := [Shared.Publish "csi-1"; Shared.Publish "csi-2"].
Definition ops_2 : list Shared.op := [Shared.Publish "csi-1"].
Definition served_2 : world sim :=
  (run (exec_all demo_service 0 Background "nfs-v2" {["Name" := "v2"]} ops_2)
    (run (exec_all demo_service 0 Background "nfs-v1" {["Name" := "v1"]} ops_1) sim_world).2).2.
Definition node_status (n ip : string) (down : bool) : NodeStatus :=
  {| ns_nodeName := n; ns_nodeIP := ip; ns_badPings := 0; ns_goodPings := 1;
     ns_inRecovery := down; ns_online := negb down; ns_status := ""; ns_dumpingExports := down |}.
Definition failed_1 : world sim :=
  set_statuses [node_status "csi-1" "10.0.0.1" true; node_status "csi-2" "10.0.0.2" false] served_2.

Definition lost_1 : lost :=
  Lost (default empty_slice (sim_slices (w_env served_2) !! "nfs-v1")) "nfs-v1" "csi-1" {["csi-1"; "csi-2"]} ∅.
Definition lost_2 : lost :=
  Lost (default empty_slice (sim_slices (w_env served_2) !! "nfs-v2")) "nfs-v2" "csi-1" {["csi-1"]} ∅.

(** The specification says who uses the volumes. *)
Lemma ops_1_state : List.fold_left (fun s o => Shared.step o s) ops_1 None = Some ("csi-1", {["csi-1"; "csi-2"]}).
Proof. vm_compute. reflexivity. Qed.

Lemma served_serves :
  exists x, served_2 = set_env x sim_world /\
    serves demo_service "nfs-v1" ∅ (Some ("csi-1", {["csi-1"; "csi-2"]})) x /\
    serves demo_service "nfs-v2" ∅ (Some ("csi-1", {["csi-1"]})) x.
Proof.
  destruct (run_two_volumes demo_service 0 Background "nfs-v1" "nfs-v2" {["Name" := "v1"]} {["Name" := "v2"]}
              ops_1 ops_2 None None ∅ 0 sim_world) as (x & E & H1 & H2 & _).
  1-2: reflexivity.
  1-2: split; [|split]; vm_compute; congruence.
  1-2: reflexivity.
  - repeat constructor; [exact sim_usable_1|exact sim_usable_2].
  - repeat constructor. exact sim_usable_1.
  - exact I.
  - apply sim_world_serves.
  - apply sim_world_serves.
  - exists x. split; [exact E|]. rewrite <- ops_1_state. split; [exact H1|exact H2].
Qed.

Lemma failed_env : w_env failed_1 = w_env served_2.
Proof. unfold failed_1. by destruct served_2. Qed.

Lemma lost_describes v : v ∈ [lost_1; lost_2] -> describes (lo_slice v) (lo_id v) (w_env served_2).
Proof.
  assert (Hsome : forall o : gomap, is_some o = true -> o <> None) by by intros [].
  intros [->|[->|[]%elem_of_nil]%elem_of_cons]%elem_of_cons;
    (do 3 (split; [vm_compute; reflexivity|]); apply Hsome; vm_compute; reflexivity).
Qed.

Lemma lost_stand : Forall (fun v => stands demo_service v (w_env failed_1) /\ IsNFSVolumeID (lo_id v) = true /\
  w_PVLock failed_1 !! lost_lock v = None) [lost_1; lost_2].
Proof.
  rewrite failed_env. destruct served_serves as (x & E & H1 & H2). rewrite <- (w_env_set_env x sim_world), <- E in H1, H2.
  assert (Hd := lost_describes). constructor; [|constructor; [|constructor] ];
    (split; [split; [apply Hd; repeat constructor|apply serves_placed]|split; vm_compute; reflexivity]); [exact H1|exact H2].
Qed.

Lemma lost_apart : all_apart [lost_1; lost_2].
Proof.
  split; [apply (bool_decide_eq_true_1 _); vm_compute; reflexivity|].
  intros v v' [->|[->|[]%elem_of_nil]%elem_of_cons]%elem_of_cons [->|[->|[]%elem_of_nil]%elem_of_cons]%elem_of_cons Hne;
    try (by destruct Hne); (split; [|split]; vm_compute; congruence).
Qed.

Lemma failed_monitored : monitored_ok demo_service failed_1.
Proof.
  assert (Hmap : w_nodeIPAddress failed_1 = {["10.0.0.1" := 0%nat; "10.0.0.2" := 1%nat]}).
  { unfold failed_1. destruct served_serves as (x & -> & _). reflexivity. }
  assert (Hst : w_statuses failed_1 = [node_status "csi-1" "10.0.0.1" true; node_status "csi-2" "10.0.0.2" false])
    by (unfold failed_1; by destruct served_2).
  split; rewrite ?Hmap.
  - intros ip p [ [_ <-]|[_ [_ <-]%lookup_singleton_Some] ]%lookup_insert_Some; unfold has_status; rewrite Hst; eauto.
  - intros ip p st [ [_ <-]|[_ [_ <-]%lookup_singleton_Some] ]%lookup_insert_Some; unfold has_status; rewrite Hst;
      intros [= <-] Hr; [discriminate Hr|]. exists "csi-2", "10.0.0.2". exact sim_node_ready.
  - exists "10.0.0.2", 1%nat, (node_status "csi-2" "10.0.0.2" false).
    unfold has_status. rewrite Hst. do 3 (split; [reflexivity|]). exact I.
Qed.

Lemma failed_listed :
  labelled "nodeIP" "10.0.0.1" (slices (w_env failed_1)) ≡ₚ lo_slice <$> [lost_1; lost_2].
Proof. rewrite failed_env. vm_compute. reflexivity. Qed.

End Example.
