(* ===== verification/Atomic.v ===== *)
(** * Critical sections are atomic

    The functions of [exports.go] do everything under [exportsLock].  Here
    that is put to use: goroutines that touch nothing outside their critical
    sections, interleaved at every operation, do what they would do if every
    section ran as a whole ([whole_sections]).  So what [Exports.v] says about
    sequences of calls holds for concurrent callers: the calls on the exports
    file are linearizable with respect to the table. *)

From S2P Require Import Prelude GoStrings Messages GoProg Locks Exports.

(** ** Sections of one mutex *)

Section Sections.
Context (m : mutex).

Definition takes {B} (e : locE B) : bool :=
  match e with Lock m' => bool_decide (m' = m) | _ => false end.
Definition gives {B} (e : locE B) : bool :=
  match e with Unlock m' => bool_decide (m' = m) | _ => false end.
Definition mutex_op {B} (e : locE B) : bool :=
  match e with Lock _ | Unlock _ => true | _ => false end.

(** A program that takes and gives [m] in turn, and makes no other operation
    without holding it ([held] says whether it does at the start). *)
Fixpoint tidy {A} (held : bool) (p : prog A) : Prop :=
  match p with
  | Ret _ | Panic _ => held = false
  | NoFuel _ => True
  | Loc e k =>
      if takes e then held = false /\ forall b, tidy true (k b)
      else if gives e then held = true /\ forall b, tidy false (k b)
      else held = true /\ mutex_op e = false /\ forall b, tidy true (k b)
  | Ext e k => held = true /\ forall b, tidy true (k b)
  | Go _ _ => False
  end.

Lemma takes_lock : takes (Lock m) = true.
Proof. by apply bool_decide_eq_true. Qed.
Lemma gives_unlock : gives (Unlock m) = true.
Proof. by apply bool_decide_eq_true. Qed.
#[local] Arguments takes : simpl never.
#[local] Arguments gives : simpl never.

Lemma tidy_bind {A B} held (p : prog A) (f : A -> prog B) :
  tidy held p -> (forall a, tidy false (f a)) -> tidy held (p ≫= f).
Proof.
  intros Hp Hf. revert held Hp. induction p as [A a|A msg|A|A C e k IH|A C e k IH|A q IHq k IH]; intros held Hp; cbn in *; try done.
  - subst. apply Hf.
  - destruct (takes e); [|destruct (gives e)]; destruct_and?; split_and?; auto.
  - destruct Hp. auto.
Qed.

(** What may happen inside a section. *)
Fixpoint plain {A} (p : prog A) : Prop :=
  match p with
  | Ret _ | Panic _ | NoFuel _ => True
  | Loc e k => mutex_op e = false /\ forall b, plain (k b)
  | Ext e k => forall b, plain (k b)
  | Go _ _ => False
  end.

Lemma plain_bind {A B} (p : prog A) (f : A -> prog B) : plain p -> (forall a, plain (f a)) -> plain (p ≫= f).
Proof.
  intros Hp Hf. induction p as [A a|A msg|A|A C e k IH|A C e k IH|A q IHq k IH]; cbn in *; try done.
  - destruct Hp as [He Hk]. split; [done|]. intros b. by apply IH.
  - intros b. by apply IH.
Qed.

Lemma plain_deferred {A} (p : prog A) d : plain p -> plain d -> plain (deferred p d).
Proof.
  intros Hp Hd. induction p as [A a|A msg|A|A C e k IH|A C e k IH|A q IHq k IH]; try done.
  - change (plain (d ≫= fun _ => Ret a)). by apply plain_bind.
  - change (plain (d ≫= fun _ => @Panic A msg)). by apply plain_bind.
  - destruct Hp. split; auto.
  - intros b. apply IH, Hp.
Qed.

Lemma plain_not_mutex {B} (e : locE B) : mutex_op e = false -> takes e = false /\ gives e = false.
Proof. by destruct e. Qed.

Lemma tidy_section {A} (p : prog A) : plain p -> tidy true (deferred p (loc (Unlock m))).
Proof.
  induction p as [A a|A msg|A|A C e k IH|A C e k IH|A q IHq k IH]; intros Hp; try done.
  - change (tidy true (Loc (Unlock m) (fun _ => Ret a))). cbn [tidy]. by rewrite gives_unlock.
  - change (tidy true (Loc (Unlock m) (fun _ => @Panic A msg))). cbn [tidy]. by rewrite gives_unlock.
  - destruct Hp as [He Hk]. change (tidy true (Loc e (fun b => deferred (k b) (loc (Unlock m))))). cbn [tidy].
    destruct (plain_not_mutex e He) as [-> ->]. auto.
  - change (tidy true (Ext e (fun b => deferred (k b) (loc (Unlock m))))). cbn [tidy]. auto.
Qed.

Lemma tidy_with_lock {A} (p : prog A) : plain p -> tidy false (with_lock m p).
Proof.
  intros Hp. change (tidy false (Loc (Lock m) (fun _ => deferred p (loc (Unlock m))))). cbn [tidy]. rewrite takes_lock. split; [done|]. intros _. by apply tidy_section.
Qed.

Context {X : Type} `{Env X}.
Implicit Types w : world X.
Implicit Types s : system X.

(** The rest of a section, run as a whole. *)
Fixpoint finish {A} (p : prog A) w : option (prog A * world X) :=
  match p with
  | Loc e k =>
      '(b, w') ← loc_step e w;
      if gives e then Some (k b, w') else finish (k b) w'
  | Ext e k => let '(b, w') := ext_step e w in finish (k b) w'
  | _ => None
  end.

(** A whole section, from taking the mutex on. *)
Definition section {A} (p : prog A) w : option (prog A * world X) :=
  match p with
  | Loc e k => if takes e then '(b, w') ← loc_step e w; finish (k b) w' else None
  | _ => None
  end.

Inductive astep : system X -> system X -> Prop :=
  | AStep i p p' w' s :
      threads s !! i = Some p -> section p (shared s) = Some (p', w') ->
      astep s (System (<[i := p']> (threads s)) w').

(** *** The held mutex *)

Definition taken_in w : bool := get_mutex m (w_held w).

Lemma loc_step_held {B} (e : locE B) w b w' :
  mutex_op e = false -> loc_step e w = Some (b, w') -> w_held w' = w_held w /\ w_spawned w' = w_spawned w.
Proof.
  intros He E. split; [|by eapply loc_step_spawned].
  destruct w, e; cbn in *; try discriminate He; repeat case_match; simplify_eq; cbn; try done; by repeat case_match.
Qed.

Lemma ext_step_held {B} (e : extE B) w : w_held (ext_step e w).2 = w_held w.
Proof. unfold ext_step. destruct (env_step e (w_env w)) as [b x], w, e; cbn; by repeat case_match. Qed.

Lemma takes_spec {B} (e : locE B) w b w' :
  takes e = true -> loc_step e w = Some (b, w') ->
  taken_in w = false /\ taken_in w' = true /\ w_spawned w' = w_spawned w.
Proof.
  intros He E. rewrite (loc_step_spawned _ _ _ _ E).
  destruct e; try discriminate He; apply bool_decide_eq_true in He; subst.
  unfold taken_in. cbn in E. destruct (get_mutex m (w_held w)) eqn:Hm; [done|]. injection E as <- <-.
  by rewrite w_held_set_held, get_set_mutex.
Qed.

Lemma gives_spec {B} (e : locE B) w b w' :
  gives e = true -> loc_step e w = Some (b, w') -> taken_in w' = false /\ w_spawned w' = w_spawned w.
Proof.
  intros He E. split; [|by eapply loc_step_spawned].
  destruct e; try discriminate He. apply bool_decide_eq_true in He. subst.
  unfold taken_in. cbn in E. destruct (get_mutex m (w_held w)); [|done]. injection E as <- <-.
  by rewrite w_held_set_held, get_set_mutex.
Qed.

(** *** Simulation by whole sections *)

(** [s] is what [s0] becomes in whole sections, up to the section that one
    goroutine is in. *)
Definition at_rest (s0 s : system X) : Prop :=
  taken_in (shared s) = false /\ Forall (tidy false) (threads s) /\ rtc astep s0 s.

Definition inside (s0 s : system X) : Prop :=
  exists i p p0 s1, taken_in (shared s) = true /\ rtc astep s0 s1 /\
    threads s1 !! i = Some p0 /\ Forall (tidy false) (threads s1) /\
    threads s = <[i := p]> (threads s1) /\ tidy true p /\
    section p0 (shared s1) = finish p (shared s).

Definition simulated (s0 s : system X) : Prop :=
  w_spawned (shared s) = [] /\ (at_rest s0 s \/ inside s0 s).

(** Outside a section a goroutine can only take the mutex. *)
Lemma outside_step (p p' : prog unit) w w' :
  tidy false p -> thread_step p w = Some (p', w') ->
  exists B (e : locE B) k b, p = Loc e k /\ takes e = true /\ loc_step e w = Some (b, w') /\ p' = k b /\ tidy true p'.
Proof.
  intros Ht Hs. destruct p as [a|msg| |B e k|B e k|q k]; try done; cbn [tidy] in Ht; [|by destruct Ht].
  destruct (takes e) eqn:He; [|destruct (gives e); by destruct Ht].
  cbn in Hs. destruct (loc_step e w) as [ [b w1] |] eqn:E; [|done]. injection Hs as <- <-.
  exists B, e, k, b. destruct Ht as [_ Hk]. split_and!; done.
Qed.

(** Inside it the section goes on or ends. *)
Lemma inside_step (p p' : prog unit) w w' :
  tidy true p -> taken_in w = true -> thread_step p w = Some (p', w') ->
  w_spawned w' = w_spawned w /\
  ((tidy true p' /\ taken_in w' = true /\ finish p w = finish p' w') \/
   (tidy false p' /\ taken_in w' = false /\ finish p w = Some (p', w'))).
Proof.
  intros Ht Hm Hs. destruct p as [a|msg| |B e k|B e k|q k]; try done; cbn [tidy] in Ht; cbn in Hs.
  - destruct (loc_step e w) as [ [b w1] |] eqn:E; [|done]. injection Hs as <- <-.
    destruct (takes e); [by destruct Ht|]. cbn [finish]. rewrite E. cbn. destruct (gives e) eqn:He.
    + destruct (gives_spec e w b w1 He E) as [Hm' Hsp]. split; [done|]. right. split; [apply Ht|done].
    + destruct Ht as (_ & Hop & Hk). destruct (loc_step_held e w b w1 Hop E) as [Hh Hsp].
      split; [done|]. left. split; [apply Hk|]. unfold taken_in in *. by rewrite Hh.
  - pose proof (ext_step_held e w) as Hh. pose proof (ext_step_spawned e w) as Hsp. cbn [finish].
    destruct (ext_step e w) as [b w1]. cbn in Hh, Hsp. injection Hs as <- <-. split; [done|]. left.
    split; [apply Ht|]. unfold taken_in in *. by rewrite Hh.
Qed.

Lemma simulated_step s0 s s' : simulated s0 s -> cstep s s' -> simulated s0 s'.
Proof.
  intros [Hsp Hsim] Hstep. revert Hsp Hsim. destruct Hstep as [i s s' Hstep]. intros Hsp Hsim.
  destruct (sys_step_plain i s s' Hsp Hstep) as (p & p' & w' & Hp & Hts & Hs').
  destruct Hsim as [(Hm & Hall & Hr)|(j & q & p0 & s1 & Hm & Hr & Hp0 & Hall & Hthreads & Ht & Hsec)].
  - rewrite Forall_lookup in Hall. destruct (outside_step p p' _ _ (Hall i p Hp) Hts)
      as (B & e & k & b & -> & He & E & -> & Ht).
    destruct (takes_spec e _ b w' He E) as (_ & Hm' & Hsp'). rewrite Hs' by congruence.
    split; [cbn; congruence|]. right. exists i, (k b), (Loc e k), s. cbn [threads shared]. split_and!; try done.
    { by apply Forall_lookup. }
    cbn [section]. by rewrite He, E.
  - destruct (decide (i = j)) as [->|Hne].
    + rewrite Hthreads, list_lookup_insert_eq in Hp by by eapply lookup_lt_Some. injection Hp as ->.
      destruct (inside_step p p' _ _ Ht Hm Hts) as [Hsp' [(Ht' & Hm' & Hf)|(Ht' & Hm' & Hf)] ];
        rewrite Hs', Hthreads, list_insert_insert_eq by congruence; (split; [cbn; congruence|]).
      * right. exists j, p', p0, s1. cbn [threads shared]. split_and!; try done. congruence.
      * left. split; [done|]. cbn [threads shared]. split; [by apply Forall_insert|].
        eapply rtc_r; [exact Hr|]. apply AStep with p0; [done|congruence].
    + exfalso. rewrite Hthreads, list_lookup_insert_ne in Hp by done. rewrite Forall_lookup in Hall.
      destruct (outside_step p p' _ _ (Hall i p Hp) Hts) as (B & e & k & b & _ & He & E & _).
      destruct (takes_spec e _ b w' He E) as (Hm' & _). congruence.
Qed.

(** Goroutines that do everything under [m], interleaved at every operation,
    have done, whenever [m] is free, what they do in whole sections. *)
Lemma simulated_reachable (s0 s : system X) :
  Forall (tidy false) (threads s0) -> taken_in (shared s0) = false -> w_spawned (shared s0) = [] ->
  rtc cstep s0 s -> simulated s0 s.
Proof.
  intros Hall Hm Hsp Hr.
  assert (Hs : forall s1, simulated s0 s1 -> rtc cstep s1 s -> simulated s0 s).
  { intros s1 H1 Hr1. induction Hr1; eauto using simulated_step. }
  apply (Hs s0); [split; [done|by left]|exact Hr].
Qed.

Lemma whole_sections (s0 s : system X) :
  Forall (tidy false) (threads s0) -> taken_in (shared s0) = false -> w_spawned (shared s0) = [] ->
  rtc cstep s0 s -> taken_in (shared s) = false -> rtc astep s0 s.
Proof.
  intros Hall Hm Hsp Hr Hm'. destruct (simulated_reachable s0 s Hall Hm Hsp Hr)
    as [_ [(_ & _ & H1)|(i & p & p0 & s1 & H1 & _)] ]; [done|congruence].
Qed.
End Sections.
#[local] Arguments takes : simpl never.
#[local] Arguments gives : simpl never.

(** ** A section and the run of it *)

Section Runs.
Context (m : mutex) {X : Type} `{Env X}.
Implicit Types w : world X.

(** What is left of a program that was run. *)
Definition leaves {A B} (f : A -> prog B) (r : outcome A * world X) : option (prog B * world X) :=
  match r with
  | (Done a, w) => Some (f a, w)
  | (Panicked msg, w) => Some (Panic msg, w)
  | _ => None
  end.

Lemma finish_run {A} (p : prog A) w :
  plain p -> finish m (deferred p (loc (Unlock m))) w = leaves Ret (run (deferred p (loc (Unlock m))) w).
Proof.
  revert w. induction p as [A a|A msg|A|A C e k IH|A C e k IH|A q IHq k IH]; intros w Hp; try done.
  - change (finish m (Loc (Unlock m) (fun _ => Ret a)) w = leaves Ret (run (Loc (Unlock m) (fun _ => Ret a)) w)).
    cbn [finish run]. destruct (loc_step (Unlock m) w) as [ [b w1] |]; [|done]. cbn. by rewrite gives_unlock.
  - change (finish m (Loc (Unlock m) (fun _ => @Panic A msg)) w = leaves Ret (run (Loc (Unlock m) (fun _ => @Panic A msg)) w)).
    cbn [finish run]. destruct (loc_step (Unlock m) w) as [ [b w1] |]; [|done]. cbn. by rewrite gives_unlock.
  - destruct Hp as [He Hk]. destruct (plain_not_mutex m e He) as [_ Hg].
    change (deferred (Loc e k) ?d) with (Loc e (fun b => deferred (k b) d)). cbn [finish run].
    destruct (loc_step e w) as [ [b w1] |]; [|done]. cbn. rewrite Hg. by apply IH.
  - change (deferred (Ext e k) ?d) with (Ext e (fun b => deferred (k b) d)). cbn [finish run].
    destruct (ext_step e w) as [b w1]. by apply IH.
Qed.

Lemma section_run {A} (p : prog A) w :
  plain p -> section m (with_lock m p) w = leaves Ret (run (with_lock m p) w).
Proof.
  intros Hp. change (with_lock m p) with (Loc (Lock m) (fun _ => deferred p (loc (Unlock m)))).
  cbn [section run]. rewrite takes_lock. destruct (loc_step (Lock m) w) as [ [b w1] |]; [|done]. by apply finish_run.
Qed.

Definition then_do {A B} (f : A -> prog B) (o : option (prog A * world X)) : option (prog B * world X) :=
  match o with Some (p, w) => Some (p ≫= f, w) | None => None end.

Lemma finish_bind {A B} (p : prog A) (f : A -> prog B) w :
  tidy m true p -> finish m (p ≫= f) w = then_do f (finish m p w).
Proof.
  revert w. induction p as [A a|A msg|A|A C e k IH|A C e k IH|A q IHq k IH]; intros w Hp; try done; cbn in Hp.
  - cbn [finish mbind prog_bind]. destruct (loc_step e w) as [ [b w1] |]; [|done]. cbn.
    destruct (takes m e); [by destruct Hp|]. destruct (gives m e); [done|]. by apply IH, Hp.
  - cbn [finish mbind prog_bind]. destruct (ext_step e w) as [b w1]. by apply IH, Hp.
Qed.

Lemma section_bind {A B} (p : prog A) (f : A -> prog B) w :
  tidy m false p -> (forall a, p <> Ret a) -> section m (p ≫= f) w = then_do f (section m p w).
Proof.
  destruct p as [a|msg| |C e k|C e k|q k]; intros Hp Ha; cbn in *; try done; [by destruct (Ha a)|].
  destruct (takes m e); [|done]. destruct (loc_step e w) as [ [b w1] |]; [|done]. by apply finish_bind, Hp.
Qed.

(** A call that does everything under the mutex, and what follows it. *)
Definition whole_call {A} (p : prog A) : Prop :=
  tidy m false p /\ (forall a, p <> Ret a) /\ forall w, section m p w = leaves Ret (run p w).

Lemma whole_with_lock {A} (p : prog A) : plain p -> whole_call (with_lock m p).
Proof. intros Hp. split; [by apply tidy_with_lock|]. split; [done|]. intros w. by apply section_run. Qed.

Lemma whole_pure {A B} (p : prog A) (f : A -> prog B) :
  whole_call p -> (forall a, exists b, f a = Ret b) -> whole_call (p ≫= f).
Proof.
  intros (Ht & Hr & Hs) Hf. split; [apply tidy_bind; [done|]; intros a; by destruct (Hf a) as [b ->]|].
  split; [intros b; destruct p; try done; by destruct (Hr a)|].
  intros w. rewrite section_bind, Hs, run_bind by done. destruct (run p w) as [ [a|msg| |] w']; try done.
  cbn. by destruct (Hf a) as [b ->].
Qed.

Lemma section_call {A B} (p : prog A) (f : A -> prog B) w :
  whole_call p -> section m (p ≫= f) w = leaves f (run p w).
Proof.
  intros (Ht & Hr & Hs). rewrite section_bind, Hs by done. by destruct (run p w) as [ [a|msg| |] w'].
Qed.
End Runs.

(** ** The functions of [exports.go] *)

Create HintDb goplain discriminated.

Section Calls.
Local Ltac unfold_all :=
  unfold defer_Close, file_Close, bump_generation, file_WriteString, fail_generation, scan_file.

(** Walks through the text of a section. *)
Local Ltac walk_plain :=
  repeat first
    [ progress unfold_all
    | apply plain_bind; [|intros ?]
    | apply plain_deferred
    | match goal with
      | |- plain (match ?x with _ => _ end) => destruct x
      | |- plain (loc _) => by split
      | |- plain (ext _) => done
      | |- plain (mret _) => done
      | |- plain _ => by auto with goplain
      end ].

Lemma checkExport_plain d : plain (checkExport d).
Proof. unfold checkExport. walk_plain. Qed.

Lemma write_lines_plain ls : plain (write_lines ls).
Proof. induction ls as [|l ls IH]; cbn [write_lines]; walk_plain. Qed.

Lemma resync_attempts_plain n g e : plain (resync_attempts n g e).
Proof. revert e. induction n as [|n IH]; intros e; cbn [resync_attempts]; walk_plain. Qed.
#[local] Hint Resolve checkExport_plain write_lines_plain resync_attempts_plain : goplain.

(** Calls that are one section. *)
Definition one_section {A} (p : prog A) : Prop := exists body, p = with_lock exportsLock body /\ plain body.

Local Ltac section_text := eexists; split; [reflexivity|]; walk_plain.

Lemma AddExport_section d o : one_section (AddExport d o).
Proof. section_text. Qed.
Lemma DeleteExport_section d : one_section (DeleteExport d).
Proof. section_text. Qed.
Lemma CheckExport_section d : one_section (CheckExport d).
Proof. section_text. Qed.
Lemma GetExport_section d : one_section (GetExport d).
Proof. section_text. Qed.
Lemma GetExports_section d : one_section (GetExports d).
Proof. section_text. Qed.
Lemma ResyncNFSMountd_section g : one_section (ResyncNFSMountd g).
Proof. section_text. Qed.

Lemma section_whole {X} `{Env X} {A} (p : prog A) : one_section p -> whole_call (X := X) exportsLock p.
Proof. intros (body & -> & Hp). by apply whole_with_lock. Qed.
End Calls.
#[export] Hint Resolve AddExport_section DeleteExport_section CheckExport_section GetExport_section
  GetExports_section ResyncNFSMountd_section : goplain.

(** ** Concurrent callers of the exports file *)

(** A caller decides by what it observed which operation comes next. *)
Inductive client :=
  | Stop
  | Call (op : file_op) (next : file_obs -> client).

Fixpoint perform (c : client) : prog unit :=
  match c with Stop => Ret tt | Call op next => ob ← exec_op op; perform (next ob) end.

Fixpoint client_ok (c : client) : Prop :=
  match c with Stop => True | Call op next => op_ok op = true /\ forall ob, client_ok (next ob) end.

(** One caller makes its next operation on the table. *)
Inductive table_step : list client * ExportsSpec.table -> list client * ExportsSpec.table -> Prop :=
  | TableStep i op next cs t :
      cs !! i = Some (Call op next) ->
      table_step (cs, t) (<[i := next (spec_op op t).1]> cs, (spec_op op t).2).

Section Clients.
Context {X : Type} `{ReliableFiles X}.
Implicit Types w : world X.
Implicit Types cs : list client.

Lemma exec_op_whole op : whole_call exportsLock (X := X) (exec_op op).
Proof.
  destruct op as [d o|d|d|d]; cbn [exec_op]; apply whole_pure;
    auto using section_whole with goplain; intros []; by eexists.
Qed.

Lemma perform_tidy c : tidy exportsLock false (perform c).
Proof.
  induction c as [|op next IH]; [done|]. cbn [perform]. apply tidy_bind; [|done]. apply exec_op_whole.
Qed.

Lemma client_step cs (s : system X) t s' :
  threads s = perform <$> cs -> Forall client_ok cs -> represents (shared s) t -> astep exportsLock s s' ->
  exists cs' t', table_step (cs, t) (cs', t') /\
    threads s' = perform <$> cs' /\ Forall client_ok cs' /\ represents (shared s') t'.
Proof.
  intros Hth Hok Hrep Hs. destruct Hs as [i p p' w' s Hp Hs].
  rewrite Hth, list_lookup_fmap in Hp. destruct (cs !! i) as [c|] eqn:Hc; [|done]. injection Hp as <-.
  destruct c as [|op next]; [done|]. rewrite Forall_lookup in Hok. destruct (Hok i _ Hc) as [Hop Hnext].
  cbn [perform] in Hs. rewrite (section_call _ _ _ _ (exec_op_whole op)) in Hs.
  destruct (exec_op_refines op (shared s) t Hop Hrep) as (w1 & Hr & Hrep1). rewrite Hr in Hs. injection Hs as <- <-.
  eexists _, _. split; [by eapply TableStep|]. cbn [threads shared]. split_and!.
  - by rewrite Hth, list_fmap_insert.
  - apply Forall_insert; [by apply Forall_lookup|apply Hnext].
  - exact Hrep1.
Qed.

Lemma clients_reachable cs (s s' : system X) t :
  threads s = perform <$> cs -> Forall client_ok cs -> represents (shared s) t -> rtc (astep exportsLock) s s' ->
  exists cs' t', rtc table_step (cs, t) (cs', t') /\
    threads s' = perform <$> cs' /\ Forall client_ok cs' /\ represents (shared s') t'.
Proof.
  intros Hth Hok Hrep Hr. revert cs t Hth Hok Hrep. induction Hr as [s|s s1 s2 Hs _ IH]; intros cs t Hth Hok Hrep.
  - exists cs, t. by split; [apply rtc_refl|].
  - destruct (client_step cs s t s1 Hth Hok Hrep Hs) as (cs1 & t1 & Hst & Hth1 & Hok1 & Hrep1).
    destruct (IH cs1 t1 Hth1 Hok1 Hrep1) as (cs2 & t2 & Hr2 & Hrest). exists cs2, t2.
    split; [by eapply rtc_l|done].
Qed.

(** C6: the calls on the exports file are linearizable.  Any number of callers
    make [AddExport], [DeleteExport], [CheckExport] and [GetExport] calls,
    each as many as it likes and each next one chosen by what it observed,
    interleaved at every operation of the process.  Whenever the mutex of the
    file is free, the callers are where they would be if each call had been
    made at once, one after the other in some order, on the abstract table of
    entries, having observed what the table returns; and the file represents
    that table. *)
Theorem concurrent_file_calls_linearize (cs : list client) (t : ExportsSpec.table) w (s : system X)
    (Hok : Forall client_ok cs) (Hrep : represents w t) (Hspawned : w_spawned w = [])
    (Hreach : rtc cstep (System (perform <$> cs) w) s) (Hfree : free exportsLock (shared s)) :
  exists cs' t', rtc table_step (cs, t) (cs', t') /\
    threads s = perform <$> cs' /\ represents (shared s) t'.
Proof.
  destruct (clients_reachable cs (System (perform <$> cs) w) s t) as (cs' & t' & Hr & Hth & _ & Hrep'); [done..| |by exists cs', t'].
  apply whole_sections; [|apply Hrep|done|exact Hreach|exact Hfree].
  apply Forall_fmap, Forall_true. exact perform_tidy.
Qed.
End Clients.

(** Two callers: the first adds an export and looks for another one; the
    second looks for the first one's and deletes it when it is there.  The
    second one gets its first turn in the middle of the first one's work. *)
Section Example.
#[local] Existing Instance calm.

Definition adder : client :=
  Call (FAdd "/x/a/" "*(rw)") (fun _ => Call (FCheck "/x/b/") (fun _ => Stop)).
Definition deleter : client :=
  Call (FCheck "/x/a/") (fun ob =>
    match ob with ObsCheck true => Call (FDelete "/x/a/") (fun _ => Stop) | _ => Stop end).

Definition callers_start : system unit := System (perform <$> [adder; deleter]) (demo_world "").
Definition callers_end : system unit :=
  default callers_start
    (run_schedule (replicate 13 0 ++ replicate 6 1 ++ replicate 6 0 ++ replicate 13 1)%nat callers_start).

Lemma callers_reachable : rtc cstep callers_start callers_end.
Proof.
  unfold callers_end. destruct (run_schedule _ callers_start) as [s|] eqn:E; [|apply rtc_refl].
  exact (run_schedule_reachable _ _ _ E).
Qed.

Lemma concurrent_file_calls_linearize_witness :
  exists cs' t', rtc table_step ([adder; deleter], []) (cs', t') /\ t' = [] /\
    threads callers_end = perform <$> cs'.
Proof.
  destruct (concurrent_file_calls_linearize [adder; deleter] [] (demo_world "") callers_end)
    as (cs' & t' & Hr & Hth & Hrep).
  - repeat constructor. intros [b| [] |l]; repeat constructor.
  - split; [reflexivity|]. by exists [].
  - reflexivity.
  - exact callers_reachable.
  - vm_compute. reflexivity.
  - exists cs', t'. split; [exact Hr|]. split; [|exact Hth].
    destruct Hrep as (_ & ls & E & _ & ->). destruct ls as [|l ls]; [reflexivity|].
    exfalso. assert (E' : w_exports (shared callers_end) = "") by (vm_compute; reflexivity).
    rewrite E' in E. clear -E. destruct l; discriminate E.
Defined.
End Example.
