(* ===== verification/Concurrency.v ===== *)
(** * The handlers together: exclusion and freedom from deadlock

    All handlers and goroutines of the program, in any number and in any
    interleaving ([cstep]).  Each follows the two disciplines of [Locks.v]: the
    goroutines that work on a volume exclude each other, no goroutine waits
    for a mutex for ever, and when nothing moves any more the locks are free,
    but for the volumes that a publication keeps while it retries. *)

From S2P Require Import Prelude GoStrings Messages GoProg Locks Naming Exports Json Config K8s NfsServer NodeMonitor Controller NodeService NodeRecovery.

(** ** What the programs do with locks *)

Definition uses_map {B} (e : locE B) : bool :=
  match e with LoadOrStore _ _ _ | Delete _ _ => true | _ => false end.

Lemma key_neutral m key {B} (e : locE B) :
  uses_map e = false -> neutral (H := key_discipline m key) e.
Proof. by destruct e. Qed.

Lemma mutex_neutral {B} (e : locE B) : uses_mutex e = false -> neutral (R := mutex) e.
Proof. by destruct e. Qed.

Local Abbreviation no_map := (fun B (e : locE B) => uses_map e = false).
Local Abbreviation no_mutex := (fun B (e : locE B) => uses_mutex e = false).

Lemma no_map_neutral m key {A} (p : prog A) :
  all_ops no_map p -> all_ops (fun B e => neutral (H := key_discipline m key) e) p.
Proof. apply all_ops_mono. intros B e. apply key_neutral. Qed.

Lemma no_mutex_neutral {A} (p : prog A) :
  all_ops no_mutex p -> all_ops (fun B e => neutral (R := mutex) e) p.
Proof. apply all_ops_mono. intros B e. apply mutex_neutral. Qed.

(** Prove [follows None p] by walking through the text of [p]; sections are
    left to the lemmas of [golock]. *)
Ltac walk_follows :=
  repeat (intros; cbn zeta beta; lazymatch goal with
  | |- follows _ (mret _) => exact eq_refl
  | |- follows _ (Ret _) => exact eq_refl
  | |- follows _ (Panic _) => exact eq_refl
  | |- follows _ (NoFuel _) => exact I
  | |- follows _ (ext _) => apply follows_ext
  | |- follows _ (go _) => apply follows_go
  | |- follows _ (Go _ _) => split
  | |- follows _ (select_call _ _ _ _) => apply follows_select
  | |- follows _ (foldM _ _ _) => apply follows_foldM
  | |- follows _ (match ?x with _ => _ end) => destruct x
  | |- follows _ _ =>
      first [solve [eauto with golock nocore]
            |apply follows_loc; first [by apply key_neutral|by apply mutex_neutral]
            |apply follows_bind|apply follows_deferred]
  end).

#[local] Arguments write_lines : simpl nomatch.
#[local] Arguments unmount_attempts : simpl nomatch.
#[local] Arguments get_service_attempts : simpl nomatch.
#[local] Arguments ping_exports : simpl nomatch.

(** *** Loops without a bound inside critical sections

    No mutex is held, and no volume is kept, in such a loop, but for a
    publication, which keeps its volume while it retries ([P] is the loops
    that are allowed). *)

Section SectionLoops.
Context `{UnicodeTables} `{Globals} `{Printing} (cs : CsiNfsService) (P : loop -> Prop).
Local Abbreviation loops := (all_loops P).
Local Ltac unfold_exports :=
  unfold AddExport, CheckExport, GetExports, DeleteExport, ResyncNFSMountd, checkExport, defer_Close,
    file_Close, bump_generation, file_WriteString, fail_generation, scan_file.
Local Ltac unfold_calls :=
  unfold callExportNfsVolume, callUnexportNfsVolume, getNfsClient, getServiceAndSlice,
    GetEndpointSlice, GetService, CreateEndpointSlice, CreateService, UpdateService,
    DeleteEndpointSlice, DeleteService, GetNodeByCSINodeID, GetNodeStatus, read_status, update_status,
    addNodeToNfsService, removeNodeFromNfsService, node_unavailable, first_address,
    GetPersistentVolume, GetNode, GetEndpointSlices, UpdateEndpointSlice, assign_err.

Lemma write_lines_loops ls : loops (write_lines ls).
Proof. induction ls; cbn [write_lines]; unfold_exports; walk_loops. Qed.
#[local] Hint Resolve write_lines_loops : goprog.
Lemma resync_attempts_loops n g e : loops (resync_attempts n g e).
Proof. revert e. induction n; intros; cbn [resync_attempts]; walk_loops. Qed.
#[local] Hint Resolve resync_attempts_loops : goprog.

Lemma CheckExport_loops d : loops (CheckExport d).
Proof. unfold_exports. walk_loops. Qed.
Lemma GetExports_loops d : loops (GetExports d).
Proof. unfold_exports. walk_loops. Qed.
Lemma AddExport_loops d o : loops (AddExport d o).
Proof. unfold_exports. walk_loops. Qed.
Lemma DeleteExport_loops d : loops (DeleteExport d).
Proof. unfold_exports. walk_loops. Qed.
Lemma ResyncNFSMountd_loops g : loops (ResyncNFSMountd g).
Proof. unfold_exports. walk_loops. Qed.
#[local] Hint Resolve CheckExport_loops GetExports_loops AddExport_loops DeleteExport_loops
  ResyncNFSMountd_loops : goprog.

Lemma unmount_attempts_loops n a b : loops (unmount_attempts n a b).
Proof. induction n; cbn [unmount_attempts]; walk_loops. Qed.
#[local] Hint Resolve unmount_attempts_loops : goprog.
Lemma unexport_rounds_loops n i resp g a b : loops (unexport_rounds n i resp g a b).
Proof. revert i. induction n; intros; cbn [unexport_rounds]; unfold UnmountVolume; walk_loops. Qed.
#[local] Hint Resolve unexport_rounds_loops : goprog.

Lemma export_locked_loops ctx req : loops (export_locked cs ctx req).
Proof. unfold export_locked, export_mounted. walk_loops. Qed.
Lemma unexport_locked_loops req : loops (unexport_locked req).
Proof. unfold unexport_locked. walk_loops. Qed.

Lemma export_retry_loops fuel ctx ip req : P Retries -> loops (export_retry cs fuel ctx ip req).
Proof. intros HP. induction fuel; cbn [export_retry]; [done|]. do 2 unfold_calls. walk_loops. Qed.
#[local] Hint Resolve export_retry_loops : goprog.
Lemma publish_locked_loops fuel ctx req : P Retries -> loops (publish_locked cs fuel ctx req).
Proof. intros HP. unfold publish_locked, makeNfsService, create_objects. do 2 unfold_calls. walk_loops.
Qed.
Lemma unpublish_locked_loops req : loops (unpublish_locked cs req).
Proof. unfold unpublish_locked, unpublish_last, delete_objects. do 2 unfold_calls. walk_loops. Qed.

Lemma stage_attempts_loops n ctx req last : loops (stage_attempts n ctx req last).
Proof.
  revert last. induction n; intros last; cbn [stage_attempts];
    unfold nodeStageVolume, isAlreadyMounted, stage_mount, GetService; walk_loops.
Qed.
Lemma node_handlers_loops :
  (forall req, loops (unstage_locked req)) /\ (forall req, loops (publish_bind req)) /\
  (forall req, loops (unpublish_umount req)).
Proof. split_and!; intros; unfold unstage_locked, publish_bind, unpublish_umount; walk_loops. Qed.

Lemma update_attempts_loops n sl : loops (update_attempts n sl).
Proof. induction n; cbn [update_attempts]; do 2 unfold_calls; walk_loops. Qed.
#[local] Hint Resolve update_attempts_loops : goprog.
Lemma reassign_locked_loops sl : loops (reassign_locked cs sl).
Proof.
  unfold reassign_locked, move_to, publish_to, unexport_old, updateEndpointSlice, set_slice_label,
    set_slice_address, findNextAvailableNode. do 2 unfold_calls. walk_loops.
Qed.
End SectionLoops.
#[export] Hint Resolve write_lines_loops resync_attempts_loops export_locked_loops
  unexport_locked_loops publish_locked_loops unpublish_locked_loops stage_attempts_loops
  reassign_locked_loops : goprog.

(** *** The mutexes *)

Lemma follows_with_lock (m : mutex) {A} (p : prog A) :
  all_ops no_mutex p -> all_loops (fun _ => False) p -> follows (R := mutex) None (with_lock m p).
Proof.
  intros Hp Hl. unfold with_lock. intros []. cbn. apply follows_section; [by apply no_mutex_neutral| |].
  - eapply all_loops_mono; [|exact Hl]. done.
  - intros []. cbn. by rewrite decide_True.
Qed.

Section ExportsMutex.
Local Ltac unfold_all :=
  unfold checkExport, defer_Close, file_Close, bump_generation, file_WriteString, fail_generation, scan_file.

Lemma CheckExport_mutex d : follows (R := mutex) None (CheckExport d).
Proof. apply follows_with_lock; unfold_all; [walk_ops reflexivity|walk_loops]. Qed.
Lemma GetExports_mutex d : follows (R := mutex) None (GetExports d).
Proof. apply follows_with_lock; unfold_all; [walk_ops reflexivity|walk_loops]. Qed.
Lemma AddExport_mutex d o : follows (R := mutex) None (AddExport d o).
Proof. apply follows_with_lock; unfold_all; [walk_ops reflexivity|walk_loops]. Qed.

Lemma write_lines_no_mutex ls : all_ops no_mutex (write_lines ls).
Proof. induction ls; cbn [write_lines]; unfold_all; walk_ops reflexivity. Qed.
#[local] Hint Resolve write_lines_no_mutex : goprog.
Lemma DeleteExport_mutex d : follows (R := mutex) None (DeleteExport d).
Proof. apply follows_with_lock; unfold_all; [walk_ops reflexivity|walk_loops]. Qed.

Lemma resync_attempts_no_mutex n g e : all_ops no_mutex (resync_attempts n g e).
Proof. revert e. induction n; intros; cbn [resync_attempts]; walk_ops reflexivity. Qed.
#[local] Hint Resolve resync_attempts_no_mutex : goprog.
Lemma ResyncNFSMountd_mutex g : follows (R := mutex) None (ResyncNFSMountd g).
Proof. apply follows_with_lock; [walk_ops reflexivity|walk_loops]. Qed.
End ExportsMutex.
#[export] Hint Resolve CheckExport_mutex GetExports_mutex AddExport_mutex DeleteExport_mutex
  ResyncNFSMountd_mutex : golock.

Section NodeMutex.
Context `{UnicodeTables} `{Globals} `{Printing} (cs : CsiNfsService).
Local Abbreviation disciplined := (follows (R := mutex) None).

Lemma unmount_attempts_mutex n a b : disciplined (unmount_attempts n a b).
Proof. induction n; cbn [unmount_attempts]; walk_follows. Qed.
#[local] Hint Resolve unmount_attempts_mutex : golock.

Lemma nfsLockPV_mutex fuel id : disciplined (nfsLockPV fuel id).
Proof. induction fuel; cbn [nfsLockPV]; walk_follows. Qed.
#[local] Hint Resolve nfsLockPV_mutex : golock.

Lemma ExportNfsVolume_mutex fuel ctx req : disciplined (ExportNfsVolume cs fuel ctx req).
Proof. unfold ExportNfsVolume, export_locked, export_mounted, nfsUnlockPV. walk_follows. Qed.

Lemma unexport_rounds_mutex n i resp g a b : disciplined (unexport_rounds n i resp g a b).
Proof. revert i. induction n; intros i; cbn [unexport_rounds]; unfold UnmountVolume; walk_follows. Qed.
#[local] Hint Resolve unexport_rounds_mutex : golock.

Lemma UnexportNfsVolume_mutex fuel req : disciplined (UnexportNfsVolume fuel req).
Proof. unfold UnexportNfsVolume, unexport_locked, nfsUnlockPV. walk_follows. Qed.
#[local] Hint Resolve ExportNfsVolume_mutex UnexportNfsVolume_mutex : golock.

Lemma ExportMultiple_mutex fuel ctx req : disciplined (ExportMultipleNfsVolumes cs fuel ctx req).
Proof. unfold ExportMultipleNfsVolumes, export_one. walk_follows. Qed.
Lemma UnexportMultiple_mutex fuel req : disciplined (UnexportMultipleNfsVolumes fuel req).
Proof. unfold UnexportMultipleNfsVolumes, unexport_one. walk_follows. Qed.

Lemma get_service_attempts_mutex n s : disciplined (get_service_attempts n s).
Proof. induction n; cbn [get_service_attempts]; walk_follows. Qed.
#[local] Hint Resolve get_service_attempts_mutex : golock.

Lemma ping_exports_mutex ready l : disciplined (ping_exports ready l).
Proof.
  revert ready. induction l; intros ready; cbn [ping_exports];
    unfold ping_export, ping_remount, GetServiceContent, UnmountVolume; walk_follows.
Qed.
#[local] Hint Resolve ping_exports_mutex : golock.

Lemma Ping_mutex req : disciplined (Ping req).
Proof. unfold Ping. walk_follows. Qed.

Lemma LockPV_mutex fuel a b c : disciplined (LockPV fuel a b c).
Proof. induction fuel; cbn [LockPV]; walk_follows. Qed.
#[local] Hint Resolve LockPV_mutex : golock.

Lemma stage_mount_mutex ctx a b : disciplined (stage_mount ctx a b).
Proof. apply follows_with_lock; [walk_ops reflexivity|walk_loops]. Qed.
#[local] Hint Resolve stage_mount_mutex : golock.

Lemma stage_attempts_mutex n ctx req last : disciplined (stage_attempts n ctx req last).
Proof.
  revert last. induction n; intros last; cbn [stage_attempts];
    unfold nodeStageVolume, isAlreadyMounted, GetService; walk_follows.
Qed.
#[local] Hint Resolve stage_attempts_mutex : golock.

Lemma NodeStageVolume_mutex fuel ctx req : disciplined (NodeStageVolume cs fuel ctx req).
Proof. unfold NodeStageVolume, UnlockPV. walk_follows. Qed.
Lemma NodeUnstageVolume_mutex fuel req : disciplined (NodeUnstageVolume fuel req).
Proof. unfold NodeUnstageVolume, unstage_locked, UnlockPV. walk_follows. Qed.
Lemma NodePublishVolume_mutex fuel req : disciplined (NodePublishVolume fuel req).
Proof. unfold NodePublishVolume, publish_bind, UnlockPV. walk_follows. Qed.
Lemma NodeUnpublishVolume_mutex fuel req : disciplined (NodeUnpublishVolume fuel req).
Proof. unfold NodeUnpublishVolume, unpublish_umount, UnlockPV. walk_follows. Qed.
End NodeMutex.
#[export] Hint Resolve ExportNfsVolume_mutex UnexportNfsVolume_mutex ExportMultiple_mutex
  UnexportMultiple_mutex Ping_mutex LockPV_mutex NodeStageVolume_mutex NodeUnstageVolume_mutex
  NodePublishVolume_mutex NodeUnpublishVolume_mutex : golock.

Section ControllerMutex.
Context `{UnicodeTables} `{Globals} `{Printing} (cs : CsiNfsService).
Local Abbreviation disciplined := (follows (R := mutex) None).
Local Ltac unfold_calls :=
  unfold callExportNfsVolume, callUnexportNfsVolume, getNfsClient, getServiceAndSlice,
    GetEndpointSlice, GetService, CreateEndpointSlice, CreateService, UpdateService,
    DeleteEndpointSlice, DeleteService, GetNodeByCSINodeID, GetNodeStatus, read_status, update_status,
    addNodeToNfsService, removeNodeFromNfsService, node_unavailable, first_address,
    GetPersistentVolume, GetNode, GetEndpointSlices, UpdateEndpointSlice, UnlockPV, assign_err.

Lemma CreateVolume_mutex req : disciplined (CreateVolume req).
Proof. unfold CreateVolume. walk_follows. Qed.

Lemma export_retry_mutex fuel ctx ip req : disciplined (export_retry cs fuel ctx ip req).
Proof. induction fuel; cbn [export_retry]; unfold_calls; walk_follows. Qed.
#[local] Hint Resolve export_retry_mutex : golock.

Lemma ControllerPublishVolume_mutex f1 f2 ctx req : disciplined (ControllerPublishVolume cs f1 f2 ctx req).
Proof. unfold ControllerPublishVolume, publish_locked, makeNfsService, create_objects. unfold_calls. walk_follows. Qed.

Lemma ControllerUnpublishVolume_mutex fuel ctx req : disciplined (ControllerUnpublishVolume cs fuel ctx req).
Proof.
  unfold ControllerUnpublishVolume, unpublish_locked, unpublish_last, delete_objects. unfold_calls.
  walk_follows.
Qed.

Lemma findNextAvailableNode_mutex pv : disciplined (findNextAvailableNode pv).
Proof. apply follows_with_lock; [walk_ops reflexivity|walk_loops]. Qed.
#[local] Hint Resolve findNextAvailableNode_mutex : golock.

Lemma update_attempts_mutex n sl : disciplined (update_attempts n sl).
Proof. induction n; cbn [update_attempts]; unfold_calls; walk_follows. Qed.
#[local] Hint Resolve update_attempts_mutex : golock.

Lemma publish_to_mutex sl err a b c node ip : disciplined (publish_to cs sl err a b c node ip).
Proof.
  unfold publish_to, updateEndpointSlice, set_slice_label, set_slice_address. unfold_calls. walk_follows.
Qed.
#[local] Hint Resolve publish_to_mutex : golock.

Lemma reassignVolume_mutex fuel sl : disciplined (reassignVolume cs fuel sl).
Proof. unfold reassignVolume, reassign_locked, move_to, unexport_old. unfold_calls. walk_follows. Qed.
#[local] Hint Resolve reassignVolume_mutex : golock.

Lemma start_recoveries_mutex fuel l : disciplined (start_recoveries cs fuel l).
Proof. induction l; cbn [start_recoveries]; unfold recover_volume; walk_follows. Qed.
#[local] Hint Resolve start_recoveries_mutex : golock.

Lemma getNodeExportCounts_mutex : disciplined (getNodeExportCounts cs).
Proof.
  apply follows_neutral, no_mutex_neutral. eapply all_ops_mono; [|apply getNodeExportCounts_reads]. by intros B [].
Qed.
#[local] Hint Resolve getNodeExportCounts_mutex : golock.

Lemma node_recovery_mutex fuel ip : disciplined (node_recovery cs fuel ip).
Proof. unfold node_recovery. unfold_calls. walk_follows. Qed.
#[local] Hint Resolve node_recovery_mutex : golock.

Lemma getPingRate_mutex : disciplined getPingRate.
Proof. apply follows_with_lock; [walk_ops reflexivity|walk_loops]. Qed.
#[local] Hint Resolve getPingRate_mutex : golock.

Lemma pinger_loop_mutex lockFuel n p : disciplined (pinger_loop (H := recovery cs lockFuel) cs n p).
Proof.
  induction n; cbn [pinger_loop]; [walk_follows|].
  unfold pinger_round, ping, ping_failed, ping_succeeded. unfold_calls. cbn [nodeRecovery recovery].
  walk_follows.
Qed.
#[local] Hint Resolve pinger_loop_mutex : golock.

Lemma pinger_mutex lockFuel n node : disciplined (pinger (H := recovery cs lockFuel) cs n node).
Proof. unfold pinger. walk_follows. Qed.
End ControllerMutex.
#[export] Hint Resolve CreateVolume_mutex ControllerPublishVolume_mutex ControllerUnpublishVolume_mutex
  reassignVolume_mutex pinger_mutex : golock.

(** *** The volume locks *)

Section NoMap.
Context `{UnicodeTables} `{Globals} `{Printing} (cs : CsiNfsService).
Local Ltac unfold_calls :=
  unfold callExportNfsVolume, callUnexportNfsVolume, getNfsClient, getServiceAndSlice,
    GetEndpointSlice, GetService, CreateEndpointSlice, CreateService, UpdateService,
    DeleteEndpointSlice, DeleteService, GetNodeByCSINodeID, GetNodeStatus, read_status, update_status,
    addNodeToNfsService, removeNodeFromNfsService, node_unavailable, first_address,
    GetPersistentVolume, GetNode, GetEndpointSlices, UpdateEndpointSlice, assign_err.

Lemma exports_op_no_map {A} (p : prog A) :
  all_ops (fun B (e : locE B) => exports_op e = true) p -> all_ops no_map p.
Proof. apply all_ops_mono. by intros B []. Qed.
#[local] Hint Resolve exports_op_no_map : goprog.

Lemma unmount_attempts_no_map n a b : all_ops no_map (unmount_attempts n a b).
Proof. induction n; cbn [unmount_attempts]; walk_ops reflexivity. Qed.
#[local] Hint Resolve unmount_attempts_no_map : goprog.

Lemma export_locked_no_map ctx req : all_ops no_map (export_locked cs ctx req).
Proof. unfold export_locked, export_mounted. walk_ops reflexivity. Qed.

Lemma unexport_rounds_no_map n i resp g a b : all_ops no_map (unexport_rounds n i resp g a b).
Proof. revert i. induction n; intros; cbn [unexport_rounds]; unfold UnmountVolume; walk_ops reflexivity. Qed.
#[local] Hint Resolve unexport_rounds_no_map : goprog.

Lemma unexport_locked_no_map req : all_ops no_map (unexport_locked req).
Proof. unfold unexport_locked. walk_ops reflexivity. Qed.

Lemma get_service_attempts_no_map n s : all_ops no_map (get_service_attempts n s).
Proof. induction n; cbn [get_service_attempts]; walk_ops reflexivity. Qed.
#[local] Hint Resolve get_service_attempts_no_map : goprog.

Lemma ping_exports_no_map ready l : all_ops no_map (ping_exports ready l).
Proof.
  revert ready. induction l; intros ready; cbn [ping_exports];
    unfold ping_export, ping_remount, GetServiceContent, UnmountVolume; walk_ops reflexivity.
Qed.
#[local] Hint Resolve ping_exports_no_map : goprog.

Lemma Ping_no_map req : all_ops no_map (Ping req).
Proof. unfold Ping. walk_ops reflexivity. Qed.

Lemma export_retry_no_map fuel ctx ip req : all_ops no_map (export_retry cs fuel ctx ip req).
Proof. induction fuel; cbn [export_retry]; unfold_calls; walk_ops reflexivity. Qed.
#[local] Hint Resolve export_retry_no_map : goprog.

Lemma publish_locked_no_map fuel ctx req : all_ops no_map (publish_locked cs fuel ctx req).
Proof. unfold publish_locked, makeNfsService, create_objects. unfold_calls. walk_ops reflexivity. Qed.

Lemma unpublish_locked_no_map req : all_ops no_map (unpublish_locked cs req).
Proof. unfold unpublish_locked, unpublish_last, delete_objects. unfold_calls. walk_ops reflexivity. Qed.

Lemma stage_attempts_no_map n ctx req last : all_ops no_map (stage_attempts n ctx req last).
Proof.
  revert last. induction n; intros last; cbn [stage_attempts];
    unfold nodeStageVolume, isAlreadyMounted, stage_mount, GetService; walk_ops reflexivity.
Qed.

Lemma update_attempts_no_map n sl : all_ops no_map (update_attempts n sl).
Proof. induction n; cbn [update_attempts]; unfold_calls; walk_ops reflexivity. Qed.
#[local] Hint Resolve update_attempts_no_map : goprog.

Lemma reassign_locked_no_map sl : all_ops no_map (reassign_locked cs sl).
Proof.
  unfold reassign_locked, move_to, publish_to, unexport_old, updateEndpointSlice, set_slice_label,
    set_slice_address, findNextAvailableNode. unfold_calls. walk_ops reflexivity.
Qed.

Lemma node_handlers_no_map :
  (forall req, all_ops no_map (unstage_locked req)) /\ (forall req, all_ops no_map (publish_bind req)) /\
  (forall req, all_ops no_map (unpublish_umount req)) /\ (forall req, all_ops no_map (CreateVolume req)).
Proof.
  split_and!; intros; unfold unstage_locked, publish_bind, unpublish_umount, CreateVolume;
    walk_ops reflexivity.
Qed.

End NoMap.
#[export] Hint Resolve export_locked_no_map unexport_locked_no_map publish_locked_no_map
  unpublish_locked_no_map stage_attempts_no_map reassign_locked_no_map Ping_no_map : goprog.

Section Keys.
Context `{UnicodeTables} `{Globals} `{Printing} (cs : CsiNfsService) (m : lockmap) (key : string).
#[local] Existing Instance key_discipline | 0.
Local Abbreviation disciplined := (follows (H := key_discipline m key) None).
Local Abbreviation holding b := (if b : bool then Some tt else None).

Lemma follows_no_map {A} (p : prog A) : all_ops no_map p -> disciplined p.
Proof. intros Hp. by apply follows_neutral, no_map_neutral. Qed.

Lemma follows_unlock m' key' {A} (p : prog A) :
  all_ops no_map p -> all_loops (fun l => key_spin m' l = true) p ->
  follows (H := key_discipline m key) (holding (same_key m m' key key')) (deferred p (loc (Delete m' key'))).
Proof.
  intros Hp Hl. apply follows_section; [by apply no_map_neutral| |].
  - eapply all_loops_mono; [|exact Hl]. intros l Hs. destruct (same_key m m' key key') eqn:E; [|done].
    apply same_key_true in E as [-> _]. exact Hs.
  - intros b. cbn. by destruct (same_key m m' key key').
Qed.

Lemma follows_LockPV fuel id r high {A} (p : prog A) :
  follows (H := key_discipline m key) (holding (same_key m PVLock key id)) p ->
  disciplined (_ ← LockPV fuel id r high; p).
Proof.
  intros Hp. induction fuel as [|fuel IH]; [done|]. cbn.
  intros [h loaded]. cbn. destruct (same_key m PVLock key id), loaded; cbn; try exact Hp; intros; exact IH.
Qed.

Lemma follows_nfsLockPV fuel id {A} (p : prog A) :
  follows (H := key_discipline m key) (holding (same_key m nfsPVLock key id)) p ->
  disciplined (_ ← nfsLockPV fuel id; p).
Proof.
  intros Hp. induction fuel as [|fuel IH]; [done|]. cbn.
  intros [h loaded]. cbn. destruct (same_key m nfsPVLock key id), loaded; cbn; try exact Hp; intros; exact IH.
Qed.

Lemma pv_section_key fuel id r high {A} (p : prog A) :
  all_ops no_map p -> all_loops (fun l => key_spin PVLock l = true) p ->
  disciplined (_ ← LockPV fuel id r high; deferred p (UnlockPV id)).
Proof. intros Hp Hl. by apply follows_LockPV, follows_unlock. Qed.

Lemma nfs_section_key fuel id {A} (p : prog A) :
  all_ops no_map p -> all_loops (fun l => key_spin nfsPVLock l = true) p ->
  disciplined (_ ← nfsLockPV fuel id; deferred p (nfsUnlockPV id)).
Proof. intros Hp Hl. by apply follows_nfsLockPV, follows_unlock. Qed.

Lemma ExportNfsVolume_key fuel ctx req : disciplined (ExportNfsVolume cs fuel ctx req).
Proof. apply nfs_section_key; auto with goprog. Qed.
Lemma UnexportNfsVolume_key fuel req : disciplined (UnexportNfsVolume fuel req).
Proof. apply nfs_section_key; auto with goprog. Qed.
#[local] Hint Resolve ExportNfsVolume_key UnexportNfsVolume_key : golock.
Lemma ExportMultiple_key fuel ctx req : disciplined (ExportMultipleNfsVolumes cs fuel ctx req).
Proof. unfold ExportMultipleNfsVolumes, export_one. walk_follows. Qed.
Lemma UnexportMultiple_key fuel req : disciplined (UnexportMultipleNfsVolumes fuel req).
Proof. unfold UnexportMultipleNfsVolumes, unexport_one. walk_follows. Qed.

Lemma reassignVolume_key fuel sl : disciplined (reassignVolume cs fuel sl).
Proof.
  unfold reassignVolume. apply follows_bind; [walk_follows|intros v]. apply pv_section_key; auto with goprog.
Qed.
#[local] Hint Resolve reassignVolume_key : golock.

Lemma start_recoveries_key fuel l : disciplined (start_recoveries cs fuel l).
Proof. induction l; cbn [start_recoveries]; unfold recover_volume; walk_follows. Qed.
#[local] Hint Resolve start_recoveries_key : golock.

Lemma getNodeExportCounts_key : disciplined (getNodeExportCounts cs).
Proof. apply follows_no_map. eapply all_ops_mono; [|apply getNodeExportCounts_reads]. by intros B []. Qed.
#[local] Hint Resolve getNodeExportCounts_key : golock.

Lemma node_recovery_key fuel ip : disciplined (node_recovery cs fuel ip).
Proof. unfold node_recovery, GetEndpointSlices. walk_follows. Qed.
#[local] Hint Resolve node_recovery_key : golock.

Lemma getPingRate_key : disciplined getPingRate.
Proof. apply follows_no_map. unfold getPingRate. walk_ops reflexivity. Qed.
#[local] Hint Resolve getPingRate_key : golock.

Lemma pinger_loop_key lockFuel n p : disciplined (pinger_loop (H := recovery cs lockFuel) cs n p).
Proof.
  induction n; cbn [pinger_loop]; [walk_follows|].
  unfold pinger_round, ping, ping_failed, ping_succeeded, getNfsClient, read_status, update_status.
  cbn [nodeRecovery recovery]. walk_follows.
Qed.
#[local] Hint Resolve pinger_loop_key : golock.

Lemma pinger_key lockFuel n node : disciplined (pinger (H := recovery cs lockFuel) cs n node).
Proof. unfold pinger. walk_follows. Qed.
End Keys.

(** ** Every goroutine of the program *)

Section Handlers.
Context `{UnicodeTables} `{Globals} `{Printing} (cs : CsiNfsService).

(** The handlers of the two services and the monitors, with their fuel. *)
Inductive activity :=
  | RunExport (fuel : nat) (ctx : context) (req : ExportNfsVolumeRequest)
  | RunUnexport (fuel : nat) (req : UnexportNfsVolumeRequest)
  | RunPing (req : PingRequest)
  | RunGetExports
  | RunExportMultiple (fuel : nat) (ctx : context) (req : ExportMultipleNfsVolumesRequest)
  | RunUnexportMultiple (fuel : nat) (req : UnexportMultipleNfsVolumesRequest)
  | RunCreate (req : CreateVolumeRequest)
  | RunPublish (lockFuel fuel : nat) (ctx : context) (req : ControllerPublishVolumeRequest)
  | RunUnpublish (lockFuel : nat) (ctx : context) (req : ControllerUnpublishVolumeRequest)
  | RunStage (lockFuel : nat) (ctx : context) (req : NodeStageVolumeRequest)
  | RunUnstage (lockFuel : nat) (req : NodeUnstageVolumeRequest)
  | RunNodePublish (lockFuel : nat) (req : NodePublishVolumeRequest)
  | RunNodeUnpublish (lockFuel : nat) (req : NodeUnpublishVolumeRequest)
  | RunMonitor (lockFuel rounds : nat) (node : Node).

Definition ignore {A} (p : prog A) : prog unit := _ ← p; mret tt.

Definition perform (a : activity) : prog unit :=
  match a with
  | RunExport fuel ctx req => ignore (ExportNfsVolume cs fuel ctx req)
  | RunUnexport fuel req => ignore (UnexportNfsVolume fuel req)
  | RunPing req => ignore (Ping req)
  | RunGetExports => ignore GetExports_rpc
  | RunExportMultiple fuel ctx req => ignore (ExportMultipleNfsVolumes cs fuel ctx req)
  | RunUnexportMultiple fuel req => ignore (UnexportMultipleNfsVolumes fuel req)
  | RunCreate req => ignore (CreateVolume req)
  | RunPublish lockFuel fuel ctx req => ignore (ControllerPublishVolume cs lockFuel fuel ctx req)
  | RunUnpublish lockFuel ctx req => ignore (ControllerUnpublishVolume cs lockFuel ctx req)
  | RunStage lockFuel ctx req => ignore (NodeStageVolume cs lockFuel ctx req)
  | RunUnstage lockFuel req => ignore (NodeUnstageVolume lockFuel req)
  | RunNodePublish lockFuel req => ignore (NodePublishVolume lockFuel req)
  | RunNodeUnpublish lockFuel req => ignore (NodeUnpublishVolume lockFuel req)
  | RunMonitor lockFuel rounds node => pinger (H := recovery cs lockFuel) cs rounds node
  end.

Lemma follows_ignore {R} `{Discipline R} {A} (p : prog A) : follows None p -> follows None (ignore p).
Proof. intros Hp. unfold ignore. by apply follows_bind. Qed.

Lemma perform_mutex a : follows (R := mutex) None (perform a).
Proof.
  destruct a; cbn [perform]; try (apply follows_ignore); auto with golock.
  unfold GetExports_rpc. walk_follows.
Qed.

Lemma perform_key m key a : follows (H := key_discipline m key) None (perform a).
Proof.
  pose proof node_handlers_no_map as (Hunstage & Hbind & Humount & Hcreate).
  pose proof (node_handlers_loops (fun l => key_spin PVLock l = true)) as (Hunstage' & Hbind' & Humount').
  destruct a; cbn [perform]; [apply follows_ignore..|apply pinger_key].
  - apply ExportNfsVolume_key.
  - apply UnexportNfsVolume_key.
  - apply follows_no_map, Ping_no_map.
  - apply follows_no_map, all_ops_bind; [apply exports_op_no_map, GetExports_ops|by intros [] ].
  - apply ExportMultiple_key.
  - apply UnexportMultiple_key.
  - apply follows_no_map, Hcreate.
  - apply pv_section_key; [apply publish_locked_no_map|by apply publish_locked_loops].
  - apply pv_section_key; [apply unpublish_locked_no_map|apply unpublish_locked_loops].
  - apply pv_section_key; [apply stage_attempts_no_map|apply stage_attempts_loops].
  - apply pv_section_key; [apply Hunstage|apply Hunstage'].
  - apply pv_section_key; [apply Hbind|apply Hbind'].
  - apply pv_section_key; [apply Humount|apply Humount'].
Qed.
End Handlers.

(** ** No deadlock *)

Section Completion.
Context {X : Type} `{Env X}.
Implicit Types s : system X.

Definition finished (p : prog unit) : bool :=
  match p with Ret _ | Panic _ => true | _ => false end.

(** A goroutine that ran out of fuel stands for one that is still in a loop. *)
Definition spinning s : Prop := exists j l, threads s !! j = Some (NoFuel l).

(** It has ended, or is in one of the loops without a bound. *)
Definition at_rest (p : prog unit) : bool :=
  match p with Ret _ | Panic _ | NoFuel _ => true | _ => false end.

Lemma at_rest_cases p : at_rest p = true -> finished p = true \/ exists l, p = NoFuel l.
Proof. destruct p; cbn; eauto. Qed.

Lemma stuck_thread s i p :
  (forall s', ~ cstep s s') -> threads s !! i = Some p -> thread_step p (set_spawned [] (shared s)) = None.
Proof.
  intros Hstuck Hi. destruct (thread_step p _) as [ [p' w'] |] eqn:E; [|done].
  destruct (Hstuck (System (<[i:=p']> (threads s) ++ w_spawned w') (set_spawned [] w'))).
  constructor 1 with i. unfold sys_step. rewrite Hi. cbn. by rewrite E.
Qed.

(** A goroutine that cannot go on waits for a mutex that is held. *)
Lemma waits_for_mutex own s i p :
  assigned (R := mutex) own s -> threads s !! i = Some p -> at_rest p = false ->
  thread_step p (set_spawned [] (shared s)) = None ->
  exists m, get_mutex m (w_held (shared s)) = true /\ own i = None.
Proof.
  intros (Hfol & _ & _ & Htaken) Hi Hrest Hstep. specialize (Hfol i p Hi).
  assert (Hheld : w_held (set_spawned [] (shared s)) = w_held (shared s)) by by destruct (shared s).
  destruct p as [a|msg| |B e k|B e k|q k]; try done.
  2: { cbn in Hstep. by destruct (ext_step e _). }
  assert (Hl : loc_step e (set_spawned [] (shared s)) = None).
  { cbn in Hstep. by destruct (loc_step e _) as [ [? ?] |]. }
  destruct e; cbn in Hl; try (by repeat case_match); rewrite Hheld in Hl.
  - destruct (get_mutex m (w_held (shared s))) eqn:E; [|done]. exists m. split; [done|].
    specialize (Hfol tt). cbn in Hfol. by destruct (own i).
  - exfalso. specialize (Hfol tt). cbn in Hfol. destruct (decide (own i = Some m)) as [Ho|]; [|done].
    assert (E : taken (R := mutex) (shared s) m = true) by (apply Htaken; eauto).
    cbn in E. by rewrite E in Hl.
Qed.

(** A lock that is held when all goroutines are at rest is held by one that is
    in a loop in which the discipline allows it. *)
Lemma rest_holds {R} `{Discipline R} `{!SoundDiscipline R} (own : nat -> option R) s r :
  assigned own s -> (forall i p, threads s !! i = Some p -> at_rest p = true) ->
  taken (shared s) r = true -> exists j l, threads s !! j = Some (NoFuel l) /\ may_spin r l = true.
Proof.
  intros (Hfol & Hnone & _ & Htaken) Hrest Hr. apply Htaken in Hr as [j Hj].
  destruct (threads s !! j) as [p|] eqn:Ep; [|by rewrite Hnone in Hj].
  specialize (Hrest j p Ep). specialize (Hfol j p Ep). rewrite Hj in Hfol.
  destruct p; try done. eauto.
Qed.

Lemma no_deadlock own s :
  assigned (R := mutex) own s -> (forall s', ~ cstep s s') ->
  forall i p, threads s !! i = Some p -> at_rest p = true.
Proof.
  intros Ha Hstuck i p Hi. destruct (at_rest p) eqn:Hf; [done|]. exfalso.
  assert (Hwait : forall j q, threads s !! j = Some q -> at_rest q = false ->
            exists m, get_mutex m (w_held (shared s)) = true /\ own j = None).
  { intros j q Hj Hq. eapply waits_for_mutex; eauto using stuck_thread. }
  destruct (Hwait i p Hi Hf) as (m & Hm & _).
  destruct Ha as (Hfol & Hnone & _ & Htaken). destruct (proj1 (Htaken m) Hm) as [j Hj].
  destruct (threads s !! j) as [q|] eqn:Eq; [|by rewrite Hnone in Hj].
  destruct (at_rest q) eqn:Hq.
  - specialize (Hfol j q Eq). rewrite Hj in Hfol. by destruct q.
  - destruct (Hwait j q Eq Hq) as (m' & _ & Ho). congruence.
Qed.
End Completion.

(** ** The theorems *)

(** A program that holds the entry [key] of [m]: it will delete it.  A program
    that is outside has nothing to delete. *)
Definition holding (m : lockmap) (key : string) (p : prog unit) : Prop :=
  follows (H := key_discipline m key) (Some tt) p.
Definition outside (m : lockmap) (key : string) (p : prog unit) : Prop :=
  follows (H := key_discipline m key) None p.

(** No program that can end is both. *)
Lemma holding_outside {X} `{Env X} m key p (w : world X) :
  holding m key p -> outside m key p ->
  match (run p w).1 with Done _ | Panicked _ => False | _ => True end.
Proof.
  unfold holding, outside. revert p w. fix IH 1. intros [a|msg| |B e k|B e k|q k] w Hh Ho; cbn in *; try done.
  - destruct (loc_step e w) as [ [b w'] |] eqn:E; [|done]. specialize (Hh b). specialize (Ho b).
    apply IH; destruct e; cbn in *; try done; by destruct (same_key m m0 key key0).
  - destruct (ext_step e w) as [b w']. by apply IH.
  - destruct Hh, Ho. by apply IH.
Qed.

Section Theorems.
Context `{UnicodeTables} `{Globals} `{Printing} (cs : CsiNfsService).
Context {X : Type} `{Env X}.

Lemma assigned_key m key acts (w : world X) s :
  get_lockmap m w !! key = None -> rtc cstep (System (perform cs <$> acts) w) s ->
  exists own, assigned (H := key_discipline m key) own s.
Proof.
  intros Hw Hr. eapply start_assigned; [..|exact Hr].
  - apply Forall_fmap, Forall_true. intros a. apply perform_key.
  - intros []. cbn. unfold key_taken. by rewrite Hw.
Qed.

Lemma assigned_mutex acts (w : world X) s :
  w_held w = no_mutex_held -> rtc cstep (System (perform cs <$> acts) w) s ->
  exists own, assigned (R := mutex) own s.
Proof.
  intros Hw Hr. eapply start_assigned; [..|exact Hr].
  - apply Forall_fmap, Forall_true. intros a. apply perform_mutex.
  - intros r. cbn. rewrite Hw. by destruct r.
Qed.

(** C9: the goroutines that work on a volume exclude each other: in every
    interleaving of any handlers, in every environment, at most one goroutine
    is between taking the lock of a volume and giving it back; the entry of
    the volume is in the map exactly while one is, and that one will delete
    it. *)
Theorem volume_locks_exclude (acts : list activity) (m : lockmap) (key : string) (w : world X)
    (s : system X) (Hfree : get_lockmap m w !! key = None)
    (Hreach : rtc cstep (System (perform cs <$> acts) w) s) :
  (forall i j p q, i <> j -> threads s !! i = Some p -> threads s !! j = Some q ->
     outside m key p \/ outside m key q) /\
  (get_lockmap m (shared s) !! key = None ->
     forall i p, threads s !! i = Some p -> outside m key p) /\
  (is_Some (get_lockmap m (shared s) !! key) ->
     exists i p, threads s !! i = Some p /\ holding m key p).
Proof.
  destruct (assigned_key m key acts w s Hfree Hreach) as (own & Hfol & Hnone & Huniq & Htaken).
  assert (Hout : forall i p, threads s !! i = Some p -> own i = None -> outside m key p).
  { intros i p Hi Ho. specialize (Hfol i p Hi). by rewrite Ho in Hfol. }
  split; [|split].
  - intros i j p q Hij Hi Hj. destruct (own i) as [ [] |] eqn:Ei; [|left; eauto].
    destruct (own j) as [ [] |] eqn:Ej; [|right; eauto]. destruct Hij. by eapply Huniq.
  - intros Hk i p Hi. apply (Hout i); [done|]. destruct (own i) as [ [] |] eqn:Ei; [|done]. exfalso.
    assert (E : key_taken m key (shared s) = true) by (apply (Htaken tt); eauto).
    unfold key_taken in E. by rewrite Hk in E.
  - intros [v Hv]. assert (E : @taken _ (key_discipline m key) _ (shared s) tt = true).
    { cbn. unfold key_taken. by rewrite Hv. }
    apply Htaken in E as [i Hi]. destruct (threads s !! i) as [p|] eqn:Ep; [|by rewrite Hnone in Hi].
    exists i, p. split; [done|]. specialize (Hfol i p Ep). by rewrite Hi in Hfol.
Qed.

(** C10: the handlers, the goroutines they start and the monitors never
    deadlock, in any number, interleaving and environment.  In every state
    they can reach in which nothing more can happen, each goroutine has
    ended or is in one of the loops without a bound of its own, with its fuel
    used up (it waits for a volume, retries a publication, or is a monitor,
    which never ends); every mutex is free; no volume is locked on the
    nodes' side; and a volume is locked on the controller's side only while
    a publication is still retrying, under a context without end.  So nobody
    waits for a mutex or a volume that is kept by someone who waits, watches
    nodes, or has ended. *)
Theorem activities_complete (acts : list activity) (w : world X) (s : system X)
    (Hheld : w_held w = no_mutex_held) (Hpv : w_PVLock w = ∅) (Hnfs : w_nfsPVLock w = ∅)
    (Hreach : rtc cstep (System (perform cs <$> acts) w) s) (Hstuck : forall s', ~ cstep s s') :
  (forall i p, threads s !! i = Some p -> finished p = true \/ exists l, p = NoFuel l) /\
  w_held (shared s) = no_mutex_held /\
  w_nfsPVLock (shared s) = ∅ /\
  (w_PVLock (shared s) <> ∅ -> exists j, threads s !! j = Some (NoFuel Retries)).
Proof.
  destruct (assigned_mutex acts w s Hheld Hreach) as [own Ha].
  assert (Hrest : forall i p, threads s !! i = Some p -> at_rest p = true) by by eapply no_deadlock.
  split; [intros i p Hi; by eapply at_rest_cases, Hrest|].
  assert (Hmutex : forall m, get_mutex m (w_held (shared s)) = false).
  { intros m. apply not_true_iff_false. intros Hm.
    by destruct (rest_holds own s m Ha Hrest Hm) as (j & l & _ & Hl). }
  assert (Hkeys : forall m key, get_lockmap m w = ∅ -> is_Some (get_lockmap m (shared s) !! key) ->
            exists j l, threads s !! j = Some (NoFuel l) /\ key_spin m l = true).
  { intros m key Hm [v Hv]. destruct (assigned_key m key acts w s) as [own' Ha']; [by rewrite Hm|done|].
    apply (rest_holds (H0 := key_discipline m key) own' s tt Ha' Hrest). cbn. unfold key_taken. by rewrite Hv. }
  split; [|split].
  - pose proof (Hmutex exportsLock) as H1'. pose proof (Hmutex mountMutex) as H2'.
    pose proof (Hmutex exportCountsLock) as H3'. pose proof (Hmutex monitorMux) as H4'.
    destruct (w_held (shared s)). cbn in *. by subst.
  - apply map_empty. intros key. destruct (w_nfsPVLock (shared s) !! key) as [v|] eqn:E; [|done].
    by destruct (Hkeys nfsPVLock key) as (j & l & _ & Hl).
  - intros (key & v & E)%map_choose. destruct (Hkeys PVLock key) as (j & l & Hj & Hl); [done|by exists v|].
    exists j. rewrite Hj. by destruct l.
Qed.
End Theorems.

(** ** Two exports of a volume at the same time *)

Section Example.
#[local] Existing Instance ascii_tables.
#[local] Existing Instance demo_globals.
#[local] Existing Instance demo_printing.
#[local] Existing Instance calm.

Definition twice : list activity :=
  let req := {| exreq_VolumeId := "nfs-v1"; exreq_ExportNfsContext := Some ∅ |} in
  [RunExport 2 Background req; RunExport 2 Background req].
Definition twice_start : system unit := System (perform demo_service <$> twice) (initial_world "" tt).

(** The first export has the lock, the second one waits. *)
Definition twice_waiting : system unit :=
  default twice_start (run_schedule [0%nat; 1%nat] twice_start).

Lemma twice_waiting_reachable : rtc cstep twice_start twice_waiting.
Proof.
  unfold twice_waiting. destruct (run_schedule [0%nat; 1%nat] twice_start) as [s|] eqn:E.
  - exact (run_schedule_reachable _ _ _ E).
  - apply rtc_refl.
Qed.

Lemma volume_locks_exclude_witness :
  exists i p, threads twice_waiting !! i = Some p /\ holding nfsPVLock "nfs-v1" p.
Proof.
  destruct (volume_locks_exclude demo_service twice nfsPVLock "nfs-v1" (initial_world "" tt) twice_waiting)
    as (_ & _ & Hh).
  - reflexivity.
  - exact twice_waiting_reachable.
  - apply Hh. exists "nfs-v1". vm_compute. reflexivity.
Defined.

(** The two exports beside a monitor: the second one waits and gets the lock
    when the first one ends; the monitor makes two rounds and goes on. *)
Definition crowd : list activity := twice ++ [RunMonitor 1 2 demo_node].
Definition crowd_start : system unit := System (perform demo_service <$> crowd) (initial_world "" tt).
Definition crowd_end : system unit :=
  run_fair (fun _ => true)
    ([0; 1; 1]%nat ++ replicate 60 0%nat ++ replicate 60 1%nat ++ replicate 90 2%nat) crowd_start.

Lemma run_fair_rtc {X} `{Env X} inside schedule (s : system X) : rtc cstep s (run_fair inside schedule s).
Proof.
  revert s. induction schedule as [|i l IH]; intros s; cbn; [apply rtc_refl|].
  destruct (sys_step i s) as [s1|] eqn:E; [|apply IH].
  destruct (inside (shared s1)); [|apply rtc_refl]. eapply rtc_l; [by econstructor|apply IH].
Qed.

Lemma crowd_at_rest : forallb at_rest (threads crowd_end) = true.
Proof. vm_compute. reflexivity. Qed.

Lemma rest_stuck {X} `{Env X} (s s' : system X) : forallb at_rest (threads s) = true -> ~ cstep s s'.
Proof.
  intros Hf Hs. destruct Hs as [i s1 s2 Hs]. unfold sys_step in Hs.
  destruct (threads s1 !! i) as [p|] eqn:Ei; [|done].
  rewrite forallb_forall in Hf. specialize (Hf p). apply list_elem_of_lookup_2, list_elem_of_In in Ei.
  specialize (Hf Ei). by destruct p.
Qed.

Lemma activities_complete_witness :
  List.length (threads crowd_end) = 3%nat /\ threads crowd_end !! 2%nat = Some (NoFuel Rounds) /\
  w_held (shared crowd_end) = no_mutex_held /\ w_nfsPVLock (shared crowd_end) = ∅.
Proof.
  destruct (activities_complete demo_service crowd (initial_world "" tt) crowd_end) as (_ & Hm & Hk & _).
  - reflexivity.
  - reflexivity.
  - reflexivity.
  - apply run_fair_rtc.
  - intros s'. apply rest_stuck, crowd_at_rest.
  - split; [vm_compute; reflexivity|]. split; [vm_compute; reflexivity|]. split; [exact Hm|exact Hk].
Defined.
End Example.
