(* ===== verification/Guarded.v ===== *)
(** * What a mutex guards, with all handlers running

    The goroutines of a process, in any number and interleaved at every
    operation, in any environment.  An invariant of the state that a mutex [m]
    guards ([proj]) holds whenever the mutex is free if every critical section
    restores it and nobody changes that state outside of one ([fine], checked
    on the text of the programs, for all answers; [guarded_invariant]).  The
    second half checks the handlers: most have nothing to do with the exports,
    or with the counts of the node monitor ([apart]); those of the NFS server
    are fine for [exportsLock] when the functions of [exports.go] that they
    call are ([Section Protocol]). *)

From S2P Require Import Prelude GoStrings Messages GoProg Locks Naming Exports Json Config K8s NfsServer NodeMonitor Controller NodeService NodeRecovery Atomic Concurrency.

#[local] Arguments takes : simpl never.
#[local] Arguments gives : simpl never.

(** ** Programs that respect the guard *)

(** Only [exportfs -r] acts on the state of the process. *)
Definition silent {B} (e : extE B) : bool :=
  match e with Exec _ name args => negb (is_exportfs_r name args) | _ => true end.

(** Where a goroutine is: outside the sections of the mutex, knowing that the
    rank of the guarded state is at least [n]; or inside one that began at
    rank [n], with the guarded state [v]. *)
Inductive place (V : Type) :=
  | Outside (n : Z)
  | Inside (n : Z) (v : V).
Arguments Outside {V} n.
Arguments Inside {V} n v.

Section Guard.
Context (m : mutex) (quiet : forall B, extE B -> bool).
Context {X : Type} `{Env X}.
Context {V : Type} (proj : world X -> V) (I : V -> Prop) (rank : V -> Z) (window : V -> Prop).
Implicit Types w : world X.
Implicit Types s : system X.

Definition harmless {B} (e : locE B) : Prop :=
  gives m e = false /\ forall w b w', loc_step e w = Some (b, w') -> proj w' = proj w.

(** From [pl] on, [p] opens sections only when the invariant holds, restores
    it before it ends one, does not lower the rank, and changes nothing that
    is guarded outside of them; [Q] holds of what it returns and of the rank
    that is known then. *)
Fixpoint fine {A : Type} (pl : place V) (p : prog A) (Q : A -> Z -> Prop) {struct p} : Prop :=
  match p with
  | Ret a => match pl with Outside n => Q a n | Inside _ _ => False end
  | Panic _ => match pl with Outside _ => True | Inside _ _ => False end
  | NoFuel _ => True
  | Loc e k =>
      match pl with
      | Outside n =>
          if takes m e
          then forall b v, n <= rank v -> window v -> I v -> fine (Inside (rank v) v) (k b) Q
          else harmless e /\ forall b, fine (Outside n) (k b) Q
      | Inside n v =>
          if gives m e
          then n <= rank v /\ I v /\ forall b, fine (Outside (rank v)) (k b) Q
          else mutex_op e = false /\
               forall w b w', proj w = v -> loc_step e w = Some (b, w') -> fine (Inside n (proj w')) (k b) Q
      end
  | Ext e k =>
      match pl with
      | Outside n => quiet _ e = true /\ forall b, fine (Outside n) (k b) Q
      | Inside n v =>
          forall w, proj w = v -> fine (Inside n (proj (ext_step e w).2)) (k (ext_step e w).1) Q
      end
  | Go q k =>
      match pl with
      | Outside n => fine (Outside n) q (fun _ _ => True) /\ fine (Outside n) k Q
      | Inside _ _ => False
      end
  end.

Definition knows_more (pl pl' : place V) : Prop :=
  match pl, pl' with
  | Outside n, Outside n' => n <= n'
  | Inside n v, Inside n' v' => n = n' /\ v = v'
  | _, _ => False
  end.

Lemma fine_weaken {A} (p : prog A) pl pl' (Q Q' : A -> Z -> Prop) :
  knows_more pl pl' -> (forall a n n', n <= n' -> Q a n -> Q' a n') -> fine pl p Q -> fine pl' p Q'.
Proof.
  revert pl pl' Q Q'. induction p as [A a|A msg|A|A C e k IH|A C e k IH|A q IHq k IH];
    intros [n|n v] [n'|n' v'] Q Q' Hpl HQ Hp; cbn [fine knows_more] in *; try done;
    try (destruct Hpl as [<- <-]); eauto.
  - destruct (takes m e).
    + intros b v Hn Hw HI. apply (IH b (Inside (rank v) v) _ Q); [done|done|]. apply Hp; [lia|done|done].
    + destruct Hp as [He Hp]. split; [done|]. intros b. by apply (IH b (Outside n) _ Q).
  - destruct (gives m e).
    + destruct Hp as (Hn & HI & Hp). split_and!; [done..|]. intros b. apply (IH b (Outside (rank v)) _ Q); [cbn; lia|done|done].
    + destruct Hp as (He & Hp). split; [done|]. intros w b w' Hw Hs. apply (IH b (Inside n (proj w')) _ Q); [done|done|by eapply Hp].
  - destruct Hp as [He Hp]. split; [done|]. intros b. by apply (IH b (Outside n) _ Q).
  - intros w Hw. apply (IH _ (Inside n (proj (ext_step e w).2)) _ Q); [done|done|by eapply Hp].
  - destruct Hp as [Hq Hk]. split; [by apply (IHq (Outside n) _ (fun _ _ => True))|by apply (IH (Outside n) _ Q)].
Qed.

Lemma fine_post {A} (p : prog A) pl (Q Q' : A -> Z -> Prop) :
  (forall a n, Q a n -> Q' a n) -> fine pl p Q -> fine pl p Q'.
Proof.
  intros HQ. revert pl. induction p as [A a|A msg|A|A C e k IH|A C e k IH|A q IHq k IH];
    intros [n|n v] Hp; cbn [fine] in *; try done; eauto.
  - destruct (takes m e); [by eauto|]. destruct Hp. split; eauto.
  - destruct (gives m e); destruct_and?; split_and?; eauto.
  - destruct Hp. split; eauto.
  - destruct Hp. split; eauto.
Qed.

Definition rank_of (pl : place V) : Z := match pl with Outside n => n | Inside n _ => n end.

(** The known rank never falls. *)
Lemma fine_grows {A} (p : prog A) pl (Q : A -> Z -> Prop) :
  fine pl p Q -> fine pl p (fun a n => rank_of pl <= n /\ Q a n).
Proof.
  assert (Hle : forall {B} (q : prog B) pl' n R, n <= rank_of pl' ->
    fine pl' q (fun a r => rank_of pl' <= r /\ R a r) -> fine pl' q (fun a r => n <= r /\ R a r)).
  { intros B q pl' n R Hn. apply fine_post. intros a r [Hr HR]. split; [lia|done]. }
  revert pl Q. induction p as [A a|A msg|A|A C e k IH|A C e k IH|A q IHq k IH]; intros [n|n v] Q Hp; cbn [fine rank_of] in *; try done.
  - destruct (takes m e).
    + intros b v Hn Hw HI. apply Hle; [done|]. by apply IH, Hp.
    + destruct Hp as [He Hp]. split; [done|]. intros b. by apply (IH b (Outside n)).
  - destruct (gives m e).
    + destruct Hp as (Hn & HI & Hp). split_and!; [done..|]. intros b. apply Hle; [done|]. by apply IH.
    + destruct Hp as (He & Hp). split; [done|]. intros w b w' Hw Hs. apply (IH b (Inside n _)). by eapply Hp.
  - destruct Hp as [He Hp]. split; [done|]. intros b. by apply (IH b (Outside n)).
  - intros w Hw. apply (IH _ (Inside n _)). by apply Hp.
  - destruct Hp as [Hq Hk]. split; [done|]. by apply (IH (Outside n)).
Qed.

Lemma fine_then {A B} (p : prog A) (f : A -> prog B) pl (Q : A -> Z -> Prop) (R : B -> Z -> Prop) :
  fine pl p Q -> (forall a n, Q a n -> fine (Outside n) (f a) R) -> fine pl (p ≫= f) R.
Proof.
  intros Hp Hf. revert pl Hp. induction p as [A a|A msg|A|A C e k IH|A C e k IH|A q IHq k IH];
    intros [n|n v] Hp; cbn [fine mbind prog_bind] in *; try done; eauto.
  - destruct (takes m e); [by eauto|]. destruct Hp. split; [done|]. intros b. eapply (IH b); eauto.
  - destruct (gives m e).
    + destruct Hp as (Hn & HI & Hp). split_and!; [done..|]. intros b. eapply (IH b); eauto.
    + destruct Hp as [He Hp]. split; [done|]. intros w b w' Hw Hs. eapply (IH b); eauto.
  - destruct Hp. split; [done|]. intros b. eapply (IH b); eauto.
  - destruct Hp. split; [done|]. eapply IH; eauto.
Qed.

Lemma fine_bind {A B} (p : prog A) (f : A -> prog B) n (Q : A -> Z -> Prop) (R : B -> Z -> Prop) :
  fine (Outside n) p Q -> (forall a n', n <= n' -> Q a n' -> fine (Outside n') (f a) R) ->
  fine (Outside n) (p ≫= f) R.
Proof. intros Hp%fine_grows Hf. eapply fine_then; [exact Hp|]. intros a n' []. by apply Hf. Qed.

(** Deferred calls, which learn nothing. *)
Lemma fine_deferred {A} (p : prog A) d n (Q : A -> Z -> Prop) :
  (forall a r r', r <= r' -> Q a r -> Q a r') ->
  fine (Outside n) p Q -> (forall n', fine (Outside n') d (fun _ _ => True)) ->
  fine (Outside n) (deferred p d) Q.
Proof.
  intros HQ Hp Hd. generalize (Outside (V := V) n), Hp. clear n Hp. intros pl.
  revert pl. induction p as [A a|A msg|A|A C e k IH|A C e k IH|A q IHq k IH]; intros [n|n v] Hp; cbn [fine] in Hp; try done.
  - change (fine (Outside n) (d ≫= fun _ => Ret a) Q). eapply fine_bind; [apply Hd|]. intros [] n' Hn _. by apply (HQ a n).
  - change (fine (Outside n) (d ≫= fun _ => @Panic A msg) Q). by eapply fine_bind; [apply Hd|].
  - change (fine (Outside n) (Loc e (fun b => deferred (k b) d)) Q). cbn [fine]. destruct (takes m e); [by eauto|].
    destruct Hp. split; eauto.
  - change (fine (Inside n v) (Loc e (fun b => deferred (k b) d)) Q). cbn [fine].
    destruct (gives m e); destruct_and?; split_and?; eauto.
  - change (fine (Outside n) (Ext e (fun b => deferred (k b) d)) Q). cbn [fine]. destruct Hp. split; eauto.
  - change (fine (Inside n v) (Ext e (fun b => deferred (k b) d)) Q). cbn [fine]. eauto.
  - change (fine (Outside n) (Go q (deferred k d)) Q). cbn [fine]. destruct Hp. split; eauto.
Qed.

(** *** Inside a section *)

(** [p] makes no call on a mutex and leads from the guarded state [v] to a
    result and a state of which [R] holds, or panics in a state of which [K]
    holds. *)
Fixpoint stays {A : Type} (K : V -> Prop) (v : V) (p : prog A) (R : A -> V -> Prop) {struct p} : Prop :=
  match p with
  | Ret a => R a v
  | Panic _ => K v
  | NoFuel _ => True
  | Loc e k =>
      mutex_op e = false /\
      forall w b w', proj w = v -> loc_step e w = Some (b, w') -> stays K (proj w') (k b) R
  | Ext e k => forall w, proj w = v -> stays K (proj (ext_step e w).2) (k (ext_step e w).1) R
  | Go _ _ => False
  end.

Lemma stays_bind {A B} K (p : prog A) (f : A -> prog B) v (Q : A -> V -> Prop) (R : B -> V -> Prop) :
  stays K v p Q -> (forall a v', Q a v' -> stays K v' (f a) R) -> stays K v (p ≫= f) R.
Proof.
  intros Hp Hf. revert v Hp. induction p; intros v Hp; cbn [stays mbind prog_bind] in *; try done; eauto.
  destruct Hp. split; eauto.
Qed.

Lemma stays_deferred {A} K (p : prog A) d v (Q R : A -> V -> Prop) :
  (forall v', K v' -> stays K v' d (fun _ => K)) ->
  stays K v p Q -> (forall a v', Q a v' -> stays K v' d (fun _ => R a)) -> stays K v (deferred p d) R.
Proof.
  intros HK Hp Hd. revert v Hp. induction p as [A a|A msg|A|A C e k IH|A C e k IH|A q IHq k IH];
    intros v Hp; cbn [stays] in Hp; try done.
  - change (stays K v (d ≫= fun _ => Ret a) R). by eapply stays_bind; [by apply Hd|].
  - change (stays K v (d ≫= fun _ => @Panic A msg) R). by eapply stays_bind; [by apply HK|].
  - change (stays K v (Loc e (fun b => deferred (k b) d)) R). destruct Hp. split; eauto.
  - change (stays K v (Ext e (fun b => deferred (k b) d)) R). cbn [stays]. eauto.
Qed.

Lemma stays_mono {A} (p : prog A) (K K' : V -> Prop) v (Q R : A -> V -> Prop) :
  (forall v', K v' -> K' v') -> (forall a v', Q a v' -> R a v') -> stays K v p Q -> stays K' v p R.
Proof.
  intros HK HQ. revert v. induction p as [A a|A msg|A|A C e k IH|A C e k IH|A q IHq k IH]; intros v Hp; cbn in *; eauto.
  destruct Hp. split; eauto.
Qed.

Lemma stays_section {A} n v (p : prog A) (Q : A -> Z -> Prop) :
  stays (fun v' => n <= rank v' /\ I v') v p (fun a v' => n <= rank v' /\ I v' /\ Q a (rank v')) ->
  fine (Inside n v) (deferred p (loc (Unlock m))) Q.
Proof.
  revert v. induction p as [A a|A msg|A|A C e k IH|A C e k IH|A q IHq k IH];
    intros v Hp; cbn [stays] in Hp; try done.
  - change (fine (Inside n v) (Loc (Unlock m) (fun _ => Ret a)) Q). cbn [fine]. rewrite gives_unlock.
    destruct Hp as (Hn & HI & HQ). by split_and!.
  - change (fine (Inside n v) (Loc (Unlock m) (fun _ => @Panic A msg)) Q). cbn [fine]. rewrite gives_unlock.
    destruct Hp as (Hn & HI). by split_and!.
  - change (fine (Inside n v) (Loc e (fun b => deferred (k b) (loc (Unlock m)))) Q). cbn [fine].
    destruct Hp as [He Hk]. destruct (plain_not_mutex m e He) as [_ ->]. split; eauto.
  - change (fine (Inside n v) (Ext e (fun b => deferred (k b) (loc (Unlock m)))) Q). cbn [fine]. eauto.
Qed.

Lemma fine_with_lock {A} n (p : prog A) (Q : A -> Z -> Prop) :
  (forall v, n <= rank v -> window v -> I v ->
     stays (fun v' => rank v <= rank v' /\ I v') v p (fun a v' => rank v <= rank v' /\ I v' /\ Q a (rank v'))) ->
  fine (Outside n) (with_lock m p) Q.
Proof.
  intros Hp. change (with_lock m p) with (Loc (Lock m) (fun _ => deferred p (loc (Unlock m)))). cbn [fine].
  rewrite takes_lock. intros _ v Hn Hw HI. by apply stays_section, Hp.
Qed.

(** ** Systems of such programs *)

Context (proj_spawned : forall l w, proj (set_spawned l w) = proj w).
Context (proj_held : forall b w, proj (set_held m b w) = proj w).
Context (proj_ext : forall B (e : extE B) w, quiet B e = true -> proj (ext_step e w).2 = proj w).
Local Abbreviation free_of w := (taken_in m w = false).
Local Abbreviation guarded := (fun n p => fine (Outside n) p (fun _ _ => True)).

Lemma loc_step_other {B} (e : locE B) w b w' :
  takes m e = false -> gives m e = false -> loc_step e w = Some (b, w') -> taken_in m w' = taken_in m w.
Proof.
  intros Ht Hg E. destruct (mutex_op e) eqn:Hop.
  - destruct e; try done; apply bool_decide_eq_false in Ht || apply bool_decide_eq_false in Hg;
      cbn in E; repeat case_match; simplify_eq; unfold taken_in;
      by rewrite w_held_set_held, get_set_mutex_ne by congruence.
  - unfold taken_in. by destruct (loc_step_held e w b w' Hop E) as [-> _].
Qed.

Lemma takes_proj {B} (e : locE B) w b w' : takes m e = true -> loc_step e w = Some (b, w') -> proj w' = proj w.
Proof using proj_held.
  intros He E. destruct e; try done. apply bool_decide_eq_true in He. subst. cbn in E. case_match; simplify_eq. apply proj_held.
Qed.

Lemma gives_proj {B} (e : locE B) w b w' : gives m e = true -> loc_step e w = Some (b, w') -> proj w' = proj w.
Proof using proj_held.
  intros He E. destruct e; try done. apply bool_decide_eq_true in He. subst. cbn in E. case_match; simplify_eq. apply proj_held.
Qed.

Lemma outside_moves n (p p' : prog unit) w w' :
  guarded n p -> w_spawned w = [] -> thread_step p w = Some (p', w') ->
  proj w' = proj w /\
  ((free_of w /\ taken_in m w' = true /\ w_spawned w' = [] /\
    (n <= rank (proj w) -> window (proj w) -> I (proj w) ->
     fine (Inside (rank (proj w)) (proj w)) p' (fun _ _ => True))) \/
   (taken_in m w' = taken_in m w /\ guarded n p' /\ Forall (guarded n) (w_spawned w'))).
Proof using proj_spawned proj_held proj_ext.
  intros Hp Hsp Hs. destruct p as [a|msg| |B e k|B e k|q k]; try done; cbn [fine] in Hp; cbn in Hs.
  - destruct (loc_step e w) as [ [b w1] |] eqn:E; [|done]. injection Hs as <- <-.
    destruct (takes m e) eqn:He.
    + split; [by eapply takes_proj|]. left. destruct (takes_spec m e w b w1 He E) as (Hf & Ht & Hsp').
      split_and!; [done|done|congruence|]. intros Hn Hw HI. by apply Hp.
    + destruct Hp as [ [Hg Hpr] Hk]. split; [by eapply Hpr|]. right.
      split; [by eapply loc_step_other|]. split; [apply Hk|].
      by rewrite (loc_step_spawned _ _ _ _ E), Hsp.
  - destruct Hp as [He Hk]. pose proof (proj_ext _ e w He) as Hw'. pose proof (ext_step_spawned e w) as Hsp'.
    pose proof (ext_step_held e w) as Hh.
    destruct (ext_step e w) as [b w1]. cbn in Hw', Hsp', Hh. injection Hs as <- <-.
    split; [done|]. right. unfold taken_in. rewrite Hh, Hsp', Hsp. by split_and!.
  - destruct Hp as [Hq Hk]. injection Hs as <- <-. unfold spawn. rewrite Hsp. split; [apply proj_spawned|].
    right. destruct w. cbn. split_and!; [done|done|]. by repeat constructor.
Qed.

Lemma inside_moves r (p p' : prog unit) w w' :
  fine (Inside r (proj w)) p (fun _ _ => True) -> taken_in m w = true -> thread_step p w = Some (p', w') ->
  w_spawned w' = w_spawned w /\
  ((taken_in m w' = true /\ fine (Inside r (proj w')) p' (fun _ _ => True)) \/
   (free_of w' /\ r <= rank (proj w') /\ I (proj w') /\ guarded (rank (proj w')) p')).
Proof using proj_held.
  intros Hp Ht Hs. destruct p as [a|msg| |B e k|B e k|q k]; try done; cbn [fine] in Hp; cbn in Hs.
  - destruct (loc_step e w) as [ [b w1] |] eqn:E; [|done]. injection Hs as <- <-.
    split; [by eapply loc_step_spawned|]. destruct (gives m e) eqn:He.
    + right. rewrite (gives_proj e w b w1 He E). destruct Hp as (Hr & HI & Hk).
      split; [by eapply gives_spec|done].
    + left. destruct Hp as [Hop Hk]. unfold taken_in. destruct (loc_step_held e w b w1 Hop E) as [-> _].
      split; [done|by eapply Hk].
  - specialize (Hp w eq_refl). pose proof (ext_step_spawned e w) as Hsp'. pose proof (ext_step_held e w) as Hh.
    destruct (ext_step e w) as [b w1]. cbn in *. injection Hs as <- <-. split; [done|]. left.
    unfold taken_in. by rewrite Hh.
Qed.

(** Where the goroutines are: all outside and the invariant holds, or one in
    a section and the others outside. *)
Definition kept (ts : list (prog unit)) w : Prop := exists n,
  (free_of w /\ n <= rank (proj w) /\ I (proj w) /\ Forall (guarded n) ts) \/
  (taken_in m w = true /\ exists j q r,
     n <= r /\ ts !! j = Some q /\ fine (Inside r (proj w)) q (fun _ _ => True) /\
     forall i p, i <> j -> ts !! i = Some p -> guarded n p).

(** A step that stays in the window. *)
Definition wstep (s s' : system X) : Prop := cstep s s' /\ window (proj (shared s')).

Lemma guarded_weaken n n' (p : prog unit) : n <= n' -> guarded n p -> guarded n' p.
Proof. intros Hn. by apply (fine_weaken p (Outside n)). Qed.

Lemma kept_from_outside n ts w w' i (p p' : prog unit) :
  free_of w -> n <= rank (proj w) -> I (proj w) -> window (proj w) -> Forall (guarded n) ts ->
  w_spawned w = [] -> ts !! i = Some p -> thread_step p w = Some (p', w') ->
  kept (<[i := p']> ts ++ w_spawned w') w'.
Proof using proj_spawned proj_held proj_ext.
  intros Hf Hn HI Hwin Hall Hspw Hp Hts. pose proof (lookup_lt_Some _ _ _ Hp) as Hlen.
  rewrite Forall_lookup in Hall. exists n.
  destruct (outside_moves n p p' w w' (Hall i p Hp) Hspw Hts) as [Hpr [(_ & Ht & Hsp & Hin)|(Htk & Hp' & Hsp)] ].
  - right. rewrite Hsp, app_nil_r, Hpr. split; [done|]. exists i, p', (rank (proj w)).
    split; [done|]. rewrite list_lookup_insert_eq by done. split_and!; [done|by apply Hin|].
    intros k q Hk. rewrite list_lookup_insert_ne by done. apply Hall.
  - left. rewrite Hpr. split; [congruence|]. split_and!; [done|done|].
    apply Forall_app. split; [|done]. apply Forall_insert; [by apply Forall_lookup|done].
Qed.

Lemma kept_from_inside n r ts w w' j (p p' : prog unit) :
  taken_in m w = true -> n <= r -> fine (Inside r (proj w)) p (fun _ _ => True) ->
  (forall i p, i <> j -> ts !! i = Some p -> guarded n p) ->
  w_spawned w = [] -> ts !! j = Some p -> thread_step p w = Some (p', w') ->
  kept (<[j := p']> ts ++ w_spawned w') w'.
Proof using proj_held.
  intros Ht Hr Hin Hout Hspw Hp Hts. pose proof (lookup_lt_Some _ _ _ Hp) as Hlen.
  destruct (inside_moves r p p' w w' Hin Ht Hts) as [Hsp [ [Ht' Hin']|(Hf & Hr' & HI & Hp')] ];
    rewrite Hspw in Hsp; rewrite Hsp, app_nil_r.
  - exists n. right. split; [done|]. exists j, p', r. split; [done|].
    rewrite list_lookup_insert_eq by done. split_and!; [done|done|].
    intros k q Hk. rewrite list_lookup_insert_ne by done. by apply Hout.
  - exists (rank (proj w')). left. split_and!; [done|lia|done|].
    apply Forall_lookup. intros k q Hk. destruct (decide (k = j)) as [->|Hkj].
    { rewrite list_lookup_insert_eq in Hk by done. by injection Hk as <-. }
    rewrite list_lookup_insert_ne in Hk by done. apply (guarded_weaken n); [lia|by eapply Hout].
Qed.

Lemma kept_from_beside n r ts w w' i j (p p' q : prog unit) :
  taken_in m w = true -> n <= r -> ts !! j = Some q -> fine (Inside r (proj w)) q (fun _ _ => True) ->
  (forall i p, i <> j -> ts !! i = Some p -> guarded n p) ->
  w_spawned w = [] -> i <> j -> ts !! i = Some p -> thread_step p w = Some (p', w') ->
  kept (<[i := p']> ts ++ w_spawned w') w'.
Proof using proj_spawned proj_held proj_ext.
  intros Ht Hr Hq Hin Hout Hspw Hij Hp Hts. pose proof (lookup_lt_Some _ _ _ Hp) as Hlen.
  destruct (outside_moves n p p' w w' (Hout i p Hij Hp) Hspw Hts)
    as [Hpr [(Hf & _)|(Htk & Hp' & Hsp)] ]; [congruence|].
  exists n. right. rewrite Htk, Hpr. split; [done|]. exists j, q, r. split; [done|].
  pose proof (lookup_lt_Some _ _ _ Hq) as Hjlen.
  split; [rewrite lookup_app_l by (by rewrite length_insert); by rewrite list_lookup_insert_ne by done|].
  split; [done|]. intros k q' Hk Hq'. apply lookup_app_Some in Hq' as [Hq'|[_ Hq'] ].
  - destruct (decide (k = i)) as [->|Hki].
    { rewrite list_lookup_insert_eq in Hq' by done. by injection Hq' as <-. }
    rewrite list_lookup_insert_ne in Hq' by done. by eapply Hout.
  - rewrite Forall_lookup in Hsp. by eapply Hsp.
Qed.

Lemma kept_spawned ts l w : kept ts w -> kept ts (set_spawned l w).
Proof using proj_spawned.
  unfold kept. rewrite proj_spawned. unfold taken_in.
  by replace (w_held (set_spawned l w)) with (w_held w) by (by destruct w).
Qed.

Lemma kept_step s s' :
  kept (threads s) (shared s) -> window (proj (shared s)) -> cstep s s' -> kept (threads s') (shared s').
Proof using proj_spawned proj_held proj_ext.
  intros Hk Hwin Hstep. destruct Hstep as [i s s' Hs]. unfold sys_step in Hs.
  destruct (threads s !! i) as [p|] eqn:Hp; [|done]. cbn [mbind option_bind] in Hs.
  apply (kept_spawned _ []) in Hk. rewrite <- (proj_spawned []) in Hwin.
  assert (Hspw : w_spawned (set_spawned [] (shared s)) = []) by (by destruct (shared s)).
  revert Hs Hk Hwin Hspw. generalize (set_spawned [] (shared s)). intros w Hs Hk Hwin Hspw.
  destruct (thread_step p w) as [ [p' w'] |] eqn:Hts; [|done]. injection Hs as <-. cbn [shared threads].
  apply kept_spawned. destruct Hk as [n [(Hf & Hn & HI & Hall)|(Ht & j & q & r & Hr & Hq & Hin & Hout)] ].
  - by eapply kept_from_outside.
  - destruct (decide (i = j)) as [->|Hij]; [|by eapply kept_from_beside].
    rewrite Hp in Hq. injection Hq as <-. by eapply kept_from_inside.
Qed.

(** The invariant holds whenever the mutex is free. *)
Lemma guarded_invariant (ps : list (prog unit)) w s :
  Forall (guarded (rank (proj w))) ps -> free_of w -> I (proj w) -> window (proj w) ->
  rtc wstep (System ps w) s -> free_of (shared s) -> I (proj (shared s)).
Proof using proj_spawned proj_held proj_ext.
  intros Hps Hf HI Hw Hr Hf'.
  assert (H0 : kept ps w) by (exists (rank (proj w)); by left).
  assert (Hk : kept (threads s) (shared s)).
  { change ps with (threads (System ps w)) in H0. change (proj w) with (proj (shared (System ps w))) in Hw.
    change (kept (threads (System ps w)) (shared (System ps w))) in H0.
    clear -Hr H0 Hw proj_spawned proj_held proj_ext. induction Hr as [|s1 s2 s3 [Hs Hw2] _ IH]; eauto using kept_step. }
  destruct Hk as [n [(_ & _ & HI' & _)|(Ht & _)] ]; [done|congruence].
Qed.
End Guard.

(** ** Programs that have nothing to do with the guarded state *)

Section ApartFrom.
Context (op : forall B, locE B -> bool) (quiet : forall B, extE B -> bool).

(** No operation of the kind [op] and only quiet calls, also in the goroutines
    that are started. *)
Fixpoint apart {A : Type} (p : prog A) : Prop :=
  match p with
  | Ret _ | Panic _ | NoFuel _ => True
  | Loc e k => op _ e = false /\ forall b, apart (k b)
  | Ext e k => quiet _ e = true /\ forall b, apart (k b)
  | Go q k => apart q /\ apart k
  end.

Lemma apart_bind {A B} (p : prog A) (f : A -> prog B) : apart p -> (forall a, apart (f a)) -> apart (p ≫= f).
Proof. intros Hp Hf. induction p; cbn in *; destruct_and?; eauto 6. Qed.

Lemma apart_deferred {A} (p : prog A) d : apart p -> apart d -> apart (deferred p d).
Proof.
  intros Hp Hd. induction p as [A a|A msg|A|A C e k IH|A C e k IH|A q IHq k IH]; cbn in Hp; try done.
  - change (apart (d ≫= fun _ => Ret a)). by apply apart_bind.
  - change (apart (d ≫= fun _ => @Panic A msg)). by apply apart_bind.
  - destruct Hp. split; [done|]. intros b. by apply IH.
  - destruct Hp. split; [done|]. intros b. by apply IH.
  - destruct Hp. split; [done|]. by apply IH.
Qed.

Lemma apart_foldM {A S} (f : S -> A -> prog S) l :
  (forall s x, apart (f s x)) -> forall s, apart (foldM f s l).
Proof. intros Hf. induction l; intros s; cbn; [done|]. by apply apart_bind. Qed.

Lemma apart_select {A B} ctx (call : prog A) (d : go_error -> prog B) (r : A -> prog B) :
  quiet _ (SelectDone ctx) = true ->
  apart call -> (forall e, apart (d e)) -> (forall a, apart (r a)) -> apart (select_call ctx call d r).
Proof.
  intros He Hc Hd Hr. split; [done|]. intros [e|]; cbn.
  - split; [by apply apart_bind|apply Hd].
  - by apply apart_bind.
Qed.

Lemma apart_parallel {A} (ps : list (prog A)) :
  quiet _ RangeChoices = true -> Forall apart ps -> apart (parallel ps).
Proof.
  intros He Hps. split; [done|]. intros schedule. revert ps Hps. induction schedule as [|i l IH]; intros ps Hps.
  - cbn. induction Hps as [|p ps Hp _ IH]; [done|]. apply apart_bind; [done|]. intros a. by apply apart_bind.
  - cbn [interleave mbind prog_bind]. destruct (ps !! i) as [p|] eqn:Hi; [|by apply IH].
    assert (Hp : apart p) by (rewrite Forall_lookup in Hps; by eapply Hps).
    destruct p as [a|msg| |B e k|B e k|q k]; cbn in Hp |- *; destruct_and?; try done; try split_and!; try intros b;
      try done; apply IH; try done; by apply Forall_insert.
Qed.

Lemma apart_with_lock {A} m (p : prog A) :
  op _ (Lock m) = false -> op _ (Unlock m) = false -> apart p -> apart (with_lock m p).
Proof.
  intros Hl Hu Hp. split; [done|]. intros []. apply apart_deferred; [done|]. by split.
Qed.
End ApartFrom.

(** What [exportCountsLock] guards. *)
Definition counts_op {B} (e : locE B) : bool :=
  match e with
  | Lock exportCountsLock | Unlock exportCountsLock => true
  | Get V_exportCounts | Set_ V_exportCounts _ | PutCount _ _ => true
  | _ => false
  end.

Create HintDb goapart discriminated.

(** Walks through the text of a program; [op] and [call] say why an operation
    or a call is allowed. *)
Tactic Notation "walk_apart" "[" tactic3(op) "|" tactic3(call) "]" :=
  repeat (intros; cbn zeta beta; lazymatch goal with
  | |- apart _ _ (mret _) => exact I
  | |- apart _ _ (Ret _) => exact I
  | |- apart _ _ (Panic _) => exact I
  | |- apart _ _ (NoFuel _) => exact I
  | |- apart _ _ (loc _) => split; [solve [op]|intros; exact I]
  | |- apart _ _ (ext _) => split; [solve [call]|intros; exact I]
  | |- apart _ _ (go _) => split; [|exact I]
  | |- apart _ _ (Go _ _) => split
  | |- apart _ _ (select_call _ _ _ _) => apply apart_select; [solve [call]|..]
  | |- apart _ _ (with_lock _ _) => apply apart_with_lock; [solve [op]|solve [op]|]
  | |- apart _ _ (foldM _ _ _) => apply apart_foldM
  | |- apart _ _ (match ?x with _ => _ end) => destruct x
  | |- apart _ _ _ =>
      first [solve [eauto with goapart nocore]
            |apply apart_bind|apply apart_deferred]
  end).

#[local] Arguments unmount_attempts : simpl nomatch.
#[local] Arguments get_service_attempts : simpl nomatch.
#[local] Arguments write_lines : simpl nomatch.
#[local] Arguments ping_exports : simpl nomatch.

Local Ltac unfold_calls :=
  unfold callExportNfsVolume, callUnexportNfsVolume, getNfsClient, getServiceAndSlice,
    GetNodeByCSINodeID, GetNodeStatus, read_status, update_status,
    addNodeToNfsService, removeNodeFromNfsService, node_unavailable, first_address,
    GetPersistentVolume, GetNode, GetEndpointSlices, UpdateEndpointSlice,
    GetEndpointSlice, GetService, CreateEndpointSlice, CreateService, UpdateService,
    DeleteEndpointSlice, DeleteService, UnlockPV, assign_err.

(** Handlers that touch neither the exports nor the counts. *)
Section Apart.
Context `{UnicodeTables} `{Globals} `{Printing} (cs : CsiNfsService).
Context (op : forall B, locE B -> bool) (quiet : forall B, extE B -> bool).
Context (Hop : forall B (e : locE B), exports_op e = false -> counts_op e = false -> op B e = false).
Context (Hquiet : forall B (e : extE B), silent e = true -> quiet B e = true).
Local Abbreviation apart := (apart op quiet).
Local Ltac walk := walk_apart [(apply Hop; reflexivity) | (apply Hquiet; reflexivity)].

Lemma unmount_attempts_apart n a b : apart (unmount_attempts n a b).
Proof. induction n; cbn [unmount_attempts]; walk. Qed.

Lemma nfsLockPV_apart fuel id : apart (nfsLockPV fuel id).
Proof. induction fuel; cbn [nfsLockPV]; walk. Qed.

Lemma get_service_attempts_apart n s : apart (get_service_attempts n s).
Proof. induction n; cbn [get_service_attempts]; walk. Qed.

Lemma LockPV_apart fuel a b c : apart (LockPV fuel a b c).
Proof. induction fuel; cbn [LockPV]; walk. Qed.

Lemma stage_attempts_apart n ctx req last : apart (stage_attempts n ctx req last).
Proof.
  revert last. induction n; intros last; cbn [stage_attempts];
    unfold nodeStageVolume, isAlreadyMounted, stage_mount, GetService; walk.
Qed.
#[local] Hint Resolve LockPV_apart stage_attempts_apart : goapart.

Lemma NodeStageVolume_apart fuel ctx req : apart (NodeStageVolume cs fuel ctx req).
Proof. unfold NodeStageVolume, UnlockPV. walk. Qed.
Lemma NodeUnstageVolume_apart fuel req : apart (NodeUnstageVolume fuel req).
Proof. unfold NodeUnstageVolume, unstage_locked, UnlockPV. walk. Qed.
Lemma NodePublishVolume_apart fuel req : apart (NodePublishVolume fuel req).
Proof. unfold NodePublishVolume, publish_bind, UnlockPV. walk. Qed.
Lemma NodeUnpublishVolume_apart fuel req : apart (NodeUnpublishVolume fuel req).
Proof. unfold NodeUnpublishVolume, unpublish_umount, UnlockPV. walk. Qed.

Lemma CreateVolume_apart req : apart (CreateVolume req).
Proof. unfold CreateVolume. walk. Qed.

Lemma export_retry_apart fuel ctx ip req : apart (export_retry cs fuel ctx ip req).
Proof. induction fuel; cbn [export_retry]; unfold_calls; walk. Qed.
#[local] Hint Resolve export_retry_apart : goapart.

Lemma ControllerPublishVolume_apart f1 f2 ctx req : apart (ControllerPublishVolume cs f1 f2 ctx req).
Proof. unfold ControllerPublishVolume, publish_locked, makeNfsService, create_objects. unfold_calls. walk. Qed.

Lemma ControllerUnpublishVolume_apart fuel ctx req : apart (ControllerUnpublishVolume cs fuel ctx req).
Proof.
  unfold ControllerUnpublishVolume, unpublish_locked, unpublish_last, delete_objects. unfold_calls. walk.
Qed.

Lemma update_attempts_apart n sl : apart (update_attempts n sl).
Proof. induction n; cbn [update_attempts]; unfold_calls; walk. Qed.
#[local] Hint Resolve update_attempts_apart : goapart.

Lemma move_to_apart sl a b c d : apart (move_to cs sl a b c d).
Proof.
  unfold move_to, unexport_old, publish_to, updateEndpointSlice, set_slice_label, set_slice_address.
  unfold_calls. walk.
Qed.
End Apart.
#[export] Hint Resolve unmount_attempts_apart nfsLockPV_apart get_service_attempts_apart LockPV_apart
  NodeStageVolume_apart NodeUnstageVolume_apart NodePublishVolume_apart NodeUnpublishVolume_apart
  CreateVolume_apart ControllerPublishVolume_apart ControllerUnpublishVolume_apart move_to_apart : goapart.

(** Recovery and the monitors do not touch the exports. *)
Section ApartFromExports.
Context `{UnicodeTables} `{Globals} `{Printing} (cs : CsiNfsService).
Local Abbreviation apart := (apart (@exports_op) (@silent)).
Local Ltac walk := walk_apart [reflexivity | reflexivity].

Lemma reassignVolume_apart fuel sl : apart (reassignVolume cs fuel sl).
Proof. unfold reassignVolume, reassign_locked, findNextAvailableNode. unfold_calls. walk. Qed.
#[local] Hint Resolve reassignVolume_apart : goapart.

Lemma start_recoveries_apart fuel l : apart (start_recoveries cs fuel l).
Proof. induction l; cbn [start_recoveries]; unfold recover_volume; walk. Qed.
#[local] Hint Resolve start_recoveries_apart : goapart.

Lemma getNodeExportCounts_apart : apart (getNodeExportCounts cs).
Proof.
  unfold getNodeExportCounts. apply apart_bind; [by split|]. intros ns. apply apart_bind; [by split|]. intros choices.
  apply apart_bind; [|done]. apply apart_parallel; [done|]. apply Forall_fmap, Forall_true. intros p. unfold compose.
  unfold count_node, getExports. unfold_calls. walk.
Qed.
#[local] Hint Resolve getNodeExportCounts_apart : goapart.

Lemma node_recovery_apart fuel ip : apart (node_recovery cs fuel ip).
Proof. unfold node_recovery. unfold_calls. walk. Qed.
#[local] Hint Resolve node_recovery_apart : goapart.

Lemma pinger_loop_apart lockFuel n p : apart (pinger_loop (H := recovery cs lockFuel) cs n p).
Proof.
  induction n; cbn [pinger_loop]; [walk|].
  unfold pinger_round, ping, ping_failed, ping_succeeded, getPingRate. unfold_calls. cbn [nodeRecovery recovery].
  walk.
Qed.
#[local] Hint Resolve pinger_loop_apart : goapart.

Lemma pinger_apart lockFuel n node : apart (pinger (H := recovery cs lockFuel) cs n node).
Proof. unfold pinger. walk. Qed.
End ApartFromExports.
#[export] Hint Resolve pinger_apart : goapart.

(** The functions of [exports.go] and the server of a node do not touch the
    counts. *)
Definition every_call {B} (e : extE B) : bool := true.
Lemma every_call_true B (e : extE B) : every_call e = true.
Proof. done. Qed.
#[export] Hint Resolve every_call_true : goapart.

Section ApartFromCounts.
Context `{UnicodeTables} `{Globals} `{Printing} (cs : CsiNfsService).
Local Abbreviation apart := (apart (@counts_op) (@every_call)).
Local Ltac unfold_files :=
  unfold checkExport, defer_Close, file_Close, bump_generation, file_WriteString, fail_generation, scan_file.
Local Ltac walk := walk_apart [reflexivity | reflexivity].

Lemma checkExport_apart d : apart (checkExport d).
Proof. unfold_files. walk. Qed.
Lemma write_lines_apart ls : apart (write_lines ls).
Proof. induction ls; cbn [write_lines]; unfold_files; walk. Qed.
Lemma resync_attempts_apart n g e : apart (resync_attempts n g e).
Proof. revert e. induction n; intros; cbn [resync_attempts]; walk. Qed.
#[local] Hint Resolve checkExport_apart write_lines_apart resync_attempts_apart : goapart.

Lemma CheckExport_apart d : apart (CheckExport d).
Proof. unfold CheckExport. walk. Qed.
Lemma GetExports_apart p : apart (GetExports p).
Proof. unfold GetExports. unfold_files. walk. Qed.
Lemma AddExport_apart d o : apart (AddExport d o).
Proof. unfold AddExport. unfold_files. fold (checkExport d). walk. Qed.
Lemma DeleteExport_apart d : apart (DeleteExport d).
Proof. unfold DeleteExport. unfold_files. walk. Qed.
Lemma ResyncNFSMountd_apart g : apart (ResyncNFSMountd g).
Proof. unfold ResyncNFSMountd. walk. Qed.
#[local] Hint Resolve CheckExport_apart GetExports_apart AddExport_apart DeleteExport_apart ResyncNFSMountd_apart : goapart.

Lemma ExportNfsVolume_apart fuel ctx req : apart (ExportNfsVolume cs fuel ctx req).
Proof. unfold ExportNfsVolume, export_locked, export_mounted, nfsUnlockPV. walk. Qed.
#[local] Hint Resolve ExportNfsVolume_apart : goapart.

Lemma unexport_rounds_apart n i resp g a b : apart (unexport_rounds n i resp g a b).
Proof. revert i. induction n; intros i; cbn [unexport_rounds]; unfold UnmountVolume; walk. Qed.
#[local] Hint Resolve unexport_rounds_apart : goapart.

Lemma UnexportNfsVolume_apart fuel req : apart (UnexportNfsVolume fuel req).
Proof. unfold UnexportNfsVolume, unexport_locked, nfsUnlockPV. walk. Qed.
#[local] Hint Resolve UnexportNfsVolume_apart : goapart.

Lemma ExportMultiple_apart fuel ctx req : apart (ExportMultipleNfsVolumes cs fuel ctx req).
Proof. unfold ExportMultipleNfsVolumes, export_one. walk. Qed.
Lemma UnexportMultiple_apart fuel req : apart (UnexportMultipleNfsVolumes fuel req).
Proof. unfold UnexportMultipleNfsVolumes, unexport_one. walk. Qed.
#[local] Hint Resolve ExportMultiple_apart UnexportMultiple_apart : goapart.

Lemma ping_exports_apart ready l : apart (ping_exports ready l).
Proof.
  revert ready. induction l; intros ready; cbn [ping_exports];
    unfold ping_export, ping_remount, GetServiceContent, UnmountVolume; walk.
Qed.
#[local] Hint Resolve ping_exports_apart : goapart.

Lemma Ping_apart req : apart (Ping req).
Proof. unfold Ping. walk. Qed.
Lemma GetExports_rpc_apart : apart GetExports_rpc.
Proof. unfold GetExports_rpc. walk. Qed.
#[local] Hint Resolve Ping_apart GetExports_rpc_apart : goapart.

(** Only the monitors start recoveries. *)
Definition monitors_nodes (a : activity) : bool := match a with RunMonitor _ _ _ => true | _ => false end.

Lemma activity_apart a : monitors_nodes a = false -> apart (perform cs a).
Proof.
  intros Ha. destruct a; try discriminate Ha; cbn [perform]; unfold ignore; (apply apart_bind; [|done]);
    solve [eauto with goapart nocore].
Qed.
End ApartFromCounts.

(** ** Rules for the text of a program *)

Section Rules.
Context (m : mutex) (op : forall B, locE B -> bool) (quiet : forall B, extE B -> bool).
Context {X : Type} `{Env X}.
Context {V : Type} (proj : world X -> V) (I : V -> Prop) (rank : V -> Z) (window : V -> Prop).
Context (op_locks : forall B (e : locE B), op B e = false -> takes m e = false /\ gives m e = false).
Context (proj_other : forall B (e : locE B) w b w',
           op B e = false -> loc_step e w = Some (b, w') -> proj w' = proj w).
Local Abbreviation fine := (fine m quiet proj I rank window).
Local Abbreviation well n p := (fine (Outside n) p (fun _ _ => True)).

Lemma apart_fine {A} (p : prog A) n : apart op quiet p -> well n p.
Proof.
  induction p as [A a|A msg|A|A C e k IH|A C e k IH|A q IHq k IH]; intros Hp; cbn in *; try done.
  - destruct Hp as [He Hk]. destruct (op_locks _ e He) as [-> Hg]. split; [|auto].
    split; [done|]. intros w b w'. by apply proj_other.
  - destruct Hp. auto.
  - destruct Hp. auto.
Qed.

Lemma well_bind {A B} n (p : prog A) (f : A -> prog B) :
  well n p -> (forall a n', n <= n' -> well n' (f a)) -> well n (p ≫= f).
Proof. intros Hp Hf. eapply fine_bind; [exact Hp|]. intros a n' Hn _. by apply Hf. Qed.

Lemma well_deferred {A} n (p : prog A) d : well n p -> (forall n', well n' d) -> well n (deferred p d).
Proof. intros Hp Hd. by apply fine_deferred. Qed.

Lemma well_select {A B} n ctx (call : prog A) (d : go_error -> prog B) (r : A -> prog B) :
  quiet _ (SelectDone ctx) = true ->
  apart op quiet call -> (forall e n', n <= n' -> well n' (d e)) -> (forall a n', n <= n' -> well n' (r a)) ->
  well n (select_call ctx call d r).
Proof.
  intros He Hc Hd Hr. unfold select_call. split; [done|]. intros [e|]; cbn.
  - split; [|by apply Hd]. apply well_bind; [by apply apart_fine|done].
  - apply well_bind; [by apply apart_fine|done].
Qed.

Lemma fine_foldM {A S} (P : S -> Prop) (f : S -> A -> prog S) l :
  (forall s x n, P s -> x ∈ l -> fine (Outside n) (f s x) (fun s' _ => P s')) ->
  forall s n, P s -> fine (Outside n) (foldM f s l) (fun s' _ => P s').
Proof.
  induction l as [|x l IH]; intros Hf s n Hs; [done|]. cbn [foldM].
  eapply fine_bind; [apply Hf; [done|by left]|]. intros s' n' _ Hs'. apply IH; [|done].
  intros s1 y n1 Hs1 Hy. apply Hf; [done|by right].
Qed.

Lemma ignore_well {A} (p : prog A) n : well n p -> well n (ignore p).
Proof. intros Hp. by apply well_bind. Qed.
End Rules.

(** ** The handlers of the NFS server *)

(** What an activity may do to the exports: dump all of them, add some, and
    the directories it deletes by name. *)
Definition dumps (a : activity) : bool :=
  match a with RunPing req => ping_DumpAllExports req | _ => false end.

Definition adds (a : activity) : bool :=
  match a with RunExport _ _ _ | RunExportMultiple _ _ _ => true | _ => dumps a end.

Definition deletions `{Globals} (a : activity) : list string :=
  match a with
  | RunUnexport _ req => [export_path req]
  | RunUnexportMultiple _ req =>
      (fun id => export_path {| unreq_VolumeId := id; unreq_UnexportNfsContext := unm_ExportNfsContext req |})
        <$> unm_VolumeIds req
  | _ => []
  end.

Lemma exports_op_locks B (e : locE B) : exports_op e = false -> takes exportsLock e = false /\ gives exportsLock e = false.
Proof. intros He. destruct e; try done; by destruct m. Qed.

Section Protocol.
Context `{UnicodeTables} `{Globals} `{Printing} (cs : CsiNfsService).
Context {X : Type} `{Env X}.
Context {V : Type} (proj : world X -> V) (I : V -> Prop) (rank : V -> Z) (window : V -> Prop).
Context (proj_other : forall B (e : locE B) w b w',
           exports_op e = false -> loc_step e w = Some (b, w') -> proj w' = proj w).
Local Abbreviation fine := (fine exportsLock (@silent) proj I rank window).
Local Abbreviation well n p := (fine (Outside n) p (fun _ _ => True)).

Lemma server_apart {A} (p : prog A) n : apart (@exports_op) (@silent) p -> well n p.
Proof. apply apart_fine; [apply exports_op_locks|exact proj_other]. Qed.

(** What the functions of [exports.go] need and learn: [knows n g] says that
    at rank [n] the generation [g] may be asked for. *)
Context (knows : Z -> Z -> Prop) (deletes : string -> Prop).
Context (knows_mono : forall n n' g, n <= n' -> knows n g -> knows n' g).
Context (check_fine : forall n d, well n (CheckExport d)).
Context (list_fine : forall n p, well n (GetExports p)).
Context (resync_fine : forall n g, knows n g -> well n (ResyncNFSMountd g)).
Context (delete_fine : forall n d, deletes d -> fine (Outside n) (DeleteExport d) (fun r n' => knows n' r.1)).

Lemma GetExports_rpc_well n : well n GetExports_rpc.
Proof. apply well_bind; [apply list_fine|]. by intros [l err] n' _. Qed.

Lemma unexport_rounds_well k i resp g id s n : knows n g -> well n (unexport_rounds k i resp g id s).
Proof.
  revert i n. induction k as [|k IH]; intros i n Hg; [done|]. cbn [unexport_rounds].
  apply well_bind; [by apply server_apart|]. intros [] n1 H1'.
  apply well_bind; [by apply server_apart, unmount_attempts_apart|]. intros err n2 H2'.
  destruct err as [e|]; [|done]. case_match; [done|].
  apply well_bind; [apply resync_fine; by eapply knows_mono, knows_mono|]. intros err n3 H3'.
  destruct err; [done|]. apply IH. by eapply knows_mono, knows_mono, knows_mono.
Qed.

Lemma UnexportNfsVolume_well fuel req n : deletes (export_path req) -> well n (UnexportNfsVolume fuel req).
Proof.
  intros Hd. unfold UnexportNfsVolume. apply well_bind; [by apply server_apart, nfsLockPV_apart|]. intros [] n1 _.
  apply well_deferred; [|by intros; apply server_apart]. unfold unexport_locked.
  eapply fine_bind; [by apply delete_fine|]. intros [g [e|] ] n2 _ Hg; [done|].
  apply well_bind; [by apply resync_fine|]. intros [e|] n3 H3'; [done|].
  apply unexport_rounds_well. by eapply knows_mono.
Qed.

Lemma UnexportMultiple_well fuel req n :
  Forall deletes (deletions (RunUnexportMultiple fuel req)) -> well n (UnexportMultipleNfsVolumes fuel req).
Proof.
  intros Hd. cbn in Hd. rewrite Forall_fmap, Forall_forall in Hd. unfold UnexportMultipleNfsVolumes.
  eapply fine_bind; [|done].
  apply (fine_foldM _ _ _ _ _ _ (fun s => multi_context s = unm_ExportNfsContext req)); [|done].
  intros s id n1 Hs Hid. unfold unexport_one. rewrite Hs.
  eapply fine_bind; [by apply UnexportNfsVolume_well, Hd|]. by intros [r [e|] ] n2 _ _.
Qed.

Lemma not_adding_well a n : adds a = false -> Forall deletes (deletions a) -> well n (perform cs a).
Proof.
  intros Ha Hd.
  destruct a; try discriminate Ha; cbn [perform];
    try (apply ignore_well; first [by apply UnexportNfsVolume_well; inversion Hd|by apply UnexportMultiple_well
      |by apply GetExports_rpc_well|apply server_apart; solve [eauto with goapart nocore] ]).
  - apply ignore_well. unfold Ping. cbn in Ha. by rewrite Ha.
  - apply server_apart, pinger_apart.
Qed.

(** With exports as well, the generation is assigned outside of the mutex. *)
Context (assign_harmless : forall g, harmless exportsLock proj (Set_ V_generation g)).
Context (read_harmless : harmless exportsLock proj (Get V_generation)).
Context (knows_all : forall n g, knows n g).
Context (add_fine : forall n d o, well n (AddExport d o)).

Lemma assign_well n g : well n (loc (Set_ V_generation g)).
Proof. by split. Qed.
Lemma read_well n : well n (loc (Get V_generation)).
Proof. by split. Qed.

Lemma ExportNfsVolume_well fuel ctx req n : well n (ExportNfsVolume cs fuel ctx req).
Proof.
  unfold ExportNfsVolume. apply well_bind; [by apply server_apart, nfsLockPV_apart|]. intros [] n1 _.
  apply well_deferred; [|by intros; apply server_apart]. unfold export_locked.
  apply well_bind; [by apply server_apart|]. intros st n2 _.
  apply well_bind; [apply check_fine|]. intros [b err] n3 _. case_match; [done|].
  eapply well_select; [apply exports_op_locks|exact proj_other|done|done|done|]. intros [path [e|] ] n4 _; [done|]. case_match; [|done].
  apply well_bind; [|done]. unfold export_mounted.
  do 2 (apply well_bind; [by apply server_apart|]; intros [e|] ? _; [done|]).
  apply well_bind; [by apply server_apart|]. intros [out [e|] ] ? _; [done|].
  apply well_bind; [apply add_fine|]. intros [gen err'] ? _.
  apply well_bind; [apply assign_well|]. intros [] ? _. destruct err'; [done|].
  apply well_bind; [apply read_well|]. intros gen' ? _.
  by apply well_bind; [apply resync_fine|].
Qed.

Lemma ExportMultiple_well fuel ctx req n : well n (ExportMultipleNfsVolumes cs fuel ctx req).
Proof.
  unfold ExportMultipleNfsVolumes. apply well_bind; [|done].
  apply (fine_foldM _ _ _ _ _ _ (fun _ => True)); [|done]. intros s id n1 _ _. unfold export_one.
  apply well_bind; [apply ExportNfsVolume_well|]. by intros [c [r [e|] ] ] n2 _.
Qed.

Lemma ping_export_well ready export n :
  (forall d, deletes d) -> well n (ping_export ready export).
Proof.
  intros Hd. unfold ping_export. apply well_bind; [by apply server_apart, get_service_attempts_apart|].
  intros [svc [e|] ] ? _; [done|]. destruct svc; [|done]. case_match; [|done].
  eapply fine_bind; [by apply delete_fine|]. intros [g err] ? _ _.
  apply well_bind; [apply assign_well|]. intros [] ? _. destruct err; [done|].
  apply well_bind; [apply read_well|]. intros g' ? _.
  apply well_bind; [by apply resync_fine|]. intros [e|] ? _; [done|].
  apply well_bind; [by apply server_apart, unmount_attempts_apart|]. intros [e|] ? _; [|done].
  apply well_bind; [|done]. unfold ping_remount.
  apply well_bind; [apply add_fine|]. intros [g2 err] ? _.
  apply well_bind; [apply assign_well|]. intros [] ? _.
  apply well_bind; [apply read_well|]. intros g3 ? _.
  by apply well_bind; [apply resync_fine|].
Qed.

Lemma Ping_well req n : (forall d, deletes d) \/ ping_DumpAllExports req = false -> well n (Ping req).
Proof.
  intros Hd. unfold Ping. destruct (ping_DumpAllExports req); [|done]. destruct Hd as [Hd|]; [|done].
  apply well_bind; [apply list_fine|]. intros [l [e|] ] n1 _; [done|].
  generalize true. revert n1. induction l as [|x l IH]; intros n1 ready; [done|]. cbn [ping_exports].
  apply well_bind; [by apply ping_export_well|]. intros [b|r] n2 _; [|done]. apply IH.
Qed.

Lemma activity_well a n :
  (forall d, deletes d) \/ dumps a = false -> Forall deletes (deletions a) -> well n (perform cs a).
Proof.
  intros Ha Hd. destruct (adds a) eqn:E; [|by apply not_adding_well].
  destruct a; try discriminate E; cbn [perform]; apply ignore_well;
    [apply ExportNfsVolume_well|by apply Ping_well|apply ExportMultiple_well].
Qed.
End Protocol.
