(* ===== verification/ExportsInvariants.v ===== *)
(** * The exports file while all handlers run

    Two invariants of the state that [exportsLock] guards, in every
    interleaving of the goroutines of a process and in every environment in
    which no write is torn: the record of what the kernel exports stays
    truthful as long as nobody exports; the exports file consists of whole
    lines, and the entries that nobody deletes stay in it. *)

From S2P Require Import Prelude GoStrings Messages GoProg Locks Naming Exports Json Config K8s NfsServer NodeMonitor Controller NodeService NodeRecovery Atomic Concurrency Guarded.

(** ** The record of what the kernel exports *)

Record view := View {
  v_exports : string;
  v_generation : Z;
  v_synced : Z;
  v_saved : Z;
  v_resynced : string;
}.

Definition view_of {X} (w : world X) : view :=
  View (w_exports w) (w_generation w) (w_syncedGeneration w) (w_savedUpdates w) (w_resynced w).

Definition truthful (v : view) : Prop :=
  min_int64 <= v_generation v /\ v_synced v <= v_generation v /\
  (v_synced v = v_generation v -> v_resynced v = v_exports v).

Definition unspent (v : view) : Prop := v_generation v < max_int64.

Lemma in_sync_truthful {X} (w : world X) : in_sync w <-> free exportsLock w /\ truthful (view_of w).
Proof. done. Qed.

(** *** From runs to interleavings

    The answers that a section gets while others change the outside world are
    those of some states of it: an environment that plays these states back
    gives them in one uninterrupted run. *)
Section Replay.
Context {X : Type} `{Env X} (x0 : X).
Implicit Types w : world X.

Definition replay : Env (list X) := fun B e xs =>
  match xs with
  | [] => ((env_step e x0).1, [])
  | x :: xs => ((env_step e x).1, xs)
  end.

Definition unlocked (v : view) (xs : list X) : world (list X) :=
  World ∅ ∅ no_mutex_held (v_generation v) (v_synced v) (v_saved v) ∅ 0 ∅ [] [] []
    (v_exports v) (v_resynced v) [] xs.
Definition locked (v : view) (xs : list X) : world (list X) := set_held exportsLock true (unlocked v xs).

Lemma replay_write_fault : ~ write_fault (X := X) -> ~ write_fault (H := replay).
Proof. intros Hno [ [|x xs] Hf]; apply Hno; [by exists x0|by exists x]. Qed.

Lemma view_locked v xs : view_of (locked v xs) = v.
Proof. by destruct v. Qed.

Lemma replay_loc {B} (e : locE B) w b w' xs :
  exports_op e = true -> mutex_op e = false -> loc_step e w = Some (b, w') ->
  loc_step e (locked (view_of w) xs) = Some (b, locked (view_of w') xs).
Proof.
  intros Hx Hm E. destruct w, e as [| | | |A v|A v y| | | | | | | |]; try done; try destruct v; try done;
    cbn in E; by simplify_eq.
Qed.

Lemma replay_ext {B} (e : extE B) w xs :
  ext_step (H := replay) e (locked (view_of w) (w_env w :: xs)) =
  ((ext_step e w).1, locked (view_of (ext_step e w).2) xs).
Proof.
  unfold ext_step. destruct w; cbn. destruct (env_step e w_env) as [b x].
  destruct e; try done. cbn. by case_match.
Qed.

Lemma stays_run {A} (p : prog A) v (R : A -> view -> Prop) :
  plain p -> all_ops (fun B (e : locE B) => exports_op e = true) p ->
  (forall xs, match run (H := replay) p (locked v xs) with
              | (Done a, w') => R a (view_of w')
              | (Panicked _, _) => False
              | _ => True
              end) ->
  stays (X := X) view_of (fun _ => False) v p R.
Proof.
  revert v. induction p as [A a|A msg|A|A C e k IH|A C e k IH|A q IHq k IH]; intros v Hp Hops Hrun; cbn [stays]; try done.
  - specialize (Hrun []). cbn in Hrun. by destruct v.
  - by specialize (Hrun []).
  - destruct Hp as [Hm Hp], Hops as [Hx Hops]. split; [done|]. intros w b w' <- E. apply IH; [done..|].
    intros xs. specialize (Hrun xs). cbn [run] in Hrun. by rewrite (replay_loc e w b w' xs Hx Hm E) in Hrun.
  - intros w <-. apply IH; [done..|]. intros xs. specialize (Hrun (w_env w :: xs)). cbn [run] in Hrun.
    by rewrite replay_ext in Hrun.
Qed.

(** A call of [exports.go] that does its job in every run does it in every
    interleaving. *)
Lemma fine_run {A} (I : view -> Prop) (rank : view -> Z) (window : view -> Prop) (p : prog A) n (Q : A -> Z -> Prop) :
  one_section p -> all_ops (fun B (e : locE B) => exports_op e = true) p ->
  (forall v xs, n <= rank v -> window v -> I v -> exists a (w' : world (list X)),
     run (H := replay) p (unlocked v xs) = (Done a, w') /\
     rank v <= rank (view_of w') /\ I (view_of w') /\ Q a (rank (view_of w'))) ->
  fine (X := X) exportsLock (@silent) view_of I rank window (Outside n) p Q.
Proof.
  intros (body & -> & Hbody) [_ Hops] Hrun. apply fine_with_lock. intros v Hn Hw HI.
  eapply (stays_mono view_of body (fun _ => False)); [done|intros a v' HR; exact HR|]. apply stays_run; [done| |].
  { specialize (Hops tt). clear -Hops.
    induction body as [A a|A msg|A|A C e k IH|A C e k IH|A q IHq k IH]; cbn in *; try done.
    - destruct Hops. split; [done|]. intros b. by apply IH.
    - intros b. by apply IH.
    - destruct Hops. split; [done|by apply IH]. }
  intros xs. destruct (Hrun v xs Hn Hw HI) as (a & w' & Hr & HR).
  rewrite run_with_lock in Hr by done. change (set_held _ _ (unlocked v xs)) with (locked v xs) in Hr.
  destruct (run (H := replay) body (locked v xs)) as [ [b|msg| |] w1]; [|cbn in Hr; repeat case_match; discriminate Hr..].
  cbn in Hr. destruct (mu_exports (w_held w1)); [|done]. injection Hr as -> <-. by destruct w1.
Qed.
End Replay.

Section Record.
Context {X : Type} `{Env X} (x0 : X) (Hwrite : ~ write_fault).
Implicit Types w : world X.
Local Abbreviation record_fine := (fine (X := X) exportsLock (@silent) view_of truthful v_generation unspent).

Lemma in_sync_unlocked v xs : truthful v -> in_sync (unlocked (X := X) v xs).
Proof. by destruct v. Qed.

Lemma in_sync_step (w w' : world (list X)) :
  in_sync w -> sync_step (H := replay x0) w w' -> truthful (view_of w').
Proof. intros Hw Hs. by apply (sync_step_in_sync (H := replay x0) w w' (replay_write_fault x0 Hwrite) Hw Hs). Qed.

Lemma record_check n d : record_fine (Outside n) (CheckExport d) (fun _ _ => True).
Proof using x0.
  apply (fine_run x0); [auto with goplain|auto with goprog|]. intros v xs Hn Hw HI.
  destruct (run_CheckExport (H := replay x0) d (unlocked v xs)) as (b & err & x & E); [done|].
  rewrite E. exists (b, err), (set_env x (unlocked v xs)). split; [done|]. destruct v. cbn. by split_and!.
Qed.

Lemma record_list n p : record_fine (Outside n) (GetExports p) (fun _ _ => True).
Proof using x0.
  apply (fine_run x0); [auto with goplain|auto with goprog|]. intros v xs Hn Hw HI.
  destruct (run_GetExports (H := replay x0) p (unlocked v xs)) as (l & err & x & E & _); [done|].
  rewrite E. exists (l, err), (set_env x (unlocked v xs)). split; [done|]. destruct v. cbn. by split_and!.
Qed.

Lemma record_resync n g : g <= n -> record_fine (Outside n) (ResyncNFSMountd g) (fun _ _ => True).
Proof using x0 Hwrite.
  intros Hg. apply (fine_run x0); [auto with goplain|auto with goprog|]. intros v xs Hn Hw HI.
  destruct (run_ResyncNFSMountd (H := replay x0) g (unlocked v xs)) as (err & w' & E & _ & _ & Hge & _); [done|].
  rewrite E. exists err, w'. split; [done|]. split; [cbn; by rewrite Hge|]. split; [|done].
  apply (in_sync_step (unlocked v xs)); [by apply in_sync_unlocked|].
  replace w' with (run (H := replay x0) (ResyncNFSMountd g) (unlocked v xs)).2 by (by rewrite E).
  apply SyncResync. cbn. lia.
Qed.

Lemma record_delete n d : record_fine (Outside n) (DeleteExport d) (fun r n' => r.1 <= n').
Proof using x0 Hwrite.
  apply (fine_run x0); [auto with goplain|auto with goprog|]. intros v xs Hn Hw HI.
  destruct (run_DeleteExport (H := replay x0) d (unlocked v xs)) as (g & err & w' & E & _ & _ & _ & Hg & Herr); [done|].
  rewrite E. exists (g, err), w'. split; [done|].
  assert (Hge : v_generation v <= w_generation w').
  { rewrite <- Hg. destruct HI as [Hmin _]. unfold unspent in Hw.
    destruct err; destruct Herr as [-> _]; cbn; [lia|]. rewrite int64_id by lia. lia. }
  split; [exact Hge|]. split; [|cbn; lia].
  apply (in_sync_step (unlocked v xs)); [by apply in_sync_unlocked|].
  replace w' with (run (H := replay x0) (DeleteExport d) (unlocked v xs)).2 by (by rewrite E).
  by apply SyncDelete.
Qed.
End Record.

(** ** The lines of the exports file *)

Lemma unlines_raw t : unlines (raw_lines (t +:+ newline)) = t +:+ newline.
Proof.
  induction t as [|c t IH]; [done|]. cbn. destruct (Ascii.eqb c nl) eqn:E.
  - apply Ascii.eqb_eq in E. subst. cbn. by rewrite IH.
  - destruct (raw_lines (t +:+ newline)) as [|l ls] eqn:El; cbn in *; [by destruct t|]. by rewrite IH.
Qed.

Lemma scan_tokens_all ls : (scan_tokens ls).2 = false -> (scan_tokens ls).1 = dropCR <$> ls.
Proof.
  induction ls as [|l ls IH]; [done|]. cbn. case_match; [done|].
  destruct (scan_tokens ls) as [ts b]. cbn in *. intros ->. by rewrite IH.
Qed.

(** The file consists of whole lines, among them the entries that are [safe]. *)
Definition has_lines (safe : string -> Prop) (s : string) : Prop :=
  exists ls, s = unlines ls /\ Forall (fun l => no_nl l = true) ls /\ forall e, safe e -> e ∈ ls.

Lemma has_lines_iff safe s :
  has_lines safe s <-> s = unlines (raw_lines s) /\ forall e, safe e -> e ∈ raw_lines s.
Proof.
  split.
  - intros (ls & -> & Hn & He). by rewrite raw_lines_unlines.
  - intros [E He]. exists (raw_lines s). split; [done|]. split; [apply raw_lines_no_nl|done].
Qed.

Lemma has_lines_add safe s d o : has_lines safe s -> has_lines safe (s +:+ entry_text d o).
Proof.
  intros (ls & -> & Hn & He). exists (ls ++ raw_lines (entry_text d o)). split; [|split].
  - rewrite unlines_app. f_equal. unfold entry_text. rewrite <- !string_app_assoc. by rewrite unlines_raw.
  - apply Forall_app. split; [done|apply raw_lines_no_nl].
  - intros e Hs. apply elem_of_app. auto.
Qed.

Lemma has_lines_delete safe s d :
  (forall e, safe e -> untrimmable e = true /\ HasPrefix e d = false) ->
  has_lines safe s -> (ScanLines s).2 = false -> has_lines safe (unlines (keep_lines d (ScanLines s).1)).
Proof.
  intros Hsafe [_ He]%has_lines_iff Hscan. unfold ScanLines in *. rewrite scan_tokens_all by done.
  exists (keep_lines d (dropCR <$> raw_lines s)). split; [done|]. split.
  - apply Forall_forall. intros l [Hl _]%list_elem_of_In%filter_In.
    apply list_elem_of_In, list_elem_of_fmap in Hl as (l1 & -> & (l2 & -> & Hl)%list_elem_of_fmap).
    pose proof (raw_lines_no_nl s) as Hn. rewrite Forall_forall in Hn. auto using no_nl_TrimSpace, no_nl_dropCR.
  - intros e Hs. destruct (Hsafe e Hs) as [Ht Hp]. apply list_elem_of_In, filter_In. rewrite Hp. split; [|done].
    apply list_elem_of_In, list_elem_of_fmap. exists e. rewrite TrimSpace_id by done. split; [done|].
    apply list_elem_of_fmap. exists e. rewrite dropCR_untrimmable by done. auto.
Qed.

(** *** What the sections do to the file *)

Section File.
Context {X : Type} `{Env X} (Hwrite : ~ write_fault).
Implicit Types w : world X.
Local Abbreviation file := (w_exports (X := X)).
Local Abbreviation stays := (stays file (fun _ => False)).

Lemma file_env x w : file (set_env x w) = file w.
Proof. by destruct w. Qed.

Lemma silent_step {B} (e : extE B) w : silent e = true -> (ext_step e w).2 = set_env (env_step e (w_env w)).2 w.
Proof.
  intros He. unfold ext_step. destruct (env_step e (w_env w)) as [b x]. cbn.
  destruct e; try done. cbn in *. by destruct (is_exportfs_r name args).
Qed.

Lemma stays_silent {A B} (e : extE B) (k : B -> prog A) v R :
  silent e = true -> (forall b, stays v (k b) R) -> stays v (ext e ≫= k) R.
Proof. intros He Hk w <-. rewrite silent_step, file_env by done. apply Hk. Qed.

Lemma stays_exec {A} k name args (f : pair_err string -> prog A) v R :
  (forall b, stays v (f b) R) -> stays v (ext (Exec k name args) ≫= f) R.
Proof.
  intros Hf w <-. replace (file (ext_step (Exec k name args) w).2) with (file w); [apply Hf|].
  unfold ext_step. destruct (env_step _ _) as [b x], w. cbn. by case_match.
Qed.

Lemma stays_generation {A B} (e : locE B) (k : B -> prog A) v R :
  mutex_op e = false -> (forall w b w', loc_step e w = Some (b, w') -> file w' = file w) ->
  (forall b, stays v (k b) R) -> stays v (loc e ≫= k) R.
Proof. intros He Hf Hk. split; [done|]. intros w b w' <- E. rewrite (Hf w b w' E). apply Hk. Qed.

Lemma stays_ReadFile {A} (k : string -> prog A) v R : stays v (k v) R -> stays v (loc ReadFile ≫= k) R.
Proof. intros Hk. split; [done|]. intros w b w' <- E. cbn in E. by simplify_eq. Qed.

Lemma stays_file {A} (e : locE unit) f (k : unit -> prog A) v R :
  mutex_op e = false -> (forall w, loc_step e w = Some (tt, set_exports (f (file w)) w)) ->
  stays (f v) (k tt) R -> stays v (loc e ≫= k) R.
Proof.
  intros He Hf Hk. split; [done|]. intros w b w' <- E. rewrite Hf in E. simplify_eq. by destruct w.
Qed.

Lemma stays_WriteString {A} s (k : option go_error -> prog A) v R :
  stays (v +:+ s) (k None) R -> stays v (file_WriteString s ≫= k) R.
Proof using Hwrite.
  intros Hk w <-. replace (ext_step OsWrite w).1 with (@None (nat * go_error)).
  - rewrite silent_step, file_env by done. change (stays (file w) (loc (AppendFile s) ≫= fun _ => k None) R).
    by apply (stays_file _ (fun v => v +:+ s)).
  - unfold ext_step. destruct (env_step OsWrite (w_env w)) as [ [r|] x] eqn:E; [|done].
    destruct Hwrite. exists (w_env w). by rewrite E.
Qed.
#[local] Arguments file_WriteString : simpl never.

Lemma stays_scan_file v :
  stays v scan_file (fun r v' => v' = v /\ (r.2 = None -> ScanLines v = (r.1, false))).
Proof.
  unfold scan_file. apply stays_ReadFile, stays_silent; [done|]. intros fault. cbn zeta.
  destruct fault as [ [n e] |]; destruct (ScanLines _) as [ts [] ] eqn:E; split; try done; by intros [=].
Qed.

Lemma stays_closing {A} (p : prog A) v R : stays v p R -> stays v (deferred p defer_Close) R.
Proof.
  intros Hp. eapply stays_deferred; [done|exact Hp|]. intros a v' HR. unfold defer_Close, file_Close. by apply stays_silent.
Qed.

Lemma stays_fail v e (R : pair_err Z -> string -> Prop) :
  (forall g, R (g, Some e) v) -> stays v (fail_generation e) R.
Proof. intros HR. unfold fail_generation. apply stays_generation; [done|by intros ? ? ? [= _ <-]|]. intros g. apply HR. Qed.

Lemma stays_bump v (R : pair_err Z -> string -> Prop) : (forall g, R (g, None) v) -> stays v bump_generation R.
Proof.
  intros HR. unfold bump_generation. apply stays_generation; [done|by intros ? ? ? [= _ <-]|]. intros g.
  apply stays_generation; [done|by intros [] ? ? [= _ <-]|]. intros [].
  apply stays_generation; [done|by intros ? ? ? [= _ <-]|]. intros g'. apply HR.
Qed.

Lemma stays_checkExport v d : stays v (checkExport d) (fun _ v' => v' = v).
Proof.
  unfold checkExport. apply stays_silent; [done|]. intros [e|]; [done|].
  apply stays_closing.
  eapply stays_bind; [apply stays_scan_file|]. intros [lines serr] v' [-> _].
  by case_match; [|case_match].
Qed.

(** A call that is one section, in which the file changes as [R] says. *)
Definition changes {A} (p : prog A) (R : string -> string -> Prop) : Prop :=
  exists body, p = with_lock exportsLock body /\ forall v, stays v body (fun _ => R v).

Lemma AddExport_body d o :
  changes (AddExport d o) (fun v v' => v' = v \/ v' = v +:+ entry_text d o).
Proof using Hwrite.
  eexists. split; [reflexivity|]. intros v. eapply stays_bind; [apply stays_checkExport|]. intros [b err] v' ->.
  destruct err as [e|]; [by apply stays_fail; left|]. destruct b; [by apply stays_fail; left|].
  apply stays_silent; [done|]. intros [e|]; [by apply stays_fail; left|].
  apply stays_closing. apply stays_WriteString. by apply stays_bump; right.
Qed.

Lemma stays_write_lines v ls (R : pair_err Z -> string -> Prop) :
  (forall g, R (g, None) (v +:+ unlines ls)) -> stays v (write_lines ls) R.
Proof using Hwrite.
  revert v. induction ls as [|l ls IH]; intros v HR.
  - apply stays_bump. by rewrite string_app_nil_r in HR.
  - change (stays v (file_WriteString (l +:+ newline) ≫= fun err => match err with
      | Some _ => err ← file_Close; fail_generation (Errorf ("failed to write to " +:+ exportsDir +:+ ": " +:+ show_err err))
      | None => write_lines ls end) R).
    apply stays_WriteString, IH. intros g. specialize (HR g). cbn [unlines] in HR. by rewrite !string_app_assoc in *.
Qed.

Lemma DeleteExport_body d :
  changes (DeleteExport d) (fun v v' => v' = v \/ (ScanLines v).2 = false /\ v' = unlines (keep_lines d (ScanLines v).1)).
Proof using Hwrite.
  eexists. split; [reflexivity|]. intros v. apply stays_silent; [done|]. intros [e|]; [by apply stays_fail; left|].
  apply stays_closing.
  eapply stays_bind; [apply stays_scan_file|]. intros [lines serr] v' [-> Hscan].
  destruct serr as [e|]; [by apply stays_fail; left|]. rewrite Hscan by done.
  apply stays_silent; [done|]. intros [e|]; [by apply stays_fail; left|].
  apply stays_silent; [done|]. intros [e|]; [by apply stays_fail; left|].
  apply (stays_file _ (fun _ => "")); [done|done|].
  apply stays_closing. apply stays_write_lines. by right.
Qed.

Lemma stays_resync v n g e : stays v (resync_attempts n g e) (fun _ v' => v' = v).
Proof.
  revert e. induction n as [|n IH]; intros e; [done|]. cbn [resync_attempts].
  apply stays_exec. intros [out [e'|] ].
  - apply stays_silent; [done|]. intros []. apply IH.
  - by apply stays_generation; [|by intros [] ? ? [= _ <-]|].
Qed.

Lemma ResyncNFSMountd_body g :
  changes (ResyncNFSMountd g) (fun v v' => v' = v).
Proof.
  eexists. split; [reflexivity|]. intros v. apply stays_generation; [done|by intros ? ? ? [= _ <-]|]. intros s.
  case_match; [|apply stays_resync].
  apply stays_generation; [done|by intros ? ? ? [= _ <-]|]. intros u.
  by apply stays_generation; [|by intros [] ? ? [= _ <-]|].
Qed.

Lemma GetExports_body p :
  changes (GetExports p) (fun v v' => v' = v).
Proof.
  eexists. split; [reflexivity|]. intros v. apply stays_silent; [done|]. intros [e|]; [done|].
  apply stays_closing.
  eapply stays_bind; [apply stays_scan_file|]. intros [lines serr] v' [-> _]. by destruct serr.
Qed.

Lemma CheckExport_body d : changes (CheckExport d) (fun v v' => v' = v).
Proof. eexists. split; [reflexivity|]. intros v. apply stays_checkExport. Qed.

Lemma changes_fine (I : string -> Prop) (window : string -> Prop) {A} (p : prog A) R n :
  changes p R -> (forall v v', I v -> R v v' -> I v') ->
  fine exportsLock (@silent) file I (fun _ => 0) window (Outside n) p (fun _ _ => True).
Proof.
  intros (body & -> & Hbody) HR. apply fine_with_lock. intros v _ _ HI.
  eapply (stays_mono file body (fun _ => False)); [done| |apply Hbody]. intros a v' Hv. cbn. eauto with zarith.
Qed.
End File.

(** ** All goroutines together *)

Section Activities.
Context `{UnicodeTables} `{Globals} `{Printing} (cs : CsiNfsService).
Context {X : Type} `{Env X} (Hwrite : ~ write_fault).
Implicit Types w : world X.
Implicit Types s : system X.

Lemma view_other {B} (e : locE B) w b w' :
  exports_op e = false -> loc_step e w = Some (b, w') -> view_of w' = view_of w.
Proof.
  intros He E. destruct w, e as [| | | |A v|A v y| | | | | | | |]; try done; try destruct v; try done;
    cbn in E; repeat case_match; by simplify_eq.
Qed.

Lemma file_other {B} (e : locE B) w b w' :
  exports_op e = false -> loc_step e w = Some (b, w') -> w_exports w' = w_exports w.
Proof. intros He E. change (v_exports (view_of w') = v_exports (view_of w)). by rewrite (view_other e w b w'). Qed.

Lemma view_silent {B} (e : extE B) w : silent e = true -> view_of (ext_step e w).2 = view_of w.
Proof. intros He. rewrite silent_step by done. by destruct w. Qed.

Lemma file_silent {B} (e : extE B) w : silent e = true -> w_exports (ext_step e w).2 = w_exports w.
Proof. intros He. rewrite silent_step by done. apply file_env. Qed.

Lemma record_activity (x0 : X) a n :
  adds a = false -> fine exportsLock (@silent) view_of truthful v_generation unspent (Outside n) (perform cs a) (fun _ _ => True).
Proof using Hwrite.
  intros Ha. apply (not_adding_well cs _ _ _ _ (@view_other) (fun n g => g <= n) (fun _ => True));
    [lia|by apply record_list|by apply record_resync|by intros; apply record_delete|done|by apply Forall_true].
Qed.

(** C12: whatever unexports, probes, controller and node calls, monitors and
    recoveries run at the same time, interleaved at every operation and in
    every environment without torn writes: whenever [exportsLock] is free the
    record of the synchronisation is truthful.  It is not ahead of the file,
    and when it says that the file is synchronised, the kernel exports what
    the file says.  The counter of changes is assumed not to reach the largest
    [int64].  Exports are left out: they assign the counter outside of the
    mutex, which breaks the record
    ([NfsServer.ExportNfsVolume_generation_race]). *)
Theorem unexports_keep_record_true (acts : list activity) w s
    (Hacts : Forall (fun a => adds a = false) acts) (Hsync : in_sync w) (Hmax : w_generation w < max_int64)
    (Hreach : rtc (wstep view_of unspent) (System (perform cs <$> acts) w) s)
    (Hfree : free exportsLock (shared s)) :
  in_sync (shared s).
Proof using Hwrite.
  split; [exact Hfree|]. destruct Hsync as [Hf Ht].
  apply (guarded_invariant exportsLock (@silent) view_of truthful v_generation unspent) with (perform cs <$> acts) w; try done;
    try (by intros ? []); [by intros; apply view_silent|].
  apply Forall_fmap. eapply Forall_impl; [exact Hacts|]. intros a Ha. by apply record_activity; [apply w_env|].
Qed.

Lemma file_activity (safe : string -> Prop) a n :
  (forall e, safe e -> untrimmable e = true) -> (forall e, ~ safe e) \/ dumps a = false ->
  Forall (fun d => forall e, safe e -> HasPrefix e d = false) (deletions a) ->
  fine exportsLock (@silent) (w_exports (X := X)) (has_lines safe) (fun _ => 0) (fun _ => True) (Outside n) (perform cs a) (fun _ _ => True).
Proof using Hwrite.
  intros Hsafe Hdump Hd.
  apply (activity_well cs _ _ _ _ (@file_other) (fun _ _ => True) (fun d => forall e, safe e -> HasPrefix e d = false)); try done.
  - intros k d. eapply changes_fine; [apply CheckExport_body|]. by intros v v' HI ->.
  - intros k d. eapply changes_fine; [apply GetExports_body|]. by intros v v' HI ->.
  - intros k g _. eapply changes_fine; [apply ResyncNFSMountd_body|]. by intros v v' HI ->.
  - intros k d Hdel. eapply fine_post; [|eapply changes_fine; [by apply DeleteExport_body|] ]; [done|].
    intros v v' HI [->|[Hscan ->] ]; [done|]. by apply has_lines_delete; auto.
  - intros g. split; [done|]. by intros [] b w' [= _ <-].
  - split; [done|]. by intros w b w' [= _ <-].
  - intros k d o. eapply changes_fine; [by apply AddExport_body|]. intros v v' HI [->| ->]; [done|]. by apply has_lines_add.
  - destruct Hdump as [Hno|]; [|by right]. left. by intros d e He%Hno.
Qed.

Lemma cstep_wstep s s' : rtc cstep s s' -> rtc (wstep (w_exports (X := X)) (fun _ => True)) s s'.
Proof. induction 1; [constructor|]. eapply rtc_l; [split; [eassumption|done]|done]. Qed.

Lemma lines_kept (safe : string -> Prop) (acts : list activity) w s :
  Forall (fun a => ((forall e, ~ safe e) \/ dumps a = false) /\
                   Forall (fun d => forall e, safe e -> HasPrefix e d = false) (deletions a)) acts ->
  (forall e, safe e -> untrimmable e = true) -> has_lines safe (w_exports w) -> free exportsLock w ->
  rtc cstep (System (perform cs <$> acts) w) s -> free exportsLock (shared s) -> has_lines safe (w_exports (shared s)).
Proof using Hwrite.
  intros Hacts Hsafe Hl Hf Hr%cstep_wstep Hf'.
  apply (guarded_invariant exportsLock (@silent) w_exports (has_lines safe) (fun _ => 0) (fun _ => True)) with (perform cs <$> acts) w;
    try done; try (by intros ? []); [by intros; apply file_silent|].
  apply Forall_fmap. eapply Forall_impl; [exact Hacts|]. intros a [Hdump Hd]. by apply file_activity.
Qed.

(** C11: all handlers, goroutines and monitors at the same time, interleaved
    at every operation and in every environment without torn writes: whenever
    [exportsLock] is free, the exports file consists of whole lines, so that
    no entry is merged with another one; and an entry that was in the file is
    in the file, unless some activity unexports a path that the entry begins
    with or dumps all exports. *)
Theorem exports_survive_concurrency (acts : list activity) w s
    (Hwhole : w_exports w = unlines (raw_lines (w_exports w))) (Hlock : free exportsLock w)
    (Hreach : rtc cstep (System (perform cs <$> acts) w) s) (Hfree : free exportsLock (shared s)) :
  w_exports (shared s) = unlines (raw_lines (w_exports (shared s))) /\
  forall e, untrimmable e = true -> e ∈ raw_lines (w_exports w) ->
    Forall (fun a => dumps a = false /\ Forall (fun d => HasPrefix e d = false) (deletions a)) acts ->
    e ∈ raw_lines (w_exports (shared s)).
Proof using Hwrite.
  split.
  - apply (has_lines_iff (fun _ => False)). apply (lines_kept (fun _ => False) acts w); try done.
    + apply Forall_true. intros a. split; [left; by intros ? []|]. apply Forall_true. by intros d e [].
    + by apply has_lines_iff.
  - intros e He Hin Hacts.
    enough (Hl : has_lines (fun e' => e' = e) (w_exports (shared s))) by (apply has_lines_iff in Hl as [_ Hl]; by apply Hl).
    apply (lines_kept (fun e' => e' = e) acts w); try done; [|by intros ? ->|by apply has_lines_iff; split; [|intros ? ->] ].
    eapply Forall_impl; [exact Hacts|]. intros a [Hd Hall]. split; [by right|].
    eapply Forall_impl; [exact Hall|]. by intros d Hp ? ->.
Qed.
End Activities.

(** ** Two unexports at once, and an unexport beside an export *)

(** A schedule that stays in a window. *)
Fixpoint run_window {X} `{Env X} (inside : world X -> bool) (schedule : list nat) (s : system X) : option (system X) :=
  match schedule with
  | [] => Some s
  | i :: schedule => s' ← sys_step i s; if inside (shared s') then run_window inside schedule s' else None
  end.

Lemma run_window_reachable {X} `{Env X} {V} (proj : world X -> V) (window : V -> Prop) inside schedule s s' :
  (forall w, inside w = true -> window (proj w)) -> run_window inside schedule s = Some s' ->
  rtc (wstep proj window) s s'.
Proof.
  intros Hin. revert s. induction schedule as [|i l IH]; intros s; cbn; [by intros [= ->]|].
  destruct (sys_step i s) as [s1|] eqn:E; [|done]. cbn. destruct (inside (shared s1)) eqn:Hi; [|done].
  intros Hr. eapply rtc_l; [split; [by econstructor|by apply Hin]|by apply IH].
Qed.

Section Example.
#[local] Existing Instance ascii_tables.
#[local] Existing Instance demo_globals.
#[local] Existing Instance demo_printing.
#[local] Existing Instance calm.

Definition demo_entry (id : string) : string := NfsExportDirectory +:+ "/" +:+ id +:+ "/ *(rw)".
Definition demo_unexport (id : string) : activity :=
  RunUnexport 3 {| unreq_VolumeId := id; unreq_UnexportNfsContext := Some ∅ |}.
Definition demo_export (id : string) : activity :=
  RunExport 3 Background {| exreq_VolumeId := id; exreq_ExportNfsContext := Some ∅ |}.
Definition start (acts : list activity) (entries : list string) : system unit :=
  System (perform demo_service <$> acts) (initial_world (unlines entries) tt).

Lemma calm_no_fault : ~ write_fault (H := calm).
Proof. intros [x Hx]. by apply Hx. Qed.

(** The second unexport starts, and waits for its turn in the middle of the
    deletion of the first one. *)
Definition two_unexports : list activity := [demo_unexport "nfs-a"; demo_unexport "nfs-b"].
Definition two_entries : list string := demo_entry <$> ["nfs-a"; "nfs-b"; "nfs-c"].
Definition both_done : system unit :=
  default (start two_unexports two_entries)
    (run_window (fun w => w_generation w <? max_int64)
       ([0; 1] ++ replicate 17 0 ++ replicate 15 1 ++ replicate 5 0 ++ [1; 0; 1; 0; 1; 0] ++ replicate 5 1)%nat
       (start two_unexports two_entries)).

Lemma both_done_reachable :
  rtc (wstep view_of unspent) (start two_unexports two_entries) both_done.
Proof.
  unfold both_done. destruct (run_window _ _ _) as [s|] eqn:E; [|apply rtc_refl].
  eapply run_window_reachable; [|exact E]. intros w Hw. by apply Z.ltb_lt.
Qed.

Lemma unexports_keep_record_true_witness :
  w_syncedGeneration (shared both_done) = w_generation (shared both_done) /\
  w_resynced (shared both_done) = w_exports (shared both_done) /\
  w_exports (shared both_done) = demo_entry "nfs-c" +:+ newline.
Proof.
  assert (E1 : w_syncedGeneration (shared both_done) = w_generation (shared both_done)) by (vm_compute; reflexivity).
  assert (E2 : w_exports (shared both_done) = demo_entry "nfs-c" +:+ newline) by (vm_compute; reflexivity).
  split; [exact E1|]. split; [|exact E2].
  eapply (unexports_keep_record_true demo_service calm_no_fault two_unexports (initial_world (unlines two_entries) tt)).
  - repeat constructor.
  - split; [reflexivity|]. split; [vm_compute; discriminate|]. split; [vm_compute; discriminate|reflexivity].
  - vm_compute. reflexivity.
  - exact both_done_reachable.
  - vm_compute. reflexivity.
  - exact E1.
Defined.

(** An unexport and an export, beside an entry of somebody else. *)
Definition two_changes : list activity := [demo_unexport "nfs-a"; demo_export "nfs-d"].
Definition other_entry : string := "/srv/data/ *(rw)".
Definition changes_start : system unit := start two_changes [other_entry; demo_entry "nfs-a"].
Definition changes_done : system unit :=
  default changes_start
    (run_schedule ([0; 1; 0; 1] ++ replicate 14 0 ++ replicate 6 1 ++ List.concat (replicate 8 [0; 1])
       ++ replicate 18 1)%nat changes_start).

Lemma changes_done_reachable : rtc cstep changes_start changes_done.
Proof.
  unfold changes_done. destruct (run_schedule _ changes_start) as [s|] eqn:E; [|apply rtc_refl].
  exact (run_schedule_reachable _ _ _ E).
Qed.

Lemma exports_survive_concurrency_witness :
  forallb finished (threads changes_done) = true /\ List.length (raw_lines (w_exports (shared changes_done))) = 2%nat /\
  other_entry ∈ raw_lines (w_exports (shared changes_done)).
Proof.
  split; [vm_compute; reflexivity|]. split; [vm_compute; reflexivity|].
  eapply (exports_survive_concurrency demo_service calm_no_fault two_changes
    (initial_world (unlines [other_entry; demo_entry "nfs-a"]) tt) changes_done).
  - vm_compute. reflexivity.
  - reflexivity.
  - exact changes_done_reachable.
  - vm_compute. reflexivity.
  - vm_compute. reflexivity.
  - apply list_elem_of_In. left. vm_compute. reflexivity.
  - repeat constructor.
Defined.
End Example.
