(* ===== verification/Selections.v ===== *)
(** * The choice of new nodes while all handlers run

    Recovery moves the volumes of a failed node in goroutines of their own,
    which choose the new nodes by the counts that [exportCountsLock] guards.
    In every interleaving with each other and with the handlers, and in every
    environment, the choices spread the volumes evenly.  The monitors are left
    out: [nodeRecovery] replaces the counts without the mutex
    ([Federation.nodeRecovery_loses_reservation]). *)

From S2P Require Import Prelude GoStrings Messages GoProg Locks Naming Exports Json Config K8s NfsServer NodeMonitor Controller NodeService NodeRecovery Sharing Reassign Atomic Concurrency Guarded.

(** What holds of the counts whenever the mutex is free, when they were
    [before] at the start. *)
Record spreading (before counts : gmap string Z) : Prop := {
  sp_balanced : balanced counts;
  sp_nodes : dom counts = dom before;
  sp_some : counts <> ∅;
  sp_low k c : counts !! k = Some c -> 0 <= c;
  sp_grows k c c' : before !! k = Some c -> counts !! k = Some c' -> c <= c';
}.

(** Counts that can be incremented. *)
Definition countable (counts : gmap string Z) : Prop := forall k c, counts !! k = Some c -> c < max_int64.

Lemma spreading_reserve before counts sel :
  spreading before counts -> countable counts -> selects counts sel -> spreading before (reserve sel counts).
Proof.
  intros [Hbal Hdom Hne Hlow Hgr] Hmax Hsel.
  destruct (reserve_balanced sel counts Hne Hsel) as [Hbal' Hdom']; [|done|].
  { intros n c Hc. split; [by eapply Hlow|by eapply Hmax]. }
  destruct (proj2 Hsel Hne) as (c0 & Hc0 & _). assert (E : reserve sel counts = <[sel := c0 + 1]> counts).
  { unfold reserve. rewrite Hc0. cbn. f_equal. apply int64_id. pose proof (Hlow _ _ Hc0). pose proof (Hmax _ _ Hc0).
    unfold min_int64, max_int64 in *. lia. }
  pose proof (Hlow _ _ Hc0). split; [done|by rewrite Hdom'|rewrite E; apply insert_non_empty|..].
  - intros k c Hk. rewrite E in Hk. apply lookup_insert_Some in Hk as [ [_ <-]|[_ Hk] ]; [lia|by eapply Hlow].
  - intros k c c' Hk Hk'. rewrite E in Hk'. apply lookup_insert_Some in Hk' as [ [<- <-]|[_ Hk'] ]; [|by eapply Hgr].
    pose proof (Hgr _ _ _ Hk Hc0). lia.
Qed.

Lemma counts_op_locks B (e : locE B) :
  counts_op e = false -> takes exportCountsLock e = false /\ gives exportCountsLock e = false.
Proof. intros He. destruct e; try done; by destruct m. Qed.

Section Selections.
Context `{UnicodeTables} `{Globals} `{Printing} (cs : CsiNfsService).
Context {X : Type} `{Env X}.
Implicit Types w : world X.
Implicit Types s : system X.
Local Abbreviation counts := (w_exportCounts (X := X)).

Lemma counts_other B (e : locE B) w b w' :
  counts_op e = false -> loc_step e w = Some (b, w') -> counts w' = counts w.
Proof.
  intros He E. destruct w, e as [| | | |A v|A v y| | | | | | | |]; try done; try destruct v; try done;
    cbn in E; repeat case_match; by simplify_eq.
Qed.

Lemma counts_set c w : counts (set_var V_exportCounts c w) = c.
Proof. by destruct w. Qed.

Lemma counts_ext B (e : extE B) w : counts (ext_step e w).2 = counts w.
Proof. unfold ext_step. destruct (env_step e (w_env w)) as [b x], w, e; try done. cbn. by case_match. Qed.

Section Before.
Context (before : gmap string Z).
Local Abbreviation well n p :=
  (fine exportCountsLock (@every_call) counts (spreading before) (fun _ => 0) countable (Outside n) p (fun _ _ => True)).

Lemma counts_apart {A} (p : prog A) n : apart (@counts_op) (@every_call) p -> well n p.
Proof. apply apart_fine; [apply counts_op_locks|exact counts_other]. Qed.

Lemma selection_well pv n : well n (findNextAvailableNode pv).
Proof.
  apply fine_with_lock. intros v _ Hmax Hsp. split; [done|]. intros w c w1 <- [= <- <-].
  intros w2 Hw2. rewrite counts_ext, Hw2. generalize (ext_step RangeChoices w2).1. intros choices.
  cbn [mbind prog_bind]. pose proof (selection_correct choices (counts w) Hmax) as Hsel.
  destruct (List.fold_left lower (permute choices (map_to_list (counts w))) ("", max_int64)) as [sel c].
  split; [done|]. intros w3 c3 w4 Hw3 [= <- <-]. rewrite Hw3.
  split; [done|]. intros w5 [] w6 Hw5 [= <-].
  rewrite counts_set, Hw5. fold (reserve sel (counts w)).
  pose proof (spreading_reserve before (counts w) sel Hsp Hmax Hsel).
  by destruct (pv_VolumeHandle pv).
Qed.

Lemma reassignVolume_well fuel sl n : well n (reassignVolume cs fuel sl).
Proof.
  unfold reassignVolume. apply well_bind; [by apply counts_apart|]. intros v n1 _.
  apply well_bind; [apply counts_apart; auto with goapart|]. intros [] n2 _.
  apply well_deferred; [|by intros; apply counts_apart]. unfold reassign_locked.
  apply well_bind; [by apply counts_apart|]. intros v' n3 _.
  apply well_bind; [by apply counts_apart|]. intros [pv|e] n4 _; [|done].
  apply well_bind; [by apply counts_apart|]. intros [svc|e] n5 _; [|done].
  apply well_bind; [apply selection_well|]. intros sel n6 _.
  destruct (pv_VolumeHandle pv); [|done]. apply counts_apart. auto with goapart.
Qed.

Lemma recover_volume_well fuel sl n : well n (recover_volume cs fuel sl).
Proof.
  apply well_bind; [apply reassignVolume_well|]. intros [e|] n1 _; [|done].
  by apply well_bind; [apply reassignVolume_well|].
Qed.
End Before.

(** C27: the volumes of failed nodes are spread evenly however their recoveries
    overlap: any number of goroutines that move volumes, beside any calls of
    the RPC handlers, interleaved at every operation and in any environment
    (so for every order in which Go ranges over the map, and every error).
    If the counts of the available nodes differ by at most one, they do
    whenever [exportCountsLock] is free; no node is added or dropped, and
    counts only grow.  The counters are assumed not to reach the largest
    [int]. *)
Theorem concurrent_selections_stay_balanced (acts : list activity) (movers : list (nat * nat)) w s
    (Hacts : Forall (fun a => monitors_nodes a = false) acts)
    (Hlock : free exportCountsLock w) (Hnodes : counts w <> ∅) (Hbal : balanced (counts w))
    (Hrange : forall k c, counts w !! k = Some c -> 0 <= c < max_int64)
    (Hreach : rtc (wstep counts countable)
       (System ((perform cs <$> acts) ++ ((fun '(fuel, sl) => recover_volume cs fuel sl) <$> movers)) w) s)
    (Hfree : free exportCountsLock (shared s)) :
  balanced (counts (shared s)) /\ dom (counts (shared s)) = dom (counts w) /\
  forall k c c', counts w !! k = Some c -> counts (shared s) !! k = Some c' -> c <= c'.
Proof.
  enough (Hsp : spreading (counts w) (counts (shared s))) by (by destruct Hsp).
  eapply (guarded_invariant exportCountsLock (@every_call) counts (spreading (counts w)) (fun _ => 0) countable);
    try exact Hreach; try done.
  - by intros l [].
  - by intros b [].
  - intros. apply counts_ext.
  - apply Forall_app. split; apply Forall_fmap.
    + eapply Forall_impl; [exact Hacts|]. intros a Ha. apply counts_apart. by apply activity_apart.
    + apply Forall_true. intros [fuel sl]. apply recover_volume_well.
  - split; [done..|intros k c Hc; apply (Hrange k c Hc)|]. intros k c c' Hc Hc'. rewrite Hc in Hc'. by simplify_eq.
  - intros k c Hc. apply (Hrange k c Hc).
Qed.
End Selections.

(** ** Two recoveries at once, beside a call *)

Lemma run_fair_reachable {X} `{Env X} {V} (proj : world X -> V) (window : V -> Prop) inside schedule s :
  (forall w, inside w = true -> window (proj w)) -> rtc (wstep proj window) s (run_fair inside schedule s).
Proof.
  intros Hin. revert s. induction schedule as [|i l IH]; intros s; cbn; [constructor|].
  destruct (sys_step i s) as [s1|] eqn:E; [|done]. destruct (inside (shared s1)) eqn:Hi; [|constructor].
  eapply rtc_l; [split; [by econstructor|by apply Hin]|done].
Qed.

Section Example.
#[local] Existing Instance ascii_tables.
#[local] Existing Instance demo_globals.
#[local] Existing Instance demo_printing.
#[local] Existing Instance sim_step.

(** Another volume, behind the same service. *)
Definition other_slice : EndpointSlice :=
  {| es_Name := es_Name sim_slice; es_Namespace := es_Namespace sim_slice; es_Labels := es_Labels sim_slice;
     es_Annotations := Some {[DriverVolumeID := "nfs-v2"]};
     es_Endpoints := es_Endpoints sim_slice; es_Ports := es_Ports sim_slice |}.
Definition even_counts : gmap string Z := {["csi-1" := 3%Z; "csi-2" := 3%Z]}.
Definition recovering_world : world sim := set_slices [sim_slice; other_slice] (sim_failed even_counts).
Definition recovering : system sim :=
  System ((perform demo_service <$> [RunGetExports]) ++
          ((fun '(fuel, sl) => recover_volume demo_service fuel sl) <$> [(3, 0); (3, 1)]%nat)) recovering_world.
Definition inside_window (w : world sim) : bool :=
  forallb (fun p => p.2 <? max_int64) (map_to_list (w_exportCounts w)).
Definition recovered : system sim :=
  run_fair inside_window (List.concat (replicate 150 [0; 1; 2; 3; 4]%nat)) recovering.

Lemma recovered_reachable : rtc (wstep w_exportCounts countable) recovering recovered.
Proof.
  apply run_fair_reachable. intros w Hw k c Hc. unfold inside_window in Hw. rewrite forallb_forall in Hw.
  apply Z.ltb_lt, (Hw (k, c)), list_elem_of_In. by apply elem_of_map_to_list.
Qed.

Lemma even_counts_elem k c : even_counts !! k = Some c -> c = 3.
Proof.
  unfold even_counts. by intros [ [_ <-]|[_ [_ <-]%lookup_singleton_Some] ]%lookup_insert_Some.
Qed.

Lemma recovering_counts : w_exportCounts recovering_world = even_counts.
Proof.
  trans (w_exportCounts (sim_failed even_counts)); [|apply sim_failed_counts].
  unfold recovering_world. by destruct (sim_failed even_counts).
Qed.

Lemma concurrent_selections_stay_balanced_witness :
  forallb finished (threads recovered) = true /\
  map (w_exportCounts (shared recovered) !!.) ["csi-1"; "csi-2"] = [Some 4; Some 4] /\
  balanced (w_exportCounts (shared recovered)).
Proof.
  split; [vm_compute; reflexivity|]. split; [vm_compute; reflexivity|].
  eapply (concurrent_selections_stay_balanced demo_service [RunGetExports] [(3, 0); (3, 1)]%nat recovering_world recovered).
  - repeat constructor.
  - vm_compute. reflexivity.
  - rewrite recovering_counts. intros E%(f_equal (fun m : gmap string Z => m !! "csi-2")). discriminate E.
  - rewrite recovering_counts. intros k k' c c' ->%even_counts_elem ->%even_counts_elem. discriminate.
  - rewrite recovering_counts. intros k c ->%even_counts_elem. split; [discriminate|reflexivity].
  - exact recovered_reachable.
  - vm_compute. reflexivity.
Defined.
End Example.
