(* ===== verification/Serial.v ===== *)
(** * Overlapping calls for a volume take effect one after the other

    [Sharing.v] is about calls that do not overlap.  Here any number of
    publish and unpublish calls for a volume run at the same time, interleaved
    at every operation ([cstep]), while the rest of the program may do to the
    outside whatever does not concern volumes ([noise]).  The lock of the volume
    makes the calls take effect in some order ([concurrent_calls_serialize]).

    The proof turns what [run] says of a call in every environment of a class
    into what it does under interference: the interference is made a part of
    the environment ([noisy_step]), which is again of the class. *)

From S2P Require Import Prelude GoStrings Messages GoProg Naming Locks Exports Config K8s NfsServer NodeHost NodeMonitor Controller Sharing Concurrency.

(** ** A process in another outside *)

Section Relocate.
Context {X Y : Type}.

Definition at_env (y : Y) (w : world X) : world Y :=
  let '(World a b c d e f g r h t q i j k s _) := w in World a b c d e f g r h t q i j k s y.

Lemma loc_step_at_env y {B} (e : locE B) (w : world X) :
  loc_step e (at_env y w) =
  match loc_step e w with Some (b, w') => Some (b, at_env y w') | None => None end.
Proof.
  destruct w, e; cbn;
    repeat match goal with m : lockmap |- _ => destruct m | v : var _ |- _ => destruct v end; cbn;
    by repeat case_match; simplify_eq.
Qed.

Lemma note_exec_at_env y {B} (e : extE B) b (w : world X) :
  note_exec e b (at_env y w) = at_env y (note_exec e b w).
Proof. destruct w, e; cbn; repeat case_match; done. Qed.

Lemma w_env_at_env y (w : world X) : w_env (at_env y w) = y.
Proof. by destruct w. Qed.
End Relocate.
#[global] Arguments at_env : simpl never.

Lemma at_env_same {X} (x : X) w : at_env x w = set_env x w.
Proof. by destruct w. Qed.

Lemma at_env_at_env {X Y Z} (y : Y) (z : Z) (w : world X) : at_env z (at_env y w) = at_env z w.
Proof. by destruct w. Qed.

Lemma loc_step_env {X B} (e : locE B) (w w' : world X) b : loc_step e w = Some (b, w') -> w_env w' = w_env w.
Proof.
  intros E. destruct w, e; cbn in E; repeat case_match; simplify_eq; cbn; try done; by repeat case_match.
Qed.

(** ** Programs under interference *)

Section Interference.
Context {X : Type} `{Env X}.
Implicit Types w : world X.
Context (quiet : X -> X -> Prop) `{!PreOrder quiet}.

(** What others may do between two operations. *)
Record interference := Interference { act : X -> X; act_quiet x : quiet x (act x) }.
Definition noise (x x' : X) : Prop := exists f, x' = act f x.

Lemma noise_refl x : noise x x.
Proof. by exists (Interference (fun x => x) (fun x => reflexivity x)). Qed.

Lemma noise_trans x y z : noise x y -> noise y z -> noise x z.
Proof.
  intros [f ->] [g ->].
  unshelve eexists (Interference (fun x => act g (act f x)) _); [|done].
  intros u. etrans; apply act_quiet.
Qed.

(** The program ends with a result in [Q], without a panic, a wait for a mutex
    or a goroutine of its own, whatever the others do. *)
Fixpoint wp {A} (p : prog A) (Q : A -> world X -> Prop) w : Prop :=
  match p with
  | Ret a => forall x, noise (w_env w) x -> Q a (set_env x w)
  | Loc e k => match loc_step e w with Some (b, w') => wp (k b) Q w' | None => False end
  | Ext e k =>
      forall x, noise (w_env w) x -> let '(b, w') := ext_step e (set_env x w) in wp (k b) Q w'
  | Panic _ | NoFuel _ | Go _ _ => False
  end.

Lemma wp_noise {A} (p : prog A) Q w x : noise (w_env w) x -> wp p Q w -> wp p Q (set_env x w).
Proof.
  revert w. induction p as [A a|A msg|A|A B e k IH|A B e k IH|A q IHq k IH]; intros w Hx Hp; cbn in *; try done.
  - intros y Hy. rewrite set_env_set_env. apply Hp. rewrite w_env_set_env in Hy. by eapply noise_trans.
  - rewrite <- at_env_same, loc_step_at_env. destruct (loc_step e w) as [ [b w'] |] eqn:E; [|done].
    rewrite at_env_same. apply IH; [|done].
    by rewrite (loc_step_env _ _ _ _ E).
  - intros y Hy. rewrite set_env_set_env. apply Hp. rewrite w_env_set_env in Hy. by eapply noise_trans.
Qed.

Lemma wp_step (p p' : prog unit) Q w w' :
  wp p Q w -> thread_step p w = Some (p', w') -> wp p' Q w' /\ w_spawned w' = w_spawned w.
Proof.
  destruct p as [a|msg| |B e k|B e k|q k]; cbn; try done.
  - destruct (loc_step e w) as [ [b w1] |] eqn:E; [|done]. intros Hp [= <- <-].
    split; [done|]. by eapply loc_step_spawned.
  - intros Hp. specialize (Hp (w_env w) (noise_refl _)). rewrite set_env_id in Hp.
    pose proof (ext_step_spawned e w) as Hs. destruct (ext_step e w) as [b w1]. by intros [= <- <-].
Qed.

(** The outside together with what the others are going to do: before every
    call the next interference happens. *)
Definition before (fs : list interference) (x : X) : X := match fs with f :: _ => act f x | [] => x end.

#[local] Instance noisy_step : Env (X * list interference) := fun B e s =>
  let '(b, x) := env_step e (before s.2 s.1) in (b, (x, List.tl s.2)).

Lemma before_quiet fs x : quiet x (before fs x).
Proof. destruct fs as [|f fs]; [reflexivity|apply act_quiet]. Qed.

Lemma ext_step_noisy f fs {B} (e : extE B) w :
  ext_step e (at_env (w_env w, f :: fs) w) =
  let '(b, w') := ext_step e (set_env (act f (w_env w)) w) in (b, at_env (w_env w', fs) w').
Proof.
  unfold ext_step. rewrite w_env_at_env, w_env_set_env. unfold env_step at 1, noisy_step. cbn [fst snd before List.tl].
  destruct (env_step e (act f (w_env w))) as [b x]. rewrite <- !at_env_same, !at_env_at_env, !note_exec_at_env.
  by rewrite w_env_at_env, at_env_at_env.
Qed.

Lemma run_spawned {Y} `{Env Y} {A} (p : prog A) (w : world Y) :
  exists l, w_spawned (run p w).2 = w_spawned w ++ l.
Proof.
  revert w. induction p as [A a|A msg|A|A B e k IH|A B e k IH|A q IHq k IH]; intros w; cbn;
    try (by exists []; rewrite app_nil_r).
  - destruct (loc_step e w) as [ [b w'] |] eqn:E; [|by exists []; rewrite app_nil_r].
    rewrite <- (loc_step_spawned _ _ _ _ E). apply IH.
  - pose proof (ext_step_spawned e w) as Hs. destruct (ext_step e w) as [b w']. rewrite <- Hs. apply IH.
  - destruct (IH (spawn q w)) as [l Hl]. exists ([q] ++ l). rewrite Hl, app_assoc. by destruct w.
Qed.

(** A program that has a good end in the outside with every interference has
    one under interference. *)
Lemma wp_run {A} (p : prog A) (Q : A -> world X -> Prop) w :
  (forall a (w' : world X) x, Q a w' -> noise (w_env w') x -> Q a (set_env x w')) ->
  (forall fs, exists a (w' : world (X * list interference)), run p (at_env (w_env w, fs) w) = (Done a, w') /\
     w_spawned w' = w_spawned w /\ Q a (at_env (w_env w').1 w')) ->
  wp p Q w.
Proof.
  intros HQ. revert w. induction p as [A a|A msg|A|A B e k IH|A B e k IH|A q IHq k IH]; intros w Hr; cbn [wp].
  - intros x Hx. destruct (Hr []) as (b & w' & [= <- <-] & _ & Hq).
    rewrite w_env_at_env, at_env_at_env in Hq. cbn [fst] in Hq. rewrite at_env_same, set_env_id in Hq. by apply HQ.
  - by destruct (Hr []) as (b & w' & E & _).
  - by destruct (Hr []) as (b & w' & E & _).
  - destruct (loc_step e w) as [ [b w1] |] eqn:E.
    + apply IH; [done|]. intros fs. destruct (Hr fs) as (a & w' & E' & Hs & Hq). exists a, w'.
      rewrite (loc_step_env _ _ _ _ E), (loc_step_spawned _ _ _ _ E). split; [|done].
      cbn [run] in E'. by rewrite loc_step_at_env, E in E'.
    + destruct (Hr []) as (a & w' & E' & _). cbn [run] in E'. by rewrite loc_step_at_env, E in E'.
  - intros x [f ->]. destruct (ext_step e (set_env (act f (w_env w)) w)) as [b w1] eqn:E.
    apply IH; [done|]. intros fs. destruct (Hr (f :: fs)) as (a & w' & E' & Hs & Hq). exists a, w'.
    pose proof (ext_step_spawned e (set_env (act f (w_env w)) w)) as Hsp. rewrite E in Hsp. cbn [snd] in Hsp.
    split; [|split; [by rewrite Hs, Hsp; destruct w|done] ].
    cbn [run] in E'. by rewrite ext_step_noisy, E in E'.
  - destruct (Hr []) as (a & w' & E & Hs & _). cbn [run] in E.
    destruct (run_spawned k (spawn q (at_env (w_env w, []) w))) as [l Hl]. rewrite E in Hl. cbn [snd] in Hl.
    replace (w_spawned (spawn q _)) with (w_spawned w ++ [q]) in Hl by by destruct w.
    rewrite Hs in Hl. apply (f_equal List.length) in Hl. rewrite !length_app in Hl. cbn in Hl. lia.
Qed.
End Interference.

(** ** The cluster with interference is a cluster *)

Section NoisyCluster.
Context `{UnicodeTables} `{Globals} {X : Type} `{Env X} `{!KubeStore X} `{!Cluster X} `{!NfsServers X}.
Local Abbreviation noisy := (X * list (interference (X := X) same_view))%type.
#[local] Instance noisy_env : Env noisy := noisy_step same_view.

Lemma noisy_call {B} (e : extE B) (s : noisy) b x :
  env_step e (before same_view s.2 s.1) = (b, x) -> env_step e s = (b, (x, List.tl s.2)).
Proof. unfold env_step at 2, noisy_env, noisy_step. by intros ->. Qed.

Lemma noisy_answer {B} (e : extE B) (s : noisy) :
  (env_step e s).1 = (env_step e (before same_view s.2 s.1)).1 /\
  (env_step e s).2.1 = (env_step e (before same_view s.2 s.1)).2.
Proof. destruct (env_step e (before same_view s.2 s.1)) as [b x] eqn:E. by rewrite (noisy_call e s b x E). Qed.

(** A law of the outside holds after the interference. *)
Local Ltac law s t :=
  let A := fresh in let B := fresh in let C := fresh in let D := fresh in
  destruct (before_quiet same_view s.2 s.1) as (A & B & C & D);
  let x := fresh "x" in let E := fresh "E" in
  destruct (t (before same_view s.2 s.1)) as (x & E & ? & ?); [by rewrite ?A, ?B..|];
  exists (x, List.tl s.2); split; [rewrite <- ?A, <- ?B; by apply noisy_call|by rewrite <- ?A, <- ?B].

#[local] Program Instance noisy_store : KubeStore noisy := {
  services := fun s => services s.1;
  slices := fun s => slices s.1;
}.
Next Obligation. intros name s. law s (get_service name). Qed.
Next Obligation. intros name s. law s (get_slice name). Qed.
Next Obligation. intros v s Hv. law s (create_service v). Qed.
Next Obligation. intros v s Hv. law s (create_slice v). Qed.
Next Obligation. intros v s Hv. law s (update_service v). Qed.
Next Obligation. intros v s Hv. law s (update_slice v). Qed.
Next Obligation. intros name s Hv. law s (delete_service name). Qed.
Next Obligation. intros name s Hv. law s (delete_slice name). Qed.
Next Obligation.
  intros B e s He. destruct (noisy_answer e s) as [_ ->]. destruct (before_quiet same_view s.2 s.1) as (<- & <- & _).
  by apply store_frame.
Qed.

#[local] Program Instance noisy_cluster : Cluster noisy := {
  attached := fun s => attached s.1;
  cluster_nodes := cluster_nodes;
}.
Next Obligation.
  intros req s Hs. destruct (before_quiet same_view s.2 s.1) as (_ & _ & C & _).
  destruct (c_publish req (before same_view s.2 s.1)) as (r & x & E & Hr & Ha); [by rewrite C|].
  exists r, (x, List.tl s.2). split; [by apply noisy_call|]. split; [done|]. by rewrite <- C.
Qed.
Next Obligation.
  intros req s. destruct (before_quiet same_view s.2 s.1) as (_ & _ & C & _).
  destruct (c_unpublish req (before same_view s.2 s.1)) as (x & E & Ha).
  exists (x, List.tl s.2). split; [by apply noisy_call|]. by rewrite <- C.
Qed.
Next Obligation. intros s. destruct (noisy_answer KubeListNodes s) as [-> _]. apply c_nodes. Qed.
Next Obligation. intros address s. destruct (noisy_answer (NewClient address) s) as [-> _]. apply c_client. Qed.
Next Obligation. intros ctx s. destruct (noisy_answer (SelectDone ctx) s) as [-> _]. apply c_done. Qed.
Next Obligation.
  intros B e s He. destruct (noisy_answer e s) as [_ ->]. destruct (before_quiet same_view s.2 s.1) as (_ & _ & <- & _).
  by apply c_frame.
Qed.

#[local] Program Instance noisy_servers : NfsServers noisy := {
  server_state := server_state;
  servers := fun s => servers s.1;
  servers_ok := servers_ok;
  exported_at := exported_at;
  server_at := server_at;
  separate := separate;
}.
Next Obligation. apply s_less. Qed.
Next Obligation.
  intros address req id n s Hok Hat Hnfs Hid Hname. destruct (before_quiet same_view s.2 s.1) as (_ & _ & _ & D).
  destruct (s_export address req id n (before same_view s.2 s.1)) as (r & x & E & Hx); [by rewrite D|done..|].
  exists r, (x, List.tl s.2). split; [by apply noisy_call|]. by rewrite <- D.
Qed.
Next Obligation.
  intros address req id n s Hok Hat Hnfs Hid Hname. destruct (before_quiet same_view s.2 s.1) as (_ & _ & _ & D).
  destruct (s_unexport address req id n (before same_view s.2 s.1)) as (r & x & E & Hx); [by rewrite D..|done|done|done|].
  exists r, (x, List.tl s.2). split; [by apply noisy_call|]. by rewrite <- D.
Qed.
Next Obligation.
  intros B e s He. destruct (noisy_answer e s) as [_ ->]. destruct (before_quiet same_view s.2 s.1) as (_ & _ & _ & <-).
  by apply s_frame.
Qed.
End NoisyCluster.

(** ** The calls and their critical sections *)

Section Threads.
Context `{UnicodeTables} `{Globals} `{Printing} (cs : CsiNfsService).
Context {X : Type} `{Env X} `{!KubeStore X} `{!Cluster X} `{!NfsServers X}.
Implicit Types w : world X.
Context (fuel : nat) (ctx : context) (id : string) (m : gmap string string).
Local Abbreviation unlocked := (fun B (e : locE B) => touches_map PVLock e = false).
Local Abbreviation WP := (@wp X _ same_view unit).

(** With the lock free one attempt is as good as many. *)
Lemma run_lock_fuel {Y} `{Env Y} {A} l l' rid (body : prog A) (v : world Y) :
  w_PVLock v !! id = None -> all_ops unlocked body ->
  run (_ ← LockPV (S l) id rid false; deferred body (UnlockPV id)) v =
  run (_ ← LockPV (S l') id rid false; deferred body (UnlockPV id)) v.
Proof. intros. by rewrite !run_pv_section. Qed.

(** A call on a goroutine of its own; a call that fails panics. *)
Definition settle (err : option go_error) : prog unit :=
  match err with None => mret tt | Some _ => Panic "the call failed" end.
Definition unpublish_request (n : string) : ControllerUnpublishVolumeRequest :=
  {| unpub_VolumeId := id; unpub_NodeId := n |}.
Definition call (lockFuel : nat) (o : Shared.op) : prog unit :=
  match o with
  | Shared.Publish n =>
      '(_, err) ← ControllerPublishVolume cs lockFuel (S fuel) ctx (publish_request id n m); settle err
  | Shared.Unpublish n =>
      '(_, err) ← ControllerUnpublishVolume cs lockFuel ctx (unpublish_request n); settle err
  end.

(** What [exec] reports is what the goroutine does. *)
Lemma run_call_exec {Y} `{Env Y} l o (v v' : world Y) :
  w_PVLock v !! id = None -> run (exec cs fuel ctx id m o) v = (Done true, v') -> run (call (S l) o) v = (Done tt, v').
Proof.
  intros Hl Hr. destruct o as [n|n]; unfold exec, call, ControllerPublishVolume, ControllerUnpublishVolume, unpublish_request in *;
    cbn [pub_VolumeId publish_request unpub_VolumeId] in *;
    rewrite run_bind in Hr; rewrite run_bind; rewrite (run_lock_fuel l fuel) by (done || auto with goprog);
    match goal with |- context [run ?p v] => destruct (run p v) as [ [ [r [e|] ]|msg| | ] w'] end;
    cbn in *; first [discriminate Hr|by injection Hr as ->].
Qed.

(** Between taking the lock and giving it back. *)
Definition in_section (p : prog unit) : Prop :=
  exists (A : Type) (body : prog A) (k : A -> prog unit),
    p = deferred body (UnlockPV id) ≫= k /\ all_ops unlocked body /\
    forall a, k a = Ret tt \/ exists msg, k a = Panic msg.

Lemma section_step p p' Q w w' :
  in_section p -> WP p Q w -> thread_step p w = Some (p', w') ->
  (in_section p' /\ w_PVLock w' = w_PVLock w) \/ p' = Ret tt.
Proof.
  intros (A & body & k & -> & Hops & Hk) Hp Hstep.
  destruct body as [a|msg| |B e kk|B e kk|q kk]; cbn in Hops.
  - right. change (deferred (Ret a) (UnlockPV id) ≫= k) with (Loc (Delete PVLock id) (fun _ => k a)) in *.
    cbn in Hp, Hstep. destruct w. cbn in Hstep, Hp. injection Hstep as <- <-.
    by destruct (Hk a) as [Ha|[msg Ha]]; rewrite Ha in *.
  - change (deferred (Panic msg) (UnlockPV id) ≫= k) with (Loc (Delete PVLock id) (fun _ => @Panic unit msg)) in *.
    by destruct w.
  - by cbn in Hp.
  - change (deferred (Loc e kk) (UnlockPV id) ≫= k) with (Loc e (fun b => deferred (kk b) (UnlockPV id) ≫= k)) in *.
    destruct Hops as [He Hops]. cbn in Hstep. destruct (loc_step e w) as [ [b w1] |] eqn:E; [|done].
    injection Hstep as <- <-. left. split; [by exists A, (kk b), k|]. by apply (loc_step_map PVLock e w w1 b).
  - change (deferred (Ext e kk) (UnlockPV id) ≫= k) with (Ext e (fun b => deferred (kk b) (UnlockPV id) ≫= k)) in *.
    left. cbn in Hstep. unfold ext_step in Hstep. destruct (env_step e (w_env w)) as [b x].
    injection Hstep as <- <-. split; [by exists A, (kk b), k|]. destruct w, e; cbn; by repeat case_match.
  - by cbn in Hp.
Qed.

Lemma section_intro {A} (body : prog A) (k : A -> prog unit) :
  all_ops unlocked body -> (forall a, k a = Ret tt \/ exists msg, k a = Panic msg) ->
  in_section (deferred body (UnlockPV id) ≫= k).
Proof. intros Hb Hk. by exists A, body, k. Qed.

Lemma settle_cases {A} (r : pair_err A) :
  (let '(_, err) := r in settle err) = Ret tt \/ exists msg, (let '(_, err) := r in settle err) = Panic msg.
Proof. destruct r as [a [e|] ]; [right; by eexists|by left]. Qed.

(** What a call does when it has the lock, and when it waits for it. *)
Definition critical (o : Shared.op) : prog unit :=
  match o with
  | Shared.Publish n =>
      deferred (publish_locked cs (S fuel) ctx (publish_request id n m)) (UnlockPV id) ≫= fun '(_, err) => settle err
  | Shared.Unpublish n =>
      deferred (unpublish_locked cs (unpublish_request n)) (UnlockPV id) ≫= fun '(_, err) => settle err
  end.
Definition waiting (l : nat) (o : Shared.op) : prog unit := Ext (Sleep (3 * second)) (fun _ => call l o).

Lemma critical_section o : in_section (critical o).
Proof.
  destruct o; apply section_intro;
    [apply publish_locked_ops|apply settle_cases|apply unpublish_locked_ops|apply settle_cases].
Qed.

Lemma call_step l o w :
  thread_step (call (S l) o) w =
  match w_PVLock w !! id with
  | Some _ => Some (waiting l o, w)
  | None => Some (critical o, set_lockmap PVLock (<[id := getRequestIDFromContext ctx]> (w_PVLock w)) w)
  end.
Proof.
  assert (E : loc_step (LoadOrStore PVLock id (getRequestIDFromContext ctx)) w =
    match w_PVLock w !! id with
    | Some holder => Some ((holder, true), w)
    | None => Some ((getRequestIDFromContext ctx, false),
                    set_lockmap PVLock (<[id := getRequestIDFromContext ctx]> (w_PVLock w)) w)
    end) by done.
  destruct o; unfold call, ControllerPublishVolume, ControllerUnpublishVolume, LockPV; fold LockPV;
    cbn [thread_step mbind prog_bind loc pub_VolumeId publish_request unpub_VolumeId unpublish_request];
    rewrite E; by destruct (w_PVLock w !! id).
Qed.

(** *** One call under interference *)

Context (Hnfs : IsNFSVolumeID id = true) (stale : gset string) (room : nat) (s0 : Shared.state) (w0 : world X).
Context (Hlock0 : w_PVLock w0 !! id = None) (Hspawned0 : w_spawned w0 = []).

Definition after_ops (order : list Shared.op) : Shared.state :=
  List.fold_left (fun s o => Shared.step o s) order s0.

(** The calls [order] have taken effect, and nobody is in the section. *)
Definition settled (n : nat) (order : list Shared.op) w : Prop :=
  exists x, w = set_env x w0 /\ serves cs id stale (after_ops order) x /\
    same_elsewhere id (w_env w0) x /\ servers_ok (n + room) (servers x).

Lemma view_serves st x x' : same_view x x' -> serves cs id stale st x -> serves cs id stale st x'.
Proof. intros (A & B & C & D). unfold serves, exporters, attached_to. by rewrite A, B, C, D. Qed.

Lemma view_elsewhere x x' : same_view x x' -> same_elsewhere id x x'.
Proof. intros (A & B & C & D). unfold same_elsewhere, exporters. by rewrite A, B, C, D. Qed.

Lemma settled_view n order w x : same_view (w_env w) x -> settled n order w -> settled n order (set_env x w).
Proof.
  intros Hx (x1 & -> & Hs & He & Hok). rewrite w_env_set_env in Hx. exists x.
  rewrite set_env_set_env. split; [done|]. split; [by eapply view_serves|].
  split; [etrans; [exact He|by apply view_elsewhere]|]. by destruct Hx as (_ & _ & _ & ->).
Qed.

Lemma noise_view x x' : noise same_view x x' -> same_view x x'.
Proof. intros [f ->]. apply act_quiet. Qed.

Lemma settled_free n order w : settled n order w -> w_PVLock w !! id = None /\ w_spawned w = [].
Proof. intros (x & -> & _). by destruct w0. Qed.

Section OneCall.
#[local] Existing Instances noisy_env noisy_store noisy_cluster noisy_servers.

Lemma run_call_noisy l o st n w fs :
  w_PVLock w !! id = None -> usable cs w o -> servers_ok (S n) (servers (w_env w)) ->
  serves cs id stale st (w_env w) ->
  exists x fs', run (call (S l) o) (at_env (w_env w, fs) w) =
      (Done tt, at_env (x, fs') w) /\
    serves cs id stale (Shared.step o st) x /\ same_elsewhere id (w_env w) x /\ servers_ok n (servers x).
Proof.
  intros Hl Hu Hok Hs.
  destruct (run_exec cs fuel ctx id m o st stale n (at_env (w_env w, fs) w))
    as ([x fs'] & Hr & Hs' & He & Hok').
  - done.
  - by destruct w.
  - destruct o as [k|k]; [|done]. destruct Hu as (ip & Hn & Hip & Hon & Hat). exists ip. by destruct w.
  - by rewrite w_env_at_env.
  - by rewrite w_env_at_env.
  - rewrite w_env_at_env in He. exists x, fs'. split; [|done].
    rewrite <- at_env_same, at_env_at_env in Hr. apply run_call_exec; [by destruct w|done].
Qed.

End OneCall.

Lemma wp_call l o n order w :
  settled (S n) order w -> usable cs w0 o -> WP (call (S l) o) (fun _ => settled n (order ++ [o])) w.
Proof.
  intros Hset Hu. assert (Hset' := Hset). destruct Hset' as (x & -> & Hs & He & Hok).
  apply wp_run.
  - intros _ w' x' Hw' Hx. apply settled_view; [by apply noise_view|done].
  - intros fs.
    destruct (run_call_noisy l o (after_ops order) (n + room) (set_env x w0) fs)
      as (x' & fs' & Hr & Hs' & He' & Hok'); [by destruct w0|by apply usable_env|by rewrite w_env_set_env..|].
    rewrite w_env_set_env in *. eexists _, _. split; [exact Hr|]. split; [by destruct w0|].
    exists x'. rewrite w_env_at_env. cbn [fst]. split; [by destruct w0|]. split; [|split; [by etrans|done] ].
    unfold after_ops. by rewrite fold_left_app.
Qed.

(** *** The pool of goroutines *)

Inductive phase := Waiting | Working | Over.
Implicit Types t : Shared.op * phase.
Implicit Types pool : list (Shared.op * phase).

Definition thread_ok t (p : prog unit) : Prop :=
  match t with
  | (o, Waiting) => exists l, p = call l o \/ p = waiting l o
  | (o, Working) => in_section p
  | (_, Over) => p = Ret tt
  end.

Definition over t : option Shared.op := match t with (o, Over) => Some o | _ => None end.
Definition todo t : option Shared.op := match t with (_, Over) => None | (o, _) => Some o end.

(** Whoever is in the section has it to himself; the calls that are over have
    taken effect in the order in which they left it. *)
Definition nobody_works (pool : list (Shared.op * phase)) : Prop := forall i o, pool !! i <> Some (o, Working).
Definition works pool order (s : system X) : Prop :=
  exists i o p n, pool !! i = Some (o, Working) /\ (forall j o', pool !! j = Some (o', Working) -> j = i) /\
    threads s !! i = Some p /\ List.length (omap todo pool) = S n /\
    WP p (fun _ => settled n (order ++ [o])) (shared s) /\
    is_Some (w_PVLock (shared s) !! id) /\ w_spawned (shared s) = [].

Record progress (pool : list (Shared.op * phase)) (order : list Shared.op) (s : system X) : Prop := {
  pr_threads : Forall2 thread_ok pool (threads s);
  pr_order : order ≡ₚ omap over pool;
  pr_shared : (nobody_works pool /\ settled (List.length (omap todo pool)) order (shared s)) \/ works pool order s;
}.

Lemma insert_middle {A} (l : list A) i a a' :
  l !! i = Some a -> exists l1 l2, l = l1 ++ a :: l2 /\ <[i := a']> l = l1 ++ a' :: l2.
Proof.
  intros Hi. exists (take i l), (drop (S i) l). split; [by rewrite take_drop_middle|].
  apply insert_take_drop. by eapply lookup_lt_Some.
Qed.

Lemma progress_spawned pool order s : progress pool order s -> w_spawned (shared s) = [].
Proof. intros [_ _ [ [_ Hs]|(i & o & p & n & _ & _ & _ & _ & _ & _ & Hs)] ]; [by apply settled_free in Hs as [_ Hs]|done]. Qed.

Lemma sleep_noise x ns : noise same_view x (env_step (Sleep ns) x).2.
Proof.
  unshelve eexists (Interference same_view (fun y => (env_step (Sleep ns) y).2) _); [|done].
  intros y. destruct (store_frame _ (Sleep ns) y eq_refl) as [A B].
  split_and!; [done|done|by apply (c_frame _ (Sleep ns))|by apply (s_frame _ (Sleep ns))].
Qed.

Lemma sleep_step l o w p' w' :
  thread_step (waiting l o) w = Some (p', w') ->
  p' = call l o /\ exists x, w' = set_env x w /\ noise same_view (w_env w) x.
Proof.
  unfold thread_step, waiting, ext_step. pose proof (sleep_noise (w_env w) (3 * second)) as Hn.
  destruct (env_step (Sleep (3 * second)) (w_env w)) as [b x]. intros Hw. injection Hw as <- <-.
  split; [reflexivity|]. exists x. split; [reflexivity|exact Hn].
Qed.

Context (ops : list Shared.op) (Huse : Forall (usable cs w0) ops).

Lemma pool_usable pool i o ph : pool.*1 = ops -> pool !! i = Some (o, ph) -> usable cs w0 o.
Proof.
  intros Hp Hi. rewrite Forall_forall in Huse. apply Huse. rewrite <- Hp. apply list_elem_of_fmap.
  exists (o, ph). split; [done|]. by eapply list_elem_of_lookup_2.
Qed.

Lemma pool_insert pool i o ph ph' :
  pool !! i = Some (o, ph) -> (<[i := (o, ph')]> pool).*1 = pool.*1.
Proof.
  intros Hi. rewrite list_fmap_insert. apply list_insert_id. by rewrite list_lookup_fmap, Hi.
Qed.

(** A goroutine that stays in its phase. *)
Lemma threads_insert pool ts i t p :
  Forall2 thread_ok pool ts -> pool !! i = Some t -> thread_ok t p -> Forall2 thread_ok pool (<[i := p]> ts).
Proof.
  intros Hts Hi Hp. rewrite <- (list_insert_id pool i t Hi). by apply Forall2_insert.
Qed.

(** Others make no difference to the one who works. *)
Lemma works_frame pool order s i o p w' x :
  works pool order s -> pool !! i = Some (o, Waiting) ->
  w' = set_env x (shared s) -> noise same_view (w_env (shared s)) x ->
  works pool order (System (<[i := p]> (threads s)) w').
Proof.
  intros (j & o' & q & n & Hj & Hone & Hq & Hn & Hwp & Hl & Hsp) Hi -> Hx.
  exists j, o', q, n. do 2 (split; [done|]). cbn [threads shared]. split.
  { rewrite list_lookup_insert_ne; [done|]. intros ->. congruence. }
  split; [done|]. split; [apply wp_noise; [exact _|exact Hx|exact Hwp]|]. by destruct (shared s).
Qed.

(** Whoever takes the free lock can count on the section. *)
Lemma enter_section pool order i o w :
  pool.*1 = ops -> pool !! i = Some (o, Waiting) -> settled (List.length (omap todo pool)) order w ->
  let w' := set_lockmap PVLock (<[id := getRequestIDFromContext ctx]> (w_PVLock w)) w in
  exists n, List.length (omap todo pool) = S n /\
    List.length (omap todo (<[i := (o, Working)]> pool)) = S n /\
    omap over (<[i := (o, Working)]> pool) = omap over pool /\
    WP (critical o) (fun _ => settled n (order ++ [o])) w' /\ w_spawned w' = [].
Proof.
  intros Hops Hi Hset. cbv zeta. destruct (insert_middle pool i _ (o, Working) Hi) as (l1 & l2 & E & ->).
  assert (Hn : exists n, List.length (omap todo pool) = S n).
  { rewrite E, omap_app, length_app. cbn. exists (List.length (omap todo l1) + List.length (omap todo l2))%nat. lia. }
  destruct Hn as [n Hn]. exists n. split; [done|]. split; [by rewrite <- Hn, E, !omap_app|].
  split; [by rewrite E, !omap_app|]. rewrite Hn in Hset.
  pose proof (wp_call 0 o n order w Hset (pool_usable _ _ _ _ Hops Hi)) as Hwp.
  destruct (settled_free _ _ _ Hset) as [Hf Hsp]. pose proof (call_step 0 o w) as Hstep. rewrite Hf in Hstep.
  destruct (wp_step _ _ _ _ _ _ Hwp Hstep) as [Hwp' Hsp']. split; [done|congruence].
Qed.

Lemma waiting_step pool order s s' i o p :
  progress pool order s -> pool !! i = Some (o, Waiting) -> threads s !! i = Some p ->
  sys_step i s = Some s' -> pool.*1 = ops ->
  exists pool', pool'.*1 = ops /\ progress pool' order s'.
Proof.
  intros Hpr Hi Hp Hstep Hops. assert (Hsp := progress_spawned _ _ _ Hpr).
  destruct (sys_step_plain i s s' Hsp Hstep) as (p0 & p' & w' & Hp0 & Hts & Hs'). assert (p0 = p) as -> by congruence.
  destruct Hpr as [Hthreads Horder Hshared].
  destruct (Forall2_lookup_l _ _ _ _ _ Hthreads Hi) as (p1 & Hp1 & l & Hl). assert (p1 = p) as -> by congruence.
  destruct Hl as [ -> | -> ].
  - destruct l as [|l]; [by destruct o|]. rewrite call_step in Hts.
    destruct (w_PVLock (shared s) !! id) as [holder|] eqn:Hlock; injection Hts as <- <-.
    + exists pool. split; [done|]. rewrite Hs' by done. split; [eapply threads_insert; [done|done|exists l; by right]|done|].
      destruct Hshared as [ [Hno Hset]|Hw]; [apply settled_free in Hset as [Hf _]; congruence|].
      right. eapply works_frame; [done|done|by rewrite set_env_id|apply noise_refl; exact _].
    + destruct Hshared as [ [Hno Hset]|(? & ? & ? & ? & _ & _ & _ & _ & _ & [? Hs] & _)]; [|congruence].
      destruct (enter_section pool order i o (shared s)) as (n & Hn & Hn' & Hover & Hwp & Hsp'); [done..|].
      exists (<[i := (o, Working)]> pool). split; [by erewrite pool_insert|]. rewrite Hs' by done. split.
      * apply Forall2_insert; [done|]. apply critical_section.
      * by rewrite Hover.
      * right. exists i, o, (critical o), n. cbn [threads shared].
        split; [by rewrite list_lookup_insert_eq; [|eapply lookup_lt_Some]|]. split.
        { intros j o' Hj. destruct (decide (j = i)) as [|Hne]; [done|].
          rewrite list_lookup_insert_ne in Hj by done. by apply Hno in Hj. }
        split; [by rewrite list_lookup_insert_eq; [|eapply lookup_lt_Some]|].
        split; [done|]. split; [done|]. split; [|done]. destruct (shared s). cbn. rewrite lookup_insert_eq. eauto.
  - apply sleep_step in Hts as (-> & x & -> & Hx). exists pool. split; [done|]. rewrite Hs' by by destruct (shared s).
    split; [eapply threads_insert; [done|done|exists l; by left]|done|].
    destruct Hshared as [ [Hno Hset]|Hw].
    + left. split; [done|]. apply settled_view; [by apply noise_view|done].
    + right. by eapply works_frame.
Qed.

Lemma working_step pool order s s' i o :
  progress pool order s -> pool !! i = Some (o, Working) -> sys_step i s = Some s' -> pool.*1 = ops ->
  exists pool' order', pool'.*1 = ops /\ progress pool' order' s'.
Proof.
  intros Hpr Hi Hstep Hops. assert (Hsp := progress_spawned _ _ _ Hpr).
  destruct (sys_step_plain i s s' Hsp Hstep) as (p & p' & w' & Hp & Hts & Hs').
  destruct Hpr as [Hthreads Horder [ [Hno _]|(j & o' & q & n & Hj & Hone & Hq & Hn & Hwp & Hl & _)] ];
    [by apply Hno in Hi|].
  assert (j = i) as -> by (symmetry; by eapply Hone). assert (o' = o) as -> by congruence.
  assert (q = p) as -> by congruence.
  destruct (Forall2_lookup_l _ _ _ _ _ Hthreads Hi) as (p1 & Hp1 & Hsec). assert (p1 = p) as -> by congruence.
  destruct (wp_step _ _ _ _ _ _ Hwp Hts) as [Hwp' Hsp']. rewrite Hsp in Hsp'. rewrite Hs' by done.
  destruct (section_step _ _ _ _ _ Hsec Hwp Hts) as [ [Hsec' HL]| ->].
  - exists pool, order. split; [done|]. split; [by eapply threads_insert|done|]. right.
    exists i, o, p', n. do 2 (split; [done|]). cbn [threads shared].
    split; [by rewrite list_lookup_insert_eq; [|eapply lookup_lt_Some]|]. do 2 (split; [done|]). by rewrite HL.
  - destruct (insert_middle pool i _ (o, Over) Hi) as (l1 & l2 & E & E').
    exists (<[i := (o, Over)]> pool), (order ++ [o]). split; [by erewrite pool_insert|]. split.
    + by apply Forall2_insert.
    + rewrite E', Horder, E, !omap_app. cbn. by rewrite <- app_assoc, (Permutation_app_comm _ [o]).
    + left. split.
      * intros k o' Hk. destruct (decide (k = i)) as [->|Hne].
        -- by rewrite list_lookup_insert_eq in Hk by (by eapply lookup_lt_Some).
        -- rewrite list_lookup_insert_ne in Hk by done. by apply Hone in Hk.
      * specialize (Hwp' (w_env w') (noise_refl _ _)). rewrite set_env_id in Hwp'.
        replace (List.length (omap todo (<[i := (o, Over)]> pool))) with n; [done|].
        rewrite E', omap_app, length_app. cbn. rewrite E, omap_app, length_app in Hn. cbn in Hn. lia.
Qed.

Lemma pool_step pool order s s' :
  progress pool order s -> pool.*1 = ops -> cstep s s' ->
  exists pool' order', pool'.*1 = ops /\ progress pool' order' s'.
Proof.
  intros Hpr Hops Hc. revert Hpr. destruct Hc as [i s1 s2 Hstep]. intros Hpr.
  destruct (sys_step_plain i s1 s2 (progress_spawned _ _ _ Hpr) Hstep) as (p & p' & w' & Hp & Hts & _).
  destruct (Forall2_lookup_r _ _ _ _ _ (pr_threads _ _ _ Hpr) Hp) as ([o ph] & Hi & Hok).
  destruct ph.
  - destruct (waiting_step pool order s1 s2 i o p) as (pool' & ? & ?); [done..|]. by exists pool', order.
  - by eapply working_step.
  - cbn in Hok. by subst p.
Qed.

(** A step of one of the calls, or of anything else that runs. *)
Inductive turn : system X -> system X -> Prop :=
  | Ours s s' : cstep s s' -> turn s s'
  | Others s x : noise same_view (w_env (shared s)) x -> turn s (System (threads s) (set_env x (shared s))).

Lemma others_step pool order s x :
  progress pool order s -> noise same_view (w_env (shared s)) x ->
  progress pool order (System (threads s) (set_env x (shared s))).
Proof.
  intros [Ht Ho Hs] Hx. split; [done|done|]. destruct Hs as [ [Hno Hset]|(i & o & p & n & ? & ? & ? & ? & Hwp & Hl & Hsp)].
  - left. split; [done|]. apply settled_view; [by apply noise_view|done].
  - right. exists i, o, p, n. do 4 (split; [done|]). cbn [shared].
    split; [apply wp_noise; [exact _|exact Hx|exact Hwp]|]. by destruct (shared s).
Qed.

Lemma pool_reachable s s' pool order :
  progress pool order s -> pool.*1 = ops -> rtc turn s s' ->
  exists pool' order', pool'.*1 = ops /\ progress pool' order' s'.
Proof.
  intros Hpr Hops Hr. revert pool order Hpr Hops. induction Hr as [s|s s1 s' Hstep _ IH]; [eauto|].
  intros pool order Hpr Hops. destruct Hstep as [s s1 Hstep|s x Hx].
  - destruct (pool_step _ _ _ _ Hpr Hops Hstep) as (pool1 & order1 & ? & ?). eauto.
  - eapply IH; [by apply others_step|done].
Qed.

(** At the start everyone waits, and nothing has taken effect. *)
Definition start (lockFuel : nat) : system X := System (call lockFuel <$> ops) w0.

Lemma waiting_all (l : list Shared.op) :
  omap over ((fun o => (o, Waiting)) <$> l) = [] /\ omap todo ((fun o => (o, Waiting)) <$> l) = l.
Proof. induction l as [|o l [IH1 IH2] ]; [done|]. cbn in *. by rewrite IH1, IH2. Qed.

Lemma progress_start lockFuel :
  servers_ok (List.length ops + room) (servers (w_env w0)) -> serves cs id stale s0 (w_env w0) ->
  progress ((fun o => (o, Waiting)) <$> ops) [] (start lockFuel).
Proof.
  intros Hok Hs. split.
  - cbn. rewrite Forall2_fmap. apply Forall_Forall2_diag, Forall_true. intros o. exists lockFuel. by left.
  - by rewrite (proj1 (waiting_all ops)).
  - left. split.
    { intros i o. rewrite list_lookup_fmap. by destruct (ops !! i). }
    rewrite (proj2 (waiting_all ops)).
    exists (w_env w0). by rewrite set_env_id.
Qed.

(** *** What a call can be found doing *)

Lemma wp_goes_on (p : prog unit) Q w : WP p Q w -> thread_step p w = None -> exists a, p = Ret a.
Proof.
  destruct p as [a|msg| |B e k|B e k|q k]; cbn; try done; [eauto|by destruct (loc_step e w) as [ [? ?] |]|].
  by destruct (ext_step e w).
Qed.

Lemma in_section_not_over p : in_section p -> forall a, p <> Ret a.
Proof. intros (A & body & k & -> & _) a. by destruct body. Qed.

Lemma never_panics pool order s i p msg : progress pool order s -> threads s !! i = Some p -> p <> Panic msg.
Proof.
  intros [Ht _ Hs] Hp ->. destruct (Forall2_lookup_r _ _ _ _ _ Ht Hp) as ([o [] ] & Hi & Hok); [|cbn in Hok|done].
  - destruct Hok as (l & [E|E]); [|done]. destruct o, l; discriminate E.
  - destruct Hs as [ [Hno _]|(j & o' & q & n & Hj & Hone & Hq & _ & Hwp & _)]; [by apply Hno in Hi|].
    assert (i = j) as -> by by eapply Hone. rewrite Hp in Hq. injection Hq as <-. exact Hwp.
Qed.

Lemma waiting_moves o (p : prog unit) w :
  thread_ok (o, Waiting) p -> thread_step p w = None -> exists l, p = NoFuel l.
Proof.
  intros (l & [ -> | -> ]); [destruct l as [|l]|].
  - destruct o; intros _; by eexists.
  - rewrite call_step. by destruct (w_PVLock w !! id).
  - unfold waiting, thread_step, ext_step. by destruct (env_step _ _).
Qed.

Lemma everyone_over pool order s :
  progress pool order s -> (forall s', ~ cstep s s') -> ~ spinning s -> Forall (fun t => t.2 = Over) pool.
Proof.
  intros Hpr Hstuck Hspin. assert (Hsp := progress_spawned _ _ _ Hpr). destruct Hpr as [Ht _ Hs].
  rewrite Forall_lookup. intros i [o ph] Hi. destruct (Forall2_lookup_l _ _ _ _ _ Ht Hi) as (p & Hp & Hok).
  pose proof (stuck_thread s i p Hstuck Hp) as Hstep.
  replace (set_spawned [] (shared s)) with (shared s) in Hstep by (destruct s as [ts []]; cbn in *; by subst).
  destruct ph; [exfalso| |done].
  - destruct (waiting_moves o p _ Hok Hstep) as [l ->]. apply Hspin. by exists i, l.
  - destruct Hs as [ [Hno _]|(j & o' & q & n & Hj & Hone & Hq & _ & Hwp & _)]; [by apply Hno in Hi|].
    assert (i = j) as -> by by eapply Hone. rewrite Hp in Hq. injection Hq as <-.
    destruct (wp_goes_on _ _ _ Hwp Hstep) as [a ->]. by destruct (in_section_not_over _ Hok a).
Qed.

Lemma settled_when_free pool order s :
  progress pool order s -> w_PVLock (shared s) !! id = None -> exists n, settled n order (shared s).
Proof.
  intros [_ _ Hs] Hfree. destruct Hs as [ [_ Hset]|(i & o & p & n & _ & _ & _ & _ & _ & Hl & _)]; [eauto|].
  rewrite Hfree in Hl. by destruct Hl.
Qed.

Lemma over_submseteq pool : omap over pool ⊆+ pool.*1.
Proof. induction pool as [|[o [] ] l IH]; cbn; by constructor. Qed.

Lemma over_all pool : Forall (fun t => t.2 = Over) pool -> omap over pool = pool.*1 /\ omap todo pool = [].
Proof. induction 1 as [|[o ph] l E _ [IH1 IH2] ]; [done|]. cbn in E. subst ph. cbn. by rewrite IH1, IH2. Qed.

Lemma serialized pool order s :
  progress pool order s -> pool.*1 = ops -> (forall s', ~ cstep s s') -> ~ spinning s ->
  Forall (fun p => p = Ret tt) (threads s) /\ order ≡ₚ ops /\ settled 0 order (shared s).
Proof.
  intros Hpr Hops Hstuck Hspin. pose proof (everyone_over _ _ _ Hpr Hstuck Hspin) as Hover.
  destruct (over_all _ Hover) as [E1 E2]. destruct Hpr as [Ht Ho Hs]. split; [|split; [by rewrite Ho, E1, Hops|] ].
  - rewrite Forall_lookup. intros i p Hp. destruct (Forall2_lookup_r _ _ _ _ _ Ht Hp) as ([o ph] & Hi & Hok).
    rewrite Forall_lookup in Hover. specialize (Hover i _ Hi). cbn in Hover. by subst ph.
  - destruct Hs as [ [_ Hs]|(i & o & p & n & Hi & _)]; [by rewrite E2 in Hs|].
    rewrite Forall_lookup in Hover. by specialize (Hover i _ Hi).
Qed.
End Threads.

(** ** The theorem *)

Section Serialize.
Context `{UnicodeTables} `{Globals} `{Printing}.
Context {X : Type} `{Env X} `{!KubeStore X} `{!Cluster X} `{!NfsServers X}.

(** C4: any number of [ControllerPublishVolume] and [ControllerUnpublishVolume]
    calls for one volume may run at the same time, interleaved with each other
    at every operation and with whatever else does not concern volumes.  On a
    cluster that works no call fails, whoever it runs against.  Whenever the
    lock of the volume is free, some of the calls have taken effect, one after
    the other, and the volume is in the state of the abstract specification
    after these.  When no call can go on and none was left waiting for the
    lock until its fuel ran out, all have returned and each has taken effect
    once, in some order; other volumes, the volume locks and the rest of the
    process are left as they were. *)
Theorem concurrent_calls_serialize (cs : CsiNfsService) (lockFuel fuel : nat) (ctx : context) (id : string)
    (m : gmap string string) (ops : list Shared.op) (s0 : Shared.state) stale (room : nat) (w : world X) (s : system X)
    (Hnfs : IsNFSVolumeID id = true) (Hlock : w_PVLock w !! id = None) (Hspawned : w_spawned w = [])
    (Huse : Forall (usable cs w) ops) (Hok : servers_ok (List.length ops + room) (servers (w_env w)))
    (Hserv : serves cs id stale s0 (w_env w))
    (Hreach : rtc turn (System (call cs fuel ctx id m lockFuel <$> ops) w) s) :
  let after order x :=
    serves cs id stale (List.fold_left (fun st o => Shared.step o st) order s0) x /\
    same_elsewhere id (w_env w) x in
  (forall i p msg, threads s !! i = Some p -> p <> Panic msg) /\
  (w_PVLock (shared s) !! id = None -> exists order, order ⊆+ ops /\ after order (w_env (shared s))) /\
  ((forall s', ~ cstep s s') -> ~ spinning s ->
   Forall (fun p => p = Ret tt) (threads s) /\
   exists order x, order ≡ₚ ops /\ shared s = set_env x w /\ after order x).
Proof.
  intros after.
  destruct (pool_reachable cs fuel ctx id m Hnfs stale room s0 w Hlock Hspawned ops Huse _ s _ []
    (progress_start cs fuel ctx id m stale room s0 w ops lockFuel Hok Hserv))
    as (pool & order & Hops & Hpr); [by rewrite <- list_fmap_compose, list_fmap_id|exact Hreach|].
  split; [by intros; eapply never_panics|]. split.
  - intros Hfree. destruct (settled_when_free _ _ _ _ _ _ _ _ _ _ _ _ Hpr Hfree) as (n & x & -> & Hs & He & _).
    destruct Hpr as [_ Ho _]. exists order. rewrite w_env_set_env. split; [|done].
    rewrite Ho, <- Hops. apply over_submseteq.
  - intros Hstuck Hspin. destruct (serialized cs fuel ctx id m stale room s0 w Hlock Hspawned ops pool order s Hpr Hops Hstuck Hspin)
      as (Hall & Ho & x & Hx & Hs & He & _).
    split; [done|]. by exists order, x.
Qed.
End Serialize.

(** Three goroutines on the simulated cluster: the first one takes the lock,
    the others look at it in vain and sleep; then the third one overtakes the
    second. *)
Section Simulation.
#[local] Existing Instance ascii_tables.
#[local] Existing Instance demo_globals.
#[local] Existing Instance demo_printing.
#[local] Existing Instance sim_step.

Definition overlap_start : system sim :=
  System (call demo_service 0 Background "nfs-v1" ∅ 5 <$> sim_ops) sim_world.
Definition overlap_end : system sim :=
  default overlap_start
    (run_schedule ([0; 1; 1; 2; 2] ++ replicate 12 0 ++ replicate 10 2 ++ replicate 13 1)%nat overlap_start).

Lemma overlap_reachable : rtc turn overlap_start overlap_end.
Proof.
  assert (Hr : rtc cstep overlap_start overlap_end).
  { unfold overlap_end. destruct (run_schedule _ overlap_start) as [s|] eqn:E; [|apply rtc_refl].
    exact (run_schedule_reachable _ _ _ E). }
  clear -Hr. induction Hr as [s|s s1 s2 Hs _ IH]; [apply rtc_refl|]. eapply rtc_l; [by apply Ours|exact IH].
Qed.

Lemma overlap_finished :
  forallb finished (threads overlap_end) = true /\ forallb at_rest (threads overlap_end) = true.
Proof. vm_compute. split; reflexivity. Qed.

Lemma overlap_not_spinning : ~ spinning overlap_end.
Proof.
  intros (j & l & Hj). destruct overlap_finished as [Hf _]. rewrite forallb_forall in Hf.
  specialize (Hf (NoFuel l)). apply list_elem_of_lookup_2, list_elem_of_In in Hj. by specialize (Hf Hj).
Qed.

Lemma concurrent_calls_serialize_witness :
  exists order x, order ≡ₚ sim_ops /\ shared overlap_end = set_env x sim_world /\
    serves demo_service "nfs-v1" ∅ (List.fold_left (fun st o => Shared.step o st) order None) x.
Proof.
  destruct (concurrent_calls_serialize demo_service 5 0 Background "nfs-v1" ∅ sim_ops None ∅ 0 sim_world overlap_end)
    as (_ & _ & Hend).
  - reflexivity.
  - reflexivity.
  - reflexivity.
  - repeat constructor; [exact sim_usable_1|exact sim_usable_2].
  - exact I.
  - apply sim_world_serves.
  - exact overlap_reachable.
  - destruct Hend as (_ & order & x & Ho & Hx & Hs & _).
    + intros s'. apply rest_stuck. exact (proj2 overlap_finished).
    + exact overlap_not_spinning.
    + exists order, x. split; [exact Ho|]. split; [exact Hx|exact Hs].
Defined.
End Simulation.
