(* ===== verification/Federation.v ===== *)
(** * The whole system: the controller on top of the nodes' own handlers

    [Sharing.v] proves the controller against servers that do what they are
    asked ([NfsServers]).  Here a call to a node runs the handler of
    [NfsServer.v] in the process of that node ([net_step]), whose outside is
    the node's own, and the handlers on nodes that work ([NodeHost.v]) are
    shown to be such servers.  The contract of the controller then speaks of
    what the kernels of the nodes export and the drivers have mounted; the
    interface makes visible which volumes disturb each other, and the last
    part shows the disturbance. *)

From S2P Require Import Prelude GoStrings Messages GoProg Naming Exports Json Config K8s NfsServer NodeHost NodeMonitor Controller Sharing NodeService NodeRecovery Reassign Failover.

(** ** gRPC between the controller and the nodes *)

(** What the transport makes of an error, of a server that cannot be reached or
    that dies, and the context of a handler. *)
Class Wire := {
  wire_error : go_error -> go_error;
  wire_broken : go_error;
  wire_context : context;
}.

(** An empty map of a message is not transmitted, and received as nil. *)
Definition on_wire (m : gomap) : gomap :=
  match m with Some m' => if decide (m' = ∅) then None else Some m' | None => None end.

Lemma mget_on_wire m k : mget (on_wire m) k = mget m k.
Proof. destruct m as [m|]; [|done]. cbn. by destruct (decide (m = ∅)) as [->|]. Qed.

(** The reply to the caller: a response, or the error of the handler. *)
Definition reply `{Wire} {A} (o : outcome (pair_err (option A))) : result A :=
  match o with
  | Done (_, Some e) => inr (wire_error e)
  | Done (Some r, None) => inl r
  | _ => inr wire_broken
  end.

Section Asked.
Context `{UnicodeTables} `{Globals} {Y : Type} `{Env Y} `{!ReliableFiles Y} `{!Host Y}.

(** The lines of the exports file of a node. *)
Definition line_count (w : world Y) : Z := Z.of_nat (List.length (ScanLines (w_exports w)).1).

Lemma run_GetExports_rpc_ok room (w : world Y) :
  node_ok room w ->
  exists l y, run GetExports_rpc w = (Done ({| exports_Exports := l |}, None), set_env y w) /\
    Z.of_nat (List.length l) <= line_count w /\ node_ok room (set_env y w) /\
    forall id, node_hold id (set_env y w) = node_hold id w.
Proof.
  intros [Hs Hl]. assert (Hs' := Hs). destruct Hs' as [ [t Ht] _ _ _].
  destruct (represents_scan w t Ht) as (lines & Hscan & _).
  destruct (run_GetExports_ok NfsExportDirectory w lines (proj1 Ht) Hscan) as [y E].
  pose proof (mounted_run _ w (GetExports_calls NfsExportDirectory)) as Hy. rewrite E in Hy. cbn [snd] in Hy.
  rewrite w_env_set_env in Hy. unfold GetExports_rpc. rewrite run_bind, E. do 2 eexists. split; [reflexivity|].
  unfold line_count. rewrite Hscan. cbn [fst]. split; [apply inj_le, filter_length_le|].
  split; [split; [by apply node_sound_env|by destruct w]|]. intros id. by apply same_exports_hold, same_exports_env.
Qed.

End Asked.

Section Net.
Context `{UnicodeTables} `{Globals} `{Wire}.
(** The [nfsService] of the process at each address, and the fuel of the
    handlers' waits for a volume. *)
Context (node_service : string -> CsiNfsService) (fuel : nat).
Context {X Y : Type} `{EX : Env X} `{EY : Env Y}.

(** The outside of the controller, and the processes of the nodes by the
    addresses of their servers. *)
Record net := Net { base : X; nodes : gmap string (world Y) }.

(** The outside of the process on a node: its own, but for the API, which is the
    one that the controller has. *)
Definition node_step (x : X) : Env Y := fun B e =>
  match e in extE B return Y -> B * Y with
  | KubeGetService namespace name => fun y => ((env_step (KubeGetService namespace name) x).1, y)
  | e => env_step e
  end.

(** A call to a node runs a handler there, to its end. *)
Definition call_node {A} (address : string) (p : prog (pair_err (option A))) (n : net) : result A * net :=
  match nodes n !! address with
  | None => (inr wire_broken, n)
  | Some w => let '(o, w') := run (H := node_step (base n)) p w in (reply o, Net (base n) (<[address := w']> (nodes n)))
  end.

#[local] Instance net_step : Env net := fun B e =>
  match e in extE B return net -> B * net with
  | RpcExport address req => fun n =>
      call_node address
        ('(_, r) ← ExportNfsVolume (node_service address) fuel wire_context
                     {| exreq_VolumeId := exreq_VolumeId req;
                        exreq_ExportNfsContext := on_wire (exreq_ExportNfsContext req) |};
         mret r) n
  | RpcUnexport address req => fun n =>
      call_node address
        (UnexportNfsVolume fuel
           {| unreq_VolumeId := unreq_VolumeId req;
              unreq_UnexportNfsContext := on_wire (unreq_UnexportNfsContext req) |}) n
  | RpcPing address req => fun n => call_node address (Ping req) n
  | RpcGetExports address => fun n =>
      call_node address ('(r, err) ← GetExports_rpc; mret (Some r, err)) n
  | e => fun n => let '(b, x) := env_step e (base n) in (b, Net x (nodes n))
  end.

(** Every other call is one of the controller's outside. *)
Lemma net_other {B} (e : extE B) (n : net) :
  exports_call e = false ->
  env_step e n = ((env_step e (base n)).1, Net (env_step e (base n)).2 (nodes n)).
Proof.
  intros He. destruct e; try discriminate He; cbn;
    match goal with |- context [env_step ?e ?x] => by destruct (env_step e x) end.
Qed.

Lemma net_base {B} (e : extE B) (n : net) :
  exports_call e = true -> base (env_step e n).2 = base n.
Proof.
  intros He. destruct e; try discriminate He; cbn; unfold call_node;
    (destruct (nodes n !! address); [|done]);
    match goal with |- context [@run ?X ?E ?A ?p ?w] => by destruct (@run X E A p w) end.
Qed.

(** *** The API and the cluster of the controller are those of its outside *)

Context `{!KubeStore X} `{!Cluster X}.

Lemma net_lift {B} (e : extE B) (n : net) b x :
  exports_call e = false -> env_step e (base n) = (b, x) -> env_step e n = (b, Net x (nodes n)).
Proof. intros He E. by rewrite net_other, E. Qed.

Local Ltac lift E := eexists; split; [apply net_lift; [reflexivity|exact E]|done].

#[local] Program Instance net_store : KubeStore net := {
  services := fun n => services (base n);
  slices := fun n => slices (base n);
}.
Next Obligation. intros name n. destruct (get_service name (base n)) as (x & E & Hx). lift E. Qed.
Next Obligation. intros name n. destruct (get_slice name (base n)) as (x & E & Hx). lift E. Qed.
Next Obligation. intros s n Hs. destruct (create_service s (base n) Hs) as (x & E & Hx). lift E. Qed.
Next Obligation. intros s n Hs. destruct (create_slice s (base n) Hs) as (x & E & Hx). lift E. Qed.
Next Obligation. intros s n Hs. destruct (update_service s (base n) Hs) as (x & E & Hx). lift E. Qed.
Next Obligation. intros s n Hs. destruct (update_slice s (base n) Hs) as (x & E & Hx). lift E. Qed.
Next Obligation. intros s n Hs. destruct (delete_service s (base n) Hs) as (x & E & Hx). lift E. Qed.
Next Obligation. intros s n Hs. destruct (delete_slice s (base n) Hs) as (x & E & Hx). lift E. Qed.
Next Obligation.
  intros B e n He. destruct (exports_call e) eqn:Hx; [by rewrite net_base|].
  rewrite net_other by done. by apply store_frame.
Qed.

#[local] Program Instance net_cluster : Cluster net := {
  attached := fun n => attached (base n);
  cluster_nodes := cluster_nodes;
}.
Next Obligation.
  intros req n Ha. destruct (c_publish req (base n) Ha) as (r & x & E & Hx). exists r. lift E.
Qed.
Next Obligation. intros req n. destruct (c_unpublish req (base n)) as (x & E & Hx). lift E. Qed.
Next Obligation. intros n. rewrite net_other by done. apply c_nodes. Qed.
Next Obligation. intros address n. rewrite net_other by done. apply c_client. Qed.
Next Obligation. intros ctx n. rewrite net_other by done. apply c_done. Qed.
Next Obligation.
  intros B e n He. destruct (exports_call e) eqn:Hx; [by rewrite net_base|].
  rewrite net_other by done. by apply c_frame.
Qed.

(** *** The nodes are servers that do what they are asked *)

Context `{!ReliableFiles Y} `{!Host Y}.

#[local] Instance node_reliable (x : X) : ReliableFiles Y (H := node_step x).
Proof. constructor; intros; apply ReliableFiles0. Qed.

#[local] Program Instance node_host (x : X) : Host Y (H := node_step x) := { mounted := mounted }.
Next Obligation. intros x path y. exact (@h_stat _ _ _ _ Host0 path y). Qed.
Next Obligation. intros x path uid gid y. exact (@h_chown _ _ _ _ Host0 path uid gid y). Qed.
Next Obligation. intros x path mode y. exact (@h_chmod _ _ _ _ Host0 path mode y). Qed.
Next Obligation. intros x kind name args y. exact (@h_exec _ _ _ _ Host0 kind name args y). Qed.
Next Obligation. intros x ctx y. exact (@h_done _ _ _ _ Host0 ctx y). Qed.
Next Obligation. intros x id ctx y. exact (@h_mount _ _ _ _ Host0 id ctx y). Qed.
Next Obligation. intros x id name y. exact (@h_unmount _ _ _ _ Host0 id name y). Qed.
Next Obligation. intros x B e y He. destruct e; try exact (@h_frame _ _ _ _ Host0 _ _ y He). reflexivity. Qed.

Lemma node_sound_at x room w : node_sound (Host0 := node_host x) room w <-> node_sound room w.
Proof. split; intros [? ? ? ?]; by constructor. Qed.

Lemma node_ok_at x room w : node_ok (Host0 := node_host x) room w <-> node_ok room w.
Proof. unfold node_ok. by rewrite node_sound_at. Qed.

(** The handlers of the nodes, with the API of the controller. *)
Lemma export_at x nfsService ctx req room w :
  directory_ok nfsService = true -> node_ok (S room) w ->
  mget (exreq_ExportNfsContext req) "ServiceName" = VolumeIDToServiceName (exreq_VolumeId req) ->
  IsNFSVolumeID (exreq_VolumeId req) = true ->
  exists c resp w', run (H := node_step x) (ExportNfsVolume nfsService (S fuel) ctx req) w =
      (Done (c, (Some resp, None)), w') /\
    node_ok room w' /\ node_hold (exreq_VolumeId req) w' = Some Serving /\
    forall id', VolumeIDToServiceName id' <> VolumeIDToServiceName (exreq_VolumeId req) ->
      node_hold id' w' = node_hold id' w.
Proof.
  intros Hdir Hok Hn Hnfs. apply (node_ok_at x) in Hok.
  destruct (run_ExportNfsVolume_ok (Host0 := node_host x) nfsService fuel ctx req room w Hdir Hok Hn Hnfs)
    as (c & resp & w' & E & Hok'%node_ok_at & He).
  exists c, resp, w'. do 2 (split; [done|]).
  split; [by apply (node_hold_serving (Host0 := node_host x)); eapply (exported_serving (Host0 := node_host x))|].
  intros id' Hne. by apply (exported_others (Host0 := node_host x) (exreq_VolumeId req)).
Qed.

Lemma unexport_at x nfsService req id room w :
  directory_ok nfsService = true -> node_ok (S room) w ->
  mget (unreq_UnexportNfsContext req) "ServiceName" = VolumeIDToServiceName id ->
  IsNFSVolumeID id = true -> ToArrayVolumeID (unreq_VolumeId req) = ToArrayVolumeID id ->
  node_hold id w = Some Serving ->
  exists resp w', run (H := node_step x) (UnexportNfsVolume (S fuel) req) w = (Done (Some resp, None), w') /\
    node_ok room w' /\ node_hold id w' = None /\
    forall id', HasPrefix (VolumeIDToServiceName id') (VolumeIDToServiceName id) = false ->
      node_hold id' w' = node_hold id' w.
Proof.
  intros Hdir Hok Hn Hnfs Hid He%node_hold_serving. apply (node_ok_at x) in Hok.
  destruct (run_UnexportNfsVolume_ok (Host0 := node_host x) nfsService fuel req id room w)
    as (resp & w' & E & Hok'%node_ok_at & He'); [done..|].
  exists resp, w'. do 2 (split; [done|]). split; [by eapply (unexported_none (Host0 := node_host x))|].
  intros id'. by apply (unexported_others (Host0 := node_host x) id).
Qed.

Lemma get_exports_at x room w :
  node_ok room w ->
  exists l y, run (H := node_step x) GetExports_rpc w = (Done ({| exports_Exports := l |}, None), set_env y w) /\
    Z.of_nat (List.length l) <= line_count w /\ node_ok room (set_env y w) /\
    forall id, node_hold id (set_env y w) = node_hold id w.
Proof.
  intros Hok%(node_ok_at x).
  destruct (run_GetExports_rpc_ok (Host0 := node_host x) room w Hok) as (l & y & E & Hl & Hok'%node_ok_at & He).
  by exists l, y.
Qed.

(** The addresses of the servers. *)
Context (addresses : gset string).

(** What the nodes have of the volume. *)
Definition exporting (t : gmap string (world Y)) (id : string) : gmap string hold := omap (node_hold id) t.

Lemma lookup_exporting t id a : exporting t id !! a = t !! a ≫= node_hold id.
Proof. apply lookup_omap. Qed.

Definition nodes_ok (room : nat) (t : gmap string (world Y)) : Prop :=
  dom t = addresses /\ map_Forall (fun _ w => node_ok room w) t.

Lemma nodes_ok_insert room t a w :
  a ∈ addresses -> nodes_ok (S room) t -> node_ok room w -> nodes_ok room (<[a := w]> t).
Proof.
  intros Ha [Hdom Hok] Hw. split; [rewrite dom_insert_L, Hdom; by apply subseteq_union_1_L, singleton_subseteq_l|].
  apply map_Forall_insert_2; [done|]. eapply map_Forall_impl; [exact Hok|].
  intros b v [Hs Hl]. split; [by apply node_sound_less|done].
Qed.

Lemma exporting_insert t a w id :
  exporting (<[a := w]> t) id =
  match node_hold id w with
  | Some h => <[a := h]> (exporting t id)
  | None => delete a (exporting t id)
  end.
Proof.
  apply map_eq. intros b. rewrite lookup_exporting. destruct (decide (b = a)) as [->|Hne].
  - rewrite lookup_insert_eq. cbn. destruct (node_hold id w); [by rewrite lookup_insert_eq|by rewrite lookup_delete_eq].
  - rewrite lookup_insert_ne, <- lookup_exporting by done.
    destruct (node_hold id w); [by rewrite lookup_insert_ne|by rewrite lookup_delete_ne].
Qed.

(** Nothing changes for a volume of which the node has what it had. *)
Lemma exporting_insert_same t a v w id :
  t !! a = Some v -> node_hold id w = node_hold id v -> exporting (<[a := w]> t) id = exporting t id.
Proof.
  intros Ha E. apply map_eq. intros b. rewrite !lookup_exporting. destruct (decide (b = a)) as [->|Hne].
  - rewrite lookup_insert_eq, Ha. exact E.
  - by rewrite lookup_insert_ne.
Qed.

(** A call to a node that is there. *)
Lemma call_node_done {A} address (p : prog (pair_err (option A))) (n : net) w r w' :
  nodes n !! address = Some w -> run (H := node_step (base n)) p w = (Done (Some r, None), w') ->
  call_node address p n = (inl r, Net (base n) (<[address := w']> (nodes n))).
Proof. intros Hw Hr. unfold call_node. by rewrite Hw, Hr. Qed.

Lemma node_at_address room t a :
  nodes_ok room t -> a ∈ addresses -> exists w, t !! a = Some w /\ node_ok room w.
Proof.
  intros [Hdom Hok] Ha. rewrite <- Hdom in Ha. apply elem_of_dom in Ha as [w Hw]. eauto.
Qed.
End Net.
Arguments net : clear implicits.

Section Whole.
Context `{UnicodeTables} `{Globals} `{Wire}.
Context (node_service : string -> CsiNfsService) (fuel : nat) (addresses : gset string).
Context (Hdir : forall a, directory_ok (node_service a) = true).
Context {X Y : Type} `{EX : Env X} `{EY : Env Y}.
Context `{!KubeStore X} `{!Cluster X} `{!ReliableFiles Y} `{!Host Y}.
#[local] Instance whole_step : Env (net X Y) := net_step node_service (S fuel).
#[local] Instance whole_store : KubeStore (net X Y) := net_store node_service (S fuel).
#[local] Instance whole_cluster : Cluster (net X Y) := net_cluster node_service (S fuel).

Lemma whole_other {B} (e : extE B) (n : net X Y) :
  exports_call e = false ->
  env_step e n = ((env_step e (base n)).1, Net (env_step e (base n)).2 (nodes n)).
Proof. apply net_other. Qed.

#[local] Program Instance net_servers : NfsServers (net X Y) := {
  server_state := gmap string (world Y);
  servers := nodes;
  servers_ok := nodes_ok addresses;
  exported_at := exporting;
  server_at := fun a => a ∈ addresses;
  separate := fun id id' => HasPrefix (VolumeIDToServiceName id') (VolumeIDToServiceName id) = false;
}.
Next Obligation.
  intros n t [Hd Hok]. split; [done|]. eapply map_Forall_impl; [exact Hok|].
  intros a w [Hs Hl]. split; [by apply node_sound_less|done].
Qed.
Next Obligation.
  intros address req id room n Hok Ha Hnfs Hid Hname.
  destruct (node_at_address addresses (S room) (nodes n) address Hok Ha) as (w & Hw & Hwok).
  destruct (export_at fuel (base n) (node_service address) wire_context
    {| exreq_VolumeId := exreq_VolumeId req;
       exreq_ExportNfsContext := on_wire (exreq_ExportNfsContext req) |} room w)
    as (c & resp & w' & E & Hok' & He & Ho); [done|done|by cbn [exreq_VolumeId exreq_ExportNfsContext]; rewrite mget_on_wire, Hid|by rewrite Hid|].
  cbn [exreq_VolumeId] in He, Ho. rewrite Hid in He, Ho.
  exists resp, (Net (base n) (<[address := w']> (nodes n))). split.
  - apply (call_node_done _ _ n w); [done|]. rewrite run_bind, E. done.
  - cbn [nodes]. split; [by apply nodes_ok_insert|]. split; [by rewrite exporting_insert, He|].
    intros id' Hsep. eapply exporting_insert_same; [done|]. apply Ho. intros Heq.
    by rewrite Heq, HasPrefix_refl in Hsep.
Qed.
Next Obligation.
  intros address req id room n Hok Ha Hnfs Hid Hname.
  rewrite lookup_exporting in Ha. destruct (nodes n !! address) as [w|] eqn:Hw; [|done]. cbn in Ha.
  assert (Hwok : node_ok (S room) w) by (destruct Hok as [_ Hall]; exact (Hall address w Hw)).
  destruct (unexport_at fuel (base n) (node_service address)
    {| unreq_VolumeId := unreq_VolumeId req;
       unreq_UnexportNfsContext := on_wire (unreq_UnexportNfsContext req) |} id room w)
    as (resp & w' & E & Hok' & He & Ho); [apply (Hdir address)|done|by cbn [unreq_UnexportNfsContext]; rewrite mget_on_wire|done|done|done|].
  exists resp, (Net (base n) (<[address := w']> (nodes n))). split.
  - by apply (call_node_done _ _ n w).
  - cbn [nodes]. split.
    + apply nodes_ok_insert; [|done|done]. destruct Hok as [<- _]. apply elem_of_dom. eauto.
    + split; [by rewrite exporting_insert, He|].
      intros id' Hsep. eapply exporting_insert_same; [done|]. by apply Ho.
Qed.
Next Obligation. intros B e n He. by rewrite whole_other. Qed.

#[local] Program Instance net_relocatable `{!Relocatable X} :
    Relocatable (net X Y) := {
  volume_handle := volume_handle;
  node_of := node_of;
}.
Next Obligation. intros ? name h n Hn. rewrite whole_other by done. by apply r_pv. Qed.
Next Obligation. intros ? name node n Hn. rewrite whole_other by done. by apply r_node. Qed.
Next Obligation.
  intros ? ip n. destruct (r_list ip (base n)) as (l & x & E & Hl). exists l, (Net x (nodes n)).
  split; [by rewrite whole_other, E|done].
Qed.

Lemma nodes_ok_update room t a w w' :
  t !! a = Some w -> node_ok room w' -> nodes_ok addresses room t -> nodes_ok addresses room (<[a := w']> t).
Proof.
  intros Ha Hw' [Hdom Hok]. split; [|by apply map_Forall_insert_2].
  rewrite dom_insert_L, <- Hdom. apply elem_of_dom_2 in Ha. by apply subseteq_union_1_L, singleton_subseteq_l.
Qed.

#[local] Program Instance net_countings : Countings (net X Y) := {
  few_exports := map_Forall (fun _ w => line_count w < many_exports);
}.
Next Obligation.
  intros address room n Hok Hfew. change (map_Forall (fun _ w => line_count w < many_exports) (nodes n)) in Hfew.
  destruct (nodes n !! address) as [w|] eqn:Hw.
  - destruct (get_exports_at (base n) room w) as (l & y & E & Hlen & Hok' & Hexp); [by apply Hok in Hw|].
    exists (inl {| exports_Exports := l |}), (Net (base n) (<[address := set_env y w]> (nodes n))).
    split; [apply (call_node_done _ _ n w); [done|]; by rewrite run_bind, E|]. cbn [nodes].
    split; [by eapply nodes_ok_update|]. split.
    { change (map_Forall (fun _ w => line_count w < many_exports) (<[address := set_env y w]> (nodes n))).
      apply map_Forall_insert_2; [|done]. specialize (Hfew _ _ Hw). by destruct w. }
    split; [intros id; by eapply exporting_insert_same|]. split; [by eexists|].
    intros resp [= <-]. cbn [exports_Exports]. specialize (Hfew _ _ Hw). cbn beta in Hfew. lia.
  - exists (inr wire_broken), n. split; [cbn; unfold call_node; by rewrite Hw|]. do 3 (split; [done|]).
    split; [|done]. intros Ha. destruct (node_at_address addresses room (nodes n) address Hok Ha) as (w & E & _).
    congruence.
Qed.

(** ** The contract of the controller, down to the kernels of the nodes *)

Context `{Printing} (cs : CsiNfsService).
Implicit Types n : net X Y.
Implicit Types w : world (net X Y).

(** Nothing of the volume is left on the node: its kernel does not export it,
    and it is not mounted. *)
Definition clear_of (id : string) (v : world Y) : Prop :=
  kernel_exports id v = false /\ ~ staging_path id ∈ mounted (w_env v).

(** The state of a shared volume, as its users meet it: the service whose
    labels are the clients, the path they mount, the slice that sends them to
    the server, the attachment of the array, and the node at the other end,
    where the volume is mounted and exported by the kernel; on no other node
    is it exported or mounted, but for the addresses [stale]. *)
Definition shared_end_to_end (id : string) (stale : gset string) (s : Shared.state) n : Prop :=
  let name := VolumeIDToServiceName id in
  match s with
  | None =>
      services (base n) !! name = None /\ slices (base n) !! name = None /\
      attached_to id (base n) = ∅ /\
      forall a v, nodes n !! a = Some v -> a ∉ stale -> clear_of id v
  | Some (server, clients) =>
      exists svc sl v,
        services (base n) !! name = Some svc /\
        mount_source svc name = svc_ClusterIP svc +:+ ":" +:+ staging_path id /\
        (forall c, c ∈ clients <-> is_Some (svc_Labels svc ≫= lookup (client_label c))) /\
        slices (base n) !! name = Some sl /\ mget (es_Labels sl) "nodeID" = server /\
        attached_to id (base n) = {[server]} /\
        nodes n !! service_address cs (slice_ip sl) = Some v /\ node_exports id v = true /\
        forall a v', nodes n !! a = Some v' -> a <> service_address cs (slice_ip sl) -> a ∉ stale ->
          clear_of id v'
  end.

Lemma not_exporting id (E : gset string) n a v :
  dom (exporting (nodes n) id) ⊆ E -> nodes n !! a = Some v -> a ∉ E -> clear_of id v.
Proof.
  intros HE Ha Hn. apply node_hold_none, eq_None_not_Some. intros Hs. apply Hn, HE, elem_of_dom.
  by rewrite lookup_exporting, Ha.
Qed.

Lemma serves_end_to_end id stale s n : serves cs id stale s n -> shared_end_to_end id stale s n.
Proof.
  destruct s as [ [server clients] |]; cbn.
  - intros (svc & labels & sl & ip & ep & addrs & eps & Hs & _ & _ & Hlab & Hcl & Hl & _ & Hsrv
      & Heps & Haddrs & _ & Hat & Hin & Hsub).
    change (exporting (nodes n) id !! service_address cs ip = Some Serving) in Hin. rewrite lookup_exporting in Hin.
    destruct (nodes n !! service_address cs ip) as [v|] eqn:Hv; [|done]. cbn in Hin.
    apply node_hold_serving in Hin. exists svc, sl, v.
    assert (Hip : slice_ip sl = ip) by (unfold slice_ip; by rewrite Heps, Haddrs). rewrite Hip, Hlab.
    do 8 (split; [done|]). intros a v' Ha Hne Hst. eapply not_exporting; [exact Hsub|done|].
    by rewrite not_elem_of_union, not_elem_of_singleton.
  - intros (Hs & Hl & Hat & Hsub). do 3 (split; [done|]). intros a v Ha Hst.
    by eapply not_exporting.
Qed.

(** C1: the controller and the nodes together implement the sharing of a volume:
    when the API, the host driver and the nodes do their part, every sequence
    of publish and unpublish calls, each of which reaches the nodes' own
    handlers, succeeds, and ends in the abstract state: while nodes use the
    volume it is mounted and exported by the kernel of exactly one node, the
    one that the array attaches it to and that the slice sends the clients to,
    under the path they mount, and nothing of it is on another node; when the
    last user has gone it is neither mounted nor exported on any node, and
    attached to none; only the nodes [stale], which were allowed to hold it
    from the start, may still do so.  All the nodes still work. *)
Theorem sharing_end_to_end (cfuel : nat) (ctx : context) (id : string)
    (m : gmap string string) (ops : list Shared.op) (s : Shared.state) (stale : gset string) (room : nat) w
    (Hnfs : IsNFSVolumeID id = true) (Hlock : w_PVLock w !! id = None)
    (Huse : Forall (usable cs w) ops)
    (Hok : nodes_ok addresses (List.length ops + room) (nodes (w_env w)))
    (Hserv : serves cs id stale s (w_env w)) :
  exists n, run (exec_all cs cfuel ctx id m ops) w =
              (Done (replicate (List.length ops) true), set_env n w) /\
    shared_end_to_end id stale (List.fold_left (fun s o => Shared.step o s) ops s) n /\
    nodes_ok addresses room (nodes n).
Proof.
  destruct (run_exec_all cs cfuel ctx id m ops s stale room w) as (n & Hr & Hs & _ & Hok'); [done..|].
  exists n. split; [done|]. split; [by apply serves_end_to_end|done].
Qed.

(** moving a volume away from a failed node keeps it shared, down to the
    kernels: [reassignVolume] succeeds, and the node with the lowest export
    count mounts the volume and its kernel exports it, the array and the slice
    name that node, for the same clients; besides it only the failed node may
    export the volume, until it is told not to. *)
Theorem move_end_to_end `{!Relocatable X} (cfuel : nat) (sl : nat) (v : EndpointSlice) (id server : string)
    (clients stale : gset string) (room : nat) w
    (Hslice : has_slice sl v w) (Hdesc : describes v id (w_env w))
    (Hserv : placed cs id stale server clients (w_env w))
    (Hok : nodes_ok addresses (S room) (nodes (w_env w))) (Hnfs : IsNFSVolumeID id = true)
    (Hlock : w_PVLock w !! mget (es_Annotations v) DriverVolumeID = None)
    (Hfree : free exportCountsLock w) (Hnodes : nodes_ready cs (w_exportCounts w)) :
  exists sel new w', run (reassignVolume cs (S cfuel) sl) w = (Done None, w') /\
    selects (w_exportCounts w) sel /\
    shared_end_to_end id ({[service_address cs (slice_ip v)]} ∪ stale)
      (Some (new, clients)) (w_env w') /\
    nodes_ok addresses room (nodes (w_env w')).
Proof.
  destruct (run_reassignVolume cs cfuel sl v id server clients stale room w)
    as (sel & new & ip & w' & Hr & _ & Hsel & _ & Hs & _ & _ & Hok'); [done..|].
  exists sel, new, w'. do 2 (split; [done|]). split; [by apply serves_end_to_end|done].
Qed.

(** recovery moves every volume of a failed node, down to the kernels: with a
    node that can be counted, [nodeRecovery] starts a goroutine for each of the
    volumes that the slices place on the failed node, and when these have run,
    one after the other in whatever order, every one of the volumes is mounted
    and exported by the kernel of the node that the array attaches it to and
    that its slice sends the clients to, for the clients it had; besides it
    only the failed node may export the volume.  All the nodes still work. *)
Theorem recovery_end_to_end `{!Relocatable X} (cfuel : nat) (ip : string) (vols : list lost) (room : nat) w
    (Hlost : labelled "nodeIP" ip (slices (w_env w)) ≡ₚ lo_slice <$> vols) (Hapart : all_apart vols)
    (Hvols : Forall (fun v => stands cs v (w_env w) /\ IsNFSVolumeID (lo_id v) = true /\
                              w_PVLock w !! lost_lock v = None) vols)
    (Hmon : monitored_ok cs w) (Hok : nodes_ok addresses (List.length vols + room) (nodes (w_env w)))
    (Hfew : map_Forall (fun _ v => line_count v < many_exports) (nodes (w_env w)))
    (Hmany : Z.of_nat (List.length vols) < many_exports) (Hfree : free exportCountsLock w) :
  exists w1 moves, run (node_recovery cs (S cfuel) ip) w = (Done tt, w1) /\
    w_spawned w1 = w_spawned w ++ moves /\ List.length moves = List.length vols /\
    forall order, order ≡ₚ moves ->
      exists w2, run (in_turn order) w1 = (Done tt, w2) /\
        (forall v, v ∈ vols -> exists new,
           shared_end_to_end (lo_id v) ({[service_address cs (slice_ip (lo_slice v))]} ∪ lo_stale v)
             (Some (new, lo_clients v)) (w_env w2)) /\
        nodes_ok addresses room (nodes (w_env w2)).
Proof.
  destruct (run_node_recovery cs cfuel ip vols room w) as (w1 & moves & E & Hsp & Hlen & Hall); [done..|].
  exists w1, moves. do 3 (split; [done|]). intros order Ho.
  destruct (Hall order Ho) as (w2 & E2 & Hm & _ & _ & _ & _ & _ & Hok2). exists w2. split; [done|]. split; [|done].
  intros v Hv. destruct (Hm v Hv) as (sel & new & ip' & _ & Hs). exists new. by apply serves_end_to_end.
Qed.
End Whole.

(** ** Two nodes *)

Definition demo_wire : Wire :=
  {| wire_error := fun e => Errorf ("rpc error: code = Unknown desc = " +:+ err_text e);
     wire_broken := Errorf "rpc error: code = Unavailable"; wire_context := Background |}.

Section Example.
#[local] Existing Instance ascii_tables.
#[local] Existing Instance demo_globals.
#[local] Existing Instance demo_printing.
#[local] Existing Instance demo_wire.
#[local] Existing Instance sim_step.
#[local] Existing Instance host_step.
#[local] Existing Instance host_reliable.
#[local] Existing Instance host_works.

Definition server_1 : string := "10.0.0.1:2050".
Definition server_2 : string := "10.0.0.2:2050".
Definition service_at (address : string) : CsiNfsService := demo_service.
#[local] Instance demo_net : Env (net sim (gset string)) := whole_step service_at 0.
#[local] Instance demo_net_store : KubeStore (net sim (gset string)) := whole_store service_at 0.
#[local] Instance demo_net_cluster : Cluster (net sim (gset string)) := whole_cluster service_at 0.
#[local] Instance demo_net_servers : NfsServers (net sim (gset string)) :=
  net_servers service_at 0 {[server_1; server_2]} (fun _ => demo_directory_ok).
#[local] Existing Instance sim_relocatable.
#[local] Instance demo_net_relocatable : Relocatable (net sim (gset string)) := net_relocatable service_at 0.

Definition demo_nodes : gmap string (world (gset string)) :=
  {[server_1 := fresh_node; server_2 := fresh_node]}.
Definition net_world : world (net sim (gset string)) :=
  set_var V_nodeIPAddress {["10.0.0.1" := 0%nat; "10.0.0.2" := 1%nat]}
    (set_statuses [online_status "10.0.0.1"; online_status "10.0.0.2"]
       (initial_world "" (Net (Sim ∅ ∅ ∅ ∅) demo_nodes))).

(** The nodes that serve a volume. *)
Definition serving_nodes (n : net sim (gset string)) (id : string) : list string :=
  elements (dom (filter (fun p : string * hold => p.2 = Serving) (exporting (nodes n) id))).

(** What has become of a volume: is there a service, the node of its slice,
    where it is attached, which kernels export it. *)
Definition net_situation (id : string) (n : net sim (gset string)) :
    bool * option string * list string * list string :=
  let name := VolumeIDToServiceName id in
  let x := base n in
  (is_some (sim_services x !! name),
   sl ← sim_slices x !! name; labels ← es_Labels sl; labels !! "nodeID",
   elements (nodes_of (ToArrayVolumeID id) (sim_attached x)),
   serving_nodes n id).

Lemma demo_nodes_ok : nodes_ok {[server_1; server_2]} 1000 demo_nodes.
Proof.
  split; [vm_compute; reflexivity|]. apply map_Forall_insert_2; [exact fresh_node_ok|].
  apply map_Forall_singleton. exact fresh_node_ok.
Qed.

Lemma fresh_node_clear id : node_hold id fresh_node = None.
Proof. apply node_hold_none. split; [done|]. apply not_elem_of_empty. Qed.

Lemma net_world_idle id : serves demo_service id ∅ None (w_env net_world).
Proof.
  do 3 (split; [reflexivity|]). change (dom (exporting demo_nodes id) ⊆ ∅). unfold demo_nodes.
  rewrite exporting_insert, fresh_node_clear, <- insert_empty, exporting_insert, fresh_node_clear. set_solver.
Qed.

Lemma net_usable n : n ∈ ["csi-1"; "csi-2"] ->
  usable demo_service net_world (Shared.Publish n).
Proof.
  intros [->|[->|[]%elem_of_nil]%elem_of_cons]%elem_of_cons;
    [exists "10.0.0.1"|exists "10.0.0.2"]; (split; [|split; [done|split] ]).
  - exists (sim_node "csi-1" "10.0.0.1"), []. split; vm_compute; reflexivity.
  - exists 0%nat, (online_status "10.0.0.1"). repeat split; vm_compute; reflexivity.
  - vm_compute; reflexivity.
  - exists (sim_node "csi-2" "10.0.0.2"), []. split; vm_compute; reflexivity.
  - exists 1%nat, (online_status "10.0.0.2"). repeat split; vm_compute; reflexivity.
  - vm_compute; reflexivity.
Qed.

Lemma sharing_end_to_end_witness :
  exists n address v, run (exec_all demo_service 0 Background "nfs-v1" ∅ sim_ops) net_world =
              (Done [true; true; true], set_env n net_world) /\
    nodes n !! address = Some v /\ node_exports "nfs-v1" v = true.
Proof.
  destruct (sharing_end_to_end service_at 0 {[server_1; server_2]} (fun _ => demo_directory_ok)
              demo_service 0 Background "nfs-v1" ∅ sim_ops None ∅ 997 net_world)
    as (n & Hr & Hs & _).
  - reflexivity.
  - reflexivity.
  - repeat constructor; apply net_usable; repeat constructor.
  - exact demo_nodes_ok.
  - apply net_world_idle.
  - assert (E : List.fold_left (fun s o => Shared.step o s) sim_ops None = Some ("csi-1", {["csi-2"]}))
      by (vm_compute; reflexivity).
    rewrite E in Hs. destruct Hs as (svc & sl & v & _ & _ & _ & _ & _ & _ & Hv & He & _).
    exists n, (service_address demo_service (slice_ip sl)), v. split; [exact Hr|]. split; [exact Hv|exact He].
Defined.

(** [csi-1] serves the volume for both nodes, and fails. *)
Definition net_served : world (net sim (gset string)) :=
  (run (exec_all demo_service 0 Background "nfs-v1" {["Name" := "v1"]}
     [Shared.Publish "csi-1"; Shared.Publish "csi-2"]) net_world).2.
Definition net_slice : EndpointSlice :=
  default empty_slice (sim_slices (base (w_env net_served)) !! "nfs-v1").
Definition net_failed : world (net sim (gset string)) :=
  set_slices [net_slice] (set_var V_exportCounts {["csi-2" := 3%Z]} net_served).

Lemma net_failed_fields :
  w_env net_failed = w_env net_served /\ w_exportCounts net_failed = {["csi-2" := 3%Z]} /\
  has_slice 0 net_slice net_failed.
Proof. unfold net_failed, has_slice. by destruct net_served. Qed.

Lemma net_served_serves :
  serves demo_service "nfs-v1" ∅ (Some ("csi-1", {["csi-1"; "csi-2"]})) (w_env net_served) /\
  nodes_ok {[server_1; server_2]} 998 (nodes (w_env net_served)).
Proof.
  destruct (run_exec_all demo_service 0 Background "nfs-v1" {["Name" := "v1"]}
    [Shared.Publish "csi-1"; Shared.Publish "csi-2"] None ∅ 998 net_world)
    as (x & Hr & Hx & _ & Hok).
  - reflexivity.
  - reflexivity.
  - repeat constructor; apply net_usable; repeat constructor.
  - exact demo_nodes_ok.
  - apply net_world_idle.
  - unfold net_served. rewrite Hr. cbn [snd]. rewrite w_env_set_env. split; [|exact Hok].
    replace (Some ("csi-1", {["csi-1"; "csi-2"]} : gset string))
      with (List.fold_left (fun s o => Shared.step o s) [Shared.Publish "csi-1"; Shared.Publish "csi-2"] None);
      [exact Hx|]. vm_compute. reflexivity.
Qed.

Lemma net_slice_describes :
  describes net_slice "nfs-v1" (w_env net_served).
Proof.
  assert (Hsome : forall o : gomap, is_some o = true -> o <> None) by by intros [].
  do 3 (split; [vm_compute; reflexivity|]). apply Hsome. vm_compute. reflexivity.
Qed.

Lemma net_ready : ready_node demo_service "csi-2" "csi-2" "10.0.0.2".
Proof.
  exists (sim_node "csi-2" "10.0.0.2"), []. do 2 (split; [vm_compute; reflexivity|]).
  split; [discriminate|]. split; [vm_compute; reflexivity|]. split; [vm_compute; reflexivity|discriminate].
Qed.

Lemma move_end_to_end_witness :
  exists new w' address v, run (reassignVolume demo_service 1 0) net_failed = (Done None, w') /\
    attached_to "nfs-v1" (base (w_env w')) = {[new]} /\
    nodes (w_env w') !! address = Some v /\ node_exports "nfs-v1" v = true.
Proof.
  destruct net_failed_fields as (Henv & Hcounts & Hsl). destruct net_served_serves as [Hs Hok].
  destruct (move_end_to_end service_at 0 {[server_1; server_2]} (fun _ => demo_directory_ok)
              demo_service 0 0 net_slice "nfs-v1" "csi-1" {["csi-1"; "csi-2"]} ∅ 997 net_failed)
    as (sel & new & w' & Hr & _ & Hs' & _).
  - exact Hsl.
  - rewrite Henv. exact net_slice_describes.
  - rewrite Henv. by apply serves_placed.
  - rewrite Henv. exact Hok.
  - reflexivity.
  - vm_compute. reflexivity.
  - vm_compute. reflexivity.
  - rewrite Hcounts. split; [by intros E%(f_equal (fun m : gmap string Z => m !! "csi-2"))|].
    intros n c Hn. apply lookup_singleton_Some in Hn as [<- <-]. split; [done|].
    exists "csi-2", "10.0.0.2". exact net_ready.
  - destruct Hs' as (svc & sl & v & _ & _ & _ & _ & _ & Hat & Hv & He & _).
    exists new, w', (service_address demo_service (slice_ip sl)), v.
    split; [exact Hr|]. split; [exact Hat|]. split; [exact Hv|exact He].
Defined.

(** [csi-1] serves two volumes, and the monitor finds that it is down. *)
Definition net_served_2 : world (net sim (gset string)) :=
  (run (exec_all demo_service 0 Background "nfs-v2" {["Name" := "v2"]} ops_2)
    (run (exec_all demo_service 0 Background "nfs-v1" {["Name" := "v1"]} ops_1) net_world).2).2.
Definition net_down : world (net sim (gset string)) :=
  set_statuses [node_status "csi-1" "10.0.0.1" true; node_status "csi-2" "10.0.0.2" false] net_served_2.
Definition net_lost (id : string) (clients : gset string) : lost :=
  Lost (default empty_slice (sim_slices (base (w_env net_served_2)) !! id)) id "csi-1" clients ∅.
Definition net_volumes : list lost := [net_lost "nfs-v1" {["csi-1"; "csi-2"]}; net_lost "nfs-v2" {["csi-1"]}].

Lemma net_two_served :
  exists n, net_served_2 = set_env n net_world /\
    serves demo_service "nfs-v1" ∅ (Some ("csi-1", {["csi-1"; "csi-2"]})) n /\
    serves demo_service "nfs-v2" ∅ (Some ("csi-1", {["csi-1"]})) n /\
    nodes_ok {[server_1; server_2]} 997 (nodes n).
Proof.
  destruct (run_two_volumes demo_service 0 Background "nfs-v1" "nfs-v2" {["Name" := "v1"]} {["Name" := "v2"]}
              ops_1 ops_2 None None ∅ 997 net_world) as (n & E & H1 & H2 & Hok).
  1-2: reflexivity.
  1-2: split; [|split]; vm_compute; congruence.
  1-2: reflexivity.
  - repeat constructor; apply net_usable; repeat constructor.
  - repeat constructor; apply net_usable; repeat constructor.
  - exact demo_nodes_ok.
  - apply net_world_idle.
  - apply net_world_idle.
  - exists n. split; [exact E|]. rewrite <- ops_1_state. split; [exact H1|]. split; [exact H2|exact Hok].
Qed.

Lemma net_down_env : w_env net_down = w_env net_served_2.
Proof. unfold net_down. by destruct net_served_2. Qed.

Lemma net_down_monitored : monitored_ok demo_service net_down.
Proof.
  assert (Hmap : w_nodeIPAddress net_down = {["10.0.0.1" := 0%nat; "10.0.0.2" := 1%nat]}).
  { unfold net_down. destruct net_two_served as (x & -> & _). reflexivity. }
  assert (Hst : w_statuses net_down = [node_status "csi-1" "10.0.0.1" true; node_status "csi-2" "10.0.0.2" false])
    by (unfold net_down; by destruct net_served_2).
  split; rewrite ?Hmap.
  - intros ip p [ [_ <-]|[_ [_ <-]%lookup_singleton_Some] ]%lookup_insert_Some; unfold has_status; rewrite Hst; eauto.
  - intros ip p st [ [_ <-]|[_ [_ <-]%lookup_singleton_Some] ]%lookup_insert_Some; unfold has_status; rewrite Hst;
      intros [= <-] Hr; [discriminate Hr|]. exists "csi-2", "10.0.0.2". exact net_ready.
  - exists "10.0.0.2", 1%nat, (node_status "csi-2" "10.0.0.2" false).
    unfold has_status. rewrite Hst. do 3 (split; [reflexivity|]). vm_compute. reflexivity.
Qed.

Lemma net_volumes_stand : Forall (fun v => stands demo_service v (w_env net_down) /\
  IsNFSVolumeID (lo_id v) = true /\ w_PVLock net_down !! lost_lock v = None) net_volumes.
Proof.
  rewrite net_down_env. destruct net_two_served as (n & E & H1 & H2 & _).
  rewrite <- (w_env_set_env n net_world), <- E in H1, H2.
  assert (Hsome : forall o : gomap, is_some o = true -> o <> None) by by intros [].
  constructor; [|constructor; [|constructor] ]; (split; [split|split; vm_compute; reflexivity]);
    [|apply serves_placed; exact H1| |apply serves_placed; exact H2];
    (do 3 (split; [vm_compute; reflexivity|]); apply Hsome; vm_compute; reflexivity).
Qed.

Lemma net_volumes_listed :
  labelled "nodeIP" "10.0.0.1" (slices (w_env net_down)) ≡ₚ lo_slice <$> net_volumes.
Proof. rewrite net_down_env. vm_compute. reflexivity. Qed.

Lemma net_volumes_apart : all_apart net_volumes.
Proof.
  split; [apply (bool_decide_eq_true_1 _); vm_compute; reflexivity|].
  intros v v' [->|[->|[]%elem_of_nil]%elem_of_cons]%elem_of_cons [->|[->|[]%elem_of_nil]%elem_of_cons]%elem_of_cons Hne;
    try (by destruct Hne); (split; [|split]; vm_compute; congruence).
Qed.

Lemma net_few : map_Forall (fun _ v => line_count v < many_exports) (nodes (w_env net_down)).
Proof.
  rewrite net_down_env. apply (bool_decide_eq_true_1 _). vm_compute. reflexivity.
Qed.
Lemma recovery_end_to_end_witness :
  exists w1 moves w2, run (node_recovery demo_service 1 "10.0.0.1") net_down = (Done tt, w1) /\
    List.length moves = 2%nat /\ run (in_turn (List.rev moves)) w1 = (Done tt, w2) /\
    forall v, v ∈ net_volumes ->
      exists address h, nodes (w_env w2) !! address = Some h /\ node_exports (lo_id v) h = true.
Proof.
  destruct net_two_served as (n & E & _ & _ & Hok).
  destruct (recovery_end_to_end service_at 0 {[server_1; server_2]} (fun _ => demo_directory_ok) demo_service
              0 "10.0.0.1" net_volumes 995 net_down) as (w1 & moves & Hr & _ & Hlen & Hall).
  - exact net_volumes_listed.
  - exact net_volumes_apart.
  - exact net_volumes_stand.
  - exact net_down_monitored.
  - rewrite net_down_env, E, w_env_set_env. exact Hok.
  - exact net_few.
  - reflexivity.
  - unfold free, net_down. rewrite E. reflexivity.
  - destruct (Hall (List.rev moves)) as (w2 & Hr2 & Hm & _); [symmetry; apply Permutation_rev|].
    exists w1, moves, w2. split; [exact Hr|]. split; [exact Hlen|]. split; [exact Hr2|].
    intros v Hv. destruct (Hm v Hv) as (new & svc & sl & h & _ & _ & _ & _ & _ & _ & Hh & He & _).
    exists (service_address demo_service (slice_ip sl)), h. split; [exact Hh|exact He].
Defined.

(** unpublishing a volume cuts off the clients of the volumes whose names
    extend its own: [UnexportNfsVolume] hands [DeleteExport] the path of the
    volume without the slash that ends it in the file.  Two volumes are
    published on the same node; when the last client of the first one has
    gone, every call has succeeded, the second one is still attached and
    served by the node as service and slice say, and the kernel of the node
    does not export it. *)
Theorem unpublish_cuts_off_siblings :
  let publish id := exec_all demo_service 0 Background id ∅ [Shared.Publish "csi-1"] in
  let '(_, w1) := run (publish "nfs-v1") net_world in
  let '(_, w2) := run (publish "nfs-v12") w1 in
  let '(r, w3) := run (exec_all demo_service 0 Background "nfs-v1" ∅ [Shared.Unpublish "csi-1"]) w2 in
  r = Done [true] /\
  net_situation "nfs-v12" (w_env w2) = (true, Some "csi-1", ["csi-1"], [server_1]) /\
  net_situation "nfs-v12" (w_env w3) = (true, Some "csi-1", ["csi-1"], []).
Proof. vm_compute. repeat split; reflexivity. Qed.

(** A volume of the failed node is moved while another node, which serves
    nothing, fails as well: do all goroutines end, what is the count of the
    node that took the volume, which kernels export it. *)
Definition overlapping_recoveries : system (net sim (gset string)) :=
  System [recover_volume demo_service 1 0; node_recovery demo_service 1 "10.0.0.9"]
    (set_slices [lo_slice (net_lost "nfs-v1" {["csi-1"; "csi-2"]})]
       (set_var V_exportCounts {["csi-2" := 0%Z]} net_down)).
Definition count_after (schedule : list nat) : bool * option Z * list string :=
  let s := run_fair (fun _ => true) schedule overlapping_recoveries in
  (forallb Reassign.finished (threads s), w_exportCounts (shared s) !! "csi-2",
   serving_nodes (w_env (shared s)) "nfs-v1").
Definition move_alone : list nat := List.concat (replicate 60 [0; 2]%nat).

(** [nodeRecovery] replaces the counts without [exportCountsLock]: one after
    the other, in both orders, the move and the recovery leave the node with
    the count of the volume that it took; when the recovery assigns counts
    that it has asked for before the move, the reservation is lost, and the
    next volume is sent to the same node. *)
Theorem nodeRecovery_loses_reservation :
  count_after (move_alone ++ replicate 60 1%nat) = (true, Some 1, [server_2]) /\
  count_after (replicate 60 1%nat ++ move_alone) = (true, Some 1, [server_2]) /\
  count_after (replicate 11 1%nat ++ move_alone ++ replicate 60 1%nat) = (true, Some 0, [server_2]).
Proof. split; [|split]; vm_compute; reflexivity. Qed.
End Example.
