(* ===== verification/Outage.v ===== *)
(** * An outage from the first failed ping to the first answer

    [NodeMonitor.v] says when recovery starts, [Failover.v] and [Federation.v]
    what it does, [NodeDump.v] what a node drops when it comes back.  Here the
    parts run one after the other, on the nodes' own handlers: a node cannot be
    reached, the pinger notices and starts recovery, recovery moves the volumes
    of the node, the node comes back with what it exported before (or with
    other volumes) and is pinged.  At the end every volume has one exporter
    again. *)

From S2P Require Import Prelude GoStrings Messages GoProg Naming Exports Json Config K8s NfsServer NodeHost NodeMonitor NodeDump Controller Sharing NodeService NodeRecovery Reassign Failover Federation.

(** The net without a node, and with a node that is (back) there. *)
Definition cut {X Y} (a : string) (n : net X Y) : net X Y := Net (base n) (delete a (nodes n)).
Definition back {X Y} (a : string) (v : world Y) (n : net X Y) : net X Y := Net (base n) (<[a := v]> (nodes n)).

(** The whole of a pinger's turn, twice. *)
Definition two_rounds `{Recovery} (cs : CsiNfsService) (p : nat) : prog unit :=
  _ ← pinger_round cs p; pinger_round cs p.

Section Outage.
Context `{UnicodeTables} `{Globals} `{Printing} `{Wire}.
Context (node_service : string -> CsiNfsService) (fuel : nat) (addresses : gset string).
Context (Hdir : forall a, directory_ok (node_service a) = true) (Hplain : plain_directory = true).
Context {X Y : Type} `{EX : Env X} `{EY : Env Y}.
Context `{!KubeStore X} `{!Cluster X} `{!Relocatable X} `{!ReliableFiles Y} `{!Host Y}.
Context (cs : CsiNfsService) (cfuel : nat).
#[local] Instance outage_step : Env (net X Y) := whole_step node_service fuel.
#[local] Instance outage_store : KubeStore (net X Y) := whole_store node_service fuel.
#[local] Instance outage_cluster : Cluster (net X Y) := whole_cluster node_service fuel.
#[local] Instance outage_servers : NfsServers (net X Y) := net_servers node_service fuel addresses Hdir.
#[local] Instance outage_relocatable : Relocatable (net X Y) := net_relocatable node_service fuel.
#[local] Instance outage_countings : Countings (net X Y) := net_countings node_service fuel addresses Hdir.
#[local] Instance outage_recovery : Recovery := recovery cs (S cfuel).
Implicit Types w : world (net X Y).
Implicit Types n : net X Y.

(** ** The ping of a node that comes back *)

(** The volume has a Service that names the volume of the host driver. *)
Definition annotated (id : string) n : Prop :=
  is_Some (services (base n) !! VolumeIDToServiceName id ≫= fun svc => svc_Annotations svc ≫= lookup "driverVolumeID").

(** A node that may come back: it works, its file lists different volumes, and
    it has mounted no other. *)
Record returning (a : string) (ids : list string) (room : nat) (v : world Y) : Prop := {
  re_sound : node_sound (List.length ids + room) v;
  re_file : w_exports v = unlines (export_line (node_service a) <$> ids);
  re_nfs : Forall (fun id => IsNFSVolumeID id = true) ids;
  re_nodup : NoDup (VolumeIDToServiceName <$> ids);
  re_mounts id : staging_path id ∈ mounted (w_env v) -> kernel_exports id v = true;
}.

Definition services_of (x : X) (name : string) : option Service := services x !! name.

Lemma api_of_base (x : X) : api_serves (H1 := node_step (Y := Y) x) (services_of x).
Proof.
  intros name y. unfold env_step, node_step. destruct (get_service name x) as (x' & -> & _). cbn [fst].
  unfold services_of. destruct (services x !! name); cbn [found]; [done|]. by eexists.
Qed.

(** The annotation of a Service names the volume that has the Service. *)
Definition matching n : Prop := annotations_match (services_of (base n)).

Lemma matching_same n n' : services n' = services n -> matching n -> matching n'.
Proof. intros E. change (services (base n') = services (base n)) in E. unfold matching, services_of. by rewrite E. Qed.

Lemma ping_at (x : X) a req ids room (v : world Y) :
  ping_DumpAllExports req = true -> annotations_match (services_of x) -> returning a ids room v ->
  exists v', run (H := node_step x) (Ping req) v = (Done (Some {| pong_Ready := true; pong_Status := "" |}, None), v') /\
    node_sound room v' /\
    forall id, is_Some (services x !! VolumeIDToServiceName id ≫= fun svc => svc_Annotations svc ≫= lookup "driverVolumeID") ->
      clear_of id v'.
Proof.
  intros Hd Hmatch [Hs Hf Hn Hnd Hmo]. apply (node_sound_at x) in Hs.
  destruct (run_Ping_dump (ReliableFiles0 := node_reliable x) (Host0 := node_host x) (node_service a) (services_of x) (Hdir a) Hplain
              (api_of_base x) Hmatch req ids room v Hd Hs Hf Hn Hnd) as (v' & E & Hv' & Hafter).
  exists v'. split; [exact E|]. split; [exact (proj1 (node_sound_at x room v') Hv')|]. intros id [d Hid].
  destruct (dumped_gone (Host0 := node_host x) (node_service a) (services_of x) (Hdir a) id ids _ v v' Hs Hf Hafter)
    as [Hk Hm]; [unfold dumped, services_of; by rewrite Hid|]. split; [exact Hk|]. apply Hm, Hmo.
Qed.

(** ** The turns of the pinger *)

Hypothesis Hbroken : local_trouble wire_broken = false.

Lemma same_view_other {B} (e : extE B) n :
  store_call e = false -> moves_volume e = false -> same_view n (env_step e n).2.
Proof.
  intros Hs [Hm1 Hm2]%orb_false_iff. destruct (store_frame B e n Hs) as [Hv Hl].
  split; [exact Hv|]. split; [exact Hl|]. split; [by apply c_frame|by apply s_frame].
Qed.

Lemma new_client address n : exists n', env_step (NewClient address) n = (None, n') /\ same_view n n'.
Proof.
  pose proof (c_client address n) as E. pose proof (same_view_other (NewClient address) n eq_refl eq_refl) as Hv.
  destruct (env_step (NewClient address) n) as [o n']. cbn [fst snd] in *. subst o. eauto.
Qed.

(** Nobody is there. *)
Lemma round_down p st w :
  free monitorMux w -> has_status p st w -> nodes (w_env w) !! service_address cs (ns_nodeIP st) = None ->
  exists n, run (pinger_round cs p) w = (Done tt, set_env n (observed p st Monitored.Down w)) /\ same_view (w_env w) n.
Proof.
  intros Hf Hs Hno. destruct (new_client (service_address cs (ns_nodeIP st)) (w_env w)) as (n1 & E1 & Hv1).
  assert (Hno1 : nodes n1 !! service_address cs (ns_nodeIP st) = None).
  { destruct Hv1 as (_ & _ & _ & Hv1). change (nodes n1 = nodes (w_env w)) in Hv1. by rewrite Hv1. }
  eexists. split.
  - rewrite (run_pinger_round_answer cs p st (inr wire_broken) n1 n1 w Hf Hs E1).
    + cbn [observe]. by rewrite Hbroken.
    + unfold env_step, outage_step, whole_step, net_step, call_node. unfold service_address in Hno1. by rewrite Hno1.
    + done.
  - etrans; [exact Hv1|]. by apply same_view_other.
Qed.

(** The node is back, and drops what was moved away. *)
Lemma round_up p st ids room v w :
  free monitorMux w -> has_status p st w -> ns_dumpingExports st = true ->
  nodes (w_env w) !! service_address cs (ns_nodeIP st) = Some v ->
  returning (service_address cs (ns_nodeIP st)) ids room v -> matching (w_env w) ->
  exists n v', run (pinger_round cs p) w = (Done tt, set_env n (observed p st (Monitored.Up "") w)) /\
    same_view (back (service_address cs (ns_nodeIP st)) v' (w_env w)) n /\ node_sound room v' /\
    forall id, annotated id n -> clear_of id v'.
Proof.
  intros Hf Hs Hd Hv Hr Hmatch. set (a := service_address cs (ns_nodeIP st)) in *.
  destruct (new_client a (w_env w)) as (n1 & E1 & Hv1).
  assert (Hn1 : nodes n1 = nodes (w_env w)) by apply Hv1.
  set (req := {| ping_NodeIpAddress := ns_nodeIP st; ping_DumpAllExports := ns_dumpingExports st |}).
  destruct (ping_at (base n1) a req ids room v) as (v' & Er & Hv' & Hgone);
    [done|exact (matching_same _ _ (proj1 Hv1) Hmatch)|done|].
  set (n2 := Net (base n1) (<[a := v']> (nodes n1))).
  assert (E2 : env_step (RpcPing a req) n1 = (inl {| pong_Ready := true; pong_Status := "" |}, n2)).
  { apply (call_node_done _ _ n1 v); [by rewrite Hn1|exact Er]. }
  assert (Hv2 : same_view (back a v' (w_env w)) n2).
  { destruct Hv1 as (A & B & C & D). split; [exact A|]. split; [exact B|]. split; [exact C|]. cbn. by rewrite Hn1. }
  eexists _, v'. split; [|split; [|split; [done|] ] ].
  - rewrite (run_pinger_round_answer cs p st _ n1 n2 w Hf Hs E1 E2); [done|by intros resp [= <-] ].
  - etrans; [exact Hv2|]. by apply same_view_other.
  - intros id Hid. apply Hgone. unfold annotated in Hid.
    destruct (same_view_other (Sleep (w_pingRate w)) n2 eq_refl eq_refl) as (A & _).
    change (services (base (env_step (Sleep (w_pingRate w)) n2).2) = services (base n1)) in A. by rewrite <- A.
Qed.

(** *** Two pings that fail *)

Lemma observed_fields p st o n w :
  has_status p st w ->
  let w' := set_env n (observed p st o w) in
  has_status p (next_status o st).1 w' /\
  (forall q, q <> p -> w_statuses w' !! q = w_statuses w !! q) /\
  w_spawned w' = w_spawned w ++ (if (next_status o st).2 then [nodeRecovery (ns_nodeIP st)] else []) /\
  w_held w' = w_held w /\ w_PVLock w' = w_PVLock w /\ w_nodeIPAddress w' = w_nodeIPAddress w.
Proof.
  intros Hs w'. split.
  { unfold w', observed. assert (E : forall u : world (net X Y), has_status p (next_status o st).1 u ->
      has_status p (next_status o st).1 (set_env n u)) by by intros [].
    apply E. eapply has_set_status. destruct w. exact Hs. }
  split; [|by destruct w]. intros q Hq. unfold w', observed, set_status. destruct w. cbn. by rewrite list_lookup_insert_ne.
Qed.

(** The status through an outage: the last ping was answered, two are not, the
    next one is. *)
Lemma outage_status name ip h m st :
  Z.of_nat (List.length h) < 2 ^ 62 -> status_of name ip (h ++ [Monitored.Up m]) st ->
  let st1 := (next_status Monitored.Down st).1 in
  let st2 := (next_status Monitored.Down st1).1 in
  (next_status Monitored.Down st).2 = false /\ (next_status Monitored.Down st1).2 = true /\
  ns_nodeIP st = ip /\ ns_nodeIP st1 = ip /\ ns_nodeIP st2 = ip /\
  ns_inRecovery st2 = true /\ ns_dumpingExports st2 = true.
Proof.
  intros Hlen Hst. cbv zeta. set (h0 := h ++ [Monitored.Up m]) in *.
  assert (Hl0 : List.length h0 = S (List.length h)) by (unfold h0; rewrite length_app; cbn; lia).
  destruct (next_status_correct name ip h0 Monitored.Down st) as [Hst1 E1]; [unfold max_int64; lia|done|].
  destruct (next_status_correct name ip (h0 ++ [Monitored.Down]) Monitored.Down (next_status Monitored.Down st).1)
    as [Hst2 E2]; [rewrite length_app; cbn; unfold max_int64; lia|done|].
  destruct Hst2 as (_ & Hip2 & _ & _ & _ & Hr & Hd).
  rewrite E1, E2, Hip2, Hr, Hd. unfold Monitored.starts_recovery, Monitored.down_streak, h0, maxBadPing.
  rewrite !counted_app. cbn. pose proof (streak_bounds false (Monitored.counted h)).
  split; [done|]. split; [done|]. split; [apply Hst|]. split; [apply Hst1|done].
Qed.

Lemma run_two_rounds p name ip h m st w :
  Z.of_nat (List.length h) < 2 ^ 62 -> status_of name ip (h ++ [Monitored.Up m]) st ->
  free monitorMux w -> has_status p st w -> nodes (w_env w) !! service_address cs ip = None ->
  exists st' w', run (two_rounds cs p) w = (Done tt, w') /\
    w_spawned w' = w_spawned w ++ [nodeRecovery ip] /\ same_view (w_env w) (w_env w') /\
    has_status p st' w' /\ ns_inRecovery st' = true /\ ns_dumpingExports st' = true /\ ns_nodeIP st' = ip /\
    (forall q, q <> p -> w_statuses w' !! q = w_statuses w !! q) /\
    w_held w' = w_held w /\ w_PVLock w' = w_PVLock w /\ w_nodeIPAddress w' = w_nodeIPAddress w.
Proof.
  intros Hlen Hst Hf Hs Hno. destruct (outage_status name ip h m st Hlen Hst) as (E1 & E2 & I0 & I1 & I2 & Hr & Hd).
  unfold two_rounds. rewrite run_bind.
  destruct (round_down p st w) as (n1 & -> & Hv1); [done|done|by rewrite I0|]. cbv beta iota.
  destruct (observed_fields p st Monitored.Down n1 w Hs) as (Hs1 & Hq1 & Hsp1 & Hh1 & Hp1 & Hm1).
  set (w1 := set_env n1 (observed p st Monitored.Down w)) in *.
  assert (Hn1 : w_env w1 = n1) by apply w_env_set_env.
  destruct (round_down p (next_status Monitored.Down st).1 w1) as (n2 & -> & Hv2).
  { unfold free. by rewrite Hh1. }
  { done. }
  { rewrite I1, Hn1. destruct Hv1 as (_ & _ & _ & E). change (nodes n1 = nodes (w_env w)) in E. by rewrite E. }
  destruct (observed_fields p _ Monitored.Down n2 w1 Hs1) as (Hs2 & Hq2 & Hsp2 & Hh2 & Hp2 & Hm2).
  do 2 eexists. split; [reflexivity|]. rewrite w_env_set_env, Hsp2, Hsp1, E1, E2, I1, app_nil_r. split; [done|].
  split; [rewrite Hn1 in Hv2; by etrans|]. split; [exact Hs2|]. do 3 (split; [done|]).
  split; [intros q Hq; by rewrite Hq2, Hq1|]. split_and!; congruence.
Qed.

(** *** Recovery without the node *)

(** The monitor knows every node, and what the failed one is not needed for. *)
Record others_ready (p : nat) w : Prop := {
  or_status ip q : w_nodeIPAddress w !! ip = Some q -> exists st, has_status q st w;
  or_ready ip q st : w_nodeIPAddress w !! ip = Some q -> q <> p -> has_status q st w -> ns_inRecovery st = false ->
    exists new ip', ready_node cs (ns_nodeName st) new ip';
  or_answers : exists ip q st, w_nodeIPAddress w !! ip = Some q /\ q <> p /\ has_status q st w /\
    ns_inRecovery st = false /\ service_address cs (ns_nodeIP st) ∈ addresses;
}.

Lemma others_monitored p st w w' :
  others_ready p w -> has_status p st w' -> ns_inRecovery st = true ->
  (forall q, q <> p -> w_statuses w' !! q = w_statuses w !! q) -> w_nodeIPAddress w' = w_nodeIPAddress w ->
  monitored_ok cs w'.
Proof.
  intros [Hst Hready Hans] Hp Hr Hq Hm. split; unfold has_status in *; rewrite ?Hm.
  - intros ip q Hip. destruct (decide (q = p)) as [->|Hne]; [eauto|]. rewrite Hq by done. by apply (Hst ip).
  - intros ip q st' Hip Hs Hr'. destruct (decide (q = p)) as [->|Hne]; [congruence|].
    rewrite Hq in Hs by done. by eapply Hready.
  - destruct Hans as (ip & q & st' & Hip & Hne & Hs & Hr' & Ha). exists ip, q, st'. by rewrite Hq.
Qed.

Lemma exporting_cut a id n : dom (exporting (nodes (cut a n)) id) ⊆ dom (exporting (nodes n) id).
Proof.
  intros b. rewrite !elem_of_dom, !lookup_exporting. cbn [cut nodes]. intros [h Hh].
  destruct (delete a (nodes n) !! b) as [v|] eqn:Hv; [|done]. apply lookup_delete_Some in Hv as [_ ->]. eauto.
Qed.

Lemma stands_cut a v n : stands cs v n -> stands cs v (cut a n).
Proof.
  intros [Hd (svc & labels & sl & ip & ep & addrs & eps & Hs)]. split; [exact Hd|].
  exists svc, labels, sl, ip, ep, addrs, eps. destruct_and? Hs. split_and!; try done.
  etrans; [apply exporting_cut|done].
Qed.

Lemma view_same_volume id n n' : same_view n n' -> same_volume id n n'.
Proof. intros (A & B & C & D). unfold same_volume, exporters, attached_to. by rewrite A, B, C, D. Qed.

(** The node is back and does not export the volume. *)
Lemma end_to_end_back a id stale server clients v n n' :
  shared_end_to_end cs id ({[a]} ∪ stale) (Some (server, clients)) n -> nodes n !! a = None ->
  same_view (back a v n) n' -> clear_of id v ->
  shared_end_to_end cs id stale (Some (server, clients)) n'.
Proof.
  intros (svc & sl & u & Hs & Hm & Hc & Hl & Hid & Hat & Hu & He & Ho) Ha (V1 & V2 & V3 & V4) Hv.
  change (services (base n') = services (base n)) in V1. change (slices (base n') = slices (base n)) in V2.
  change (attached (base n') = attached (base n)) in V3. change (nodes n' = <[a := v]> (nodes n)) in V4.
  assert (Hne : a <> service_address cs (slice_ip sl)) by congruence.
  exists svc, sl, u. unfold attached_to in *. rewrite V1, V2, V3, V4, lookup_insert_ne by done. do 8 (split; [done|]).
  intros b u' [ [<- <-]|[Hab Hb] ]%lookup_insert_Some Hbs Hst; [done|].
  apply (Ho b u'); [done|done|]. rewrite elem_of_union, elem_of_singleton. by intros [->|].
Qed.

(** ** The whole outage *)

(** A volume that the node at [ip] served, as recovery will find it. *)
Definition served_at (ip : string) w (v : lost) : Prop :=
  stands cs v (w_env w) /\ IsNFSVolumeID (lo_id v) = true /\ w_PVLock w !! lost_lock v = None /\
  slice_ip (lo_slice v) = ip /\ annotated (lo_id v) (w_env w).

Lemma run_recovery_without a p name ip h m st vols room w :
  let w0 := set_env (cut a (w_env w)) w in
  Z.of_nat (List.length h) < 2 ^ 62 -> status_of name ip (h ++ [Monitored.Up m]) st -> has_status p st w ->
  a = service_address cs ip -> others_ready p w ->
  labelled "nodeIP" ip (slices (w_env w)) ≡ₚ lo_slice <$> vols -> all_apart vols -> Forall (served_at ip w) vols ->
  nodes_ok addresses (List.length vols + room) (delete a (nodes (w_env w))) ->
  map_Forall (fun _ v => line_count v < many_exports) (delete a (nodes (w_env w))) ->
  Z.of_nat (List.length vols) < many_exports -> free monitorMux w -> free exportCountsLock w ->
  exists st' w1 w2 moves, run (two_rounds cs p) w0 = (Done tt, w1) /\
    w_spawned w1 = w_spawned w ++ [nodeRecovery ip] /\
    run (nodeRecovery ip) w1 = (Done tt, w2) /\ w_spawned w2 = w_spawned w1 ++ moves /\
    List.length moves = List.length vols /\
    forall order, order ≡ₚ moves ->
      exists w3, run (in_turn order) w2 = (Done tt, w3) /\
        (forall v, v ∈ vols -> moved_away cs v (w_env w3)) /\
        (forall id, (forall v, v ∈ vols -> apart (lo_id v) id) -> same_volume id (cut a (w_env w)) (w_env w3)) /\
        has_status p st' w3 /\ ns_dumpingExports st' = true /\ ns_nodeIP st' = ip /\
        services (w_env w3) = services (w_env w) /\ w_held w3 = w_held w /\ w_PVLock w3 = w_PVLock w /\
        nodes_ok addresses room (nodes (w_env w3)).
Proof.
  intros w0 Hlen Hst Hs Ha Hothers Hlist Hapart Hvols Hok Hfew Hmany Hmux Hcounts.
  assert (Henv0 : w_env w0 = cut a (w_env w)) by by destruct w.
  destruct (run_two_rounds p name ip h m st w0 Hlen Hst) as
    (st' & w1 & E1 & Hsp1 & Hv1 & Hs1 & Hr1 & Hd1 & Hi1 & Hq1 & Hh1 & Hp1 & Hm1).
  { by destruct w. }
  { by destruct w. }
  { rewrite Henv0, <- Ha. apply lookup_delete_eq. }
  rewrite Henv0 in Hv1.
  assert (Hsl : slices (w_env w1) = slices (w_env w)) by apply Hv1.
  assert (Hnodes : nodes (w_env w1) = delete a (nodes (w_env w))) by apply Hv1.
  destruct (run_node_recovery cs cfuel ip vols room w1) as (w2 & moves & E2 & Hsp2 & Hlen2 & Hall).
  - by rewrite Hsl.
  - done.
  - eapply Forall_impl; [exact Hvols|]. intros v (Hv & Hnfs & Hl & _). split; [|split; [done|rewrite Hp1; by destruct w] ].
    eapply same_stands; [by apply view_same_volume|]. by apply stands_cut.
  - eapply (others_monitored p st' w); [done..| |].
    + intros q Hq. rewrite Hq1 by done. by destruct w.
    + rewrite Hm1. by destruct w.
  - change (nodes_ok addresses (List.length vols + room) (nodes (w_env w1))). by rewrite Hnodes.
  - change (map_Forall (fun _ v => line_count v < many_exports) (nodes (w_env w1))). by rewrite Hnodes.
  - done.
  - unfold free in *. rewrite Hh1. by destruct w.
  - exists st', w1, w2, moves. split; [exact E1|]. split; [rewrite Hsp1; by destruct w|].
    split; [exact E2|]. split; [done|]. split; [done|]. intros order Ho.
    destruct (Hall order Ho) as (w3 & E3 & Hm & He & HP & HL & HT & Hsv & Hok3).
    exists w3. split; [exact E3|]. split; [exact Hm|]. split.
    { intros id Hid. etrans; [by apply view_same_volume|]. by apply He. }
    unfold has_status in *. rewrite HT. do 3 (split; [done|]). split.
    { rewrite Hsv. apply Hv1. }
    split; [rewrite HL, Hh1; by destruct w|]. split; [rewrite HP, Hp1; by destruct w|exact Hok3].
Qed.

(** C2: an outage from its first to its last ping, on the nodes' own handlers.  A
    node that answered the last ping cannot be reached any more; the others
    work, and one of them can be counted.  Two turns of the pinger start
    recovery of the node; recovery starts one goroutine for each volume that
    the slices place there; when these have run, in whatever order, one after
    the other, every volume is mounted and exported by the kernel of another
    node, to which array and slice point, for the clients it had.  Then the
    node comes back, with whatever volumes its kernel still exports, and
    answers the pinger: it is online and not in recovery, and none of the
    volumes is mounted or exported by it: the one exporter is the node that the slice
    names, and everybody else is as before the outage.  Volumes of other nodes
    are not touched by the recovery.  (The goroutines that ask the failed node
    to unexport are not run here; [reassignVolume_late_unexport] says what
    they can do.) *)
Theorem outage_end_to_end (p : nat) (name ip : string) (h : list Monitored.observation) (m : string)
    (st : NodeStatus) (vols : list lost) (room : nat) w
    (Hlen : Z.of_nat (List.length h) < 2 ^ 62)
    (Hst : status_of name ip (h ++ [Monitored.Up m]) st) (Hcell : has_status p st w)
    (Hothers : others_ready p w)
    (Hlist : labelled "nodeIP" ip (slices (w_env w)) ≡ₚ lo_slice <$> vols) (Hapart : all_apart vols)
    (Hvols : Forall (served_at ip w) vols) (Hmatch : matching (w_env w))
    (Hok : nodes_ok addresses (List.length vols + room) (delete (service_address cs ip) (nodes (w_env w))))
    (Hfew : map_Forall (fun _ v => line_count v < many_exports) (delete (service_address cs ip) (nodes (w_env w))))
    (Hmany : Z.of_nat (List.length vols) < many_exports)
    (Hmux : free monitorMux w) (Hcounts : free exportCountsLock w) :
  let a := service_address cs ip in
  exists w1 w2 moves, run (two_rounds cs p) (set_env (cut a (w_env w)) w) = (Done tt, w1) /\
    w_spawned w1 = w_spawned w ++ [nodeRecovery ip] /\
    run (nodeRecovery ip) w1 = (Done tt, w2) /\ w_spawned w2 = w_spawned w1 ++ moves /\
    List.length moves = List.length vols /\
    forall order, order ≡ₚ moves ->
      exists w3, run (in_turn order) w2 = (Done tt, w3) /\
        (forall id, (forall v, v ∈ vols -> apart (lo_id v) id) -> same_volume id (cut a (w_env w)) (w_env w3)) /\
        (forall v, v ∈ vols -> exists new,
           shared_end_to_end cs (lo_id v) ({[a]} ∪ lo_stale v) (Some (new, lo_clients v)) (w_env w3)) /\
        nodes_ok addresses room (nodes (w_env w3)) /\
        forall ids room' u, returning a ids room' u ->
          exists w4 st4, run (pinger_round cs p) (set_env (back a u (w_env w3)) w3) = (Done tt, w4) /\
            has_status p st4 w4 /\ ns_online st4 = true /\ ns_inRecovery st4 = false /\
            forall v, v ∈ vols -> exists new,
              shared_end_to_end cs (lo_id v) (lo_stale v) (Some (new, lo_clients v)) (w_env w4).
Proof.
  intros a. destruct (run_recovery_without a p name ip h m st vols room w)
    as (st' & w1 & w2 & moves & E1 & Hsp1 & E2 & Hsp2 & Hlen2 & Hall); [done..|].
  exists w1, w2, moves. do 5 (split; [done|]). intros order Ho.
  destruct (Hall order Ho) as (w3 & E3 & Hm & He & Hs3 & Hd3 & Hi3 & Hsv & HL & _ & Hok3).
  assert (Hend : forall v, v ∈ vols -> exists new,
    shared_end_to_end cs (lo_id v) ({[a]} ∪ lo_stale v) (Some (new, lo_clients v)) (w_env w3)).
  { intros v Hv. destruct (Hm v Hv) as (sel & new & ip' & _ & Hs). exists new.
    rewrite Forall_forall in Hvols. destruct (Hvols v Hv) as (_ & _ & _ & Hip & _). rewrite Hip in Hs.
    exact (serves_end_to_end _ _ _ _ _ _ _ _ _ Hs). }
  exists w3. do 4 (split; [done|]). intros ids room' u Hu.
  set (w3' := set_env (back a u (w_env w3)) w3).
  assert (Henv : w_env w3' = back a u (w_env w3)) by by destruct w3.
  destruct (round_up p st' ids room' u w3') as (n & u' & E4 & Hv4 & _ & Hgone).
  { unfold free in *. replace (w_held w3') with (w_held w) by (rewrite <- HL; by destruct w3). done. }
  { by destruct w3. }
  { done. }
  { rewrite Hi3, Henv. apply lookup_insert_eq. }
  { by rewrite Hi3. }
  { rewrite Henv. revert Hmatch. apply matching_same. exact Hsv. }
  rewrite Hi3, Henv in Hv4. fold a in Hv4.
  destruct (observed_fields p st' (Monitored.Up "") n w3') as (Hs4 & _); [by destruct w3|].
  eexists _, _. split; [exact E4|]. split; [exact Hs4|]. do 2 (split; [done|]).
  intros v Hv. destruct (Hend v Hv) as [new Hnew]. exists new. rewrite w_env_set_env.
  assert (Hv4' : same_view (back a u' (w_env w3)) n).
  { etrans; [|exact Hv4]. split; [done|]. split; [done|]. split; [done|].
    change (<[a := u']> (<[a := u]> (nodes (w_env w3))) = <[a := u']> (nodes (w_env w3))). by rewrite insert_insert_eq. }
  eapply end_to_end_back; [exact Hnew| |exact Hv4'|].
  - apply not_elem_of_dom. destruct Hok3 as [-> _]. destruct Hok as [<- _]. rewrite dom_delete_L.
    by intros [_ []%not_elem_of_singleton]%elem_of_difference.
  - apply Hgone. rewrite Forall_forall in Hvols. destruct (Hvols v Hv) as (_ & _ & _ & _ & Han).
    unfold annotated in *. destruct Hv4' as (A & _).
    change (services (base n) = services (base (w_env w3))) in A.
    change (services (base (w_env w3)) = services (base (w_env w))) in Hsv. by rewrite A, Hsv.
Qed.
End Outage.

(** ** Two volumes on a node that is cut off and comes back *)

Section Example.
#[local] Existing Instance ascii_tables.
#[local] Existing Instance demo_globals.
#[local] Existing Instance demo_printing.
#[local] Existing Instance demo_wire.
#[local] Existing Instance sim_step.
#[local] Existing Instance host_step.
#[local] Existing Instance host_reliable.
#[local] Existing Instance host_works.
#[local] Existing Instance sim_relocatable.

Definition others : gset string := {[server_1; server_2]} ∖ {[server_1]}.
Definition demo_all_ok (a : string) : directory_ok (service_at a) = true := demo_directory_ok.
#[local] Instance demo_outage : Env (net sim (gset string)) := outage_step service_at 0.
#[local] Instance demo_outage_store : KubeStore (net sim (gset string)) := outage_store service_at 0.
#[local] Instance demo_outage_cluster : Cluster (net sim (gset string)) := outage_cluster service_at 0.
#[local] Instance demo_outage_servers : NfsServers (net sim (gset string)) :=
  outage_servers service_at 0 others demo_all_ok.
#[local] Instance demo_outage_recovery : Recovery := recovery demo_service 1.

Lemma demo_plain : plain_directory = true.
Proof. vm_compute. reflexivity. Qed.
Lemma demo_broken : local_trouble wire_broken = false.
Proof. vm_compute. reflexivity. Qed.

(** [csi-1] serves two volumes and answered the last ping. *)
Definition net_up : world (net sim (gset string)) :=
  set_statuses [node_status "csi-1" "10.0.0.1" false; node_status "csi-2" "10.0.0.2" false] net_served_2.
Definition process_1 : world (gset string) := default fresh_node (nodes (w_env net_served_2) !! server_1).

Lemma net_up_env : w_env net_up = w_env net_served_2.
Proof. unfold net_up. by destruct net_served_2. Qed.

Lemma nodes_ok_delete (all : gset string) a room (t : gmap string (world (gset string))) :
  nodes_ok all room t -> nodes_ok (all ∖ {[a]}) room (delete a t).
Proof. intros [<- Hok]. split; [apply dom_delete_L|by apply map_Forall_delete]. Qed.

Lemma net_served_nodes : nodes_ok {[server_1; server_2]} 997 (nodes (w_env net_served_2)).
Proof. destruct net_two_served as (n & -> & _ & _ & Hok). by rewrite w_env_set_env. Qed.

Lemma process_1_returning : returning service_at server_1 ["nfs-v1"; "nfs-v2"] 0 process_1.
Proof.
  split.
  - apply (node_sound_more 995). unfold process_1. destruct net_served_nodes as [Hdom Hok].
    destruct (nodes (w_env net_served_2) !! server_1) as [v|] eqn:E; [by apply Hok in E as [? _]|].
    exfalso. apply not_elem_of_dom in E. rewrite Hdom in E. apply E, elem_of_union_l, elem_of_singleton_2. done.
  - vm_compute. reflexivity.
  - repeat constructor.
  - apply (bool_decide_eq_true_1 _). vm_compute. reflexivity.
  - intros id Hm. assert (E : mounted (w_env process_1) = {[staging_path "nfs-v1"; staging_path "nfs-v2"]})
      by (vm_compute; reflexivity).
    rewrite E in Hm. assert (Hk : kernel_exports "nfs-v1" process_1 = true /\ kernel_exports "nfs-v2" process_1 = true)
      by (split; vm_compute; reflexivity).
    unfold kernel_exports, entry_directory in *.
    by apply elem_of_union in Hm as [Hm%elem_of_singleton|Hm%elem_of_singleton]; rewrite Hm.
Qed.

Lemma sim_matching (x : sim) :
  forallb (fun p => match svc_Annotations p.2 ≫= lookup "driverVolumeID" with
      | Some v => String.eqb (VolumeIDToServiceName ("nfs-" +:+ v)) p.1 | None => true end)
    (map_to_list (sim_services x)) = true -> annotations_match (services_of x).
Proof.
  intros Hall name svc v Hs Hv. rewrite forallb_forall in Hall. specialize (Hall (name, svc)).
  cbn [fst snd] in Hall. rewrite Hv in Hall. apply String.eqb_eq, Hall, list_elem_of_In, elem_of_map_to_list, Hs.
Qed.

Lemma net_up_matching : matching (w_env net_up).
Proof. rewrite net_up_env. apply sim_matching. vm_compute. reflexivity. Qed.

Lemma net_up_others : others_ready service_at 0 others demo_all_ok demo_service 0 net_up.
Proof.
  assert (Hmap : w_nodeIPAddress net_up = {["10.0.0.1" := 0%nat; "10.0.0.2" := 1%nat]}).
  { unfold net_up. destruct net_two_served as (x & -> & _). reflexivity. }
  assert (Hst : w_statuses net_up = [node_status "csi-1" "10.0.0.1" false; node_status "csi-2" "10.0.0.2" false])
    by (unfold net_up; by destruct net_served_2).
  split; rewrite ?Hmap.
  - intros ip p [ [_ <-]|[_ [_ <-]%lookup_singleton_Some] ]%lookup_insert_Some; unfold has_status; rewrite Hst; eauto.
  - intros ip p st [ [_ <-]|[_ [_ <-]%lookup_singleton_Some] ]%lookup_insert_Some Hp; [by destruct Hp|]; unfold has_status; rewrite Hst;
      intros [= <-] _. exists "csi-2", "10.0.0.2".
    exists (sim_node "csi-2" "10.0.0.2"), []. do 2 (split; [vm_compute; reflexivity|]).
    split; [discriminate|]. split; [vm_compute; reflexivity|]. split; [vm_compute; reflexivity|discriminate].
  - exists "10.0.0.2", 1%nat, (node_status "csi-2" "10.0.0.2" false).
    unfold has_status. rewrite Hst. do 4 (split; [done|]). vm_compute. reflexivity.
Qed.

Lemma net_up_volumes : Forall (served_at service_at 0 others demo_all_ok demo_service "10.0.0.1" net_up) net_volumes.
Proof.
  rewrite List.Forall_forall. intros v Hv.
  pose proof net_volumes_stand as Hst. rewrite List.Forall_forall in Hst. destruct (Hst v Hv) as (Hs & Hnfs & _).
  rewrite net_down_env in Hs. unfold served_at. rewrite net_up_env. split; [exact Hs|]. split; [exact Hnfs|].
  assert (Hsome : forall o : option string, is_some o = true -> is_Some o) by (intros [] ?; [eauto|done]).
  destruct Hv as [<-|[<-|[]]]; (split; [vm_compute; reflexivity|]; split; [vm_compute; reflexivity|];
    apply Hsome; vm_compute; reflexivity).
Qed.

Lemma net_up_listed : labelled "nodeIP" "10.0.0.1" (slices (w_env net_up)) ≡ₚ lo_slice <$> net_volumes.
Proof. rewrite net_up_env. vm_compute. reflexivity. Qed.

Lemma outage_end_to_end_witness :
  exists w1 w2 w3 w4 moves, run (two_rounds demo_service 0) (set_env (cut server_1 (w_env net_up)) net_up) = (Done tt, w1) /\
    run (nodeRecovery "10.0.0.1") w1 = (Done tt, w2) /\ run (in_turn (List.rev moves)) w2 = (Done tt, w3) /\
    run (pinger_round demo_service 0) (set_env (back server_1 process_1 (w_env w3)) w3) = (Done tt, w4) /\
    List.length moves = 2%nat /\
    forall v, v ∈ net_volumes -> exists new, shared_end_to_end demo_service (lo_id v) ∅ (Some (new, lo_clients v)) (w_env w4).
Proof.
  destruct (outage_end_to_end service_at 0 others demo_all_ok demo_plain demo_service 0 demo_broken 0 "csi-1" "10.0.0.1" [] ""
              (node_status "csi-1" "10.0.0.1" false) net_volumes 995 net_up)
    as (w1 & w2 & moves & E1 & _ & E2 & _ & Hlen & Hall).
  - reflexivity.
  - repeat split; reflexivity.
  - unfold net_up. destruct net_served_2. reflexivity.
  - exact net_up_others.
  - exact net_up_listed.
  - exact net_volumes_apart.
  - exact net_up_volumes.
  - exact net_up_matching.
  - rewrite net_up_env. apply (nodes_ok_delete {[server_1; server_2]} server_1 997), net_served_nodes.
  - rewrite net_up_env, <- net_down_env. apply map_Forall_delete, net_few.
  - reflexivity.
  - unfold free, net_up. destruct net_two_served as (n & -> & _). reflexivity.
  - unfold free, net_up. destruct net_two_served as (n & -> & _). reflexivity.
  - destruct (Hall (List.rev moves)) as (w3 & E3 & _ & _ & _ & Hback); [symmetry; apply Permutation_rev|].
    destruct (Hback ["nfs-v1"; "nfs-v2"] 0%nat process_1 process_1_returning) as (w4 & st4 & E4 & _ & _ & _ & Hv).
    exists w1, w2, w3, w4, moves. split; [exact E1|]. split; [exact E2|]. split; [exact E3|]. split; [exact E4|].
    split; [exact Hlen|]. intros v Hin. destruct (Hv v Hin) as [new Hnew].
    exists new. replace (∅ : gset string) with (lo_stale v); [exact Hnew|].
    apply list_elem_of_In in Hin. by destruct Hin as [<-|[<-|[]]].
Defined.
End Example.
