(* ===== verification/Unimplemented.v ===== *)
(** * Handlers without a body ([identity.go], the ends of [controller.go] and [node.go])

    The driver interface has operations that this program does not implement:
    they answer at once with a message whose fields are unset, or with an
    error.  The lemma at the end says that none of them does anything. *)

From S2P Require Import Prelude GoStrings Messages GoProg Config.

(** A message of the named type with no field set. *)
Variant unset (message : string) : Set := Unset.
Arguments Unset {message}.

Definition unimplemented (message : string) : prog (pair_err (option (unset message))) :=
  mret (Some Unset, None).

(** ** Controller *)

Definition DeleteVolume := unimplemented "DeleteVolumeResponse".
Definition ValidateVolumeCapabilities := unimplemented "ValidateVolumeCapabilitiesResponse".
Definition ListVolumes := unimplemented "ListVolumesResponse".
Definition GetCapacity := unimplemented "GetCapacityResponse".
Definition ControllerGetCapabilities := unimplemented "ControllerGetCapabilitiesResponse".
Definition CreateSnapshot := unimplemented "CreateSnapshotResponse".
Definition DeleteSnapshot := unimplemented "DeleteSnapshotResponse".
Definition ListSnapshots := unimplemented "ListSnapshotsResponse".
Definition ControllerExpandVolume := unimplemented "ControllerExpandVolumeResponse".
Definition ControllerGetVolume : prog (pair_err (option (unset "ControllerGetVolumeResponse"))) :=
  mret (None, Some (status_Errorf 400 "Not implemented")).

(** ** Node *)

Definition NodeGetVolumeStats := unimplemented "NodeGetVolumeStatsResponse".
Definition NodeExpandVolume := unimplemented "NodeExpandVolumeResponse".
Definition NodeGetCapabilities := unimplemented "NodeGetCapabilitiesResponse".
Definition NodeGetInfo := unimplemented "NodeGetInfoResponse".
Definition CsiNfsService_MountVolume : prog (pair_err string) := mret ("", None).
Definition CsiNfsService_UnmountVolume : prog (option go_error) :=
  mret (Some (Errorf "nfs UnmountVolume not implemented")).

(** ** The rest of the interface *)

Definition ProcessMapSecretChange : prog (option go_error) := mret None.
Definition RegisterAdditionalServers : prog unit := mret tt.
Definition VolumeIDToArrayID (id : string) : string := "".
Definition deleteNfsClient (ipaddress : string) : prog unit := mret tt.

(** ** Identity *)

Record GetPluginInfoResponse := { plugin_Name : string; plugin_VendorVersion : string }.
Inductive PluginCapability := CONTROLLER_SERVICE.
Record GetPluginCapabilitiesResponse := { plugin_Capabilities : list PluginCapability }.

Definition GetPluginInfo : prog (pair_err (option GetPluginInfoResponse)) :=
  mret (Some {| plugin_Name := "your-plugin-name"; plugin_VendorVersion := "0.1.0" |}, None).
Definition GetPluginCapabilities : prog (pair_err (option GetPluginCapabilitiesResponse)) :=
  mret (Some {| plugin_Capabilities := [CONTROLLER_SERVICE] |}, None).
Definition Probe := unimplemented "ProbeResponse".

(** The answer does not depend on the process and leaves it alone: a volume is
    reported as deleted, a snapshot as created, although nothing happened. *)
Lemma unimplemented_does_nothing {X} `{Env X} message (w : world X) :
  run (unimplemented message) w = (Done (Some Unset, None), w).
Proof. reflexivity. Qed.
